(** * The ceph plugin of collectd (src/ceph.c): a shallow embedding

    The plugin polls the admin sockets of ceph daemons.  This development
    embeds, function by function, the parts of [src/ceph.c] that carry the
    behaviour described in the specification:

    - the name handling of the schema model ([compact_ds_name],
      [parse_keys], [ceph_daemon_add_ds_entry]);
    - the rate engine ([add_last], [update_last], [get_last_avg] and the
      latency branch of [node_handler_fetch_data]);
    - the key-path reducer (the yajl callbacks, [ceph_cb_number] first);
    - the connection state machine ([cconn_connect], [cconn_close],
      [cconn_prepare], [cconn_validate_revents], [cconn_handle_event]);
    - the event loop ([milli_diff], [cconn_main_loop]);
    - the handlers of the replies ([node_handler_parse_fsid],
      [node_handler_fetch_data]) and the processing of the counter data
      ([traverse_json], [cconn_process_data]);
    - the configuration ([cc_handle_str], [cc_handle_bool],
      [cc_parse_cluster_name], [cc_add_daemon_config], [ceph_config]).

    Conventions.  A C string is the list of its characters up to, and
    without, the terminating NUL; a [char] array is the list of its bytes.
    [double] is the kernel's binary64 type, [uint64_t] and [int] are
    integers of [Z] with the wrap-around written where the code can reach
    it.  An operation that the C standard leaves undefined (a write past an
    array, an index outside the key stack) returns [None] or a dedicated
    result, so that definedness is part of what is proved.  System calls
    and the allocator are inputs of the functions that use them. *)

From Stdlib Require Import ZArith Bool Ascii String DecimalString DecimalNat Floats Uint63 Lia List.
Import ListNotations.

Set Implicit Arguments.
Local Open Scope Z_scope.

(** ** Constants of the source and of the system headers *)

(** [#define MAX_RRD_DS_NAME_LEN 20] *)
Definition MAX_RRD_DS_NAME_LEN : nat := 20.
(** [#define RETRY_AVGCOUNT -1] *)
Definition RETRY_AVGCOUNT : Z := -1.
(** [#define CEPH_TIMEOUT_INTERVAL 1] *)
Definition CEPH_TIMEOUT_INTERVAL : Z := 1.
(** [#define FSID_STRING_LEN 37] *)
Definition FSID_STRING_LEN : nat := 37.
(** [#define CEPH_CB_CONTINUE 1] and [#define CEPH_CB_ABORT 0] *)
Definition CEPH_CB_CONTINUE : Z := 1.
Definition CEPH_CB_ABORT : Z := 0.

(** [enum perfcounter_type_d] *)
Definition PERFCOUNTER_LATENCY : Z := 4.
Definition PERFCOUNTER_DERIVE : Z := 8.

(** The error numbers of <errno.h> (their values on Linux; the proofs use
    only that they are positive and pairwise distinct). *)
Module Errno.
Definition EINTR : Z := 4.
Definition EIO : Z := 5.
Definition ENOMEM : Z := 12.
Definition EINVAL : Z := 22.
Definition EDOM : Z := 33.
Definition ENAMETOOLONG : Z := 36.
Definition ENOTSUP : Z := 95.
Definition ETIMEDOUT : Z := 110.
End Errno.
Import Errno.

(** The event bits of <poll.h>. *)
Definition POLLIN : Z := 1.
Definition POLLOUT : Z := 4.
Definition POLLERR : Z := 8.

(** [INT_MAX] and [INT_MIN] of <limits.h> for a 32-bit [int]. *)
Definition INT_MAX : Z := 2147483647.
Definition INT_MIN : Z := -2147483648.

(** ** C strings and character arrays *)

Definition cstring := list ascii.

Definition NUL : ascii := Ascii.zero.

(** A string literal of the source. *)
Definition lit (s : string) : cstring := list_ascii_of_string s.

(** The C string held by an array: its bytes before the first NUL (or all
    of them when there is none: the model never reads past the array). *)
Fixpoint c_str (buf : list ascii) : cstring :=
  match buf with
  | [] => []
  | c :: rest => if Ascii.eqb c NUL then [] else c :: c_str rest
  end.

Definition strlen (buf : list ascii) : nat := length (c_str buf).

(** [strcmp(a, b) == 0] on two C strings. *)
Fixpoint streq (a b : cstring) : bool :=
  match a, b with
  | [], [] => true
  | x :: a', y :: b' => Ascii.eqb x y && streq a' b'
  | _, _ => false
  end.

(** [strncmp(a, b, n) == 0]: the first [n] characters agree (a string that
    ends earlier agrees only with one that ends at the same place). *)
Definition strneq (a b : cstring) (n : nat) : bool :=
  streq (firstn n a) (firstn n b).

(** [strchr(s, c) - s] and [strrchr(s, c) - s]: the offset of the first and
    of the last occurrence of [c], [None] for a NULL result. *)
Fixpoint strchr (s : cstring) (c : ascii) : option nat :=
  match s with
  | [] => None
  | x :: rest =>
      if Ascii.eqb x c then Some 0%nat
      else match strchr rest c with
           | Some i => Some (S i)
           | None => None
           end
  end.

Fixpoint strrchr (s : cstring) (c : ascii) : option nat :=
  match s with
  | [] => None
  | x :: rest =>
      match strrchr rest c with
      | Some i => Some (S i)
      | None => if Ascii.eqb x c then Some 0%nat else None
      end
  end.

(** [strncpy(dst, src, n)] into a zeroed array that has room for [n + 1]
    bytes leaves the first [n] characters of [src] as a C string. *)
Definition strncpy (src : cstring) (n : nat) : cstring := firstn n src.

(** [toupper] in the C locale. *)
Definition toupper (c : ascii) : ascii :=
  let n := nat_of_ascii c in
  if ((97 <=? n) && (n <=? 122))%nat then ascii_of_nat (n - 32) else c.

(** The tokens [strtok_r] returns on successive calls: the maximal runs of
    characters that are not delimiters.  [cur] is the token being read, in
    reverse. *)
Fixpoint strtok_r (delim : ascii -> bool) (s : cstring) (cur : cstring)
  : list cstring :=
  match s with
  | [] => match cur with [] => [] | _ => [rev cur] end
  | c :: rest =>
      if delim c then
        match cur with
        | [] => strtok_r delim rest []
        | _ => rev cur :: strtok_r delim rest []
        end
      else strtok_r delim rest (c :: cur)
  end.

(** The conversion ["%zu"] and ["%d"] of a number that is not negative. *)
Definition decimal (n : nat) : cstring :=
  list_ascii_of_string (NilZero.string_of_uint (Nat.to_uint n)).

(** A zeroed array of [n] bytes ([memset(a, 0, n)]). *)
Definition zeroed (n : nat) : list ascii := repeat NUL n.

(** [memcpy(buf + off, bytes, length bytes)]; [None] when the copy would
    run past the end of [buf]. *)
Definition buf_write (buf : list ascii) (off : nat) (bytes : list ascii)
  : option (list ascii) :=
  if (off + length bytes <=? length buf)%nat
  then Some (firstn off buf ++ bytes ++ skipn (off + length bytes) buf)
  else None.

(** [strncpy(buf, src, n)] into any array: the first [n] characters of
    [src], then NUL up to [n] bytes. *)
Definition strncpy_into (buf : list ascii) (src : cstring) (n : nat)
  : option (list ascii) :=
  buf_write buf 0 (firstn n src ++ zeroed (n - length (firstn n src))).

(** [snprintf(buf, size, "%s", s)]: at most [size - 1] characters of [s]
    and a NUL; nothing at all when [size] is 0. *)
Definition snprintf_s (buf : list ascii) (size : nat) (s : cstring)
  : option (list ascii) :=
  match size with
  | O => Some buf
  | S n => buf_write buf 0 (firstn n s ++ [NUL])
  end.

(** ** The names of the schema model *)

Section Names.

(** [DATA_MAX_NAME_LEN] is defined in collectd's [plugin.h], which is not
    part of the sources at hand: it is a parameter of the development. *)
Variable DATA_MAX_NAME_LEN : nat.

Definition is_name_delim (c : ascii) : bool :=
  Ascii.eqb c ":" || Ascii.eqb c "_" || Ascii.eqb c "-" || Ascii.eqb c "+".

(** The loop of [compact_ds_name] over [strtok_r(tmp_ptr, ":_-+", ...)]:
    every token has its first character capitalised, and the loop stops
    after sixteen tokens. *)
Definition capitalize (tok : cstring) : cstring :=
  match tok with
  | [] => []
  | c :: rest => toupper c :: rest
  end.

Definition compact_keys (src : cstring) : list cstring :=
  firstn 16 (map capitalize (strtok_r is_name_delim src [])).

(** [compact_ds_name(source, dest)].  [source] and [dest] are the arrays the
    caller passes; the result is [dest] after the call, [None] when a write
    leaves [tmp] or [dest].  (The function also overwrites [source], which
    its only caller does not read again.) *)
Definition compact_ds_name (source dest : list ascii) : option (list ascii) :=
  let src := c_str source in
  match src with
  | [] => Some dest
  | _ :: _ =>
      if negb (Ascii.eqb (hd NUL dest) NUL) then Some dest
      else
        let src_len := length src in
        (* snprintf(len_str, sizeof(len_str), "%zu", src_len) *)
        let len_str := firstn 2 (decimal src_len) ++ [NUL] in
        let last := nth (src_len - 1) src NUL in
        let append_status :=
          Z.lor (if Ascii.eqb last "-" then 1 else 0)
                (if Ascii.eqb last "+" then 2 else 0) in
        let cat := concat (compact_keys src) in
        (* strcat(tmp, keys[i]) into char tmp[DATA_MAX_NAME_LEN] *)
        if (DATA_MAX_NAME_LEN <=? length cat)%nat then None
        else
          (* tmp[DATA_MAX_NAME_LEN - 1] = '\0' *)
          let tmp := firstn (DATA_MAX_NAME_LEN - 1) cat in
          let too_long := (MAX_RRD_DS_NAME_LEN - 1 <? length tmp)%nat in
          let append_status :=
            if too_long then Z.lor append_status 4 else append_status in
          let reserved :=
            ((if too_long then 2 else 0)
             + (if Z.testbit append_status 0 then 5 else 0)
             + (if Z.testbit append_status 1 then 4 else 0))%nat in
          match snprintf_s dest (MAX_RRD_DS_NAME_LEN - reserved) tmp with
          | None => None
          | Some dest1 =>
              let offset := strlen dest1 in
              match append_status with
              | 1 => buf_write dest1 offset (lit "Minus")
              | 2 => buf_write dest1 offset (lit "Plus" ++ [NUL])
              | 4 => buf_write dest1 offset (firstn 2 len_str)
              | 5 =>
                  match buf_write dest1 offset (lit "Minus") with
                  | None => None
                  | Some dest2 =>
                      buf_write dest2 (offset + 5) (firstn 2 len_str)
                  end
              | 6 =>
                  match buf_write dest1 offset (lit "Plus") with
                  | None => None
                  | Some dest2 =>
                      buf_write dest2 (offset + 4) (firstn 2 len_str)
                  end
              | _ => Some dest1
              end
          end
  end.

(** The part of [parse_keys] before the label [compact]: the contents of
    [dset_name] and of [tmp_ds_name] when both arrays were zeroed. *)
Definition split_key (key_str : cstring) : cstring * cstring :=
  match strchr key_str ".", strrchr key_str "." with
  | Some ptr, Some rptr =>
      let dset_name_len :=
        if (DATA_MAX_NAME_LEN - 1 <? ptr)%nat
        then (DATA_MAX_NAME_LEN - 1)%nat else ptr in
      let dset_name := firstn dset_name_len key_str in
      let ds_name_len :=
        if (DATA_MAX_NAME_LEN <? rptr - ptr)%nat
        then DATA_MAX_NAME_LEN else (rptr - ptr)%nat in
      let last_key := skipn (rptr + 1) key_str in
      let rest := skipn (ptr + 1) key_str in
      if (ds_name_len =? 0)%nat then
        (* only have two keys *)
        if strneq last_key (lit "type") 4
        then (dset_name, strncpy dset_name (DATA_MAX_NAME_LEN - 1))
        else (dset_name, strncpy last_key (DATA_MAX_NAME_LEN - 1))
      else if strneq last_key (lit "type") 4
      then (dset_name, firstn (ds_name_len - 1) rest)
      else (dset_name, strncpy rest (DATA_MAX_NAME_LEN - 1))
  | _, _ =>
      (strncpy key_str (DATA_MAX_NAME_LEN - 1),
       strncpy key_str (DATA_MAX_NAME_LEN - 1))
  end.

(** [parse_keys(key_str, dset_name, ds_name)].  [dset_name] is an array of
    [DATA_MAX_NAME_LEN] bytes and [ds_name] one of [MAX_RRD_DS_NAME_LEN]
    bytes.  The result is the return value with both arrays after the call;
    [None] when a write leaves an array.  [tmp_ds_name] is the zeroed local
    array the short name is written to before it is mangled.  Both callers
    pass arrays cleared by [memset]; on such arrays the text [split_key]
    gives for [tmp_ds_name] is the text the call leaves there (the branch
    that copies [dset_name] back reads the array just written). *)
Definition parse_keys (key_str : cstring) (dset_name ds_name : list ascii)
  : option (Z * list ascii * list ascii) :=
  let key := c_str key_str in
  match key with
  | [] => Some (-1, dset_name, ds_name)
  | _ :: _ =>
      if negb (Ascii.eqb (hd NUL dset_name) NUL)
         || negb (Ascii.eqb (hd NUL ds_name) NUL)
      then Some (-1, dset_name, ds_name)
      else
        let '(dset, tmp) := split_key key in
        let dset_written :=
          match strchr key "." with
          | Some _ => buf_write dset_name 0 dset          (* memcpy *)
          | None => strncpy_into dset_name key (DATA_MAX_NAME_LEN - 1)
          end in
        match dset_written,
              buf_write (zeroed DATA_MAX_NAME_LEN) 0 tmp with
        | Some dset_name', Some tmp_ds_name =>
            match compact_ds_name tmp_ds_name ds_name with
            | Some ds_name' => Some (0, dset_name', ds_name')
            | None => None
            end
        | _, _ => None
        end
  end.

End Names.

(** ** The rate engine *)

(** The conversion of a [uint64_t] to [double] (round to nearest even).
    Both halves of the number are binary64 numbers, and so is the high half
    scaled by 2^32: their sum is rounded once, as the conversion is. *)
Definition double_of_uint64 (z : Z) : float :=
  (PrimFloat.of_uint63 (Uint63.of_Z (z / 2 ^ 32)) * 0x1p+32
   + PrimFloat.of_uint63 (Uint63.of_Z (z mod 2 ^ 32)))%float.

(** The conversion of a small [int] (an error code) to [double]. *)
Definition double_of_int (z : Z) : float :=
  if z <? 0 then (- double_of_uint64 (- z))%float else double_of_uint64 z.

(** The literal [-1.1] of [get_last_avg]: the binary64 number nearest to
    1.1, negated. *)
Definition minus_1_1 : float := (- 0x1.199999999999ap+0)%float.

(** [(uint64_t) x] *)
Definition wrap64 (z : Z) : Z := z mod 2 ^ 64.

(** [struct last_data] *)
Record last_data := mk_last_data {
  dset_name : cstring;
  ds_name : cstring;
  last_sum : float;
  last_count : Z
}.

(** The two arrays the engine works on .. the globals [last_poll_data] and
    [last_idx] .. are the list of the entries in use. *)
Definition last_poll_data_t := list last_data.

Section RateEngine.

Variable DATA_MAX_NAME_LEN : nat.

(** [sstrncpy(dest, src, n)] is a helper of collectd's [common.c], which is
    not part of the sources at hand; it is taken by its contract there:
    [strncpy] followed by [dest[n - 1] = '\0']. *)
Definition sstrncpy (src : cstring) (n : nat) : cstring := firstn (n - 1) src.

Definition same_key (e : last_data) (dset_n ds_n : cstring) : bool :=
  streq (dset_name e) dset_n && streq (ds_name e) ds_n.

(** [add_last(dset_n, ds_n, cur_sum, cur_count)]; [malloc_ok] tells whether
    its [malloc] succeeds. *)
Definition add_last (malloc_ok : bool) (tbl : last_poll_data_t)
    (dset_n ds_n : cstring) (cur_sum : float) (cur_count : Z)
  : Z * last_poll_data_t :=
  if malloc_ok then
    (0, tbl ++ [ {| dset_name := sstrncpy dset_n DATA_MAX_NAME_LEN;
                    ds_name := sstrncpy ds_n MAX_RRD_DS_NAME_LEN;
                    last_sum := cur_sum;
                    last_count := cur_count |} ])
  else (- ENOMEM, tbl).

(** The [for] loop of [update_last]: the first entry of the key is
    overwritten; [None] when the loop ends without finding one. *)
Fixpoint update_first (tbl : last_poll_data_t) (dset_n ds_n : cstring)
    (cur_sum : float) (cur_count : Z) : option last_poll_data_t :=
  match tbl with
  | [] => None
  | e :: rest =>
      if same_key e dset_n ds_n then
        Some ({| dset_name := dset_name e; ds_name := ds_name e;
                 last_sum := cur_sum; last_count := cur_count |} :: rest)
      else
        match update_first rest dset_n ds_n cur_sum cur_count with
        | Some rest' => Some (e :: rest')
        | None => None
        end
  end.

(** [update_last(dset_n, ds_n, cur_sum, cur_count)]; [alloc_ok] tells
    whether the allocator serves the calls of this update (the [malloc] or
    [realloc] of the table, then the [malloc] of [add_last]). *)
Definition update_last (alloc_ok : bool) (tbl : last_poll_data_t)
    (dset_n ds_n : cstring) (cur_sum : float) (cur_count : Z)
  : Z * last_poll_data_t :=
  match update_first tbl dset_n ds_n cur_sum cur_count with
  | Some tbl' => (0, tbl')
  | None =>
      if alloc_ok then add_last alloc_ok tbl dset_n ds_n cur_sum cur_count
      else (- ENOMEM, tbl)
  end.

(** The entry the [for] loop of [get_last_avg] stops at. *)
Fixpoint find_last (tbl : last_poll_data_t) (dset_n ds_n : cstring)
  : option last_data :=
  match tbl with
  | [] => None
  | e :: rest =>
      if same_key e dset_n ds_n then Some e else find_last rest dset_n ds_n
  end.

(** [count_delt = (cur_count - last_poll_data[i]->last_count)] *)
Definition count_delt (e : last_data) (cur_count : Z) : Z :=
  wrap64 (cur_count - last_count e).

(** [get_last_avg(dset_n, ds_n, cur_sum, cur_count)]: the value returned
    and the table after the call. *)
Definition get_last_avg (alloc_ok : bool) (tbl : last_poll_data_t)
    (dset_n ds_n : cstring) (cur_sum : float) (cur_count : Z)
  : float * last_poll_data_t :=
  let result :=
    match find_last tbl dset_n ds_n with
    | Some e =>
        if cur_count <? last_count e then minus_1_1
        else
          let sum_delt := (cur_sum - last_sum e)%float in
          (sum_delt / double_of_uint64 (count_delt e cur_count))%float
    | None => minus_1_1
    end in
  let result := if PrimFloat.eqb result minus_1_1 then nan else result in
  let '(ret, tbl') := update_last alloc_ok tbl dset_n ds_n cur_sum cur_count in
  if ret =? - ENOMEM then (double_of_int (- ENOMEM), tbl') else (result, tbl').

(** What the two [sscanf] calls of [node_handler_fetch_data] read from the
    text of a value: [val] as ["%" PRIu64] and as ["%lf"]. *)
Record scanned := mk_scanned { scan_u64 : Z; scan_double : float }.

(** [vtmp->avgcount = -1] *)
Definition avgcount_unset : Z := wrap64 (-1).

(** The divisor of the long-run average, [vtmp->avgcount] after the test
    [if(vtmp->avgcount == 0) vtmp->avgcount = 1]. *)
Definition guarded_avgcount (avgcount : Z) : Z :=
  if avgcount =? 0 then 1 else avgcount.

(** The branch of [node_handler_fetch_data] for a counter with the bit
    [PERFCOUNTER_LATENCY]: the return value, [vtmp->avgcount] after the
    call, the value stored in [uv->gauge] if any, and the table. *)
Definition fetch_latency (long_run_latency_avg alloc_ok : bool)
    (tbl : last_poll_data_t) (dset_n ds_n : cstring)
    (avgcount : Z) (val : scanned)
  : Z * Z * option float * last_poll_data_t :=
  if avgcount =? avgcount_unset then
    (0, wrap64 (scan_u64 val), None, tbl)
  else
    let sum := scan_double val in
    let avgcount := guarded_avgcount avgcount in
    if long_run_latency_avg then
      let result := (sum / double_of_uint64 avgcount)%float in
      (0, avgcount_unset, Some result, tbl)
    else
      let '(result, tbl') :=
        get_last_avg alloc_ok tbl dset_n ds_n sum avgcount in
      if PrimFloat.eqb result (double_of_int (- ENOMEM))
      then (- ENOMEM, avgcount, None, tbl')
      else (0, avgcount_unset, Some result, tbl').

End RateEngine.

(** ** The schema model *)

(** The data source types of collectd's [plugin.h] ([DS_TYPE_COUNTER] 0,
    [DS_TYPE_GAUGE] 1, [DS_TYPE_DERIVE] 2, [DS_TYPE_ABSOLUTE] 3). *)
Inductive ds_type_t :=
  | DS_TYPE_COUNTER
  | DS_TYPE_GAUGE
  | DS_TYPE_DERIVE
  | DS_TYPE_ABSOLUTE.

(** [struct data_source_s] of [plugin.h] *)
Record data_source_s := mk_data_source {
  dsrc_name : cstring;
  dsrc_type : ds_type_t;
  dsrc_min : float;
  dsrc_max : float
}.

(** [struct data_set_s] of [plugin.h]; [ds_num] is the length of [ds]. *)
Record data_set_s := mk_data_set {
  dset_type : cstring;
  dset_ds : list data_source_s
}.

(** [struct ceph_daemon]; [dset_num] is the length of [dset], and
    [pc_types] runs parallel to [dset]. *)
Record ceph_daemon := mk_ceph_daemon {
  d_version : Z;
  d_name : cstring;
  d_fsid : cstring;
  d_cluster : cstring;
  d_asok_path : cstring;
  d_dset : list data_set_s;
  d_pc_types : list (list Z)
}.

Definition set_dset (d : ceph_daemon) (dset : list data_set_s)
    (pc_types : list (list Z)) : ceph_daemon :=
  {| d_version := d_version d; d_name := d_name d; d_fsid := d_fsid d;
     d_cluster := d_cluster d; d_asok_path := d_asok_path d;
     d_dset := dset; d_pc_types := pc_types |}.

Definition set_version (d : ceph_daemon) (v : Z) : ceph_daemon :=
  {| d_version := v; d_name := d_name d; d_fsid := d_fsid d;
     d_cluster := d_cluster d; d_asok_path := d_asok_path d;
     d_dset := d_dset d; d_pc_types := d_pc_types d |}.

(** [a[i] = x] on an array held as a list; nothing changes when [i] is not
    an index of the list (the callers below only write inside). *)
Fixpoint list_upd {A : Type} (l : list A) (i : nat) (x : A) : list A :=
  match l, i with
  | [], _ => []
  | _ :: rest, O => x :: rest
  | y :: rest, S j => y :: list_upd rest j x
  end.

(** The value kinds the data fetch tells apart, in the order of the
    [if / else if / else] of [node_handler_fetch_data]. *)
Inductive value_kind := KindLatency | KindDerive | KindGauge.

Definition classify (pc_type : Z) : value_kind :=
  if negb (Z.land pc_type PERFCOUNTER_LATENCY =? 0) then KindLatency
  else if negb (Z.land pc_type PERFCOUNTER_DERIVE =? 0) then KindDerive
  else KindGauge.

(** [d->pc_types[i][j]] *)
Definition pc_type_at (d : ceph_daemon) (i j : nat) : option Z :=
  match nth_error (d_pc_types d) i with
  | Some row => nth_error row j
  | None => None
  end.

(** [d->dset[i].ds[j]] *)
Definition ds_at (d : ceph_daemon) (i j : nat) : option data_source_s :=
  match nth_error (d_dset d) i with
  | Some set => nth_error (dset_ds set) j
  | None => None
  end.

Definition counter_kind (d : ceph_daemon) (i j : nat) : option value_kind :=
  option_map classify (pc_type_at d i j).

(** [get_matching_dset(d, name)] *)
Fixpoint matching_dset_from (sets : list data_set_s) (name : cstring)
    (idx : Z) : Z :=
  match sets with
  | [] => -1
  | s :: rest =>
      if streq (dset_type s) name then idx
      else matching_dset_from rest name (idx + 1)
  end.

Definition get_matching_dset (d : ceph_daemon) (name : cstring) : Z :=
  matching_dset_from (d_dset d) name 0.

(** [get_matching_value(dset, name, num_values)] *)
Fixpoint matching_value_from (ds : list data_source_s) (name : cstring)
    (num_values : nat) (idx : Z) : Z :=
  match num_values, ds with
  | S n, s :: rest =>
      if streq (dsrc_name s) name then idx
      else matching_value_from rest name n (idx + 1)
  | _, _ => -1
  end.

Definition get_matching_value (dset : data_set_s) (name : cstring)
    (num_values : nat) : Z :=
  matching_value_from (dset_ds dset) name num_values 0.

Section Schema.

Variable DATA_MAX_NAME_LEN : nat.

(** The type bits [ceph_daemon_add_ds_entry] stores: those the daemon
    reported, but 10 for filestore.JournalWrBytes when
    [convert_special_metrics] is set. *)
Definition effective_pc_type (convert_special_metrics : bool)
    (dset_name ds_name : cstring) (pc_type : Z) : Z :=
  if convert_special_metrics
     && streq dset_name (lit "filestore")
     && streq ds_name (lit "JournalWrBytes")
  then 10 else pc_type.

(** The data source that [ceph_daemon_add_ds_entry] fills in. *)
Definition new_data_source (ds_name : cstring) (pc_type : Z) : data_source_s :=
  let type :=
    if negb (Z.land pc_type PERFCOUNTER_DERIVE =? 0)
    then DS_TYPE_DERIVE else DS_TYPE_GAUGE in
  {| dsrc_name := firstn (MAX_RRD_DS_NAME_LEN - 1) ds_name;
     dsrc_type := type;
     dsrc_min := match type with DS_TYPE_DERIVE => 0%float | _ => nan end;
     dsrc_max := nan |}.

(** The answer of a call of [realloc]. *)
Inductive realloc_answer :=
  | ReallocFailed   (* NULL: the block is left as it is *)
  | ReallocKept     (* the block is served and none is freed: the pointer
                       was NULL, or the block has grown where it is *)
  | ReallocMoved.   (* the block is served at another address, and the old
                       block is freed *)

Definition realloc_failed (a : realloc_answer) : bool :=
  match a with ReallocFailed => true | _ => false end.

Definition realloc_moved (a : realloc_answer) : bool :=
  match a with ReallocMoved => true | _ => false end.

(** [ceph_daemon_add_ds_entry(d, name, pc_type)]: the return value and the
    daemon after the call.  [realloc k] is the answer to the [realloc]
    call number [k] of this registration: for a new data set the calls
    for [d->dset], [d->pc_types], [dset->ds] and [pc_types], in this
    order, and for a set that exists the last two.

    The function stores what a [realloc] returned only after the next
    one has succeeded: [d->dset] after the call for [d->pc_types]
    (line 646), and [d->pc_types], [dset->ds] and the row of type bits
    once all calls are served.  When a call fails, the function returns
    -ENOMEM and the sets and sources counted in the daemon are those from
    before the call; but when a call before it has moved a block that is
    not stored yet, the daemon is left with the address of the freed
    block.  Such a daemon is no value of [ceph_daemon], whose arrays are
    lists, and every later use of the array is undefined: the result is
    [None] then.  It is [None] as well when [parse_keys] leaves an array,
    and when [d->pc_types[idx]] is read outside [d->pc_types]. *)
Definition ceph_daemon_add_ds_entry (convert_special_metrics : bool)
    (realloc : nat -> realloc_answer)
    (d : ceph_daemon) (name : cstring) (pc_type : Z)
  : option (Z * ceph_daemon) :=
  if (DATA_MAX_NAME_LEN <? strlen name + 1)%nat then Some (- ENAMETOOLONG, d)
  else
    match parse_keys DATA_MAX_NAME_LEN name
            (zeroed DATA_MAX_NAME_LEN) (zeroed MAX_RRD_DS_NAME_LEN) with
    | None => None
    | Some (ret, dset_buf, ds_buf) =>
        if negb (ret =? 0) then Some (1, d)
        else
          let dset_name := c_str dset_buf in
          let ds_name := c_str ds_buf in
          let idx := get_matching_dset d dset_name in
          let pc_type :=
            effective_pc_type convert_special_metrics
              dset_name ds_name pc_type in
          let ds := new_data_source ds_name pc_type in
          if idx =? -1 then
            (* need to add a dset *)
            if realloc_failed (realloc 0%nat) then Some (- ENOMEM, d)
            else if realloc_failed (realloc 1%nat) then
              (* d->dset is still the block given to the first call *)
              if realloc_moved (realloc 0%nat) then None
              else Some (- ENOMEM, d)
            else if realloc_failed (realloc 2%nat)
                    || realloc_failed (realloc 3%nat) then
              (* d->pc_types is still the block given to the second call *)
              if realloc_moved (realloc 1%nat) then None
              else Some (- ENOMEM, d)
            else
              let dset :=
                {| dset_type := firstn (DATA_MAX_NAME_LEN - 1) dset_name;
                   dset_ds := [ds] |} in
              Some (0, set_dset d (d_dset d ++ [dset])
                                  (d_pc_types d ++ [[pc_type]]))
          else
            let i := Z.to_nat idx in
            match nth_error (d_dset d) i, nth_error (d_pc_types d) i with
            | Some dset, Some pc_types =>
                if realloc_failed (realloc 0%nat) then Some (- ENOMEM, d)
                else if realloc_failed (realloc 1%nat) then
                  (* dset->ds is still the block given to the first call *)
                  if realloc_moved (realloc 0%nat) then None
                  else Some (- ENOMEM, d)
                else
                  let dset' :=
                    {| dset_type := dset_type dset;
                       dset_ds := dset_ds dset ++ [ds] |} in
                  Some (0, set_dset d (list_upd (d_dset d) i dset')
                                      (list_upd (d_pc_types d) i
                                                (pc_types ++ [pc_type])))
            | _, _ => None
            end
    end.

(** [node_handler_define_schema(arg, val, key)], with [atoi(val)] read by
    the caller. *)
Definition node_handler_define_schema (convert_special_metrics : bool)
    (realloc : nat -> realloc_answer)
    (d : ceph_daemon) (pc_type : Z) (key : cstring)
  : option (Z * ceph_daemon) :=
  ceph_daemon_add_ds_entry convert_special_metrics realloc d key pc_type.

End Schema.

(** A daemon as [cc_add_daemon_config] leaves it: no data set yet. *)
Definition new_daemon (name asok_path cluster : cstring) : ceph_daemon :=
  {| d_version := 0; d_name := name; d_fsid := []; d_cluster := cluster;
     d_asok_path := asok_path; d_dset := []; d_pc_types := [] |}.

(** ** The key-path reducer *)

(** What the C standard leaves undefined in the callbacks. *)
Inductive undefined_access :=
  | StackIndex (i : Z)        (* yajl->state[i] with i outside the array *)
  | StateKeyOverflow          (* a key longer than state[].key *)
  | KeyOverflow               (* a path longer than char key[128] *)
  | KeyNotWritten.            (* ssnprintf with size 0 leaves key unwritten *)

(** One element of [yajl_struct.state]. *)
Record key_state := mk_key_state {
  key : cstring;
  key_len : Z
}.

(** The parse events yajl reports, one per callback of [callbacks]. *)
Inductive yajl_event :=
  | ev_null
  | ev_boolean (bool_val : bool)
  | ev_number (number_val : list ascii)
  | ev_string (string_val : list ascii)
  | ev_start_map
  | ev_map_key (key_val : list ascii)
  | ev_end_map
  | ev_start_array
  | ev_end_array.

Section Reducer.

Variable DATA_MAX_NAME_LEN : nat.
(** [YAJL_MAX_DEPTH] comes from yajl's headers. *)
Variable YAJL_MAX_DEPTH : nat.
(** [convert_special_metrics], a global the configuration sets. *)
Variable convert_special_metrics : bool.

(** What [handler_arg] points to, and the handler ([node_handler_t]):
    [handler(arg, val, key)] returns a code and leaves [arg] changed. *)
Variable H : Type.
Variable handler : H -> cstring -> cstring -> Z * H.

(** [struct yajl_struct]; the handler is the section's. *)
Record yajl_struct := mk_yajl {
  handler_arg : H;
  state : list key_state;
  depth : Z
}.

(** The result of a callback: its return value and the struct after the
    call, or an undefined access. *)
Inductive cb_result :=
  | CbReturn (ret : Z) (yajl : yajl_struct)
  | CbUndefined (u : undefined_access).

Definition with_depth (y : yajl_struct) (dp : Z) : yajl_struct :=
  {| handler_arg := handler_arg y; state := state y; depth := dp |}.

(** [yajl->state[i]] *)
Definition state_at (y : yajl_struct) (i : Z) : option key_state :=
  if (0 <=? i) && (i <? Z.of_nat YAJL_MAX_DEPTH)
  then nth_error (state y) (Z.to_nat i) else None.

(** [strncat(key, ".", 1); strncat(key, s, n)] with [n] more than the
    length of [s], into [char key[128]]. *)
Definition key_append (k s : cstring) : option cstring :=
  let k' := k ++ lit "." ++ s in
  if (128 <=? length k')%nat then None else Some k'.

(** How the [for] loop of [ceph_cb_number] ends. *)
Inductive path_result :=
  | PathSkip                                     (* return from the special case *)
  | PathBuilt (k : cstring) (latency_type : bool) (* the loop is left *)
  | PathUndefined (u : undefined_access).

(** The [for] loop of [ceph_cb_number] from index [i] on, with [k] the
    contents of [key]; [fuel] bounds the iterations left. *)
Fixpoint number_path (fuel : nat) (y : yajl_struct) (i : Z) (k : cstring)
  : path_result :=
  match fuel with
  | O => PathBuilt k false
  | S fuel' =>
      if i <? depth y then
        match state_at y i with
        | None => PathUndefined (StackIndex i)
        | Some si =>
            if (i =? depth y - 1)
               && (streq (c_str (key si)) (lit "avgcount")
                   || streq (c_str (key si)) (lit "sum"))
            then
              if convert_special_metrics then
                match state_at y (i - 1) with
                | None => PathUndefined (StackIndex (i - 1))
                | Some sp =>
                    if streq (c_str (key sp)) (lit "journal_wr_bytes") then
                      match state_at y (i - 2) with
                      | None => PathUndefined (StackIndex (i - 2))
                      | Some spp =>
                          if streq (c_str (key spp)) (lit "filestore")
                             && streq (c_str (key si)) (lit "avgcount")
                          then PathSkip
                          else PathBuilt k true
                      end
                    else PathBuilt k true
                end
              else PathBuilt k true
            else
              match key_append k (c_str (key si)) with
              | None => PathUndefined KeyOverflow
              | Some k' => number_path fuel' y (i + 1) k'
              end
        end
      else PathBuilt k false
  end.

(** [ssnprintf(key, yajl->state[0].key_len, "%s", yajl->state[0].key)] *)
Definition first_key (y : yajl_struct) : cstring + undefined_access :=
  match state_at y 0 with
  | None => inr (StackIndex 0)
  | Some s0 =>
      if key_len s0 <=? 0 then inr KeyNotWritten
      else
        let k := firstn (Z.to_nat (key_len s0 - 1)) (c_str (key s0)) in
        if (128 <=? length k)%nat then inr KeyOverflow else inl k
  end.

(** [ceph_cb_number(ctx, number_val, number_len)]; [number_val] holds the
    [number_len] bytes. *)
Definition ceph_cb_number (y : yajl_struct) (number_val : list ascii)
  : cb_result :=
  let buffer := c_str number_val in
  match first_key y with
  | inr u => CbUndefined u
  | inl k0 =>
      match number_path (Z.to_nat (depth y)) y 1 k0 with
      | PathUndefined u => CbUndefined u
      | PathSkip => CbReturn CEPH_CB_CONTINUE (with_depth y (depth y - 1))
      | PathBuilt k latency_type =>
          let '(result, arg1) := handler (handler_arg y) buffer k in
          let retried :=
            if (result =? RETRY_AVGCOUNT) && latency_type then
              match state_at y (depth y - 1) with
              | None => inr (StackIndex (depth y - 1))
              | Some sl =>
                  match key_append k (c_str (key sl)) with
                  | None => inr KeyOverflow
                  | Some k' => inl (handler arg1 buffer k')
                  end
              end
            else inl (result, arg1) in
          match retried with
          | inr u => CbUndefined u
          | inl (result, arg2) =>
              let y' := {| handler_arg := arg2; state := state y;
                           depth := depth y |} in
              if result =? - ENOMEM then CbReturn CEPH_CB_ABORT y'
              else CbReturn CEPH_CB_CONTINUE (with_depth y' (depth y - 1))
          end
      end
  end.

(** [ceph_cb_string(ctx, string_val, string_len)] *)
Definition ceph_cb_string (y : yajl_struct) (string_val : list ascii)
  : cb_result :=
  let is_fsid :=
    if depth y =? 1 then
      match state_at y 0 with
      | None => inr (StackIndex 0)
      | Some s0 =>
          inl (streq (c_str (key s0)) (lit "fsid")
               && (length string_val =? FSID_STRING_LEN - 1)%nat)
      end
    else inl false in
  match is_fsid with
  | inr u => CbUndefined u
  | inl false =>
      (* this is not FSID - ignore it *)
      CbReturn CEPH_CB_CONTINUE
        (if 0 <? depth y then with_depth y (depth y - 1) else y)
  | inl true =>
      match first_key y with
      | inr u => CbUndefined u
      | inl k =>
          let '(_, arg1) := handler (handler_arg y) (c_str string_val) k in
          CbReturn CEPH_CB_CONTINUE
            {| handler_arg := arg1; state := state y; depth := depth y - 1 |}
      end
  end.

(** [ceph_cb_map_key(ctx, key, string_len)] *)
Definition ceph_cb_map_key (y : yajl_struct) (key_val : list ascii)
  : cb_result :=
  if Z.of_nat YAJL_MAX_DEPTH <=? depth y + 1 then CbReturn CEPH_CB_ABORT y
  else
    let buffer := c_str key_val in
    if depth y <? 0 then CbUndefined (StackIndex (depth y))
    else if (DATA_MAX_NAME_LEN <? length buffer + 1)%nat
    then CbUndefined StateKeyOverflow
    else
      let entry := {| key := buffer;
                      key_len := Z.of_nat (length key_val) + 1 |} in
      CbReturn CEPH_CB_CONTINUE
        {| handler_arg := handler_arg y;
           state := list_upd (state y) (Z.to_nat (depth y)) entry;
           depth := depth y + 1 |}.

(** [ceph_cb_end_map(ctx)] *)
Definition ceph_cb_end_map (y : yajl_struct) : cb_result :=
  CbReturn CEPH_CB_CONTINUE (with_depth y (depth y - 1)).

(** The callback the table [callbacks] gives for an event; the callbacks
    for null, booleans, the start of a map and both ends of an array only
    return [CEPH_CB_CONTINUE]. *)
Definition callback (y : yajl_struct) (ev : yajl_event) : cb_result :=
  match ev with
  | ev_number v => ceph_cb_number y v
  | ev_string v => ceph_cb_string y v
  | ev_map_key k => ceph_cb_map_key y k
  | ev_end_map => ceph_cb_end_map y
  | ev_null | ev_boolean _ | ev_start_map | ev_start_array | ev_end_array =>
      CbReturn CEPH_CB_CONTINUE y
  end.

(** The callbacks yajl makes while it parses a text with the given
    events: it stops at the first callback that does not return
    [CEPH_CB_CONTINUE]. *)
Fixpoint traverse_events (y : yajl_struct) (evs : list yajl_event)
  : cb_result :=
  match evs with
  | [] => CbReturn CEPH_CB_CONTINUE y
  | ev :: rest =>
      match callback y ev with
      | CbUndefined u => CbUndefined u
      | CbReturn ret y' =>
          if ret =? CEPH_CB_CONTINUE then traverse_events y' rest
          else CbReturn ret y'
      end
  end.

(** [io->yajl] when [cconn_process_json] starts a traversal: the array
    zeroed by [cconn_main_loop], depth 0. *)
Definition yajl_start (arg : H) : yajl_struct :=
  {| handler_arg := arg;
     state := repeat {| key := []; key_len := 0 |} YAJL_MAX_DEPTH;
     depth := 0 |}.

End Reducer.

(** *** Handlers that record their calls *)

(** A handler that keeps, next to its own argument, the list of the calls
    it received, oldest first: [(val, key)] for each. *)
Definition call_log := list (cstring * cstring).

Definition recording (H : Type) (handler : H -> cstring -> cstring -> Z * H)
  : (H * call_log) -> cstring -> cstring -> Z * (H * call_log) :=
  fun arg val k =>
    let '(ret, a') := handler (fst arg) val k in
    (ret, (a', snd arg ++ [(val, k)])).

(** The calls the handler received during a traversal that was defined. *)
Definition calls_of (H : Type) (r : cb_result (H * call_log)) : option call_log :=
  match r with
  | CbReturn _ y => Some (snd (handler_arg y))
  | CbUndefined _ _ => None
  end.

(** The events of the text
    [{"filestore":{"journal_wr_bytes":{"avgcount":7,"sum":42.0}}}]. *)
Definition journal_wr_bytes_events : list yajl_event :=
  [ ev_start_map; ev_map_key (lit "filestore");
    ev_start_map; ev_map_key (lit "journal_wr_bytes");
    ev_start_map; ev_map_key (lit "avgcount"); ev_number (lit "7");
    ev_map_key (lit "sum"); ev_number (lit "42.0");
    ev_end_map; ev_end_map; ev_end_map ].

(** ** Byte order *)

(** The number a sequence of bytes denotes, least significant byte first,
    and the [n] bytes of a number in that order. *)
Fixpoint le_decode (bytes : list ascii) : Z :=
  match bytes with
  | [] => 0
  | b :: rest => Z.of_N (N_of_ascii b) + 256 * le_decode rest
  end.

Fixpoint le_encode (n : nat) (v : Z) : list ascii :=
  match n with
  | O => []
  | S k => ascii_of_N (Z.to_N (v mod 256)) :: le_encode k (v / 256)
  end.

(** Network byte order: most significant byte first. *)
Definition be_decode (bytes : list ascii) : Z := le_decode (rev bytes).
Definition be_encode (n : nat) (v : Z) : list ascii := rev (le_encode n v).

Section ByteOrder.

(** The byte order of the machine the plugin runs on. *)
Variable host_big_endian : bool.

(** The bytes of a [uint32_t] object in memory, and the value of the
    object that has these bytes. *)
Definition host_encode (v : Z) : list ascii :=
  if host_big_endian then be_encode 4 v else le_encode 4 v.

Definition host_decode (bytes : list ascii) : Z :=
  if host_big_endian then be_decode bytes else le_decode bytes.

(** [ntohl(v)]: the number whose bytes in network order are the bytes of
    [v] in memory. *)
Definition ntohl (v : Z) : Z := be_decode (host_encode v).

(** [read(fd, ((char * ) &x) + amt, ...)] storing [bytes] into the
    [uint32_t] object of value [v]: the value of the object afterwards. *)
Definition read_into_uint32 (v : Z) (amt : nat) (bytes : list ascii) : Z :=
  match buf_write (host_encode v) amt bytes with
  | Some mem => host_decode mem
  | None => v
  end.

End ByteOrder.

(** ** The connection state machine *)

(** [enum cstate_t] *)
Inductive cstate_t :=
  | CSTATE_UNCONNECTED
  | CSTATE_WRITE_REQUEST
  | CSTATE_READ_VERSION
  | CSTATE_READ_AMT
  | CSTATE_READ_JSON.

(** [enum request_type_t] *)
Definition ASOK_REQ_VERSION : Z := 0.
Definition ASOK_REQ_DATA : Z := 1.
Definition ASOK_REQ_SCHEMA : Z := 2.
Definition ASOK_REQ_FSID : Z := 3.
Definition ASOK_REQ_NONE : Z := 1000.

(** [struct cconn], without the reducer's [yajl] (see [yajl_start]).  [d]
    is the daemon the connection points to: the loop has one connection
    per daemon, so the daemon is held with its connection.  [json] is
    [None] for a NULL pointer. *)
Record cconn := mk_cconn {
  d : ceph_daemon;
  request_type : Z;
  state_ : cstate_t;
  asok : Z;
  amt : Z;
  json_len : Z;
  json : option (list ascii)
}.

(** What the operating system did to a descriptor. *)
Inductive fd_event :=
  | FdOpened (fd : Z)
  | FdClosed (fd : Z).

(** The answer of the system to [cconn_connect]: [socket] fails, or
    returns [fd] and then [connect] fails, or [fcntl] fails, or all three
    calls succeed.  A failure carries its [errno]. *)
Inductive connect_answer :=
  | SocketFailed (errno : positive)
  | ConnectFailed (fd : Z) (errno : positive)
  | FcntlFailed (fd : Z) (errno : positive)
  | Connected (fd : Z).

(** The answer of the system to the one [read] or [write] of
    [cconn_handle_event], once [RETRY_ON_EINTR] is left: a failure with
    its [errno], or the bytes the call moved. *)
Inductive io_answer :=
  | IoError (errno : positive)
  | IoMoved (bytes : list ascii).

(** The return value of the call, [count] being the size it was given
    (the system moves no more than that). *)
Definition io_moved (a : io_answer) (count : Z) : list ascii :=
  match a with
  | IoError _ => []
  | IoMoved bytes => firstn (Z.to_nat count) bytes
  end.

Definition io_ret (a : io_answer) (count : Z) : Z :=
  match a with
  | IoError e => - Z.pos e
  | IoMoved _ => Z.of_nat (length (io_moved a count))
  end.

(** [(uint32_t) x] and [(int) x] *)
Definition wrap32 (z : Z) : Z := z mod 2 ^ 32.
Definition to_int (z : Z) : Z := (z + 2 ^ 31) mod 2 ^ 32 - 2 ^ 31.

(** The conversion ["%d"]. *)
Definition printf_d (z : Z) : cstring :=
  let i := to_int z in
  if i <? 0 then lit "-" ++ decimal (Z.to_nat (- i)) else decimal (Z.to_nat i).

Definition dquote : ascii := ascii_of_nat 34.

(** [CEPH_ASOK_REQ_PRE], [CEPH_ASOK_REQ_POST] and [CEPH_FSID_REQ] *)
Definition CEPH_ASOK_REQ_PRE : cstring :=
  lit "{ " ++ [dquote] ++ lit "prefix" ++ [dquote] ++ lit ": " ++ [dquote].
Definition CEPH_ASOK_REQ_POST : cstring :=
  [dquote] ++ lit " }" ++ [ascii_of_nat 10].
Definition CEPH_FSID_REQ : cstring :=
  lit "config get" ++ [dquote] ++ lit "," ++ [dquote] ++ lit "var"
  ++ [dquote] ++ lit ": " ++ [dquote] ++ lit "fsid".

(** The request [cconn_handle_event] writes: [snprintf(cmd, sizeof(cmd),
    ...)] with [char cmd[64]]. *)
Definition request_cmd (request_type : Z) : cstring :=
  firstn 63
    (if request_type =? ASOK_REQ_FSID
     then CEPH_ASOK_REQ_PRE ++ CEPH_FSID_REQ ++ CEPH_ASOK_REQ_POST
     else CEPH_ASOK_REQ_PRE ++ printf_d request_type ++ CEPH_ASOK_REQ_POST).

Definition set_io (io : cconn) (st : cstate_t) (fd a : Z) : cconn :=
  {| d := d io; request_type := request_type io; state_ := st; asok := fd;
     amt := a; json_len := json_len io; json := json io |}.

Definition set_request_type (io : cconn) (rt : Z) : cconn :=
  {| d := d io; request_type := rt; state_ := state_ io; asok := asok io;
     amt := amt io; json_len := json_len io; json := json io |}.

Definition set_amt (io : cconn) (a : Z) : cconn :=
  {| d := d io; request_type := request_type io; state_ := state_ io;
     asok := asok io; amt := a; json_len := json_len io; json := json io |}.

(** [cconn_connect(io)]: the return value, the connection after the call
    and the descriptors opened. *)
Definition cconn_connect (io : cconn) (a : connect_answer)
  : Z * cconn * list fd_event :=
  match state_ io with
  | CSTATE_UNCONNECTED =>
      match a with
      | SocketFailed e => (- Z.pos e, io, [])
      | ConnectFailed fd e => (- Z.pos e, io, [FdOpened fd])
      | FcntlFailed fd e => (- Z.pos e, io, [FdOpened fd])
      | Connected fd =>
          (0, {| d := d io; request_type := request_type io;
                 state_ := CSTATE_WRITE_REQUEST; asok := fd; amt := 0;
                 json_len := 0; json := None |}, [FdOpened fd])
      end
  | _ => (- EDOM, io, [])
  end.

(** [cconn_close(io)]: the connection after the call and the descriptor
    given to [close], if any. *)
Definition cconn_close (io : cconn) : cconn * list fd_event :=
  ({| d := d io; request_type := request_type io;
      state_ := CSTATE_UNCONNECTED; asok := -1; amt := 0; json_len := 0;
      json := None |},
   if asok io =? -1 then [] else [FdClosed (asok io)]).

(** [cconn_validate_revents(io, revents)] *)
Definition cconn_validate_revents (io : cconn) (revents : Z) : Z :=
  if negb (Z.land revents POLLERR =? 0) then - EIO
  else
    match state_ io with
    | CSTATE_WRITE_REQUEST =>
        if negb (Z.land revents POLLOUT =? 0) then 0 else - EINVAL
    | CSTATE_READ_VERSION | CSTATE_READ_AMT | CSTATE_READ_JSON =>
        if negb (Z.land revents POLLIN =? 0) then 0 else - EINVAL
    | CSTATE_UNCONNECTED => - EDOM
    end.

Section Connection.

Variable host_big_endian : bool.

(** [cconn_process_json(io)] hands the text to yajl's parser, which is not
    part of the sources at hand; the callbacks it makes are embedded in
    the reducer above.  Here it is a parameter: the return value and the
    connection it leaves. *)
Variable cconn_process_json : cconn -> Z * cconn.

(** [cconn_handle_event(io)]: the return value, the connection after the
    call and the descriptors closed.  [a] is the answer to the [read] or
    [write] of the call, [calloc_ok] tells whether the [calloc] of the
    state [CSTATE_READ_AMT] succeeds. *)
Definition cconn_handle_event (io : cconn) (a : io_answer) (calloc_ok : bool)
  : Z * cconn * list fd_event :=
  match state_ io with
  | CSTATE_UNCONNECTED => (- EDOM, io, [])
  | CSTATE_WRITE_REQUEST =>
      let cmd_len := Z.of_nat (strlen (request_cmd (request_type io))) in
      let ret := io_ret a (wrap64 (cmd_len - amt io)) in
      if ret <? 0 then (ret, io, [])
      else
        let amt' := wrap32 (amt io + ret) in
        if cmd_len <=? amt' then
          (0, set_io io
                (if request_type io =? ASOK_REQ_VERSION
                 then CSTATE_READ_VERSION else CSTATE_READ_AMT)
                (asok io) 0, [])
        else (0, set_amt io amt', [])
  | CSTATE_READ_VERSION =>
      let count := wrap64 (4 - amt io) in
      let ret := io_ret a count in
      if ret <? 0 then (ret, io, [])
      else
        let version :=
          read_into_uint32 host_big_endian (d_version (d io))
            (Z.to_nat (amt io)) (io_moved a count) in
        let amt' := wrap32 (amt io + ret) in
        if 4 <=? amt' then
          let version := ntohl host_big_endian version in
          let io1 :=
            {| d := set_version (d io) version;
               request_type := request_type io; state_ := state_ io;
               asok := asok io; amt := amt'; json_len := json_len io;
               json := json io |} in
          if negb (version =? 1) then (- ENOTSUP, io1, [])
          else
            let '(io2, closed) := cconn_close (set_amt io1 0) in
            (0, set_request_type io2 ASOK_REQ_FSID, closed)
        else
          (0, {| d := set_version (d io) version;
                 request_type := request_type io; state_ := state_ io;
                 asok := asok io; amt := amt'; json_len := json_len io;
                 json := json io |}, [])
  | CSTATE_READ_AMT =>
      let count := wrap64 (4 - amt io) in
      let ret := io_ret a count in
      if ret <? 0 then (ret, io, [])
      else
        let len :=
          read_into_uint32 host_big_endian (json_len io)
            (Z.to_nat (amt io)) (io_moved a count) in
        let amt' := wrap32 (amt io + ret) in
        if 4 <=? amt' then
          let len := ntohl host_big_endian len in
          let io1 :=
            {| d := d io; request_type := request_type io;
               state_ := CSTATE_READ_JSON; asok := asok io; amt := 0;
               json_len := len;
               json := if calloc_ok
                       then Some (zeroed (Z.to_nat (wrap32 (len + 1))))
                       else None |} in
          if calloc_ok then (0, io1, []) else (- ENOMEM, io1, [])
        else
          (0, {| d := d io; request_type := request_type io;
                 state_ := state_ io; asok := asok io; amt := amt';
                 json_len := len; json := json io |}, [])
  | CSTATE_READ_JSON =>
      let count := wrap32 (json_len io - amt io) in
      let ret := io_ret a count in
      if ret <? 0 then (ret, io, [])
      else
        let text :=
          match json io with
          | Some buf =>
              match buf_write buf (Z.to_nat (amt io)) (io_moved a count) with
              | Some buf' => Some buf'
              | None => Some buf
              end
          | None => None
          end in
        let amt' := wrap32 (amt io + ret) in
        let io1 :=
          {| d := d io; request_type := request_type io;
             state_ := state_ io; asok := asok io; amt := amt';
             json_len := json_len io; json := text |} in
        if json_len io <=? amt' then
          let '(ret, io2) := cconn_process_json io1 in
          if negb (ret =? 0) then (ret, io2, [])
          else
            let '(io3, closed) := cconn_close io2 in
            if request_type io3 =? ASOK_REQ_FSID
            then (0, set_request_type (set_amt io3 0) ASOK_REQ_SCHEMA, closed)
            else (0, set_request_type io3 ASOK_REQ_NONE, closed)
        else (0, io1, [])
  end.

(** [cconn_prepare(io, fds)]: the return value, the connection after the
    call, the entry written to [fds] (descriptor and events) when the
    value is 1, and the descriptors opened. *)
Definition cconn_prepare (io : cconn) (a : connect_answer)
  : Z * cconn * (Z * Z) * list fd_event :=
  if request_type io =? ASOK_REQ_NONE then (0, io, (0, 0), [])
  else if (request_type io =? ASOK_REQ_DATA)
          && (Z.of_nat (length (d_dset (d io))) =? 0)
  then (0, io, (0, 0), [])
  else
    match state_ io with
    | CSTATE_UNCONNECTED =>
        let '(ret, io', opened) := cconn_connect io a in
        if 0 <? ret then (- ret, io', (0, 0), opened)
        else if ret <? 0 then (ret, io', (0, 0), opened)
        else (1, io', (asok io', POLLOUT), opened)
    | CSTATE_WRITE_REQUEST => (1, io, (asok io, POLLOUT), [])
    | CSTATE_READ_VERSION | CSTATE_READ_AMT | CSTATE_READ_JSON =>
        (1, io, (asok io, POLLIN), [])
    end.

End Connection.

(** ** The event loop *)

(** [struct timeval] *)
Record timeval := mk_timeval {
  tv_sec : Z;
  tv_usec : Z
}.

(** [milli_diff(t1, t2)].  [sec_diff] and [usec_diff] are [int]: the
    differences of the [time_t] and [suseconds_t] fields are cut to 32
    bits.  The product [sec_diff * 1000] is one of two [int], made before
    it is added to the [int64_t ret]: beyond 2147483 seconds it does not
    fit and wraps around to 32 bits. *)
Definition milli_diff (t1 t2 : timeval) : Z :=
  let sec_diff := to_int (tv_sec t1 - tv_sec t2) in
  let usec_diff := to_int (tv_usec t1 - tv_usec t2) in
  let ret := Z.quot usec_diff 1000 + to_int (sec_diff * 1000) in
  if INT_MAX <? ret then INT_MAX
  else if ret <? INT_MIN then INT_MIN else ret.

(** The answer of [poll] once [RETRY_ON_EINTR] is left: a failure with its
    [errno], or the [revents] of every entry of [fds]. *)
Inductive poll_answer :=
  | PollError (errno : positive)
  | PollReady (revents : nat -> Z).

(** What the system answers during one turn of the [while] loop:
    [w_connect i] to the [cconn_connect] of connection [i], [w_now] to
    [gettimeofday], [w_poll] to [poll]; [w_io k] and [w_calloc k] to the
    system call and the [calloc] of [cconn_handle_event] for entry [k] of
    [fds]. *)
Record world := mk_world {
  w_connect : nat -> connect_answer;
  w_now : timeval;
  w_poll : poll_answer;
  w_io : nat -> io_answer;
  w_calloc : nat -> bool
}.

(** The variables of [cconn_main_loop] that outlive a turn of the loop,
    with the descriptors opened and closed so far. *)
Record loop_state := mk_loop_state {
  io_array : list cconn;
  some_unreachable : bool;
  fd_log : list fd_event
}.

(** A turn of the loop either reaches the end of the body or jumps to
    [done] with a value in [ret]. *)
Inductive turn_result :=
  | TurnNext (st : loop_state)
  | TurnDone (ret : Z) (st : loop_state).

Section EventLoop.

Variable host_big_endian : bool.
Variable cconn_process_json : cconn -> Z * cconn.

(** What the loop does with a connection that failed: [cconn_close(io);
    io->request_type = ASOK_REQ_NONE]. *)
Definition mark_unreachable (io : cconn) : cconn * list fd_event :=
  let '(io', closed) := cconn_close io in
  (set_request_type io' ASOK_REQ_NONE, closed).

(** The first [for] loop of the body, from connection [i] on: the
    connections after it, the connections entered in [polled_io_array] (by
    index), the entries of [fds], whether a connection failed, and the
    descriptors opened and closed. *)
Fixpoint prepare_from (w : world) (i : nat) (ios : list cconn)
  : list cconn * list nat * list (Z * Z) * bool * list fd_event :=
  match ios with
  | [] => ([], [], [], false, [])
  | io :: rest =>
      let '(ret, io', pollfd, opened) := cconn_prepare io (w_connect w i) in
      let '(rest', polled, fds, failed, log) := prepare_from w (S i) rest in
      if ret <? 0 then
        let '(io'', closed) := mark_unreachable io' in
        (io'' :: rest', polled, fds, true, opened ++ closed ++ log)
      else if ret =? 1 then
        (io' :: rest', i :: polled, pollfd :: fds, failed, opened ++ log)
      else (io' :: rest', polled, fds, failed, opened ++ log)
  end.

(** The body of the second [for] loop for one entry of [fds]. *)
Definition handle_polled (io : cconn) (revents : Z) (a : io_answer)
    (calloc_ok : bool) : cconn * bool * list fd_event :=
  if revents =? 0 then (io, false, [])
  else if negb (cconn_validate_revents io revents =? 0) then
    let '(io', closed) := mark_unreachable io in (io', true, closed)
  else
    let '(ret, io1, closed1) :=
      cconn_handle_event host_big_endian cconn_process_json io a calloc_ok in
    if negb (ret =? 0) then
      let '(io2, closed2) := mark_unreachable io1 in (io2, true, closed1 ++ closed2)
    else (io1, false, closed1).

(** The second [for] loop of the body, from entry [k] of [fds] on. *)
Fixpoint handle_from (w : world) (revents : nat -> Z) (k : nat)
    (polled : list nat) (ios : list cconn)
  : list cconn * bool * list fd_event :=
  match polled with
  | [] => (ios, false, [])
  | idx :: rest =>
      match nth_error ios idx with
      | None => handle_from w revents (S k) rest ios
      | Some io =>
          let '(io', failed, log) :=
            handle_polled io (revents k) (w_io w k) (w_calloc w k) in
          let '(ios', failed', log') :=
            handle_from w revents (S k) rest (list_upd ios idx io') in
          (ios', failed || failed', log ++ log')
      end
  end.

(** One turn of [while (1)]. *)
Definition loop_turn (end_tv : timeval) (w : world) (st : loop_state)
  : turn_result :=
  let '(ios, polled, fds, failed, log) := prepare_from w 0 (io_array st) in
  let st1 := {| io_array := ios;
                some_unreachable := some_unreachable st || failed;
                fd_log := fd_log st ++ log |} in
  let nfds := Z.of_nat (length polled) in
  if nfds =? 0 then TurnDone 0 st1
  else
    let diff := milli_diff end_tv (w_now w) in
    if diff <=? 0 then TurnDone (- ETIMEDOUT) st1
    else
      match w_poll w with
      | PollError e => TurnDone (- Z.pos e) st1
      | PollReady revents =>
          let '(ios', failed', log') := handle_from w revents 0 polled ios in
          TurnNext {| io_array := ios';
                      some_unreachable := some_unreachable st1 || failed';
                      fd_log := fd_log st1 ++ log' |}
      end.

(** The code at the label [done]: every connection is closed. *)
Definition close_all (st : loop_state) : loop_state :=
  {| io_array := map (fun io => fst (cconn_close io)) (io_array st);
     some_unreachable := some_unreachable st;
     fd_log := fd_log st ++ flat_map (fun io => snd (cconn_close io))
                                     (io_array st) |}.

(** The [while] loop and the code after it, against the answers of the
    system turn by turn; [None] when the loop is still running after the
    last of them. *)
Fixpoint loop_from (end_tv : timeval) (ws : list world) (st : loop_state)
  : option (Z * loop_state) :=
  match ws with
  | [] => None
  | w :: rest =>
      match loop_turn end_tv w st with
      | TurnDone ret st' => Some (ret, close_all st')
      | TurnNext st' => loop_from end_tv rest st'
      end
  end.

(** [io_array[i]] after the first [for] loop of [cconn_main_loop]: zeroed
    by [memset], then the three assignments. *)
Definition new_cconn (request_type : Z) (daemon : ceph_daemon) : cconn :=
  {| d := daemon; request_type := request_type;
     state_ := CSTATE_UNCONNECTED; asok := 0; amt := 0; json_len := 0;
     json := None |}.

(** [cconn_main_loop(request_type)] over the daemons of [g_daemons]:
    [start] is what the first [gettimeofday] returns. *)
Definition cconn_main_loop (request_type : Z) (g_daemons : list ceph_daemon)
    (start : timeval) (ws : list world) : option (Z * loop_state) :=
  let end_tv := {| tv_sec := tv_sec start + CEPH_TIMEOUT_INTERVAL;
                   tv_usec := tv_usec start |} in
  loop_from end_tv ws
    {| io_array := map (new_cconn request_type) g_daemons;
       some_unreachable := false;
       fd_log := [] |}.

End EventLoop.

(** ** The handler of the cluster id *)

Definition set_fsid (d : ceph_daemon) (fsid : cstring) : ceph_daemon :=
  {| d_version := d_version d; d_name := d_name d; d_fsid := fsid;
     d_cluster := d_cluster d; d_asok_path := d_asok_path d;
     d_dset := d_dset d; d_pc_types := d_pc_types d |}.

(** [node_handler_parse_fsid(arg, val, key)]: [snprintf(d->fsid,
    FSID_STRING_LEN, "%s", val)] keeps the first [FSID_STRING_LEN - 1]
    characters of [val]; the value returned is 0 whatever was written. *)
Definition node_handler_parse_fsid (d : ceph_daemon) (val key : cstring)
  : Z * ceph_daemon :=
  (0, set_fsid d (firstn (FSID_STRING_LEN - 1) val)).

(** ** The data fetch *)

(** [value_t] of collectd's [plugin.h] is a union of a gauge (a
    [double]), a derive (an [int64_t]), a counter and an absolute value.
    The plugin writes gauges and derives; a value is held by the member
    last written, [V_cleared] being the value [calloc] leaves. *)
Inductive value_t :=
  | V_cleared
  | V_gauge (gauge : float)
  | V_derive (derive : Z).

(** [(int64_t) x] *)
Definition to_int64 (z : Z) : Z := (z + 2 ^ 63) mod 2 ^ 64 - 2 ^ 63.

(** [struct values_tmp]: the daemon, the array [vh[i].values] of every
    data set, and [avgcount].  ([holder_num] is the length of the list;
    [vh[i].values_len] is the length of the array and is not read.  The
    zero-length array [vh] starts where [avgcount] is: with pointers of
    eight bytes [avgcount] shares its bytes with [vh[0].values_len] and
    the padding after it, not with [vh[0].values], and the model keeps
    the two apart.) *)
Record values_tmp := mk_values_tmp {
  vt_d : ceph_daemon;
  vt_values : list (list value_t);
  vt_avgcount : Z
}.

(** [vtmp->vh[i].values[j] = v]; [None] when there is no such element. *)
Definition set_value (values : list (list value_t)) (i j : nat) (v : value_t)
  : option (list (list value_t)) :=
  match nth_error values i with
  | Some row =>
      if (j <? length row)%nat
      then Some (list_upd values i (list_upd row j v)) else None
  | None => None
  end.

Section Fetch.

Variable DATA_MAX_NAME_LEN : nat.
(** [long_run_latency_avg], a global the configuration sets. *)
Variable long_run_latency_avg : bool.
(** What the calls of [sscanf] read from the text of a value.  The
    handler is given the text of a JSON number, on which the conversions
    ["%" PRIu64] and ["%lf"] both succeed. *)
Variable sscanf : cstring -> scanned.

(** [node_handler_fetch_data(arg, val, key)]: the return value, the
    values after the call and the table of the rate engine; [None] for an
    access outside an array.  [alloc_ok] is the answer of the allocator
    to [get_last_avg]. *)
Definition node_handler_fetch_data (alloc_ok : bool) (tbl : last_poll_data_t)
    (vtmp : values_tmp) (val key : cstring)
  : option (Z * values_tmp * last_poll_data_t) :=
  match parse_keys DATA_MAX_NAME_LEN key
          (zeroed DATA_MAX_NAME_LEN) (zeroed MAX_RRD_DS_NAME_LEN) with
  | None => None
  | Some (ret, dset_buf, ds_buf) =>
      if negb (ret =? 0) then Some (1, vtmp, tbl)
      else
        let dset_name := c_str dset_buf in
        let ds_name := c_str ds_buf in
        let dset_idx := get_matching_dset (vt_d vtmp) dset_name in
        if dset_idx =? -1 then Some (1, vtmp, tbl)
        else
          match nth_error (d_dset (vt_d vtmp)) (Z.to_nat dset_idx) with
          | None => None
          | Some dset =>
              let ds_idx :=
                get_matching_value dset ds_name (length (dset_ds dset)) in
              if ds_idx =? -1 then Some (RETRY_AVGCOUNT, vtmp, tbl)
              else
                let i := Z.to_nat dset_idx in
                let j := Z.to_nat ds_idx in
                let store (v : value_t) (avgcount : Z)
                          (tbl' : last_poll_data_t) :=
                  match set_value (vt_values vtmp) i j v with
                  | Some values =>
                      Some (0, {| vt_d := vt_d vtmp; vt_values := values;
                                  vt_avgcount := avgcount |}, tbl')
                  | None => None
                  end in
                match pc_type_at (vt_d vtmp) i j with
                | None => None
                | Some pc_type =>
                    match classify pc_type with
                    | KindLatency =>
                        let '(ret, avgcount, gauge, tbl') :=
                          fetch_latency DATA_MAX_NAME_LEN long_run_latency_avg
                            alloc_ok tbl dset_name ds_name
                            (vt_avgcount vtmp) (sscanf val) in
                        match gauge with
                        | Some g => store (V_gauge g) avgcount tbl'
                        | None =>
                            Some (ret,
                                  {| vt_d := vt_d vtmp;
                                     vt_values := vt_values vtmp;
                                     vt_avgcount := avgcount |}, tbl')
                        end
                    | KindDerive =>
                        store (V_derive (to_int64 (scan_u64 (sscanf val))))
                          (vt_avgcount vtmp) tbl
                    | KindGauge =>
                        store (V_gauge (scan_double (sscanf val)))
                          (vt_avgcount vtmp) tbl
                    end
                end
          end
  end.

End Fetch.

(** ** The configuration *)

(** [tolower] in the C locale, and [strcasecmp(a, b) == 0]. *)
Definition tolower (c : ascii) : ascii :=
  let n := nat_of_ascii c in
  if ((65 <=? n) && (n <=? 90))%nat then ascii_of_nat (n + 32) else c.

Definition strcaseeq (a b : cstring) : bool :=
  streq (map tolower a) (map tolower b).

(** [needle] is at the start of [s]. *)
Fixpoint starts_with (s needle : cstring) {struct needle} : bool :=
  match needle, s with
  | [], _ => true
  | x :: needle', y :: s' => Ascii.eqb x y && starts_with s' needle'
  | _ :: _, [] => false
  end.

(** [strstr(hay, needle) - hay]: the offset of the first place of [hay]
    where [needle] starts, [None] for a NULL result. *)
Fixpoint strstr (hay needle : cstring) : option nat :=
  match hay with
  | [] => if starts_with hay needle then Some 0%nat else None
  | _ :: rest =>
      if starts_with hay needle then Some 0%nat
      else match strstr rest needle with
           | Some i => Some (S i)
           | None => None
           end
  end.

(** [oconfig_value_t] of liboconfig: [type] tells which member of the
    union [value] is set. *)
Inductive oconfig_value_t :=
  | OCONFIG_TYPE_STRING (s : cstring)
  | OCONFIG_TYPE_NUMBER (number : float)
  | OCONFIG_TYPE_BOOLEAN (boolean : Z).

(** [oconfig_item_t]: [values_num] and [children_num] are the lengths of
    the lists. *)
#[warnings="-register-all"]
Inductive oconfig_item_t :=
  | mk_oconfig_item (key : cstring) (values : list oconfig_value_t)
      (children : list oconfig_item_t).

Definition item_key (item : oconfig_item_t) : cstring :=
  match item with mk_oconfig_item key _ _ => key end.

Definition item_values (item : oconfig_item_t) : list oconfig_value_t :=
  match item with mk_oconfig_item _ values _ => values end.

Definition item_children (item : oconfig_item_t) : list oconfig_item_t :=
  match item with mk_oconfig_item _ _ children => children end.

(** [const char * ceph_daemon_types [CEPH_DAEMON_TYPES_NUM]] *)
Definition ceph_daemon_types : list cstring :=
  [lit "osd"; lit "mon"; lit "mds"].

(** The character arrays of the [struct ceph_daemon cd] which
    [cc_add_daemon_config] fills; [memset] leaves the other members 0. *)
Record daemon_arrays := mk_daemon_arrays {
  cd_name : list ascii;
  cd_cluster : list ascii;
  cd_asok_path : list ascii
}.

(** The globals the configuration writes: [g_daemons] ([g_num_daemons] is
    its length), [long_run_latency_avg] and [convert_special_metrics]. *)
Record plugin_globals := mk_plugin_globals {
  g_daemons : list daemon_arrays;
  g_long_run_latency_avg : Z;
  g_convert_special_metrics : Z
}.

(** The globals when the plugin is loaded. *)
Definition globals_at_load : plugin_globals :=
  {| g_daemons := []; g_long_run_latency_avg := 0;
     g_convert_special_metrics := 1 |}.

(** [cc_handle_bool(item, dest)]: the return value and [*dest]. *)
Definition cc_handle_bool (item : oconfig_item_t) (dest : Z) : Z * Z :=
  match item_values item with
  | [OCONFIG_TYPE_BOOLEAN boolean] => (0, if boolean =? 0 then 0 else 1)
  | _ => (- Errno.ENOTSUP, dest)
  end.

(** [cc_handle_str(item, dest, dest_len)]: the return value and the array
    [dest]; [snprintf] returns the length of [val]. *)
Definition cc_handle_str (item : oconfig_item_t) (dest : list ascii)
    (dest_len : nat) : option (Z * list ascii) :=
  match item_values item with
  | [OCONFIG_TYPE_STRING val] =>
      match snprintf_s dest dest_len val with
      | Some dest' =>
          Some (if Z.of_nat (length val) >? Z.of_nat dest_len - 1
                then - Errno.ENAMETOOLONG else 0, dest')
      | None => None
      end
  | _ => Some (- Errno.ENOTSUP, dest)
  end.

(** The loop [while(tmp)] of [cc_parse_cluster_name]: [last_index_slash]
    after the rest [s] of the path, which starts at offset [off]; every
    ['/'] that [strchr] finds sets it to the offset of the ['/'] less 1. *)
Fixpoint last_slash_from (s : cstring) (off : nat) (last_index_slash : Z)
  : Z :=
  match s with
  | [] => last_index_slash
  | c :: rest =>
      last_slash_from rest (S off)
        (if Ascii.eqb c "/" then Z.of_nat off - 1 else last_index_slash)
  end.

(** The loop over [ceph_daemon_types]: [daemon_type_index] is set from the
    first type that [strstr] finds in the name, and the loop ends there. *)
Fixpoint daemon_type_index_from (types : list cstring) (asok_name : cstring)
  : Z :=
  match types with
  | [] => -1
  | t :: rest =>
      match strstr asok_name t with
      | Some i => Z.of_nat i - 1
      | None => daemon_type_index_from rest asok_name
      end
  end.

Section Config.

Variable DATA_MAX_NAME_LEN : nat.
(** [sizeof(((struct sockaddr_un* )0)->sun_path)] *)
Variable UNIX_DOMAIN_SOCK_PATH_MAX : nat.

(** [cc_parse_cluster_name(cd)]: the return value and [cd]; [None] for a
    write past [asok_name] or past [cd->cluster].  [memcpy] copies the
    characters before the type into [cd->cluster] and writes no NUL. *)
Definition cc_parse_cluster_name (cd : daemon_arrays)
  : option (Z * daemon_arrays) :=
  let asok_path := c_str (cd_asok_path cd) in
  let last_index_slash := last_slash_from asok_path 0 (-1) in
  if last_index_slash =? -1 then Some (-1, cd)
  else
    let asok_name := skipn (Z.to_nat (last_index_slash + 2)) asok_path in
    if (UNIX_DOMAIN_SOCK_PATH_MAX <=? length asok_name)%nat then None
    else
      let daemon_type_index :=
        daemon_type_index_from ceph_daemon_types asok_name in
      if (daemon_type_index =? -1)
         || match strstr asok_name (lit ".asok") with
            | Some _ => false
            | None => true
            end
      then Some (-1, cd)
      else
        match buf_write (cd_cluster cd) 0
                (firstn (Z.to_nat daemon_type_index) asok_name) with
        | Some cluster =>
            Some (0, {| cd_name := cd_name cd; cd_cluster := cluster;
                        cd_asok_path := cd_asok_path cd |})
        | None => None
        end.

(** The loop over the children of a [Daemon] block: the return value (0
    when the loop runs to its end) and [cd]. *)
Fixpoint daemon_options_from (children : list oconfig_item_t)
    (cd : daemon_arrays) : option (Z * daemon_arrays) :=
  match children with
  | [] => Some (0, cd)
  | child :: rest =>
      if strcaseeq (lit "SocketPath") (item_key child) then
        match cc_handle_str child (cd_asok_path cd)
                UNIX_DOMAIN_SOCK_PATH_MAX with
        | None => None
        | Some (ret, asok_path) =>
            let cd1 := {| cd_name := cd_name cd; cd_cluster := cd_cluster cd;
                          cd_asok_path := asok_path |} in
            if negb (ret =? 0) then Some (ret, cd1)
            else
              match cc_parse_cluster_name cd1 with
              | None => None
              | Some (ret, cd2) =>
                  if negb (ret =? 0) then Some (ret, cd2)
                  else daemon_options_from rest cd2
              end
        end
      else daemon_options_from rest cd
  end.

(** [cc_add_daemon_config(ci)]: the return value and [g_daemons].
    [realloc_ok] and [malloc_ok] are the answers of the allocator; a
    [malloc] that fails leaves the array of [realloc] in [g_daemons], with
    [g_num_daemons] as it was.  [None] is a read or a write outside an
    array. *)
Definition cc_add_daemon_config (realloc_ok malloc_ok : bool)
    (daemons : list daemon_arrays) (ci : oconfig_item_t)
  : option (Z * list daemon_arrays) :=
  match item_values ci with
  | [OCONFIG_TYPE_STRING _] =>
      match cc_handle_str ci (zeroed DATA_MAX_NAME_LEN)
              DATA_MAX_NAME_LEN with
      | None => None
      | Some (ret, name) =>
          if negb (ret =? 0) then Some (ret, daemons)
          else
            match daemon_options_from (item_children ci)
                    {| cd_name := name;
                       cd_cluster := zeroed DATA_MAX_NAME_LEN;
                       cd_asok_path := zeroed UNIX_DOMAIN_SOCK_PATH_MAX |} with
            | None => None
            | Some (ret, cd) =>
                if negb (ret =? 0) then Some (ret, daemons)
                else
                  let register :=
                    if negb realloc_ok then Some (Errno.ENOMEM, daemons)
                    else if negb malloc_ok then Some (Errno.ENOMEM, daemons)
                    else Some (0, daemons ++ [cd]) in
                  match nth_error (cd_name cd) 0 with
                  | None => None
                  | Some name0 =>
                      if Ascii.eqb name0 NUL
                      then Some (- Errno.EINVAL, daemons)
                      else
                        match nth_error (cd_asok_path cd) 0 with
                        | None => None
                        | Some path0 =>
                            if Ascii.eqb path0 NUL
                            then Some (- Errno.EINVAL, daemons)
                            else if Ascii.eqb path0 "/" then register
                            else if Ascii.eqb path0 "." then
                              match nth_error (cd_asok_path cd) 1 with
                              | None => None
                              | Some path1 =>
                                  if Ascii.eqb path1 "/" then register
                                  else Some (- Errno.EINVAL, daemons)
                              end
                            else Some (- Errno.EINVAL, daemons)
                        end
                  end
            end
      end
  | _ => Some (-1, daemons)
  end.

(** The loop of [ceph_config] over the children of the plugin block.
    [allocs n] holds the answers of [realloc] and [malloc] to the block
    that is reached with [g_num_daemons] equal to [n]. *)
Fixpoint ceph_config_from (allocs : nat -> bool * bool)
    (children : list oconfig_item_t) (g : plugin_globals)
  : option (Z * plugin_globals) :=
  match children with
  | [] => Some (0, g)
  | child :: rest =>
      if strcaseeq (lit "Daemon") (item_key child) then
        match cc_add_daemon_config (fst (allocs (length (g_daemons g))))
                (snd (allocs (length (g_daemons g)))) (g_daemons g) child with
        | None => None
        | Some (ret, daemons) =>
            let g1 := {| g_daemons := daemons;
                         g_long_run_latency_avg := g_long_run_latency_avg g;
                         g_convert_special_metrics :=
                           g_convert_special_metrics g |} in
            if negb (ret =? 0) then Some (ret, g1)
            else ceph_config_from allocs rest g1
        end
      else if strcaseeq (lit "LongRunAvgLatency") (item_key child) then
        let '(ret, v) := cc_handle_bool child (g_long_run_latency_avg g) in
        let g1 := {| g_daemons := g_daemons g;
                     g_long_run_latency_avg := v;
                     g_convert_special_metrics :=
                       g_convert_special_metrics g |} in
        if negb (ret =? 0) then Some (ret, g1)
        else ceph_config_from allocs rest g1
      else if strcaseeq (lit "ConvertSpecialMetricTypes") (item_key child)
      then
        let '(ret, v) := cc_handle_bool child (g_convert_special_metrics g) in
        let g1 := {| g_daemons := g_daemons g;
                     g_long_run_latency_avg := g_long_run_latency_avg g;
                     g_convert_special_metrics := v |} in
        if negb (ret =? 0) then Some (ret, g1)
        else ceph_config_from allocs rest g1
      else ceph_config_from allocs rest g
  end.

Definition ceph_config (allocs : nat -> bool * bool) (ci : oconfig_item_t)
    (g : plugin_globals) : option (Z * plugin_globals) :=
  ceph_config_from allocs (item_children ci) g.

End Config.

(** ** The processing of the counter data *)

(** [value_list_t] of [plugin.h], the members the plugin sets;
    [values_len] is the length of [values], and [VALUE_LIST_INIT] clears
    the other members. *)
Record value_list_t := mk_value_list {
  vl_values : list value_t;
  vl_host : cstring;
  vl_plugin : cstring;
  vl_plugin_instance : cstring;
  vl_type : cstring
}.

(** [strncat(buf, src, n)]: at most [n] characters of [src] and a NUL,
    written from the NUL of [buf] on; [None] when a byte goes past the
    array. *)
Definition strncat (buf : list ascii) (src : cstring) (n : nat)
  : option (list ascii) :=
  buf_write buf (strlen buf) (firstn n src ++ [NUL]).

(** The arrays [vh[i].values] after the first loop of
    [cconn_process_data], for the data sets from index [i] on.
    [values_ok i] tells whether the [calloc] for data set [i] succeeds; its
    result is not checked, and a NULL result is held as an array without
    elements, every access to which is outside. *)
Fixpoint calloc_values (values_ok : nat -> bool) (i : nat)
    (sets : list data_set_s) : list (list value_t) :=
  match sets with
  | [] => []
  | set :: rest =>
      (if values_ok i then repeat V_cleared (length (dset_ds set)) else [])
      :: calloc_values values_ok (S i) rest
  end.

Section ProcessData.

Variable DATA_MAX_NAME_LEN : nat.
Variable YAJL_MAX_DEPTH : nat.
(** The globals [convert_special_metrics], [long_run_latency_avg] and
    [hostname_g]. *)
Variable convert_special_metrics : bool.
Variable long_run_latency_avg : bool.
Variable hostname_g : cstring.
Variable sscanf : cstring -> scanned.

(** [traverse_json(json, json_len, hand)].  [events] are the events yajl
    reports for the text and [syntax_error] tells whether it then finds the
    text malformed ([yajl_status_error]); a callback that does not return
    [CEPH_CB_CONTINUE] ends the parse with [yajl_status_client_canceled]. *)
Definition traverse_json (H : Type)
    (handler : H -> cstring -> cstring -> Z * H) (yajl : yajl_struct H)
    (events : list yajl_event) (syntax_error : bool) : cb_result H :=
  match traverse_events DATA_MAX_NAME_LEN YAJL_MAX_DEPTH
          convert_special_metrics handler yajl events with
  | CbUndefined _ u => CbUndefined _ u
  | CbReturn ret yajl' =>
      if ret =? CEPH_CB_CONTINUE
      then CbReturn (if syntax_error then 1 else 0) yajl'
      else CbReturn 1 yajl'
  end.

(** What the handler of the data works on: the values [handler_arg]
    points to and the table of the rate engine, a global; [None] once a
    call has left the arrays. *)
Definition fetch_arg : Type := option (values_tmp * last_poll_data_t).

(** [node_handler_fetch_data] as the handler of a traversal.  [allocs n]
    is the answer of the allocator to [get_last_avg] when the table holds
    [n] entries. *)
Definition fetch_handler (allocs : nat -> bool) (arg : fetch_arg)
    (val key : cstring) : Z * fetch_arg :=
  match arg with
  | None => (0, None)
  | Some (vtmp, tbl) =>
      match node_handler_fetch_data DATA_MAX_NAME_LEN long_run_latency_avg
              sscanf (allocs (length tbl)) tbl vtmp val key with
      | Some (ret, vtmp', tbl') => (ret, Some (vtmp', tbl'))
      | None => (0, None)
      end
  end.

(** The array [tmp_plugin_instance] after the calls of [sstrncpy] and
    [strncat] in the second loop of [cconn_process_data];
    [chars_remaining] is a [size_t] of 64 bits.  [strncpy] writes all the
    bytes of the array, which starts unset. *)
Definition tmp_plugin_instance (d : ceph_daemon) : option (list ascii) :=
  match strncpy_into (zeroed DATA_MAX_NAME_LEN) (d_name d)
          DATA_MAX_NAME_LEN with
  | None => None
  | Some copied =>
  match buf_write copied (DATA_MAX_NAME_LEN - 1) [NUL] with
  | None => None
  | Some tmp0 =>
      let chars_remaining :=
        wrap64 (Z.of_nat DATA_MAX_NAME_LEN - Z.of_nat (length (d_name d))) in
      if chars_remaining >=? wrap64 (Z.of_nat (length (d_cluster d)) + 1)
      then
        match strncat tmp0 (lit "-") (Z.to_nat chars_remaining) with
        | None => None
        | Some tmp1 =>
        let chars_remaining := wrap64 (chars_remaining - 1) in
        match strncat tmp1 (d_cluster d) (Z.to_nat chars_remaining) with
        | None => None
        | Some tmp2 =>
            let chars_remaining :=
              wrap64 (chars_remaining - Z.of_nat (length (d_cluster d))) in
            if chars_remaining >=? Z.of_nat FSID_STRING_LEN + 1 then
              match strncat tmp2 (lit ".") (Z.to_nat chars_remaining) with
              | None => None
              | Some tmp3 =>
                  let chars_remaining := wrap64 (chars_remaining - 1) in
                  strncat tmp3 (d_fsid d) (Z.to_nat chars_remaining)
              end
            else Some tmp2
        end
        end
      else Some tmp0
  end
  end.

(** The second loop of [cconn_process_data] from data set [i] on: the
    return value and the value lists given to [plugin_dispatch_values],
    whose answer to call [i] is [dispatch i]. *)
Fixpoint dispatch_from (dispatch : nat -> value_list_t -> Z)
    (d : ceph_daemon) (values : list (list value_t)) (i : nat)
    (sets : list data_set_s) : option (Z * list value_list_t) :=
  match sets with
  | [] => Some (0, [])
  | set :: rest =>
      match tmp_plugin_instance d, nth_error values i with
      | Some tmp, Some row =>
          if (length row =? length (dset_ds set))%nat then
            let vl :=
              {| vl_values := row;
                 vl_host := sstrncpy hostname_g DATA_MAX_NAME_LEN;
                 vl_plugin := sstrncpy (lit "ceph") DATA_MAX_NAME_LEN;
                 vl_plugin_instance :=
                   sstrncpy (c_str tmp) DATA_MAX_NAME_LEN;
                 vl_type := sstrncpy (dset_type set) DATA_MAX_NAME_LEN |} in
            let ret := dispatch i vl in
            if negb (ret =? 0) then Some (ret, [vl])
            else
              match dispatch_from dispatch d values (S i) rest with
              | Some (ret', vls) => Some (ret', vl :: vls)
              | None => None
              end
          else None
      | _, _ => None
      end
  end.

(** [cconn_process_data(io, yajl, hand)] for the daemon [d] of the
    connection: the return value, the value lists dispatched and the table
    of the rate engine.  [calloc_ok] is the answer to the [calloc] of
    [vtmp]; [state] and [depth] are those of [io->yajl]. *)
Definition cconn_process_data (calloc_ok : bool) (values_ok : nat -> bool)
    (allocs : nat -> bool) (dispatch : nat -> value_list_t -> Z)
    (d : ceph_daemon) (state : list key_state) (depth : Z)
    (tbl : last_poll_data_t) (events : list yajl_event)
    (syntax_error : bool)
  : option (Z * list value_list_t * last_poll_data_t) :=
  if negb calloc_ok then Some (- ENOMEM, [], tbl)
  else
    let vtmp := {| vt_d := d;
                   vt_values := calloc_values values_ok 0 (d_dset d);
                   vt_avgcount := avgcount_unset |} in
    match traverse_json (fetch_handler allocs)
            {| handler_arg := Some (vtmp, tbl); state := state;
               depth := depth |} events syntax_error with
    | CbUndefined _ _ => None
    | CbReturn ret yajl' =>
        match handler_arg yajl' with
        | None => None
        | Some (vtmp', tbl') =>
            if negb (ret =? 0) then Some (ret, [], tbl')
            else
              match dispatch_from dispatch d (vt_values vtmp') 0
                      (d_dset d) with
              | Some (ret', vls) => Some (ret', vls, tbl')
              | None => None
              end
        end
    end.

End ProcessData.

(** * The notions of the statements *)

(** ** Arrays *)

(** An array that holds NUL from index [m] on. *)
Definition zero_from (buf : list ascii) (m : nat) : Prop :=
  forall i, (m <= i < length buf)%nat -> nth_error buf i = Some NUL.

(** ** Key paths *)

(** The separator of a key path. *)
Definition dot : ascii := "."%char.

(** The segments of a path joined by dots. *)
Fixpoint join_dots (segs : list cstring) : cstring :=
  match segs with
  | [] => []
  | [s] => s
  | s :: rest => s ++ dot :: join_dots rest
  end.

(** A segment of a key path has no dot and no NUL in it. *)
Definition is_segment (s : cstring) : bool :=
  forallb (fun c => negb (Ascii.eqb c dot) && negb (Ascii.eqb c NUL)) s.

(** The last segment is "type", or does not begin with these four
    letters. *)
Definition type_or_unlike (l : cstring) : bool :=
  streq l (lit "type") || negb (strneq l (lit "type") 4).

(** The short name [split_key] leaves in [tmp_ds_name] for the path with
    the segments [first :: rest]: with two segments the first one when the
    last is "type" and the last one otherwise; with more, what lies
    between the first dot and the last segment "type", or all that
    follows the first dot, dots included. *)
Definition short_name_of (first : cstring) (rest : list cstring) : cstring :=
  let last_is_type := streq (last rest []) (lit "type") in
  match rest with
  | [l] => if last_is_type then first else l
  | _ => if last_is_type then join_dots (removelast rest) else join_dots rest
  end.

(** The rule as the specification words it.  [segments_of] cuts a path at
    its dots ([cur] is the segment being read, in reverse);
    [claimed_short_name] is the first segment or the last one for a path of
    two segments, and the concatenation of the interior segments (those
    after the first and before the last) for a longer path. *)
Fixpoint segments_of (s cur : cstring) : list cstring :=
  match s with
  | [] => [rev cur]
  | c :: rest =>
      if Ascii.eqb c dot then rev cur :: segments_of rest []
      else segments_of rest (c :: cur)
  end.

(** The short name by the rule as worded. *)
Definition claimed_short_name (key_str : cstring) : cstring :=
  match segments_of key_str [] with
  | [a; b] => if streq b (lit "type") then a else b
  | segs => concat (removelast (tl segs))
  end.

(** ** The rate engine *)

(** An entry with new values keeps its key. *)
Definition refreshed (e : last_data) (cur_sum : float) (cur_count : Z)
  : last_data :=
  {| dset_name := dset_name e; ds_name := ds_name e;
     last_sum := cur_sum; last_count := cur_count |}.

(** The value [get_last_avg] computes from an entry of the key. *)
Definition interval_avg (e : last_data) (cur_sum : float) (cur_count : Z)
  : float :=
  if cur_count <? last_count e then nan
  else
    let r := ((cur_sum - last_sum e)
              / double_of_uint64 (count_delt e cur_count))%float in
    if PrimFloat.eqb r minus_1_1 then nan else r.

(** ** The reducer *)

(** The path both leaves of the pair are first reported under. *)
Definition short_path : cstring := lit "filestore.journal_wr_bytes".

(** A result that is not an access outside the key stack. *)
Definition stack_safe (H : Type) (r : cb_result H) : bool :=
  match r with
  | CbUndefined _ (StackIndex _) => false
  | _ => true
  end.

(** The same for the loop of [ceph_cb_number]. *)
Definition path_stack_safe (r : path_result) : bool :=
  match r with
  | PathUndefined (StackIndex _) => false
  | _ => true
  end.

(** The events of the texts {"journal_wr_bytes":{"avgcount":7}} and
    {"osd":{"sum":1}} up to their number. *)
Definition depth2_pair_events : list yajl_event :=
  [ ev_start_map; ev_map_key (lit "journal_wr_bytes");
    ev_start_map; ev_map_key (lit "avgcount"); ev_number (lit "7") ].

(** The second of the two texts. *)
Definition depth2_osd_events : list yajl_event :=
  [ ev_start_map; ev_map_key (lit "osd");
    ev_start_map; ev_map_key (lit "sum"); ev_number (lit "1") ].

(** ** The schema *)

(** The two parallel arrays of a daemon have the same shape. *)
Definition parallel (d : ceph_daemon) : Prop :=
  Forall2 (fun set row => length (dset_ds set) = length row)
    (d_dset d) (d_pc_types d).

(** The bit [PERFCOUNTER_DERIVE] of the type bits. *)
Definition derive_bit (pc_type : Z) : bool :=
  negb (Z.land pc_type PERFCOUNTER_DERIVE =? 0).

(** ** Connections and the loop *)

(** The four bytes of the version once the read of [io] is done: those
    already in the object, then those the read moved. *)
Definition version_bytes (big : bool) (io : cconn) (a : io_answer)
  : list ascii :=
  firstn (Z.to_nat (amt io)) (host_encode big (d_version (d io)))
  ++ io_moved a (4 - amt io).

(** A connection that waits for the version, nothing read yet, and the
    answer of a daemon that sends the bytes 00 00 00 02. *)
Definition awaiting_version : cconn :=
  {| d := new_daemon (lit "osd.0") (lit "/var/run/ceph/ceph-osd.0.asok")
            (lit "ceph-");
     request_type := ASOK_REQ_VERSION; state_ := CSTATE_READ_VERSION;
     asok := 5; amt := 0; json_len := 0; json := None |}.

(** The answer 00 00 00 02. *)
Definition version_two : io_answer :=
  IoMoved [ascii_of_nat 0; ascii_of_nat 0; ascii_of_nat 0; ascii_of_nat 2].

(** A connection as [cconn_close] leaves it. *)
Definition closed (io : cconn) : Prop :=
  asok io = -1 /\ state_ io = CSTATE_UNCONNECTED /\ json io = None
  /\ amt io = 0 /\ json_len io = 0.

(** The entries of [fds] a turn of the loop polls: the connections for
    which [cconn_prepare] returned 1. *)
Definition polled_of (w : world) (st : loop_state) : list nat :=
  snd (fst (fst (fst (prepare_from w 0 (io_array st))))).

(** The time at which the loop gives up: [CEPH_TIMEOUT_INTERVAL] seconds
    after its start. *)
Definition deadline (start : timeval) : timeval :=
  {| tv_sec := tv_sec start + CEPH_TIMEOUT_INTERVAL; tv_usec := tv_usec start |}.

(** A cycle for the version of two daemons.  The first daemon accepts the
    connection, takes the request and answers version 1; the second
    refuses the connection.  At the third turn the clock is past the
    deadline. *)
Definition run_daemons : list ceph_daemon :=
  [ new_daemon (lit "osd.0") (lit "/var/run/ceph/ceph-osd.0.asok") (lit "ceph-");
    new_daemon (lit "osd.1") (lit "/var/run/ceph/ceph-osd.1.asok") (lit "ceph-") ].

(** The time [cconn_main_loop] starts at. *)
Definition run_start : timeval := {| tv_sec := 1000; tv_usec := 250000 |}.

(** The answers of the system at the three turns. *)
Definition run_worlds : list world :=
  [ {| w_connect := fun i => if Nat.eqb i 0 then Connected 7
                             else ConnectFailed 8 111;
       w_now := run_start;
       w_poll := PollReady (fun _ => POLLOUT);
       w_io := fun _ => IoMoved (request_cmd ASOK_REQ_VERSION);
       w_calloc := fun _ => true |};
    {| w_connect := fun _ => Connected 9;
       w_now := {| tv_sec := 1000; tv_usec := 750000 |};
       w_poll := PollReady (fun _ => POLLIN);
       w_io := fun _ => IoMoved [ascii_of_nat 0; ascii_of_nat 0;
                                 ascii_of_nat 0; ascii_of_nat 1];
       w_calloc := fun _ => true |};
    {| w_connect := fun _ => Connected 9;
       w_now := {| tv_sec := 1002; tv_usec := 0 |};
       w_poll := PollReady (fun _ => 0);
       w_io := fun _ => IoMoved [];
       w_calloc := fun _ => true |} ].

(** ** The key stack *)

(** The keys of the events are shorter than [DATA_MAX_NAME_LEN]: each
    fits, with its NUL, the field [key] of an element of the stack. *)
Definition key_fits_state (D : nat) (ev : yajl_event) : Prop :=
  match ev with
  | ev_map_key k => (length (c_str k) < D)%nat
  | _ => True
  end.

(** A result that never passes the end of the key stack.  A call that
    returns leaves a depth less than [YAJL_MAX_DEPTH] and the array at
    its size.  A call that stops at an undefined access stops at an
    element of [state] before the first one (a negative index), or at
    the local buffer [char key[128]] of a callback, which is not part of
    the stack; it does not stop at a write past the field [key] of an
    element, which runs over the elements that follow and, at the last
    one, over the end of [state]. *)
Definition stack_bounded (Y : nat) (H : Type) (r : cb_result H) : Prop :=
  match r with
  | CbReturn _ y' => depth y' < Z.of_nat Y /\ length (state y') = Y
  | CbUndefined _ (StackIndex i) => i < 0
  | CbUndefined _ StateKeyOverflow => False
  | CbUndefined _ KeyOverflow => True
  | CbUndefined _ KeyNotWritten => True
  end.

(** The events that open the maps on the way to a leaf: a map and a key
    for every key of the path. *)
Definition key_events (ks : list cstring) : list yajl_event :=
  flat_map (fun k => [ev_start_map; ev_map_key k]) ks.

(** The keys [ks] are the bottom of the stack of [y]. *)
Definition holds_keys (H : Type) (y : yajl_struct H) (ks : list cstring)
  : Prop :=
  forall j s, nth_error ks j = Some s ->
              nth_error (state y) j
              = Some {| key := s; key_len := Z.of_nat (length s) + 1 |}.

(** A key the reducer takes for a member of a latency pair. *)
Definition latency_key (k : cstring) : bool :=
  streq k (lit "avgcount") || streq k (lit "sum").

(** A key that fits an element of the stack: no NUL in it, and room for
    its NUL in [char key[DATA_MAX_NAME_LEN]]. *)
Definition fits_key (D : nat) (k : cstring) : Prop :=
  Forall (fun c => c <> NUL) k /\ (length k < D)%nat.

(** What [ceph_cb_number] returns and the depth it leaves after a call of
    the handler that returned [r]. *)
Definition number_ret (r : Z) : Z :=
  if r =? - ENOMEM then CEPH_CB_ABORT else CEPH_CB_CONTINUE.

Definition number_depth (r : Z) (n : Z) : Z :=
  if r =? - ENOMEM then n else n - 1.

(** An event whose callback only returns [CEPH_CB_CONTINUE]. *)
Definition silent (ev : yajl_event) : bool :=
  match ev with
  | ev_null | ev_boolean _ | ev_start_map | ev_start_array | ev_end_array =>
      true
  | _ => false
  end.

(** The events of a null or of a boolean. *)
Definition is_scalar (ev : yajl_event) : bool :=
  match ev with
  | ev_null | ev_boolean _ => true
  | _ => false
  end.

(** ** Short names *)

(** The short name [split_key] takes from a path of the segments
    [first :: front ++ [l]], by the first four characters of the last
    segment alone. *)
Definition short_name_by_prefix (first : cstring) (front : list cstring)
    (l : cstring) : cstring :=
  if strneq l (lit "type") 4
  then match front with [] => first | _ => join_dots front end
  else match front with [] => l | _ => join_dots (front ++ [l]) end.



(** ** The table of the rate engine *)

(** The keys of the entries of the table, in its order. *)
Definition keys_of (tbl : last_poll_data_t) : list (cstring * cstring) :=
  map (fun e => (dset_name e, ds_name e)) tbl.

(** ** The schema of a daemon *)

(** The number of data sources of a daemon, over all its data sets. *)
Definition ds_count (d : ceph_daemon) : nat :=
  list_sum (map (fun s => length (dset_ds s)) (d_dset d)).

(** The values of a fetch have the shape of the schema: an array for
    every data set, an element for every source. *)
Definition shaped (vtmp : values_tmp) : Prop :=
  Forall2 (fun set row => length row = length (dset_ds set))
    (d_dset (vt_d vtmp)) (vt_values vtmp).

(** [vh[i].values[j]] *)
Definition value_at (values : list (list value_t)) (i j : nat)
  : option value_t :=
  match nth_error values i with
  | Some row => nth_error row j
  | None => None
  end.

(** ** Cycles of the loop *)

(** An answer of the system to [cconn_connect] that is a failure. *)
Definition refused (a : connect_answer) : bool :=
  match a with
  | Connected _ => false
  | _ => true
  end.

(** What [socket] opened in a call of [cconn_connect] with the answer
    [a]: nothing when the call of [socket] failed, and its descriptor
    otherwise, also when [connect] or [fcntl] failed after it. *)
Definition opened_by (a : connect_answer) : list fd_event :=
  match a with
  | SocketFailed _ => []
  | ConnectFailed fd _ | FcntlFailed fd _ | Connected fd => [FdOpened fd]
  end.

(** A connection of a cycle for [request_type] that [cconn_prepare] does
    not leave alone: the request is not ASOK_REQ_NONE, and the daemon has
    a data set if the request is ASOK_REQ_DATA. *)
Definition to_be_served (request_type : Z) (daemon : ceph_daemon) : bool :=
  negb (request_type =? ASOK_REQ_NONE)
  && negb ((request_type =? ASOK_REQ_DATA)
           && (Z.of_nat (length (d_dset daemon)) =? 0)).

(** The difference of two times in microseconds. *)
Definition micro_diff (t1 t2 : timeval) : Z :=
  1000000 * (tv_sec t1 - tv_sec t2) + (tv_usec t1 - tv_usec t2).

(** ** The configuration *)

(** A string without a slash. *)
Definition no_slash (s : cstring) : Prop :=
  Forall (fun c => c <> "/"%char) s.

(** The first name of [types], in the order of the list, that occurs in
    [name] occurs first at offset [i]. *)
Definition occurs_first (types : list cstring) (name : cstring) (i : nat)
  : Prop :=
  exists before t after,
    types = before ++ t :: after
    /\ Forall (fun u => strstr name u = None) before
    /\ strstr name t = Some i.

(** A path with a directory part [dir], which is not empty, and a file name
    in which a daemon type occurs, but not at its start, and in which
    [.asok] occurs. *)
Definition socket_path_ok (path : cstring) : Prop :=
  exists dir name i,
    path = dir ++ "/"%char :: name
    /\ dir <> [] /\ no_slash name
    /\ occurs_first ceph_daemon_types name (S i)
    /\ strstr name (lit ".asok") <> None.

(** What holds of the arrays of a daemon of [g_daemons]: every array holds
    a terminated string, the name is not empty, the path begins with [/]
    or [./] and is a socket path as above. *)
Definition configured (D U : nat) (cd : daemon_arrays) : Prop :=
  length (cd_name cd) = D
  /\ length (cd_cluster cd) = D
  /\ length (cd_asok_path cd) = U
  /\ (0 < strlen (cd_name cd) < D)%nat
  /\ (strlen (cd_cluster cd) < D)%nat
  /\ (strlen (cd_asok_path cd) < U)%nat
  /\ (starts_with (c_str (cd_asok_path cd)) (lit "/") = true
      \/ starts_with (c_str (cd_asok_path cd)) (lit "./") = true)
  /\ socket_path_ok (c_str (cd_asok_path cd)).

(** The options the plugin block and a [Daemon] block know. *)
Definition is_socket_path (item : oconfig_item_t) : bool :=
  strcaseeq (lit "SocketPath") (item_key item).

Definition is_daemon (item : oconfig_item_t) : bool :=
  strcaseeq (lit "Daemon") (item_key item).

Definition known_option (item : oconfig_item_t) : bool :=
  is_daemon item
  || strcaseeq (lit "LongRunAvgLatency") (item_key item)
  || strcaseeq (lit "ConvertSpecialMetricTypes") (item_key item).

(** A configuration without the options the plugin does not know. *)
Definition without_unknown (ci : oconfig_item_t) : oconfig_item_t :=
  mk_oconfig_item (item_key ci) (item_values ci)
    (map (fun child =>
            if is_daemon child
            then mk_oconfig_item (item_key child) (item_values child)
                   (filter is_socket_path (item_children child))
            else child)
       (filter known_option (item_children ci))).

(** The values of the [SocketPath] options of a block, in their order. *)
Definition socket_paths (children : list oconfig_item_t) : list cstring :=
  flat_map (fun child =>
              if is_socket_path child then
                match item_values child with
                | [OCONFIG_TYPE_STRING val] => [val]
                | _ => []
                end
              else [])
    children.

(** * Properties *)

(** ** C strings and arrays *)

Lemma streq_eq (a b : cstring) : streq a b = true <-> a = b.
Proof.
  revert b; induction a as [|x a IH]; intros [|y b]; simpl;
    try (split; [discriminate | congruence]); try tauto.
  rewrite andb_true_iff, Ascii.eqb_eq, IH.
  split; [intros [-> ->]; reflexivity | intros E; inversion E; auto].
Qed.

Lemma streq_refl (a : cstring) : streq a a = true.
Proof. apply streq_eq; reflexivity. Qed.

Lemma streq_neq (a b : cstring) : streq a b = false <-> a <> b.
Proof.
  rewrite <- streq_eq. destruct (streq a b); split; congruence.
Qed.

Lemma c_str_length (buf : list ascii) : (strlen buf <= length buf)%nat.
Proof.
  unfold strlen; induction buf as [|c buf IH]; simpl; [lia|].
  destruct (Ascii.eqb c NUL); simpl; lia.
Qed.

(** A NUL at index [n] bounds the length of the string by [n]. *)
Lemma strlen_nul_at (buf : list ascii) (n : nat) :
  nth_error buf n = Some NUL -> (strlen buf <= n)%nat.
Proof.
  unfold strlen; revert n; induction buf as [|c buf IH]; intros [|n]; simpl;
    try discriminate.
  - intros E; inversion E; subst; simpl; lia.
  - intros E. destruct (Ascii.eqb c NUL); simpl; [lia|].
    specialize (IH _ E); lia.
Qed.

Lemma c_str_no_nul (buf : list ascii) : Forall (fun c => c <> NUL) (c_str buf).
Proof.
  induction buf as [|c buf IH]; simpl; [constructor|].
  destruct (Ascii.eqb_spec c NUL); [constructor|]. constructor; assumption.
Qed.

(** A string without NUL is the string of an array that holds it followed
    by a NUL. *)
Lemma c_str_app_nul (s rest : list ascii) :
  Forall (fun c => c <> NUL) s -> c_str (s ++ NUL :: rest) = s.
Proof.
  induction 1 as [|c s Hc _ IH]; simpl; [reflexivity|].
  destruct (Ascii.eqb_spec c NUL); [contradiction|]. now rewrite IH.
Qed.

Lemma c_str_id (s : list ascii) :
  Forall (fun c => c <> NUL) s -> c_str s = s.
Proof.
  induction 1 as [|c s Hc _ IH]; simpl; [reflexivity|].
  destruct (Ascii.eqb_spec c NUL); [contradiction|]. now rewrite IH.
Qed.

Lemma c_str_zeroed (n : nat) : c_str (zeroed n) = [].
Proof. destruct n; reflexivity. Qed.

Lemma zeroed_length (n : nat) : length (zeroed n) = n.
Proof. apply repeat_length. Qed.

Lemma nth_error_zeroed (n i : nat) :
  (i < n)%nat -> nth_error (zeroed n) i = Some NUL.
Proof.
  intros Hi. unfold zeroed.
  rewrite (nth_error_nth' _ NUL) by (rewrite repeat_length; lia).
  now rewrite nth_repeat.
Qed.

(** *** Writes into an array *)

Lemma buf_write_some (buf : list ascii) (off : nat) (bytes : list ascii) :
  (off + length bytes <= length buf)%nat ->
  buf_write buf off bytes
  = Some (firstn off buf ++ bytes ++ skipn (off + length bytes) buf).
Proof.
  intros Hle. unfold buf_write.
  destruct (Nat.leb_spec (off + length bytes) (length buf)); [reflexivity|lia].
Qed.

Lemma buf_write_inv (buf : list ascii) (off : nat) (bytes out : list ascii) :
  buf_write buf off bytes = Some out ->
  (off + length bytes <= length buf)%nat
  /\ out = firstn off buf ++ bytes ++ skipn (off + length bytes) buf.
Proof.
  unfold buf_write.
  destruct (Nat.leb_spec (off + length bytes) (length buf)); [|discriminate].
  intros E; inversion E; auto.
Qed.

Lemma buf_write_length (buf : list ascii) (off : nat) (bytes out : list ascii) :
  buf_write buf off bytes = Some out -> length out = length buf.
Proof.
  intros E; apply buf_write_inv in E as [Hle ->].
  rewrite !length_app, length_firstn, length_skipn. lia.
Qed.

(** The bytes of an array after a write: those written inside the window,
    the old ones outside. *)
Lemma buf_write_nth (buf : list ascii) (off : nat) (bytes out : list ascii)
    (i : nat) :
  buf_write buf off bytes = Some out ->
  nth_error out i
  = if (i <? off)%nat then nth_error buf i
    else if (i <? off + length bytes)%nat then nth_error bytes (i - off)
    else nth_error buf i.
Proof.
  intros E; apply buf_write_inv in E as [Hle ->].
  destruct (Nat.ltb_spec i off) as [Hlt|Hge].
  - rewrite nth_error_app1 by (rewrite length_firstn; lia).
    now rewrite nth_error_firstn, (proj2 (Nat.ltb_lt _ _) Hlt).
  - rewrite nth_error_app2 by (rewrite length_firstn; lia).
    rewrite length_firstn, Nat.min_l by lia.
    destruct (Nat.ltb_spec i (off + length bytes)) as [Hin|Hout].
    + now rewrite nth_error_app1 by lia.
    + rewrite nth_error_app2 by lia.
      rewrite nth_error_skipn. f_equal; lia.
Qed.

Lemma skipn_zeroed (k n : nat) : skipn k (zeroed n) = zeroed (n - k).
Proof.
  unfold zeroed. revert n; induction k as [|k IH]; intros n; simpl.
  - now rewrite Nat.sub_0_r.
  - destruct n; simpl; [reflexivity | apply IH].
Qed.

(** Writing a string without NUL at the start of a zeroed array. *)
Lemma c_str_write_zeroed (n : nat) (s out : list ascii) :
  Forall (fun c => c <> NUL) s ->
  (length s < n)%nat ->
  buf_write (zeroed n) 0 s = Some out -> c_str out = s.
Proof.
  intros Hs Hlen E. apply buf_write_inv in E as [_ ->]. simpl.
  rewrite skipn_zeroed.
  destruct (n - length s)%nat as [|k] eqn:Ek; [lia|]. simpl.
  now apply c_str_app_nul.
Qed.

(** *** Arrays that are zero from an index on *)

Lemma zero_from_strlen (buf : list ascii) (m : nat) :
  zero_from buf m -> (m < length buf)%nat -> (strlen buf <= m)%nat.
Proof. intros Hz Hm. apply strlen_nul_at, Hz. lia. Qed.

Lemma zero_from_zeroed (n : nat) : zero_from (zeroed n) 0.
Proof.
  intros i Hi. rewrite zeroed_length in Hi. apply nth_error_zeroed; lia.
Qed.

Lemma zero_from_weaken (buf : list ascii) (m m' : nat) :
  zero_from buf m -> (m <= m')%nat -> zero_from buf m'.
Proof. intros Hz Hle i Hi. apply Hz; lia. Qed.

(** A write inside the array keeps it zero after the window. *)
Lemma buf_write_zero_from (buf : list ascii) (m off : nat) (bytes : list ascii) :
  zero_from buf m ->
  (off + length bytes <= length buf)%nat ->
  exists out,
    buf_write buf off bytes = Some out
    /\ length out = length buf
    /\ zero_from out (Nat.max m (off + length bytes)).
Proof.
  intros Hz Hle. rewrite buf_write_some by assumption.
  eexists; split; [reflexivity|].
  assert (E := buf_write_some buf off bytes Hle).
  split; [apply (buf_write_length _ _ _ E)|].
  intros i Hi. rewrite (buf_write_length _ _ _ E) in Hi.
  rewrite (buf_write_nth _ _ _ i E).
  destruct (Nat.ltb_spec i off); [lia|].
  destruct (Nat.ltb_spec i (off + length bytes)); [lia|].
  apply Hz; lia.
Qed.

(** The same when the bytes written end with a NUL of their own. *)
Lemma buf_write_nul_zero_from (buf : list ascii) (m off : nat)
    (bytes : list ascii) :
  zero_from buf m ->
  (off + length bytes + 1 <= length buf)%nat ->
  exists out,
    buf_write buf off (bytes ++ [NUL]) = Some out
    /\ length out = length buf
    /\ zero_from out (Nat.max m (off + length bytes)).
Proof.
  intros Hz Hle.
  assert (Hlen : length (bytes ++ [NUL]) = (length bytes + 1)%nat)
    by (rewrite length_app; reflexivity).
  assert (E : buf_write buf off (bytes ++ [NUL])
              = Some (firstn off buf ++ (bytes ++ [NUL])
                      ++ skipn (off + length (bytes ++ [NUL])) buf))
    by (apply buf_write_some; lia).
  eexists; split; [exact E|].
  split; [apply (buf_write_length _ _ _ E)|].
  intros i Hi. rewrite (buf_write_length _ _ _ E) in Hi.
  rewrite (buf_write_nth _ _ _ i E), Hlen.
  destruct (Nat.ltb_spec i off); [lia|].
  destruct (Nat.ltb_spec i (off + (length bytes + 1))) as [Hin|Hout].
  - assert (Ei : (i - off = length bytes)%nat) by lia.
    rewrite Ei, nth_error_app2, Nat.sub_diag by lia. reflexivity.
  - apply Hz; lia.
Qed.

(** [snprintf] of a string into a zeroed array: the array is zero from the
    end of the characters copied. *)
Lemma snprintf_s_zeroed (n k : nat) (s : cstring) :
  (k < n)%nat ->
  exists out,
    snprintf_s (zeroed n) (S k) s = Some out
    /\ length out = n
    /\ zero_from out (Nat.min k (length s)).
Proof.
  intros Hk. unfold snprintf_s.
  destruct (@buf_write_nul_zero_from (zeroed n) 0 0 (firstn k s)
              (zero_from_zeroed n)) as (out & E & Hlen & Hz).
  - rewrite zeroed_length, length_firstn. lia.
  - exists out. rewrite zeroed_length in Hlen. repeat split; try assumption.
    rewrite length_firstn in Hz. exact Hz.
Qed.

(** *** The tokens of a name are no longer than the name *)

Lemma strtok_r_length (delim : ascii -> bool) (s cur : cstring) :
  (length (concat (strtok_r delim s cur)) <= length s + length cur)%nat.
Proof.
  revert cur; induction s as [|c s IH]; intros cur; simpl.
  - destruct cur; simpl; [lia|].
    rewrite app_nil_r, length_app, length_rev; simpl; lia.
  - destruct (delim c).
    + destruct cur as [|x cur].
      * specialize (IH []); simpl in IH; lia.
      * simpl. rewrite !length_app, length_rev. simpl.
        specialize (IH []); simpl in IH; lia.
    + specialize (IH (c :: cur)); simpl in IH; lia.
Qed.

Lemma concat_firstn_length {A : Type} (n : nat) (l : list (list A)) :
  (length (concat (firstn n l)) <= length (concat l))%nat.
Proof.
  revert n; induction l as [|x l IH]; intros [|n]; simpl; try lia.
  rewrite !length_app. specialize (IH n); lia.
Qed.

Lemma concat_capitalize_length (l : list cstring) :
  length (concat (map capitalize l)) = length (concat l).
Proof.
  induction l as [|x l IH]; simpl; [reflexivity|].
  rewrite !length_app, IH. destruct x; reflexivity.
Qed.

Lemma compact_keys_length (src : cstring) :
  (length (concat (compact_keys src)) <= length src)%nat.
Proof.
  unfold compact_keys.
  etransitivity; [apply concat_firstn_length|].
  rewrite concat_capitalize_length.
  etransitivity; [apply strtok_r_length|]. simpl; lia.
Qed.

(** ** Name mangling stays within the budget *)

(** [compact_ds_name] on a source that fits its array and a zeroed [dest]
    of [MAX_RRD_DS_NAME_LEN] bytes: every write stays inside [dest], and
    the name left in it has at most [MAX_RRD_DS_NAME_LEN - 1] characters. *)
Lemma compact_ds_name_bound (DATA_MAX_NAME_LEN : nat) (source : list ascii) :
  (strlen source < DATA_MAX_NAME_LEN)%nat ->
  exists dest,
    compact_ds_name DATA_MAX_NAME_LEN source (zeroed MAX_RRD_DS_NAME_LEN)
    = Some dest
    /\ length dest = MAX_RRD_DS_NAME_LEN
    /\ (strlen dest <= MAX_RRD_DS_NAME_LEN - 1)%nat.
Proof.
  intros Hfit. unfold compact_ds_name, strlen in *.
  destruct (c_str source) as [|c r] eqn:Esrc.
  { exists (zeroed MAX_RRD_DS_NAME_LEN). repeat split. vm_compute. lia. }
  change (negb (Ascii.eqb (hd NUL (zeroed MAX_RRD_DS_NAME_LEN)) NUL)) with false.
  cbv iota.
  destruct (Nat.leb_spec DATA_MAX_NAME_LEN
              (length (concat (compact_keys (c :: r))))) as [Hbad|_].
  { pose proof (compact_keys_length (c :: r)). lia. }
  set (tmp := firstn (DATA_MAX_NAME_LEN - 1) (concat (compact_keys (c :: r)))).
  set (len_str2 := firstn 2 (firstn 2 (decimal (length (c :: r))) ++ [NUL])).
  assert (Hl2 : (length len_str2 <= 2)%nat)
    by (unfold len_str2; rewrite length_firstn; lia).
  set (last := nth (length (c :: r) - 1) (c :: r) NUL).
  destruct (Ascii.eqb_spec last "-") as [Hm|Hm];
    destruct (Ascii.eqb_spec last "+") as [Hp|Hp];
    try (rewrite Hm in Hp; discriminate);
    destruct (Nat.ltb_spec (MAX_RRD_DS_NAME_LEN - 1) (length tmp))
      as [Hlong|Hshort];
    cbn [Z.lor Z.testbit Pos.lor Pos.testbit Nat.add Z.of_nat].
  all: match goal with
       | |- context [snprintf_s _ ?n _] =>
           let v := eval vm_compute in n in change n with v
       end.
  all: match goal with
       | |- context [snprintf_s (zeroed ?n) (S ?k) ?s] =>
           destruct (@snprintf_s_zeroed n k s) as (dest1 & E1 & L1 & Z1);
             [unfold MAX_RRD_DS_NAME_LEN; lia | rewrite E1]
       end.
  all: unfold MAX_RRD_DS_NAME_LEN in *.
  all: assert (Hoff := zero_from_strlen Z1 ltac:(lia)); unfold strlen in Hoff.
  all: set (offset := length (c_str dest1)) in *.
  - (* "Minus", then the length *)
    destruct (@buf_write_zero_from dest1 _ offset (lit "Minus") Z1)
      as (dest2 & E2 & L2 & Z2); [simpl length; lia|].
    rewrite E2.
    destruct (@buf_write_zero_from dest2 _ (offset + 5) len_str2 Z2)
      as (dest3 & E3 & L3 & Z3); [lia|].
    exists dest3. repeat split; [assumption | lia |].
    apply (zero_from_strlen (m := 19)); [|lia].
    eapply zero_from_weaken; [exact Z3|]. simpl length. lia.
  - (* "Minus" *)
    destruct (@buf_write_zero_from dest1 _ offset (lit "Minus") Z1)
      as (dest2 & E2 & L2 & Z2); [simpl length; lia|].
    exists dest2. repeat split; [assumption | lia |].
    apply (zero_from_strlen (m := 19)); [|lia].
    eapply zero_from_weaken; [exact Z2|]. simpl length. lia.
  - (* "Plus", then the length *)
    destruct (@buf_write_zero_from dest1 _ offset (lit "Plus") Z1)
      as (dest2 & E2 & L2 & Z2); [simpl length; lia|].
    rewrite E2.
    destruct (@buf_write_zero_from dest2 _ (offset + 4) len_str2 Z2)
      as (dest3 & E3 & L3 & Z3); [lia|].
    exists dest3. repeat split; [assumption | lia |].
    apply (zero_from_strlen (m := 19)); [|lia].
    eapply zero_from_weaken; [exact Z3|]. simpl length. lia.
  - (* "Plus" with its NUL, five bytes *)
    destruct (@buf_write_nul_zero_from dest1 _ offset (lit "Plus") Z1)
      as (dest2 & E2 & L2 & Z2); [simpl length; lia|].
    exists dest2. repeat split; [assumption | lia |].
    apply (zero_from_strlen (m := 19)); [|lia].
    eapply zero_from_weaken; [exact Z2|]. simpl length. lia.
  - (* the length alone *)
    destruct (@buf_write_zero_from dest1 _ offset len_str2 Z1)
      as (dest2 & E2 & L2 & Z2); [lia|].
    exists dest2. repeat split; [assumption | lia |].
    apply (zero_from_strlen (m := 19)); [|lia].
    eapply zero_from_weaken; [exact Z2|]. lia.
  - (* no suffix *)
    exists dest1. repeat split; [assumption|]. lia.
Qed.

(** C4.  For every source string that fits the array it is passed in,
    [compact_ds_name] with a zeroed destination of 20 bytes writes only
    inside the destination and leaves a display name of at most 19
    characters, so never more than the budget of 20: the space of the
    suffixes "Minus", "Plus" and of the two digits of the length is taken
    off the size given to [snprintf] before they are appended. *)
Theorem compact_ds_name_within_budget (DATA_MAX_NAME_LEN : nat)
    (source : list ascii) :
  (strlen source < DATA_MAX_NAME_LEN)%nat ->
  exists dest,
    compact_ds_name DATA_MAX_NAME_LEN source (zeroed MAX_RRD_DS_NAME_LEN)
    = Some dest
    /\ length dest = MAX_RRD_DS_NAME_LEN
    /\ (strlen dest <= MAX_RRD_DS_NAME_LEN - 1)%nat
    /\ (strlen dest <= MAX_RRD_DS_NAME_LEN)%nat.
Proof.
  intros Hfit.
  destruct (compact_ds_name_bound source Hfit) as (dest & E & L & B).
  exists dest. repeat split; try assumption. lia.
Qed.

(** A key of 30 characters that ends with a hyphen, with
    [DATA_MAX_NAME_LEN] 64. *)
Lemma compact_ds_name_within_budget_witness :
  exists dest,
    compact_ds_name 64 (lit "abcdefghij_klmnopqrst_uvwxyz1-")
      (zeroed MAX_RRD_DS_NAME_LEN) = Some dest
    /\ length dest = MAX_RRD_DS_NAME_LEN
    /\ (strlen dest <= MAX_RRD_DS_NAME_LEN - 1)%nat
    /\ (strlen dest <= MAX_RRD_DS_NAME_LEN)%nat.
Proof.
  apply (@compact_ds_name_within_budget 64
           (lit "abcdefghij_klmnopqrst_uvwxyz1-")).
  vm_compute. lia.
Defined.

(** That key mangles to twelve characters, "Minus" and the length 30. *)
Example compact_ds_name_hyphen_30 :
  option_map c_str
    (compact_ds_name 64 (lit "abcdefghij_klmnopqrst_uvwxyz1-")
       (zeroed MAX_RRD_DS_NAME_LEN))
  = Some (lit "AbcdefghijKlMinus30").
Proof. vm_compute. reflexivity. Qed.

(** ** The split of a key path *)

Lemma is_segment_spec (s : cstring) :
  is_segment s = true -> Forall (fun c => c <> dot /\ c <> NUL) s.
Proof.
  unfold is_segment. rewrite forallb_forall, Forall_forall.
  intros Hs c Hc. specialize (Hs c Hc).
  apply andb_true_iff in Hs as [H1 H2].
  split; intros ->; discriminate.
Qed.

Lemma is_segment_no_dot (s : cstring) :
  is_segment s = true -> Forall (fun x => x <> dot) s.
Proof.
  intros Hs. apply is_segment_spec in Hs. revert Hs.
  apply Forall_impl. intros c [? ?]; assumption.
Qed.

Lemma is_segment_no_nul (s : cstring) :
  is_segment s = true -> Forall (fun x => x <> NUL) s.
Proof.
  intros Hs. apply is_segment_spec in Hs. revert Hs.
  apply Forall_impl. intros c [? ?]; assumption.
Qed.

Lemma strchr_app (a b : cstring) (c : ascii) :
  Forall (fun x => x <> c) a -> strchr (a ++ c :: b) c = Some (length a).
Proof.
  induction 1 as [|x a Hx _ IH]; simpl.
  - now rewrite Ascii.eqb_refl.
  - destruct (Ascii.eqb_spec x c); [contradiction|]. now rewrite IH.
Qed.

Lemma strrchr_none (a : cstring) (c : ascii) :
  Forall (fun x => x <> c) a -> strrchr a c = None.
Proof.
  induction 1 as [|x a Hx _ IH]; simpl; [reflexivity|].
  rewrite IH. destruct (Ascii.eqb_spec x c); [contradiction|reflexivity].
Qed.

Lemma strrchr_app (a b : cstring) (c : ascii) :
  Forall (fun x => x <> c) b -> strrchr (a ++ c :: b) c = Some (length a).
Proof.
  intros Hb. induction a as [|x a IH]; simpl.
  - now rewrite (strrchr_none Hb), Ascii.eqb_refl.
  - now rewrite IH.
Qed.

Lemma firstn_app_exact {A : Type} (a b : list A) :
  firstn (length a) (a ++ b) = a.
Proof. induction a; simpl; congruence. Qed.

Lemma skipn_app_cons {A : Type} (a b : list A) (c : A) :
  skipn (length a + 1) (a ++ c :: b) = b.
Proof. induction a; simpl; auto. Qed.

Lemma join_dots_no_nul (segs : list cstring) :
  forallb is_segment segs = true -> Forall (fun x => x <> NUL) (join_dots segs).
Proof.
  induction segs as [|s segs IH]; [constructor|].
  intros H. apply andb_true_iff in H as [Hs Hsegs].
  destruct segs as [|s' segs]; [now apply is_segment_no_nul|].
  change (Forall (fun x => x <> NUL) (s ++ dot :: join_dots (s' :: segs))).
  apply Forall_app; split; [now apply is_segment_no_nul|].
  constructor; [discriminate | exact (IH Hsegs)].
Qed.

(** A path of two or more segments ends with a dot and its last segment. *)
Lemma join_dots_last (s : cstring) (segs : list cstring) :
  segs <> [] ->
  join_dots (s :: segs)
  = join_dots (removelast (s :: segs)) ++ dot :: last segs [].
Proof.
  revert s; induction segs as [|s' segs IH]; intros s Hne; [contradiction|].
  destruct segs as [|s'' segs]; [reflexivity|].
  change (join_dots (s :: s' :: s'' :: segs))
    with (s ++ dot :: join_dots (s' :: s'' :: segs)).
  rewrite IH by discriminate.
  change (removelast (s :: s' :: s'' :: segs))
    with (s :: removelast (s' :: s'' :: segs)).
  change (last (s' :: s'' :: segs) []) with (last (s'' :: segs) []).
  destruct (removelast (s' :: s'' :: segs)) as [|x l] eqn:E.
  - destruct segs; discriminate.
  - change (join_dots (s :: x :: l)) with (s ++ dot :: join_dots (x :: l)).
    now rewrite <- app_assoc.
Qed.

Lemma strneq_type (l : cstring) :
  type_or_unlike l = true -> strneq l (lit "type") 4 = streq l (lit "type").
Proof.
  unfold type_or_unlike. intros H. apply orb_true_iff in H as [H|H].
  - rewrite H. apply streq_eq in H. subst. reflexivity.
  - apply negb_true_iff in H. rewrite H. symmetry. apply streq_neq.
    intros ->. vm_compute in H. discriminate.
Qed.

Lemma last_is_segment (rest : list cstring) :
  forallb is_segment rest = true -> is_segment (last rest []) = true.
Proof.
  induction rest as [|s rest IH]; [reflexivity|].
  intros H. apply andb_true_iff in H as [Hs Hrest].
  destruct rest; [assumption | exact (IH Hrest)].
Qed.

(** [split_key] on a path given by its segments. *)
Lemma split_key_segments (D : nat) (first : cstring) (rest : list cstring) :
  rest <> [] ->
  forallb is_segment (first :: rest) = true ->
  (length (join_dots (first :: rest)) < D)%nat ->
  type_or_unlike (last rest []) = true ->
  split_key D (join_dots (first :: rest)) = (first, short_name_of first rest).
Proof.
  intros Hne Hseg Hlen Htype.
  apply andb_true_iff in Hseg as [Hfirst Hrest].
  pose proof (strneq_type _ Htype) as Et.
  destruct rest as [|l rest]; [contradiction|]. clear Hne.
  change (join_dots (first :: l :: rest))
    with (first ++ dot :: join_dots (l :: rest)) in *.
  unfold split_key.
  rewrite (strchr_app _ (is_segment_no_dot _ Hfirst)).
  rewrite length_app in Hlen. cbn [length] in Hlen.
  destruct (Nat.ltb_spec (D - 1) (length first)); [lia|].
  rewrite firstn_app_exact, skipn_app_cons.
  destruct rest as [|l2 rest].
  - (* two segments *)
    cbn [join_dots last] in *.
    apply andb_true_iff in Hrest as [Hl _].
    rewrite (strrchr_app _ (is_segment_no_dot _ Hl)).
    rewrite Nat.sub_diag.
    destruct (Nat.ltb_spec D 0); [lia|].
    rewrite skipn_app_cons. cbn [Nat.eqb].
    rewrite Et. unfold short_name_of, strncpy. cbn [last].
    destruct (streq l (lit "type")); rewrite firstn_all2 by lia; reflexivity.
  - (* more than two segments *)
    rewrite (@join_dots_last l (l2 :: rest)) in * by discriminate.
    set (M := join_dots (removelast (l :: l2 :: rest))) in *.
    change (last (l :: l2 :: rest) []) with (last (l2 :: rest) []) in *.
    set (lst := last (l2 :: rest) []) in *.
    assert (Hlst : is_segment lst = true)
      by (apply (@last_is_segment (l :: l2 :: rest) Hrest)).
    rewrite length_app in Hlen. cbn [length] in Hlen.
    replace (first ++ dot :: M ++ dot :: lst)
      with ((first ++ dot :: M) ++ dot :: lst)
      by (now rewrite <- app_assoc).
    rewrite (strrchr_app _ (is_segment_no_dot _ Hlst)).
    rewrite skipn_app_cons.
    rewrite length_app. cbn [length].
    replace (length first + S (length M) - length first)%nat
      with (S (length M)) by lia.
    destruct (Nat.ltb_spec D (S (length M))); [lia|].
    cbn [Nat.eqb].
    rewrite Et. unfold short_name_of.
    change (last (l :: l2 :: rest) []) with lst.
    destruct (streq lst (lit "type")).
    + replace (S (length M) - 1)%nat with (length M) by lia.
      now rewrite firstn_app_exact.
    + unfold strncpy.
      rewrite firstn_all2; [|rewrite length_app; cbn [length]; lia].
      rewrite (@join_dots_last l (l2 :: rest)) by discriminate. reflexivity.
Qed.

(** *** [parse_keys] on zeroed arrays *)

Lemma Forall_firstn' {A : Type} (P : A -> Prop) (n : nat) (l : list A) :
  Forall P l -> Forall P (firstn n l).
Proof.
  intros H; revert n; induction H; intros [|n]; simpl; constructor; auto.
Qed.

Lemma Forall_skipn' {A : Type} (P : A -> Prop) (n : nat) (l : list A) :
  Forall P l -> Forall P (skipn n l).
Proof.
  intros H; revert n; induction H; intros [|n]; simpl; auto.
Qed.

Lemma c_str_idem (buf : list ascii) : c_str (c_str buf) = c_str buf.
Proof. apply c_str_id, c_str_no_nul. Qed.

Lemma c_str_app_zeroed (s : list ascii) (n : nat) :
  Forall (fun c => c <> NUL) s -> c_str (s ++ zeroed n) = s.
Proof.
  intros Hs. destruct n as [|n].
  - rewrite app_nil_r. now apply c_str_id.
  - now apply c_str_app_nul.
Qed.

Lemma buf_write_zeroed (n : nat) (s : list ascii) :
  (length s <= n)%nat ->
  buf_write (zeroed n) 0 s = Some (s ++ zeroed (n - length s)).
Proof.
  intros Hle. rewrite buf_write_some by (rewrite zeroed_length; simpl; lia).
  simpl. now rewrite skipn_zeroed.
Qed.

Lemma zeroed_app (n m : nat) : zeroed n ++ zeroed m = zeroed (n + m).
Proof. unfold zeroed. symmetry. apply repeat_app. Qed.

(** On a zeroed array [strncpy] writes what [memcpy] of the characters
    writes. *)
Lemma strncpy_into_zeroed (D : nat) (src : cstring) :
  strncpy_into (zeroed D) src (D - 1)
  = Some (firstn (D - 1) src
          ++ zeroed (D - length (firstn (D - 1) src))).
Proof.
  unfold strncpy_into.
  set (s := firstn (D - 1) src).
  assert (Hs : (length s <= D - 1)%nat)
    by (unfold s; rewrite length_firstn; lia).
  assert (Hlen : length (s ++ zeroed (D - 1 - length s)) = (D - 1)%nat)
    by (rewrite length_app, zeroed_length; lia).
  rewrite buf_write_some by (rewrite Hlen, zeroed_length; lia).
  rewrite Hlen. cbn [firstn app Nat.add].
  rewrite skipn_zeroed, <- app_assoc, zeroed_app.
  do 3 f_equal. lia.
Qed.

Lemma compact_ds_name_c_str (D : nat) (source dest : list ascii) :
  compact_ds_name D source dest = compact_ds_name D (c_str source) dest.
Proof. unfold compact_ds_name. now rewrite c_str_idem. Qed.

(** Both parts of the split are taken from the key and fit their arrays. *)
Lemma split_key_parts (D : nat) (k : cstring) :
  Forall (fun c => c <> NUL) k ->
  Forall (fun c => c <> NUL) (fst (split_key D k))
  /\ Forall (fun c => c <> NUL) (snd (split_key D k))
  /\ (length (fst (split_key D k)) <= D - 1)%nat
  /\ (length (snd (split_key D k)) <= D - 1)%nat.
Proof.
  intros Hk. unfold split_key, strncpy.
  destruct (strchr k ".") as [ptr|]; [destruct (strrchr k ".") as [rptr|]|];
    repeat match goal with
           | |- context [if ?b then _ else _] => destruct b eqn:?
           end;
    cbn [fst snd];
    repeat split;
    repeat first [ apply Forall_firstn' | apply Forall_skipn' ];
    try assumption;
    rewrite ?length_firstn;
    repeat match goal with
           | H : (_ <? _)%nat = true |- _ => apply Nat.ltb_lt in H
           | H : (_ <? _)%nat = false |- _ => apply Nat.ltb_ge in H
           | H : (_ =? _)%nat = true |- _ => apply Nat.eqb_eq in H
           | H : (_ =? _)%nat = false |- _ => apply Nat.eqb_neq in H
           end;
    try lia.
Qed.

Lemma hd_zeroed (n : nat) : hd NUL (zeroed n) = NUL.
Proof. destruct n; reflexivity. Qed.

Lemma parse_keys_zeroed (D : nat) (key_str : cstring) :
  c_str key_str <> [] ->
  exists dset_buf ds_buf,
    parse_keys D key_str (zeroed D) (zeroed MAX_RRD_DS_NAME_LEN)
    = Some (0, dset_buf, ds_buf)
    /\ c_str dset_buf = fst (split_key D (c_str key_str))
    /\ compact_ds_name D (snd (split_key D (c_str key_str)))
         (zeroed MAX_RRD_DS_NAME_LEN) = Some ds_buf
    /\ length ds_buf = MAX_RRD_DS_NAME_LEN
    /\ (strlen ds_buf <= MAX_RRD_DS_NAME_LEN - 1)%nat.
Proof.
  intros Hne. unfold parse_keys.
  destruct (c_str key_str) as [|c r] eqn:Ek; [contradiction|].
  rewrite !hd_zeroed. cbn [Ascii.eqb negb orb].
  change (Ascii.eqb NUL NUL) with true. cbn [negb orb].
  assert (Hk : Forall (fun x => x <> NUL) (c :: r))
    by (rewrite <- Ek; apply c_str_no_nul).
  destruct (split_key_parts D Hk) as (Ha & Hb & La & Lb).
  assert (Hfst : strchr (c :: r) "." = None ->
                 fst (split_key D (c :: r)) = firstn (D - 1) (c :: r)).
  { unfold split_key, strncpy. intros ->. reflexivity. }
  destruct (split_key D (c :: r)) as [a b]. cbn [fst snd] in *.
  assert (Hw : match strchr (c :: r) "." with
               | Some _ => buf_write (zeroed D) 0 a
               | None => strncpy_into (zeroed D) (c :: r) (D - 1)
               end = Some (a ++ zeroed (D - length a))).
  { destruct (strchr (c :: r) ".").
    - apply buf_write_zeroed. lia.
    - rewrite (Hfst eq_refl). apply strncpy_into_zeroed. }
  rewrite Hw. rewrite buf_write_zeroed by lia.
  rewrite compact_ds_name_c_str, c_str_app_zeroed by assumption.
  assert (Hcompact : exists ds_buf,
             compact_ds_name D b (zeroed MAX_RRD_DS_NAME_LEN) = Some ds_buf
             /\ length ds_buf = MAX_RRD_DS_NAME_LEN
             /\ (strlen ds_buf <= MAX_RRD_DS_NAME_LEN - 1)%nat).
  { destruct b as [|x b].
    - exists (zeroed MAX_RRD_DS_NAME_LEN). repeat split. vm_compute; lia.
    - apply compact_ds_name_bound. unfold strlen.
      rewrite c_str_id by assumption. simpl length in *. lia. }
  destruct Hcompact as (ds_buf & E & L & B). rewrite E.
  exists (a ++ zeroed (D - length a)), ds_buf.
  repeat split; try assumption. now apply c_str_app_zeroed.
Qed.

(** The rule worded by the specification gives "journal_wr_bytes" for the
    path filestore.journal_wr_bytes.sum; [split_key] keeps all that follows
    the first dot, and [parse_keys] mangles that. *)
Lemma split_key_keeps_last_segment :
  claimed_short_name (lit "filestore.journal_wr_bytes.sum")
  = lit "journal_wr_bytes"
  /\ streq (snd (split_key 64 (lit "filestore.journal_wr_bytes.sum")))
           (claimed_short_name (lit "filestore.journal_wr_bytes.sum"))
     = false
  /\ split_key 64 (lit "filestore.journal_wr_bytes.sum")
     = (lit "filestore", lit "journal_wr_bytes.sum")
  /\ option_map (fun r => (fst (fst r), c_str (snd (fst r)), c_str (snd r)))
       (parse_keys 64 (lit "filestore.journal_wr_bytes.sum")
          (zeroed 64) (zeroed MAX_RRD_DS_NAME_LEN))
     = Some (0, lit "filestore", lit "JournalWrBytes.sum").
Proof. repeat split; vm_compute; reflexivity. Qed.

(** C3 (amended).  For a key path of two or more segments that fits the
    long-name budget and whose last segment is "type" or does not begin
    with "type": [parse_keys] on zeroed arrays returns 0, leaves the first
    segment as the data set name, and mangles the short name
    [short_name_of]: with two segments the first segment when the last is
    "type" and the last segment otherwise; with more segments what lies
    between the first dot and the last segment "type", or everything
    after the first dot, the last segment and the dots included.  The
    result depends on the C string of the key alone, not on the bytes
    after its NUL. *)
Theorem parse_keys_split (DATA_MAX_NAME_LEN : nat) (first : cstring)
    (rest : list cstring) :
  rest <> [] ->
  forallb is_segment (first :: rest) = true ->
  (length (join_dots (first :: rest)) < DATA_MAX_NAME_LEN)%nat ->
  type_or_unlike (last rest []) = true ->
  split_key DATA_MAX_NAME_LEN (join_dots (first :: rest))
  = (first, short_name_of first rest)
  /\ (exists dset_buf ds_buf,
        parse_keys DATA_MAX_NAME_LEN (join_dots (first :: rest))
          (zeroed DATA_MAX_NAME_LEN) (zeroed MAX_RRD_DS_NAME_LEN)
        = Some (0, dset_buf, ds_buf)
        /\ c_str dset_buf = first
        /\ compact_ds_name DATA_MAX_NAME_LEN (short_name_of first rest)
             (zeroed MAX_RRD_DS_NAME_LEN) = Some ds_buf)
  /\ (forall behind,
        parse_keys DATA_MAX_NAME_LEN
          (join_dots (first :: rest) ++ NUL :: behind)
          (zeroed DATA_MAX_NAME_LEN) (zeroed MAX_RRD_DS_NAME_LEN)
        = parse_keys DATA_MAX_NAME_LEN (join_dots (first :: rest))
            (zeroed DATA_MAX_NAME_LEN) (zeroed MAX_RRD_DS_NAME_LEN)).
Proof.
  intros Hne Hseg Hlen Htype.
  pose proof (@split_key_segments DATA_MAX_NAME_LEN first rest Hne Hseg Hlen Htype)
    as Es.
  pose proof (join_dots_no_nul _ Hseg) as Hnul.
  assert (Ek : c_str (join_dots (first :: rest)) = join_dots (first :: rest))
    by (now apply c_str_id).
  split; [exact Es|]. split.
  - destruct (@parse_keys_zeroed DATA_MAX_NAME_LEN (join_dots (first :: rest)))
      as (dset_buf & ds_buf & E & Ed & Ec & _).
    + rewrite Ek. destruct rest as [|l rest]; [contradiction|].
      change (join_dots (first :: l :: rest))
        with (first ++ dot :: join_dots (l :: rest)).
      destruct first; discriminate.
    + rewrite Ek, Es in Ed, Ec. exists dset_buf, ds_buf. auto.
  - intros behind. unfold parse_keys.
    now rewrite (c_str_app_nul behind Hnul), Ek.
Qed.

(** The path filestore.journal_wr_bytes.type of the schema, with
    [DATA_MAX_NAME_LEN] 64. *)
Lemma parse_keys_split_witness :
  let first := lit "filestore" in
  let rest := [lit "journal_wr_bytes"; lit "type"] in
  split_key 64 (join_dots (first :: rest)) = (first, short_name_of first rest)
  /\ (exists dset_buf ds_buf,
        parse_keys 64 (join_dots (first :: rest))
          (zeroed 64) (zeroed MAX_RRD_DS_NAME_LEN)
        = Some (0, dset_buf, ds_buf)
        /\ c_str dset_buf = first
        /\ compact_ds_name 64 (short_name_of first rest)
             (zeroed MAX_RRD_DS_NAME_LEN) = Some ds_buf)
  /\ (forall behind,
        parse_keys 64 (join_dots (first :: rest) ++ NUL :: behind)
          (zeroed 64) (zeroed MAX_RRD_DS_NAME_LEN)
        = parse_keys 64 (join_dots (first :: rest))
            (zeroed 64) (zeroed MAX_RRD_DS_NAME_LEN)).
Proof.
  apply (@parse_keys_split 64 (lit "filestore")
           [lit "journal_wr_bytes"; lit "type"]).
  - discriminate.
  - reflexivity.
  - vm_compute. lia.
  - reflexivity.
Defined.

(** The short name of that path is the interior segment. *)
Example short_name_of_schema_path :
  short_name_of (lit "filestore") [lit "journal_wr_bytes"; lit "type"]
  = lit "journal_wr_bytes".
Proof. reflexivity. Qed.

(** ** The rate engine: interval averages *)

Lemma update_first_found (tbl : last_poll_data_t) (dset_n ds_n : cstring)
    (cur_sum : float) (cur_count : Z) (e : last_data) :
  find_last tbl dset_n ds_n = Some e ->
  exists tbl',
    update_first tbl dset_n ds_n cur_sum cur_count = Some tbl'
    /\ find_last tbl' dset_n ds_n = Some (refreshed e cur_sum cur_count)
    /\ length tbl' = length tbl.
Proof.
  induction tbl as [|x tbl IH]; simpl; [discriminate|].
  destruct (same_key x dset_n ds_n) eqn:Ex.
  - intros E; inversion E; subst. eexists; split; [reflexivity|].
    simpl. unfold same_key in *. simpl. rewrite Ex. auto.
  - intros E. destruct (IH E) as (tbl' & -> & Hf & Hl).
    eexists; split; [reflexivity|]. simpl. rewrite Ex. auto.
Qed.

Lemma update_first_missing (tbl : last_poll_data_t) (dset_n ds_n : cstring)
    (cur_sum : float) (cur_count : Z) :
  find_last tbl dset_n ds_n = None ->
  update_first tbl dset_n ds_n cur_sum cur_count = None.
Proof.
  induction tbl as [|x tbl IH]; simpl; [reflexivity|].
  destruct (same_key x dset_n ds_n); [discriminate|].
  intros E. now rewrite (IH E).
Qed.

Lemma find_last_app (tbl : last_poll_data_t) (e : last_data)
    (dset_n ds_n : cstring) :
  find_last tbl dset_n ds_n = None ->
  find_last (tbl ++ [e]) dset_n ds_n
  = if same_key e dset_n ds_n then Some e else None.
Proof.
  induction tbl as [|x tbl IH]; simpl; [reflexivity|].
  destruct (same_key x dset_n ds_n); [discriminate | exact IH].
Qed.

Lemma sstrncpy_fits (s : cstring) (n : nat) :
  (length s < n)%nat -> sstrncpy s n = s.
Proof. intros H. unfold sstrncpy. apply firstn_all2. lia. Qed.

(** [get_last_avg] when the table has an entry of the key: no allocation,
    the entry is refreshed. *)
Lemma get_last_avg_found (D : nat) (alloc_ok : bool) (tbl : last_poll_data_t)
    (dset_n ds_n : cstring) (cur_sum : float) (cur_count : Z) (e : last_data) :
  find_last tbl dset_n ds_n = Some e ->
  exists tbl',
    get_last_avg D alloc_ok tbl dset_n ds_n cur_sum cur_count
    = (interval_avg e cur_sum cur_count, tbl')
    /\ find_last tbl' dset_n ds_n = Some (refreshed e cur_sum cur_count)
    /\ length tbl' = length tbl.
Proof.
  intros Hf. unfold get_last_avg, update_last. rewrite Hf.
  destruct (@update_first_found tbl dset_n ds_n cur_sum cur_count e Hf)
    as (tbl' & -> & Hf' & Hl).
  exists tbl'. split; [|auto].
  change (0 =? - ENOMEM) with false. cbv iota. unfold interval_avg.
  destruct (cur_count <? last_count e); [reflexivity|reflexivity].
Qed.

(** [get_last_avg] when the table has no entry of the key and the
    allocator serves the call. *)
Lemma get_last_avg_missing (D : nat) (tbl : last_poll_data_t)
    (dset_n ds_n : cstring) (cur_sum : float) (cur_count : Z) :
  find_last tbl dset_n ds_n = None ->
  get_last_avg D true tbl dset_n ds_n cur_sum cur_count
  = (nan,
     tbl ++ [ {| dset_name := sstrncpy dset_n D;
                 ds_name := sstrncpy ds_n MAX_RRD_DS_NAME_LEN;
                 last_sum := cur_sum; last_count := cur_count |} ]).
Proof.
  intros Hf. unfold get_last_avg, update_last, add_last. rewrite Hf.
  rewrite (@update_first_missing tbl dset_n ds_n cur_sum cur_count Hf).
  reflexivity.
Qed.

(** After a poll that the allocator served, the table has an entry of the
    key with the values of the poll. *)
Lemma get_last_avg_baseline (D : nat) (tbl : last_poll_data_t)
    (dset_n ds_n : cstring) (cur_sum : float) (cur_count : Z) :
  (length dset_n < D)%nat -> (length ds_n < MAX_RRD_DS_NAME_LEN)%nat ->
  exists e,
    find_last (snd (get_last_avg D true tbl dset_n ds_n cur_sum cur_count))
      dset_n ds_n = Some e
    /\ last_sum e = cur_sum /\ last_count e = cur_count.
Proof.
  intros Hd Hs. destruct (find_last tbl dset_n ds_n) as [e|] eqn:Hf.
  - destruct (@get_last_avg_found D true tbl dset_n ds_n cur_sum cur_count e Hf)
      as (tbl' & -> & Hf' & _).
    eexists; split; [exact Hf'|]. split; reflexivity.
  - rewrite (@get_last_avg_missing D tbl dset_n ds_n cur_sum cur_count Hf).
    cbn [snd].
    rewrite (@find_last_app tbl _ dset_n ds_n Hf). unfold same_key. cbn [dset_name ds_name].
    rewrite !sstrncpy_fits by assumption. rewrite !streq_refl. cbn [andb].
    eexists; split; [reflexivity|]. split; reflexivity.
Qed.

Lemma interval_avg_regression (e : last_data) (cur_sum : float) (cur_count : Z) :
  cur_count < last_count e -> interval_avg e cur_sum cur_count = nan.
Proof.
  intros H. unfold interval_avg.
  destruct (Z.ltb_spec cur_count (last_count e)); [reflexivity | lia].
Qed.

(** The poll that follows a poll with the values [(s0, c0)]. *)
Lemma get_last_avg_next (D : nat) (tbl : last_poll_data_t)
    (dset_n ds_n : cstring) (s0 : float) (c0 : Z) (s1 : float) (c1 : Z) :
  (length dset_n < D)%nat -> (length ds_n < MAX_RRD_DS_NAME_LEN)%nat ->
  exists e,
    last_sum e = s0 /\ last_count e = c0
    /\ fst (get_last_avg D true
              (snd (get_last_avg D true tbl dset_n ds_n s0 c0))
              dset_n ds_n s1 c1)
       = interval_avg e s1 c1.
Proof.
  intros Hd Hs.
  destruct (@get_last_avg_baseline D tbl dset_n ds_n s0 c0 Hd Hs)
    as (e & Hf & Es & Ec).
  destruct (@get_last_avg_found D true _ dset_n ds_n s1 c1 e Hf)
    as (tbl' & -> & _).
  exists e. auto.
Qed.

(** C1.  In interval mode, for a key that fits the arrays of its names
    and whatever the table holds before: after a poll with (sum 10.0,
    count 5) the poll with (30.0, 15) reports 2.0; a poll whose count is
    less than the count stored for the key reports not-a-number and
    leaves the entry of the key with the new sum and count, whether the
    allocator would serve a call or not; and after the polls (30.0, 15)
    and (5.0, 3), of which the second reports not-a-number, the poll
    (25.0, 10) reports 20.0 / 7. *)
Theorem interval_rate_engine (DATA_MAX_NAME_LEN : nat)
    (tbl : last_poll_data_t) (dset_n ds_n : cstring) :
  (length dset_n < DATA_MAX_NAME_LEN)%nat ->
  (length ds_n < MAX_RRD_DS_NAME_LEN)%nat ->
  fst (get_last_avg DATA_MAX_NAME_LEN true
         (snd (get_last_avg DATA_MAX_NAME_LEN true tbl dset_n ds_n 10 5))
         dset_n ds_n 30 15) = 2%float
  /\ (forall alloc_ok e cur_sum cur_count,
        find_last tbl dset_n ds_n = Some e ->
        cur_count < last_count e ->
        fst (get_last_avg DATA_MAX_NAME_LEN alloc_ok tbl dset_n ds_n
               cur_sum cur_count) = nan
        /\ find_last
             (snd (get_last_avg DATA_MAX_NAME_LEN alloc_ok tbl dset_n ds_n
                     cur_sum cur_count)) dset_n ds_n
           = Some (refreshed e cur_sum cur_count))
  /\ fst (get_last_avg DATA_MAX_NAME_LEN true
            (snd (get_last_avg DATA_MAX_NAME_LEN true tbl dset_n ds_n 30 15))
            dset_n ds_n 5 3) = nan
  /\ fst (get_last_avg DATA_MAX_NAME_LEN true
            (snd (get_last_avg DATA_MAX_NAME_LEN true
                    (snd (get_last_avg DATA_MAX_NAME_LEN true tbl
                            dset_n ds_n 30 15))
                    dset_n ds_n 5 3))
            dset_n ds_n 25 10) = (20 / 7)%float.
Proof.
  intros Hd Hs. repeat split.
  - destruct (@get_last_avg_next DATA_MAX_NAME_LEN tbl dset_n ds_n
                10%float 5 30%float 15 Hd Hs) as (e & Es & Ec & ->).
    destruct e as [a b s c]; cbn [last_sum last_count] in *; subst.
    reflexivity.
  - destruct (@get_last_avg_found DATA_MAX_NAME_LEN alloc_ok tbl dset_n ds_n
                cur_sum cur_count e H) as (tbl' & -> & _).
    cbn [fst]. now apply interval_avg_regression.
  - destruct (@get_last_avg_found DATA_MAX_NAME_LEN alloc_ok tbl dset_n ds_n
                cur_sum cur_count e H) as (tbl' & -> & Hf & _).
    exact Hf.
  - destruct (@get_last_avg_next DATA_MAX_NAME_LEN tbl dset_n ds_n
                30%float 15 5%float 3 Hd Hs) as (e & Es & Ec & ->).
    apply interval_avg_regression. lia.
  - destruct (@get_last_avg_next DATA_MAX_NAME_LEN
                (snd (get_last_avg DATA_MAX_NAME_LEN true tbl dset_n ds_n 30 15))
                dset_n ds_n 5%float 3 25%float 10 Hd Hs)
      as (e & Es & Ec & ->).
    destruct e as [a b s c]; cbn [last_sum last_count] in *; subst.
    reflexivity.
Qed.

(** The key (osd, OpLatency) on the empty table, [DATA_MAX_NAME_LEN] 64. *)
Lemma interval_rate_engine_witness :
  let D := 64%nat in
  let dset_n := lit "osd" in
  let ds_n := lit "OpLatency" in
  fst (get_last_avg D true (snd (get_last_avg D true [] dset_n ds_n 10 5))
         dset_n ds_n 30 15) = 2%float
  /\ (forall alloc_ok e cur_sum cur_count,
        find_last [] dset_n ds_n = Some e ->
        cur_count < last_count e ->
        fst (get_last_avg D alloc_ok [] dset_n ds_n cur_sum cur_count) = nan
        /\ find_last
             (snd (get_last_avg D alloc_ok [] dset_n ds_n cur_sum cur_count))
             dset_n ds_n
           = Some (refreshed e cur_sum cur_count))
  /\ fst (get_last_avg D true (snd (get_last_avg D true [] dset_n ds_n 30 15))
            dset_n ds_n 5 3) = nan
  /\ fst (get_last_avg D true
            (snd (get_last_avg D true
                    (snd (get_last_avg D true [] dset_n ds_n 30 15))
                    dset_n ds_n 5 3))
            dset_n ds_n 25 10) = (20 / 7)%float.
Proof.
  apply (@interval_rate_engine 64 [] (lit "osd") (lit "OpLatency"));
    vm_compute; lia.
Defined.

(** The three polls of the specification, run on the empty table. *)
Example interval_rate_engine_run :
  let k1 := lit "osd" in
  let k2 := lit "OpLatency" in
  let p1 := get_last_avg 64 true [] k1 k2 30 15 in
  let p2 := get_last_avg 64 true (snd p1) k1 k2 5 3 in
  let p3 := get_last_avg 64 true (snd p2) k1 k2 25 10 in
  (fst p1, fst p2, fst p3) = (nan, nan, 0x1.6db6db6db6db7p+1%float)
  /\ snd p3 = [ {| dset_name := k1; ds_name := k2;
                   last_sum := 25; last_count := 10 |} ].
Proof. vm_compute. split; reflexivity. Qed.

(** C10.  In interval mode, when the table has no entry of the key and
    the allocator serves the call, [get_last_avg] reports not-a-number and
    appends an entry with the sum and the count observed; for a key that
    fits the arrays of its names the entry is found under the key, so the
    next poll is computed against it, and it can report a number: after
    (10.0, 5), the poll (30.0, 15) reports 2.0. *)
Theorem first_observation_reports_nan (DATA_MAX_NAME_LEN : nat)
    (tbl : last_poll_data_t) (dset_n ds_n : cstring)
    (cur_sum : float) (cur_count : Z) :
  find_last tbl dset_n ds_n = None ->
  get_last_avg DATA_MAX_NAME_LEN true tbl dset_n ds_n cur_sum cur_count
  = (nan,
     tbl ++ [ {| dset_name := sstrncpy dset_n DATA_MAX_NAME_LEN;
                 ds_name := sstrncpy ds_n MAX_RRD_DS_NAME_LEN;
                 last_sum := cur_sum; last_count := cur_count |} ])
  /\ ((length dset_n < DATA_MAX_NAME_LEN)%nat ->
      (length ds_n < MAX_RRD_DS_NAME_LEN)%nat ->
      find_last
        (snd (get_last_avg DATA_MAX_NAME_LEN true tbl dset_n ds_n
                cur_sum cur_count)) dset_n ds_n
      = Some {| dset_name := dset_n; ds_name := ds_n;
                last_sum := cur_sum; last_count := cur_count |}
      /\ (forall next_sum next_count,
            fst (get_last_avg DATA_MAX_NAME_LEN true
                   (snd (get_last_avg DATA_MAX_NAME_LEN true tbl dset_n ds_n
                           cur_sum cur_count))
                   dset_n ds_n next_sum next_count)
            = interval_avg {| dset_name := dset_n; ds_name := ds_n;
                              last_sum := cur_sum; last_count := cur_count |}
                next_sum next_count)
      /\ interval_avg {| dset_name := dset_n; ds_name := ds_n;
                         last_sum := 10; last_count := 5 |} 30 15
         = 2%float).
Proof.
  intros Hf.
  pose proof (@get_last_avg_missing DATA_MAX_NAME_LEN tbl dset_n ds_n
                cur_sum cur_count Hf) as E.
  split; [exact E|]. intros Hd Hs. rewrite E. cbn [snd].
  assert (Hfound :
            find_last
              (tbl ++ [ {| dset_name := sstrncpy dset_n DATA_MAX_NAME_LEN;
                           ds_name := sstrncpy ds_n MAX_RRD_DS_NAME_LEN;
                           last_sum := cur_sum; last_count := cur_count |} ])
              dset_n ds_n
            = Some {| dset_name := dset_n; ds_name := ds_n;
                      last_sum := cur_sum; last_count := cur_count |}).
  { rewrite (@find_last_app tbl _ dset_n ds_n Hf). unfold same_key.
    cbn [dset_name ds_name].
    rewrite !sstrncpy_fits by assumption. rewrite !streq_refl. reflexivity. }
  split; [exact Hfound|]. split; [|reflexivity].
  intros next_sum next_count.
  destruct (@get_last_avg_found DATA_MAX_NAME_LEN true _ dset_n ds_n
              next_sum next_count _ Hfound) as (tbl' & -> & _).
  reflexivity.
Qed.

(** The first poll of the process: the table is empty. *)
Lemma first_observation_reports_nan_witness :
  get_last_avg 64 true [] (lit "osd") (lit "OpLatency") 10 5
  = (nan,
     [ {| dset_name := sstrncpy (lit "osd") 64;
          ds_name := sstrncpy (lit "OpLatency") MAX_RRD_DS_NAME_LEN;
          last_sum := 10; last_count := 5 |} ])
  /\ fst (get_last_avg 64 true
            (snd (get_last_avg 64 true [] (lit "osd") (lit "OpLatency") 10 5))
            (lit "osd") (lit "OpLatency") 30 15) = 2%float.
Proof.
  pose proof (@first_observation_reports_nan 64 [] (lit "osd")
                (lit "OpLatency") 10%float 5 eq_refl) as [E H].
  split; [exact E|].
  destruct H as (_ & Hnext & Hval); [vm_compute; lia | vm_compute; lia |].
  rewrite Hnext. exact Hval.
Defined.

(** ** The divisor of the average *)

(** In long-run mode the divisor is [vtmp->avgcount] after the test that
    replaces 0 by 1: it is not zero. *)
Lemma long_run_divisor_nonzero (avgcount : Z) :
  (guarded_avgcount avgcount =? 0) = false.
Proof.
  unfold guarded_avgcount. destruct (Z.eqb_spec avgcount 0) as [->|H].
  - reflexivity.
  - now apply Z.eqb_neq.
Qed.

Lemma fetch_latency_long_run (D : nat) (alloc_ok : bool)
    (tbl : last_poll_data_t) (dset_n ds_n : cstring) (avgcount : Z)
    (val : scanned) :
  (avgcount =? avgcount_unset) = false ->
  fetch_latency D true alloc_ok tbl dset_n ds_n avgcount val
  = (0, avgcount_unset,
     Some (scan_double val / double_of_uint64 (guarded_avgcount avgcount))%float,
     tbl).
Proof. intros H. unfold fetch_latency. now rewrite H. Qed.

(** C2 (the code at an input where the claim fails).  Interval mode, the
    key (osd, OpLatency): after the observation (sum 10.0, count 5) the
    observation (12.0, 5) has the count difference 0, the test on
    [vtmp->avgcount] does not change the count 5, and the division by that
    difference stores infinity in the gauge; with the sum unchanged the
    quotient 0 / 0 is not-a-number. *)
Theorem interval_divisor_can_be_zero :
  let e := {| dset_name := lit "osd"; ds_name := lit "OpLatency";
              last_sum := 10; last_count := 5 |} in
  snd (get_last_avg 64 true [] (lit "osd") (lit "OpLatency") 10 5) = [e]
  /\ guarded_avgcount 5 = 5
  /\ count_delt e (guarded_avgcount 5) = 0
  /\ fetch_latency 64 false true [e] (lit "osd") (lit "OpLatency") 5
       {| scan_u64 := 12; scan_double := 12 |}
     = (0, avgcount_unset, Some infinity, [refreshed e 12 5])
  /\ fetch_latency 64 false true [e] (lit "osd") (lit "OpLatency") 5
       {| scan_u64 := 10; scan_double := 10 |}
     = (0, avgcount_unset, Some nan, [refreshed e 10 5]).
Proof. vm_compute. repeat split; reflexivity. Qed.

(** ** The key-path reducer *)

Lemma map_key_push (D Y : nat) (H : Type) (y : yajl_struct H)
    (k : list ascii) :
  0 <= depth y -> depth y + 1 < Z.of_nat Y ->
  (length (c_str k) < D)%nat ->
  ceph_cb_map_key D Y y k
  = CbReturn CEPH_CB_CONTINUE
      {| handler_arg := handler_arg y;
         state := list_upd (state y) (Z.to_nat (depth y))
                    {| key := c_str k; key_len := Z.of_nat (length k) + 1 |};
         depth := depth y + 1 |}.
Proof.
  intros H0 H1 H2. unfold ceph_cb_map_key.
  destruct (Z.leb_spec (Z.of_nat Y) (depth y + 1)); [lia|].
  destruct (Z.ltb_spec (depth y) 0); [lia|].
  destruct (Nat.ltb_spec D (length (c_str k) + 1)); [lia|].
  reflexivity.
Qed.

Lemma state_at_inside (Y : nat) (H : Type) (y : yajl_struct H) (i : Z) :
  0 <= i < Z.of_nat Y -> state_at Y y i = nth_error (state y) (Z.to_nat i).
Proof.
  intros Hi. unfold state_at.
  destruct (Z.leb_spec 0 i); [|lia].
  destruct (Z.ltb_spec i (Z.of_nat Y)); [reflexivity|lia].
Qed.

Lemma state_at_some (Y : nat) (H : Type) (y : yajl_struct H) (i : Z) :
  length (state y) = Y -> 0 <= i < Z.of_nat Y ->
  exists s, state_at Y y i = Some s.
Proof.
  intros Hl Hi. rewrite state_at_inside by assumption.
  destruct (nth_error (state y) (Z.to_nat i)) as [s|] eqn:E; [eauto|].
  apply nth_error_None in E. lia.
Qed.

(** The loop of [ceph_cb_number] stays inside the stack: from depth 3 on
    in any case, from depth 1 on when special metrics are not converted. *)
Lemma number_path_stack_safe (Y : nat) (conv : bool) (H : Type)
    (y : yajl_struct H) (fuel : nat) (i : Z) (k : cstring) :
  length (state y) = Y -> 1 <= depth y <= Z.of_nat Y ->
  (conv = true -> 3 <= depth y) -> 1 <= i ->
  path_stack_safe (number_path Y conv fuel y i k) = true.
Proof.
  intros Hl Hd Hc. revert i k.
  induction fuel as [|fuel IH]; intros i k Hi; cbn [number_path];
    [reflexivity|].
  destruct (Z.ltb_spec i (depth y)); [|reflexivity].
  destruct (@state_at_some Y H y i Hl ltac:(lia)) as [si ->].
  destruct ((i =? depth y - 1)
            && (streq (c_str (key si)) (lit "avgcount")
                || streq (c_str (key si)) (lit "sum"))) eqn:Ec.
  - apply andb_true_iff in Ec as [Ei _]. apply Z.eqb_eq in Ei.
    destruct conv; [|reflexivity]. specialize (Hc eq_refl).
    destruct (@state_at_some Y H y (i - 1) Hl ltac:(lia)) as [sp ->].
    destruct (streq (c_str (key sp)) (lit "journal_wr_bytes")); [|reflexivity].
    destruct (@state_at_some Y H y (i - 2) Hl ltac:(lia)) as [spp ->].
    destruct (streq (c_str (key spp)) (lit "filestore")
              && streq (c_str (key si)) (lit "avgcount")); reflexivity.
  - destruct (key_append k (c_str (key si))); [|reflexivity].
    apply IH. lia.
Qed.

Lemma first_key_stack_safe (Y : nat) (H : Type) (y : yajl_struct H) :
  length (state y) = Y -> (1 <= Y)%nat ->
  match first_key Y y with
  | inr (StackIndex _) => False
  | _ => True
  end.
Proof.
  intros Hl HY. unfold first_key.
  destruct (@state_at_some Y H y 0 Hl ltac:(lia)) as [s0 ->].
  destruct (key_len s0 <=? 0); [exact I|].
  destruct (128 <=? _)%nat; exact I.
Qed.

(** What follows the loop: the calls of the handler. *)
Lemma number_calls_stack_safe (Y : nat) (conv : bool) (H : Type)
    (handler : H -> cstring -> cstring -> Z * H) (y : yajl_struct H)
    (v : list ascii) (k0 : cstring) :
  length (state y) = Y -> 1 <= depth y <= Z.of_nat Y ->
  first_key Y y = inl k0 ->
  path_stack_safe (number_path Y conv (Z.to_nat (depth y)) y 1 k0) = true ->
  stack_safe (ceph_cb_number Y conv handler y v) = true.
Proof.
  intros Hl Hd Ek Hp. unfold ceph_cb_number. rewrite Ek.
  destruct (number_path Y conv (Z.to_nat (depth y)) y 1 k0)
    as [|k lat|u]; [reflexivity| |destruct u; [discriminate|reflexivity..]].
  destruct (handler (handler_arg y) (c_str v) k) as [r a1].
  destruct ((r =? RETRY_AVGCOUNT) && lat).
  - destruct (@state_at_some Y H y (depth y - 1) Hl ltac:(lia)) as [sl ->].
    destruct (key_append k (c_str (key sl))); [|reflexivity].
    destruct (handler a1 (c_str v) c) as [r2 a2].
    destruct (r2 =? - ENOMEM); reflexivity.
  - destruct (r =? - ENOMEM); reflexivity.
Qed.

(** *** The pair filestore.journal_wr_bytes *)

Lemma continue_eqb : (CEPH_CB_CONTINUE =? CEPH_CB_CONTINUE) = true.
Proof. reflexivity. Qed.

Ltac push_key :=
  rewrite map_key_push;
  [ | cbn [depth]; lia | cbn [depth]; lia | vm_compute; lia ];
  cbn [depth state handler_arg];
  rewrite ?continue_eqb; cbv iota.

Ltac run_number :=
  unfold with_depth; cbn [depth state handler_arg];
  unfold ceph_cb_number at 1; unfold first_key;
  repeat (rewrite !state_at_inside by (cbn [depth]; lia); simpl).

Ltac run_key :=
  unfold with_depth; cbn [depth state handler_arg];
  push_key; simpl list_upd.

Lemma start_cells (Y : nat) :
  (4 <= Y)%nat ->
  exists tail,
    repeat {| key := []; key_len := 0 |} Y
    = {| key := []; key_len := 0 |} :: {| key := []; key_len := 0 |}
      :: {| key := []; key_len := 0 |} :: tail.
Proof.
  intros HY. destruct Y as [|[|[|n]]]; try lia. eexists; reflexivity.
Qed.

(** With the handler that accepts every call, special metrics converted:
    the one callback is for the path filestore.journal_wr_bytes, not for
    filestore.journal_wr_bytes.sum; with the handler that answers
    [RETRY_AVGCOUNT] there are two callbacks. *)
Lemma journal_wr_bytes_first_path :
  calls_of (traverse_events 64 128 true
              (recording (fun (a : unit) (_ _ : cstring) => (0, a)))
              (yajl_start 128 (tt, [])) journal_wr_bytes_events)
  = Some [(lit "42.0", lit "filestore.journal_wr_bytes")]
  /\ streq (lit "filestore.journal_wr_bytes")
           (lit "filestore.journal_wr_bytes.sum") = false
  /\ calls_of (traverse_events 64 128 true
                 (recording (fun (a : unit) (_ _ : cstring) =>
                               (RETRY_AVGCOUNT, a)))
                 (yajl_start 128 (tt, [])) journal_wr_bytes_events)
     = Some [(lit "42.0", lit "filestore.journal_wr_bytes");
             (lit "42.0", lit "filestore.journal_wr_bytes.sum")].
Proof. vm_compute. repeat split; reflexivity. Qed.

(** C5 (amended).  For the events of the text
    {"filestore":{"journal_wr_bytes":{"avgcount":7,"sum":42.0}}}, every
    handler and every start argument, when a key of 16 characters fits
    [state[].key] and the stack has room for depth 3: with special metrics
    converted, the leaf avgcount makes no callback and the leaf sum makes
    one callback with the value 42.0 and the path
    filestore.journal_wr_bytes, followed by a second one with the path
    filestore.journal_wr_bytes.sum exactly when the handler answered
    [RETRY_AVGCOUNT]; without the conversion and with a handler that
    accepts the path filestore.journal_wr_bytes, there are two callbacks,
    for the value 7 and then for the value 42.0, both with that path. *)
Theorem journal_wr_bytes_callbacks (D Y : nat) (H : Type)
    (handler : H -> cstring -> cstring -> Z * H) (arg : H) :
  (17 <= D)%nat -> (4 <= Y)%nat ->
  calls_of (traverse_events D Y true (recording handler)
              (yajl_start Y (arg, [])) journal_wr_bytes_events)
  = Some ((lit "42.0", short_path)
          :: if fst (handler arg (lit "42.0") short_path) =? RETRY_AVGCOUNT
             then [(lit "42.0", lit "filestore.journal_wr_bytes.sum")]
             else [])
  /\ ((forall a v, fst (handler a v short_path) = 0) ->
      calls_of (traverse_events D Y false (recording handler)
                  (yajl_start Y (arg, [])) journal_wr_bytes_events)
      = Some [(lit "7", short_path); (lit "42.0", short_path)]).
Proof.
  intros HD HY.
  unfold journal_wr_bytes_events, yajl_start.
  destruct (start_cells HY) as [tail ->].
  unfold short_path, lit. cbn [list_ascii_of_string].
  split.
  - cbn [traverse_events callback].
    rewrite ?continue_eqb; cbv iota.
    do 3 run_key. run_number. run_key. run_number.
    unfold recording. cbn [fst snd].
    match goal with
    | |- context [handler arg ?v ?k] =>
        destruct (handler arg v k) as [r a1]
    end.
    cbn [fst app].
    destruct (r =? RETRY_AVGCOUNT); cbn [andb].
    + match goal with
      | |- context [handler a1 ?v ?k] =>
          destruct (handler a1 v k) as [r2 a2]
      end.
      destruct (r2 =? -12); reflexivity.
    + destruct (r =? -12); reflexivity.
  - intros Hacc.
    cbn [traverse_events callback].
    rewrite ?continue_eqb; cbv iota.
    do 3 run_key. run_number.
    unfold recording. cbn [fst snd].
    match goal with
    | |- context [handler arg ?v ?k] =>
        pose proof (Hacc arg v) as H7;
        destruct (handler arg v k) as [r a1]
    end.
    cbn [fst] in H7. subst r.
    unfold RETRY_AVGCOUNT. simpl.
    run_key. run_number.
    match goal with
    | |- context [handler a1 ?v ?k] =>
        pose proof (Hacc a1 v) as H42;
        destruct (handler a1 v k) as [r a2]
    end.
    cbn [fst] in H42. subst r.
    reflexivity.
Qed.

(** The handler that accepts every call, [DATA_MAX_NAME_LEN] 64 and
    [YAJL_MAX_DEPTH] 128. *)
Lemma journal_wr_bytes_callbacks_witness :
  let handler := fun (a : unit) (_ _ : cstring) => (0, a) in
  calls_of (traverse_events 64 128 true (recording handler)
              (yajl_start 128 (tt, [])) journal_wr_bytes_events)
  = Some [(lit "42.0", short_path)]
  /\ calls_of (traverse_events 64 128 false (recording handler)
                 (yajl_start 128 (tt, [])) journal_wr_bytes_events)
     = Some [(lit "7", short_path); (lit "42.0", short_path)].
Proof.
  destruct (@journal_wr_bytes_callbacks 64 128 unit
              (fun (a : unit) (_ _ : cstring) => (0, a)) tt
              ltac:(lia) ltac:(lia)) as [E1 E2].
  split; [exact E1 | apply E2; reflexivity].
Defined.

(** *** The special case and the bounds of the key stack *)

Lemma ceph_cb_number_stack_safe (Y : nat) (conv : bool) (H : Type)
    (handler : H -> cstring -> cstring -> Z * H) (y : yajl_struct H)
    (v : list ascii) :
  length (state y) = Y -> 1 <= depth y <= Z.of_nat Y ->
  (conv = true -> 3 <= depth y) ->
  stack_safe (ceph_cb_number Y conv handler y v) = true.
Proof.
  intros Hl Hd Hc.
  pose proof (@first_key_stack_safe Y H y Hl ltac:(lia)) as Hk.
  destruct (first_key Y y) as [k0|u] eqn:Ek.
  - apply (@number_calls_stack_safe Y conv H handler y v k0 Hl Hd Ek).
    apply number_path_stack_safe; try assumption. lia.
  - unfold ceph_cb_number. rewrite Ek.
    destruct u; [contradiction | reflexivity..].
Qed.

(** The loop for a leaf avgcount or sum at depth 2, special metrics
    converted. *)
Lemma number_path_depth2 (Y : nat) (H : Type) (y : yajl_struct H)
    (s0 s1 : key_state) (k0 : cstring) :
  depth y = 2 -> (2 <= Y)%nat ->
  nth_error (state y) 0 = Some s0 ->
  nth_error (state y) 1 = Some s1 ->
  streq (c_str (key s1)) (lit "avgcount")
  || streq (c_str (key s1)) (lit "sum") = true ->
  number_path Y true (Z.to_nat (depth y)) y 1 k0
  = if streq (c_str (key s0)) (lit "journal_wr_bytes")
    then PathUndefined (StackIndex (-1))
    else PathBuilt k0 true.
Proof.
  intros Hd HY E0 E1 Hleaf. rewrite Hd.
  change (Z.to_nat 2) with 2%nat. cbn [number_path]. rewrite Hd.
  change (1 <? 2) with true. change (1 =? 2 - 1) with true. cbv iota.
  rewrite !state_at_inside by lia.
  change (Z.to_nat 1) with 1%nat. change (Z.to_nat (1 - 1)) with 0%nat.
  rewrite E0, E1, Hleaf. cbn [andb].
  destruct (streq (c_str (key s0)) (lit "journal_wr_bytes")); reflexivity.
Qed.

(** A leaf sum at depth 2 under the key osd, special metrics converted:
    the traversal is defined, nothing is read outside the stack, and the
    handler is called for the path osd. *)
Lemma depth2_leaf_without_stack_access :
  let r := traverse_events 64 128 true
             (recording (fun (a : unit) (_ _ : cstring) => (0, a)))
             (yajl_start 128 (tt, [])) depth2_osd_events in
  stack_safe r = true
  /\ calls_of r = Some [(lit "1", lit "osd")].
Proof. vm_compute. split; reflexivity. Qed.

(** C9 (amended).  With special metrics converted and a numeric leaf
    whose own key is avgcount or sum: at depth 2, [ceph_cb_number] reads
    [state[depth - 2]] and, when that key is journal_wr_bytes, goes on to
    [state[depth - 3]], which is index -1, outside the stack; when that
    key is anything else the evaluation stops before that access and no
    index outside the stack is used.  At depth 3 and more, up to the
    capacity of the stack, no index outside the stack is used, with or
    without the conversion; without the conversion this holds from depth
    1 on. *)
Theorem special_case_stack_access (YAJL_MAX_DEPTH : nat) (H : Type)
    (handler : H -> cstring -> cstring -> Z * H) (v : list ascii) :
  (forall (y : yajl_struct H) (s0 s1 : key_state) (k0 : cstring),
      depth y = 2 -> (2 <= YAJL_MAX_DEPTH)%nat ->
      length (state y) = YAJL_MAX_DEPTH ->
      nth_error (state y) 0 = Some s0 ->
      nth_error (state y) 1 = Some s1 ->
      streq (c_str (key s1)) (lit "avgcount")
      || streq (c_str (key s1)) (lit "sum") = true ->
      first_key YAJL_MAX_DEPTH y = inl k0 ->
      if streq (c_str (key s0)) (lit "journal_wr_bytes")
      then ceph_cb_number YAJL_MAX_DEPTH true handler y v
           = CbUndefined H (StackIndex (-1))
      else stack_safe (ceph_cb_number YAJL_MAX_DEPTH true handler y v) = true)
  /\ (forall (conv : bool) (y : yajl_struct H),
         length (state y) = YAJL_MAX_DEPTH ->
         3 <= depth y <= Z.of_nat YAJL_MAX_DEPTH ->
         stack_safe (ceph_cb_number YAJL_MAX_DEPTH conv handler y v) = true)
  /\ (forall (y : yajl_struct H),
         length (state y) = YAJL_MAX_DEPTH ->
         1 <= depth y <= Z.of_nat YAJL_MAX_DEPTH ->
         stack_safe (ceph_cb_number YAJL_MAX_DEPTH false handler y v) = true).
Proof.
  repeat split.
  - intros y s0 s1 k0 Hd HY Hl E0 E1 Hleaf Ek.
    pose proof (@number_path_depth2 YAJL_MAX_DEPTH H y s0 s1 k0
                  Hd HY E0 E1 Hleaf) as Ep.
    destruct (streq (c_str (key s0)) (lit "journal_wr_bytes")).
    + unfold ceph_cb_number. rewrite Ek, Ep. reflexivity.
    + apply (@number_calls_stack_safe YAJL_MAX_DEPTH true H handler y v k0 Hl);
        [lia | exact Ek | rewrite Ep; reflexivity].
  - intros conv y Hl Hd. apply ceph_cb_number_stack_safe; try assumption; lia.
  - intros y Hl Hd. apply ceph_cb_number_stack_safe; try assumption.
    discriminate.
Qed.

(** The stack after the keys journal_wr_bytes and avgcount, with
    [YAJL_MAX_DEPTH] 128: the number that follows reads index -1. *)
Lemma special_case_stack_access_witness :
  let handler := fun (a : unit) (_ _ : cstring) => (0, a) in
  let y := {| handler_arg := tt;
              state :=
                list_upd
                  (list_upd (repeat {| key := []; key_len := 0 |} 128) 0
                     {| key := lit "journal_wr_bytes"; key_len := 17 |})
                  1 {| key := lit "avgcount"; key_len := 9 |};
              depth := 2 |} in
  ceph_cb_number 128 true handler y (lit "7")
  = CbUndefined unit (StackIndex (-1)).
Proof.
  exact (proj1 (@special_case_stack_access 128 unit
                  (fun (a : unit) (_ _ : cstring) => (0, a)) (lit "7"))
           {| handler_arg := tt;
              state :=
                list_upd
                  (list_upd (repeat {| key := []; key_len := 0 |} 128) 0
                     {| key := lit "journal_wr_bytes"; key_len := 17 |})
                  1 {| key := lit "avgcount"; key_len := 9 |};
              depth := 2 |}
           {| key := lit "journal_wr_bytes"; key_len := 17 |}
           {| key := lit "avgcount"; key_len := 9 |}
           (lit "journal_wr_bytes")
           eq_refl ltac:(lia) eq_refl eq_refl eq_refl eq_refl eq_refl).
Defined.

(** The same through the callbacks, from the start of the text. *)
Example depth2_pair_reads_outside :
  traverse_events 64 128 true
    (recording (fun (a : unit) (_ _ : cstring) => (0, a)))
    (yajl_start 128 (tt, [])) depth2_pair_events
  = CbUndefined (unit * call_log) (StackIndex (-1)).
Proof. vm_compute. reflexivity. Qed.

(** ** The schema model: classification of a counter *)

Lemma list_upd_length {A : Type} (l : list A) (i : nat) (x : A) :
  length (list_upd l i x) = length l.
Proof.
  revert i; induction l as [|y l IH]; intros [|i]; simpl; auto.
Qed.

Lemma nth_error_list_upd_same {A : Type} (l : list A) (i : nat) (x y : A) :
  nth_error l i = Some y -> nth_error (list_upd l i x) i = Some x.
Proof.
  revert i; induction l as [|z l IH]; intros [|i]; simpl;
    try discriminate; auto.
Qed.

Lemma nth_error_app_last {A : Type} (l : list A) (x : A) :
  nth_error (l ++ [x]) (length l) = Some x.
Proof. induction l; simpl; auto. Qed.

Lemma Forall2_nth_error {A B : Type} (R : A -> B -> Prop) (l : list A)
    (l' : list B) (i : nat) (a : A) (b : B) :
  Forall2 R l l' -> nth_error l i = Some a -> nth_error l' i = Some b ->
  R a b.
Proof.
  intros HF; revert i; induction HF; intros [|i]; simpl;
    try discriminate; [congruence | eauto].
Qed.

Lemma Forall2_list_upd {A B : Type} (R : A -> B -> Prop) (l : list A)
    (l' : list B) (i : nat) (a : A) (b : B) :
  Forall2 R l l' -> R a b -> Forall2 R (list_upd l i a) (list_upd l' i b).
Proof.
  intros HF Hab; revert i; induction HF; intros [|i]; simpl;
    constructor; auto.
Qed.

(** The answers of an allocator that serves every call and frees no
    block. *)
Lemma add_ds_entry_served (D : nat) (conv : bool)
    (realloc : nat -> realloc_answer)
    (d : ceph_daemon) (name : cstring) (pc_type : Z) (d' : ceph_daemon) :
  ceph_daemon_add_ds_entry D conv realloc d name pc_type = Some (0, d') ->
  ceph_daemon_add_ds_entry D conv (fun _ => ReallocKept) d name pc_type
  = Some (0, d').
Proof.
  unfold ceph_daemon_add_ds_entry.
  destruct (D <? strlen name + 1)%nat; [discriminate|].
  destruct (parse_keys D name (zeroed D) (zeroed MAX_RRD_DS_NAME_LEN))
    as [[[ret dset_buf] ds_buf]|]; [|discriminate].
  destruct (negb (ret =? 0)); [discriminate|].
  cbn [realloc_failed realloc_moved orb].
  destruct (get_matching_dset d (c_str dset_buf) =? -1).
  - destruct (realloc 0%nat), (realloc 1%nat), (realloc 2%nat),
      (realloc 3%nat); cbn [realloc_failed realloc_moved orb];
      try discriminate; exact (fun E => E).
  - destruct (nth_error (d_dset d) _); [|discriminate].
    destruct (nth_error (d_pc_types d) _); [|discriminate].
    destruct (realloc 0%nat), (realloc 1%nat);
      cbn [realloc_failed realloc_moved orb];
      try discriminate; exact (fun E => E).
Qed.

(** A call that returns another value than 0 returns the daemon it was
    given. *)
Lemma add_ds_entry_failed (D : nat) (conv : bool)
    (realloc : nat -> realloc_answer)
    (d : ceph_daemon) (name : cstring) (pc_type ret : Z) (d' : ceph_daemon) :
  ceph_daemon_add_ds_entry D conv realloc d name pc_type = Some (ret, d') ->
  (ret =? 0) = false -> d' = d.
Proof.
  unfold ceph_daemon_add_ds_entry.
  destruct (D <? strlen name + 1)%nat; [congruence|].
  destruct (parse_keys D name (zeroed D) (zeroed MAX_RRD_DS_NAME_LEN))
    as [[[r dset_buf] ds_buf]|]; [|discriminate].
  destruct (negb (r =? 0)); [congruence|].
  destruct (get_matching_dset d (c_str dset_buf) =? -1).
  - destruct (realloc 0%nat), (realloc 1%nat), (realloc 2%nat),
      (realloc 3%nat); cbn [realloc_failed realloc_moved orb];
      intros E Hr; inversion E; subst; try reflexivity; discriminate.
  - destruct (nth_error (d_dset d) _); [|discriminate].
    destruct (nth_error (d_pc_types d) _); [|discriminate].
    destruct (realloc 0%nat), (realloc 1%nat);
      cbn [realloc_failed realloc_moved orb];
      intros E Hr; inversion E; subst; try reflexivity; discriminate.
Qed.

(** A failing [realloc] after one that moved a block: the new address of
    the block is lost, and the daemon keeps the address of the freed one.
    For a new data set this is [d->dset] when the call for [d->pc_types]
    fails, and [d->pc_types] when one of the last two calls fails; for a
    set that exists it is [dset->ds]. *)
Lemma add_ds_entry_loses_a_moved_block (D : nat) (conv : bool)
    (realloc : nat -> realloc_answer)
    (d : ceph_daemon) (name : cstring) (pc_type : Z)
    (dset_buf ds_buf : list ascii) :
  (D <? strlen name + 1)%nat = false ->
  parse_keys D name (zeroed D) (zeroed MAX_RRD_DS_NAME_LEN)
  = Some (0, dset_buf, ds_buf) ->
  realloc_failed (realloc 0%nat) = false ->
  (if get_matching_dset d (c_str dset_buf) =? -1
   then (realloc_moved (realloc 0%nat) && realloc_failed (realloc 1%nat))
        || (negb (realloc_failed (realloc 1%nat))
            && realloc_moved (realloc 1%nat)
            && (realloc_failed (realloc 2%nat)
                || realloc_failed (realloc 3%nat)))
   else realloc_moved (realloc 0%nat) && realloc_failed (realloc 1%nat))
  = true ->
  ceph_daemon_add_ds_entry D conv realloc d name pc_type = None.
Proof.
  intros Hlen Hparse H0. unfold ceph_daemon_add_ds_entry.
  rewrite Hlen, Hparse. cbn [Z.eqb negb].
  destruct (get_matching_dset d (c_str dset_buf) =? -1).
  - destruct (realloc 0%nat), (realloc 1%nat), (realloc 2%nat),
      (realloc 3%nat); cbn [realloc_failed realloc_moved orb andb negb];
      try discriminate; reflexivity.
  - destruct (nth_error (d_dset d) _); [|reflexivity].
    destruct (nth_error (d_pc_types d) _); [|reflexivity].
    destruct (realloc 0%nat), (realloc 1%nat);
      cbn [realloc_failed realloc_moved orb andb negb];
      try discriminate; reflexivity.
Qed.

(** What a successful registration leaves for the counter it adds. *)
Lemma add_ds_entry_registered (D : nat) (conv : bool)
    (realloc : nat -> realloc_answer)
    (d : ceph_daemon) (name : cstring) (pc_type : Z) (d' : ceph_daemon) :
  parallel d ->
  ceph_daemon_add_ds_entry D conv realloc d name pc_type = Some (0, d') ->
  exists dset_buf ds_buf i j,
    parse_keys D name (zeroed D) (zeroed MAX_RRD_DS_NAME_LEN)
    = Some (0, dset_buf, ds_buf)
    /\ pc_type_at d' i j
       = Some (effective_pc_type conv (c_str dset_buf) (c_str ds_buf) pc_type)
    /\ ds_at d' i j
       = Some (new_data_source (c_str ds_buf)
                 (effective_pc_type conv (c_str dset_buf) (c_str ds_buf)
                    pc_type))
    /\ parallel d'.
Proof.
  intros Hpar Hadd. apply add_ds_entry_served in Hadd. revert Hadd.
  unfold ceph_daemon_add_ds_entry.
  destruct (D <? strlen name + 1)%nat; [discriminate|].
  destruct (parse_keys D name (zeroed D) (zeroed MAX_RRD_DS_NAME_LEN))
    as [[[ret dset_buf] ds_buf]|]; [|discriminate].
  destruct (Z.eqb_spec ret 0) as [->|]; cbn [negb]; [|discriminate].
  cbn [realloc_failed realloc_moved orb].
  set (eff := effective_pc_type conv (c_str dset_buf) (c_str ds_buf) pc_type).
  set (src := new_data_source (c_str ds_buf) eff).
  destruct (get_matching_dset d (c_str dset_buf) =? -1).
  - (* a new data set *)
    intros E; inversion E; subst d'; clear E.
    exists dset_buf, ds_buf, (length (d_dset d)), 0%nat.
    split; [reflexivity|].
    unfold pc_type_at, ds_at, parallel. cbn [d_dset d_pc_types set_dset].
    rewrite nth_error_app_last.
    rewrite (Forall2_length Hpar), nth_error_app_last.
    repeat split.
    apply Forall2_app; [exact Hpar|]. constructor; [reflexivity|constructor].
  - (* one more source in a data set *)
    set (i := Z.to_nat (get_matching_dset d (c_str dset_buf))).
    destruct (nth_error (d_dset d) i) as [set|] eqn:Eset; [|discriminate].
    destruct (nth_error (d_pc_types d) i) as [row|] eqn:Erow; [|discriminate].
    intros E; inversion E; subst d'; clear E.
    pose proof (Forall2_nth_error i Hpar Eset Erow) as Hlen.
    exists dset_buf, ds_buf, i, (length (dset_ds set)).
    split; [reflexivity|].
    unfold pc_type_at, ds_at, parallel. cbn [d_dset d_pc_types set_dset].
    rewrite (@nth_error_list_upd_same _ (d_dset d) i _ set Eset).
    rewrite (@nth_error_list_upd_same _ (d_pc_types d) i _ row Erow).
    cbn [dset_ds]. rewrite nth_error_app_last.
    rewrite Hlen, nth_error_app_last.
    repeat split.
    apply Forall2_list_upd; [exact Hpar|].
    cbn [dset_ds]. rewrite !length_app, Hlen. reflexivity.
Qed.

(** The counter filestore.journal_wr_bytes reported with the type bits 5
    (bit 0x4 set) is registered with the bits 10 when special metrics are
    converted: the data fetch takes it for a derive counter, and its
    minimum is 0.  A counter reported with both bits (12) is taken for a
    latency pair by the data fetch and has the minimum 0 all the same. *)
Lemma journal_wr_bytes_forced_derive :
  let d := new_daemon (lit "osd.0") (lit "/var/run/ceph/ceph-osd.0.asok")
             (lit "ceph-") in
  let registered :=
    fun r : Z * ceph_daemon =>
      (fst r, pc_type_at (snd r) 0 0, counter_kind (snd r) 0 0,
       option_map dsrc_min (ds_at (snd r) 0 0)) in
  classify 5 = KindLatency
  /\ option_map registered
       (ceph_daemon_add_ds_entry 64 true (fun _ => ReallocKept) d
          (lit "filestore.journal_wr_bytes.type") 5)
     = Some (0, Some 10, Some KindDerive, Some 0%float)
  /\ option_map registered
       (ceph_daemon_add_ds_entry 64 true (fun _ => ReallocKept) d (lit "osd.op_both.type") 12)
     = Some (0, Some 12, Some KindLatency, Some 0%float).
Proof. vm_compute. repeat split; reflexivity. Qed.

(** C6 (amended).  For every counter a successful call of
    [ceph_daemon_add_ds_entry] registers in a daemon whose two arrays run
    parallel: the type bits stored for it are those reported, except that
    filestore.JournalWrBytes gets the bits 10 when special metrics are
    converted; the data fetch takes the counter for a latency pair when
    bit 0x4 of the stored bits is set, else for a derive counter when bit
    0x8 is set, else for a gauge; the data source has the type derive and
    the minimum 0 exactly when bit 0x8 of the stored bits is set, and the
    type gauge with no minimum (not-a-number) otherwise, so every counter
    taken for a derive counter has the minimum 0; the maximum is never
    set. *)
Theorem counter_classification (DATA_MAX_NAME_LEN : nat)
    (convert_special_metrics : bool) (realloc : nat -> realloc_answer)
    (d : ceph_daemon) (name : cstring) (pc_type : Z) (d' : ceph_daemon) :
  parallel d ->
  ceph_daemon_add_ds_entry DATA_MAX_NAME_LEN convert_special_metrics realloc
    d name pc_type = Some (0, d') ->
  exists dset_buf ds_buf i j src,
    parse_keys DATA_MAX_NAME_LEN name (zeroed DATA_MAX_NAME_LEN)
      (zeroed MAX_RRD_DS_NAME_LEN) = Some (0, dset_buf, ds_buf)
    /\ let stored :=
         effective_pc_type convert_special_metrics
           (c_str dset_buf) (c_str ds_buf) pc_type in
       pc_type_at d' i j = Some stored
       /\ counter_kind d' i j = Some (classify stored)
       /\ ds_at d' i j = Some src
       /\ dsrc_type src
          = (if derive_bit stored then DS_TYPE_DERIVE else DS_TYPE_GAUGE)
       /\ dsrc_min src = (if derive_bit stored then 0%float else nan)
       /\ dsrc_max src = nan
       /\ (classify stored = KindDerive -> dsrc_min src = 0%float)
       /\ parallel d'.
Proof.
  intros Hpar Hadd.
  destruct (@add_ds_entry_registered DATA_MAX_NAME_LEN
              convert_special_metrics realloc d name pc_type d' Hpar Hadd)
    as (dset_buf & ds_buf & i & j & Ep & Epc & Eds & Hpar').
  exists dset_buf, ds_buf, i, j.
  exists (new_data_source (c_str ds_buf)
            (effective_pc_type convert_special_metrics
               (c_str dset_buf) (c_str ds_buf) pc_type)).
  split; [exact Ep|]. cbv zeta.
  set (stored := effective_pc_type convert_special_metrics
                   (c_str dset_buf) (c_str ds_buf) pc_type) in *.
  clearbody stored.
  split; [exact Epc|].
  split; [unfold counter_kind; rewrite Epc; reflexivity|].
  split; [exact Eds|].
  unfold new_data_source, derive_bit. cbn [dsrc_type dsrc_min dsrc_max].
  split; [reflexivity|].
  split; [destruct (negb (Z.land stored PERFCOUNTER_DERIVE =? 0)); reflexivity|].
  split; [reflexivity|].
  split; [|exact Hpar'].
  unfold classify.
  destruct (negb (Z.land stored PERFCOUNTER_LATENCY =? 0)); [discriminate|].
  destruct (negb (Z.land stored PERFCOUNTER_DERIVE =? 0));
    [reflexivity | discriminate].
Qed.

(** The first counter of a daemon, reported with the type bits 5, with
    [DATA_MAX_NAME_LEN] 64. *)
Lemma counter_classification_witness :
  let d := new_daemon (lit "osd.0") (lit "/var/run/ceph/ceph-osd.0.asok")
             (lit "ceph-") in
  let d' :=
    set_dset d
      [ {| dset_type := lit "osd";
           dset_ds := [ {| dsrc_name := lit "OpWLatency";
                           dsrc_type := DS_TYPE_GAUGE;
                           dsrc_min := nan; dsrc_max := nan |} ] |} ]
      [[5]] in
  exists dset_buf ds_buf i j src,
    parse_keys 64 (lit "osd.op_w_latency.type") (zeroed 64)
      (zeroed MAX_RRD_DS_NAME_LEN) = Some (0, dset_buf, ds_buf)
    /\ let stored :=
         effective_pc_type true (c_str dset_buf) (c_str ds_buf) 5 in
       pc_type_at d' i j = Some stored
       /\ counter_kind d' i j = Some (classify stored)
       /\ ds_at d' i j = Some src
       /\ dsrc_type src
          = (if derive_bit stored then DS_TYPE_DERIVE else DS_TYPE_GAUGE)
       /\ dsrc_min src = (if derive_bit stored then 0%float else nan)
       /\ dsrc_max src = nan
       /\ (classify stored = KindDerive -> dsrc_min src = 0%float)
       /\ parallel d'.
Proof.
  apply (@counter_classification 64 true (fun _ => ReallocKept)
           (new_daemon (lit "osd.0") (lit "/var/run/ceph/ceph-osd.0.asok")
              (lit "ceph-"))
           (lit "osd.op_w_latency.type") 5).
  - constructor.
  - vm_compute. reflexivity.
Defined.

(** ** Byte order: the value read from the network *)

Lemma byte_range (b : ascii) : 0 <= Z.of_N (N_of_ascii b) < 256.
Proof. pose proof (N_ascii_bounded b). lia. Qed.

Lemma le_encode_decode (bytes : list ascii) :
  le_encode (length bytes) (le_decode bytes) = bytes.
Proof.
  induction bytes as [|b rest IH]; [reflexivity|].
  cbn [length le_encode le_decode].
  pose proof (byte_range b) as Hb.
  rewrite (Z.mul_comm 256), Z.mod_add, Z.div_add by lia.
  rewrite Z.mod_small, Z.div_small by lia.
  rewrite N2Z.id, ascii_N_embedding, Z.add_0_l, IH. reflexivity.
Qed.

Lemma le_encode_length (n : nat) (v : Z) : length (le_encode n v) = n.
Proof. revert v; induction n; intros v; simpl; auto. Qed.

Lemma host_encode_length (big : bool) (v : Z) : length (host_encode big v) = 4%nat.
Proof.
  unfold host_encode, be_encode. destruct big;
    rewrite ?length_rev, le_encode_length; reflexivity.
Qed.

(** The bytes of a 32-bit object are those it was read from. *)
Lemma host_encode_decode (big : bool) (bytes : list ascii) :
  length bytes = 4%nat -> host_encode big (host_decode big bytes) = bytes.
Proof.
  intros Hl. unfold host_encode, host_decode, be_encode, be_decode.
  destruct big.
  - rewrite <- (length_rev bytes) in Hl. rewrite <- Hl at 1.
    now rewrite le_encode_decode, rev_involutive.
  - rewrite <- Hl. apply le_encode_decode.
Qed.

(** [ntohl] of an object read from the network gives the number the bytes
    denote in network order, whatever the byte order of the host. *)
Lemma ntohl_host_decode (big : bool) (bytes : list ascii) :
  length bytes = 4%nat -> ntohl big (host_decode big bytes) = be_decode bytes.
Proof. intros Hl. unfold ntohl. now rewrite host_encode_decode. Qed.

(** A read that completes the four bytes of an object. *)
Lemma read_into_uint32_complete (big : bool) (v : Z) (n : nat)
    (bytes : list ascii) :
  (n + length bytes = 4)%nat ->
  ntohl big (read_into_uint32 big v n bytes)
  = be_decode (firstn n (host_encode big v) ++ bytes).
Proof.
  intros Hl. unfold read_into_uint32.
  pose proof (host_encode_length big v) as Hm.
  rewrite buf_write_some by lia.
  rewrite skipn_all2 by lia. rewrite app_nil_r.
  apply ntohl_host_decode.
  rewrite length_app, length_firstn. lia.
Qed.

(** ** The state CSTATE_READ_VERSION *)

Lemma wrap64_small (z : Z) : 0 <= z < 2 ^ 64 -> wrap64 z = z.
Proof. intros H. unfold wrap64. now rewrite Z.mod_small. Qed.

Lemma wrap32_small (z : Z) : 0 <= z < 2 ^ 32 -> wrap32 z = z.
Proof. intros H. unfold wrap32. now rewrite Z.mod_small. Qed.

(** A connection the loop has given up or served is left alone. *)
Lemma cconn_prepare_none (io : cconn) (a : connect_answer) :
  request_type io = ASOK_REQ_NONE ->
  cconn_prepare io a = (0, io, (0, 0), []).
Proof. intros E. unfold cconn_prepare. now rewrite E. Qed.

Lemma read_version_event (big : bool) (process_json : cconn -> Z * cconn)
    (io : cconn) (a : io_answer) (calloc_ok : bool) :
  state_ io = CSTATE_READ_VERSION ->
  0 <= amt io < 4 ->
  amt io + Z.of_nat (length (io_moved a (4 - amt io))) = 4 ->
  cconn_handle_event big process_json io a calloc_ok
  = let version := be_decode (version_bytes big io a) in
    if version =? 1 then
      (0,
       {| d := set_version (d io) version; request_type := ASOK_REQ_FSID;
          state_ := CSTATE_UNCONNECTED; asok := -1; amt := 0; json_len := 0;
          json := None |},
       if asok io =? -1 then [] else [FdClosed (asok io)])
    else
      (- ENOTSUP,
       {| d := set_version (d io) version; request_type := request_type io;
          state_ := CSTATE_READ_VERSION; asok := asok io; amt := 4;
          json_len := json_len io; json := json io |},
       []).
Proof.
  intros Hst Hamt Hdone. unfold cconn_handle_event. rewrite Hst.
  rewrite (wrap64_small (z := 4 - amt io)) by lia.
  assert (Hret : io_ret a (4 - amt io)
                 = Z.of_nat (length (io_moved a (4 - amt io)))).
  { destruct a as [e|bytes]; [|reflexivity].
    cbn [io_moved length] in Hdone. lia. }
  rewrite Hret.
  destruct (Z.ltb_spec (Z.of_nat (length (io_moved a (4 - amt io)))) 0); [lia|].
  rewrite wrap32_small by lia. rewrite Hdone.
  change (4 <=? 4) with true. cbv iota.
  rewrite read_into_uint32_complete by lia.
  fold (version_bytes big io a). cbv zeta.
  destruct (be_decode (version_bytes big io a) =? 1); reflexivity.
Qed.

(** C7.  In the state CSTATE_READ_VERSION, when a read completes the four
    bytes of the version, the number they denote in network order, on a
    host of either byte order, decides the event.  If it is 1,
    [cconn_handle_event] returns 0, the socket is closed, the connection
    is unconnected and its next request is ASOK_REQ_FSID.  If it is not 1,
    [cconn_handle_event] returns -ENOTSUP, closes nothing and leaves the
    state and the request kind as they were; the loop then closes the
    connection and sets its request to ASOK_REQ_NONE, after which
    [cconn_prepare] leaves it alone: the request kinds ASOK_REQ_FSID and
    ASOK_REQ_SCHEMA are not reached. *)
Theorem unsupported_version_is_fatal (host_big_endian : bool)
    (cconn_process_json : cconn -> Z * cconn) (io : cconn) (a : io_answer)
    (calloc_ok : bool) :
  state_ io = CSTATE_READ_VERSION ->
  0 <= amt io < 4 ->
  amt io + Z.of_nat (length (io_moved a (4 - amt io))) = 4 ->
  let version := be_decode (version_bytes host_big_endian io a) in
  let r := cconn_handle_event host_big_endian cconn_process_json io a
             calloc_ok in
  (version = 1 ->
   fst (fst r) = 0
   /\ state_ (snd (fst r)) = CSTATE_UNCONNECTED
   /\ asok (snd (fst r)) = -1
   /\ request_type (snd (fst r)) = ASOK_REQ_FSID
   /\ snd r = (if asok io =? -1 then [] else [FdClosed (asok io)]))
  /\ (version <> 1 ->
      fst (fst r) = - ENOTSUP
      /\ state_ (snd (fst r)) = CSTATE_READ_VERSION
      /\ request_type (snd (fst r)) = request_type io
      /\ asok (snd (fst r)) = asok io
      /\ snd r = []
      /\ forall revents,
           revents <> 0 ->
           let h := handle_polled host_big_endian cconn_process_json io
                      revents a calloc_ok in
           snd (fst h) = true
           /\ request_type (fst (fst h)) = ASOK_REQ_NONE
           /\ state_ (fst (fst h)) = CSTATE_UNCONNECTED
           /\ asok (fst (fst h)) = -1
           /\ forall c,
                cconn_prepare (fst (fst h)) c = (0, fst (fst h), (0, 0), [])).
Proof.
  intros Hst Hamt Hdone version r.
  pose proof (@read_version_event host_big_endian cconn_process_json io a
                calloc_ok Hst Hamt Hdone) as E.
  cbv zeta in E. fold version in E. fold r in E.
  split.
  - intros Hv. rewrite Hv in E. change (1 =? 1) with true in E. cbv iota in E.
    rewrite E. cbn [fst snd state_ asok request_type]. auto.
  - intros Hv. apply Z.eqb_neq in Hv. rewrite Hv in E. rewrite E.
    cbn [fst snd state_ asok request_type].
    repeat split.
    + unfold handle_polled.
      destruct (Z.eqb_spec revents 0); [contradiction|].
      destruct (negb (cconn_validate_revents io revents =? 0));
        [reflexivity|].
      fold r. rewrite E. reflexivity.
    + unfold handle_polled.
      destruct (Z.eqb_spec revents 0); [contradiction|].
      destruct (negb (cconn_validate_revents io revents =? 0));
        [reflexivity|].
      fold r. rewrite E. reflexivity.
    + unfold handle_polled.
      destruct (Z.eqb_spec revents 0); [contradiction|].
      destruct (negb (cconn_validate_revents io revents =? 0));
        [reflexivity|].
      fold r. rewrite E. reflexivity.
    + unfold handle_polled.
      destruct (Z.eqb_spec revents 0); [contradiction|].
      destruct (negb (cconn_validate_revents io revents =? 0));
        [reflexivity|].
      fold r. rewrite E. reflexivity.
    + intros c. apply cconn_prepare_none.
      unfold handle_polled.
      destruct (Z.eqb_spec revents 0); [contradiction|].
      destruct (negb (cconn_validate_revents io revents =? 0));
        [reflexivity|].
      fold r. rewrite E. reflexivity.
Qed.

(** The daemon that answers 00 00 00 02, read in one piece on a
    little-endian host. *)
Lemma unsupported_version_is_fatal_witness :
  let r := cconn_handle_event false (fun io => (0, io)) awaiting_version
             version_two true in
  be_decode (version_bytes false awaiting_version version_two) = 2
  /\ fst (fst r) = - ENOTSUP
  /\ state_ (snd (fst r)) = CSTATE_READ_VERSION
  /\ request_type (snd (fst r)) = ASOK_REQ_VERSION
  /\ snd r = [].
Proof.
  split; [reflexivity|].
  destruct (@unsupported_version_is_fatal false (fun io => (0, io))
              awaiting_version version_two true
              eq_refl ltac:(cbn; lia) eq_refl)
    as [_ Hrefused].
  destruct Hrefused as (E1 & E2 & E3 & _ & E5 & _); [discriminate|].
  repeat split; assumption.
Defined.

(** The same bytes in two reads, on a host of either byte order; and the
    bytes 00 00 00 01. *)
Example version_read_in_two_pieces :
  forall big,
    let zero := ascii_of_nat 0 in
    let r1 := cconn_handle_event big (fun io => (0, io)) awaiting_version
                (IoMoved [zero; zero; zero]) true in
    let r2 := cconn_handle_event big (fun io => (0, io)) (snd (fst r1))
                (IoMoved [ascii_of_nat 2]) true in
    let ok := cconn_handle_event big (fun io => (0, io)) awaiting_version
                (IoMoved [zero; zero; zero; ascii_of_nat 1]) true in
    (fst (fst r1), state_ (snd (fst r1)), amt (snd (fst r1)))
    = (0, CSTATE_READ_VERSION, 3)
    /\ (fst (fst r2), state_ (snd (fst r2)), request_type (snd (fst r2)))
       = (- ENOTSUP, CSTATE_READ_VERSION, ASOK_REQ_VERSION)
    /\ (fst (fst ok), state_ (snd (fst ok)), request_type (snd (fst ok)),
        asok (snd (fst ok)), snd ok)
       = (0, CSTATE_UNCONNECTED, ASOK_REQ_FSID, -1, [FdClosed 5]).
Proof. intros [|]; vm_compute; repeat split; reflexivity. Qed.

(** ** The event loop: how it ends *)

Lemma prepare_from_length (w : world) (i : nat) (ios : list cconn) :
  length (fst (fst (fst (fst (prepare_from w i ios))))) = length ios.
Proof.
  revert i; induction ios as [|io ios IH]; intros i; [reflexivity|].
  cbn [prepare_from].
  destruct (cconn_prepare io (w_connect w i)) as [[[ret io'] pollfd] opened].
  specialize (IH (S i)).
  destruct (prepare_from w (S i) ios) as [[[[rest' polled] fds] failed] log].
  cbn [fst] in IH.
  destruct (ret <? 0).
  - destruct (mark_unreachable io') as [io'' cl]. cbn [fst length]. lia.
  - destruct (ret =? 1); cbn [fst length]; lia.
Qed.

Lemma handle_from_length (big : bool) (pj : cconn -> Z * cconn) (w : world)
    (revents : nat -> Z) (k : nat) (polled : list nat) (ios : list cconn) :
  length (fst (fst (handle_from big pj w revents k polled ios))) = length ios.
Proof.
  revert k ios; induction polled as [|idx polled IH]; intros k ios;
    [reflexivity|].
  cbn [handle_from].
  destruct (nth_error ios idx) as [io|]; [|apply IH].
  destruct (handle_polled big pj io (revents k) (w_io w k) (w_calloc w k))
    as [[io' failed] log].
  specialize (IH (S k) (list_upd ios idx io')).
  destruct (handle_from big pj w revents (S k) polled (list_upd ios idx io'))
    as [[ios' failed'] log'].
  cbn [fst] in *. rewrite IH. apply list_upd_length.
Qed.

(** How a turn of the loop ends. *)
Lemma loop_turn_cases (big : bool) (pj : cconn -> Z * cconn)
    (end_tv : timeval) (w : world) (st : loop_state) :
  match loop_turn big pj end_tv w st with
  | TurnDone ret st' =>
      length (io_array st') = length (io_array st)
      /\ ((polled_of w st = [] /\ ret = 0)
          \/ (polled_of w st <> []
              /\ milli_diff end_tv (w_now w) <= 0 /\ ret = - ETIMEDOUT)
          \/ (polled_of w st <> []
              /\ 0 < milli_diff end_tv (w_now w)
              /\ exists e, w_poll w = PollError e /\ ret = - Z.pos e))
  | TurnNext st' =>
      length (io_array st') = length (io_array st)
      /\ polled_of w st <> []
      /\ 0 < milli_diff end_tv (w_now w)
      /\ exists revents, w_poll w = PollReady revents
  end.
Proof.
  unfold loop_turn, polled_of.
  pose proof (prepare_from_length w 0 (io_array st)) as Hlen.
  destruct (prepare_from w 0 (io_array st))
    as [[[[ios polled] fds] failed] log].
  cbn [fst snd] in *.
  destruct polled as [|p polled].
  - cbn [length Z.of_nat Z.eqb]. cbn [io_array]. auto.
  - replace (Z.of_nat (length (p :: polled)) =? 0) with false
      by (symmetry; apply Z.eqb_neq; cbn [length]; lia).
    destruct (Z.leb_spec (milli_diff end_tv (w_now w)) 0).
    + cbn [io_array]. split; [assumption|]. right; left.
      repeat split; [discriminate | assumption].
    + destruct (w_poll w) as [e|revents] eqn:Ep.
      * cbn [io_array]. split; [assumption|]. right; right.
        repeat split; [discriminate | assumption | eauto].
      * pose proof (handle_from_length big pj w revents 0 (p :: polled) ios)
          as Hlen'.
        destruct (handle_from big pj w revents 0 (p :: polled) ios)
          as [[ios' failed'] log'].
        cbn [fst io_array] in *.
        repeat split; [congruence | discriminate | assumption | eauto].
Qed.

(** The code at [done] closes every connection, and gives every
    descriptor a connection still holds to [close]. *)
Lemma close_all_closed (st : loop_state) :
  Forall closed (io_array (close_all st))
  /\ length (io_array (close_all st)) = length (io_array st)
  /\ forall io, In io (io_array st) -> asok io <> -1 ->
                In (FdClosed (asok io)) (fd_log (close_all st)).
Proof.
  unfold close_all. cbn [io_array fd_log]. repeat split.
  - apply Forall_forall. intros io Hin. apply in_map_iff in Hin as (x & <- & _).
    repeat split.
  - apply length_map.
  - intros io Hin Hfd. apply in_or_app. right.
    apply in_flat_map. exists io. split; [assumption|].
    cbn [cconn_close snd]. destruct (Z.eqb_spec (asok io) (-1));
      [contradiction | left; reflexivity].
Qed.

(** The loop returns from a turn that ends in one of the three ways. *)
Lemma loop_from_returns (big : bool) (pj : cconn -> Z * cconn)
    (end_tv : timeval) (ws : list world) (st : loop_state) (ret : Z)
    (final : loop_state) :
  loop_from big pj end_tv ws st = Some (ret, final) ->
  exists w st0 st_exit,
    In w ws
    /\ loop_turn big pj end_tv w st0 = TurnDone ret st_exit
    /\ length (io_array st0) = length (io_array st)
    /\ final = close_all st_exit.
Proof.
  revert st; induction ws as [|w ws IH]; intros st; [discriminate|].
  cbn [loop_from].
  pose proof (loop_turn_cases big pj end_tv w st) as Hc.
  destruct (loop_turn big pj end_tv w st) as [st'|r st'] eqn:Et.
  - intros E. destruct (IH _ E) as (w' & st0 & st_exit & Hin & Ht & Hl & Hf).
    exists w', st0, st_exit. repeat split; try assumption.
    + now right.
    + destruct Hc as [Hc _]. congruence.
  - intros E; inversion E; subst. exists w, st, st'.
    repeat split; auto. now left.
Qed.

(** Once the clock has reached the deadline, the loop returns. *)
Lemma loop_from_deadline (big : bool) (pj : cconn -> Z * cconn)
    (end_tv : timeval) (ws : list world) (st : loop_state) :
  (exists w, In w ws /\ milli_diff end_tv (w_now w) <= 0) ->
  exists ret final, loop_from big pj end_tv ws st = Some (ret, final).
Proof.
  revert st; induction ws as [|w ws IH]; intros st [w' [Hin Hd]];
    [contradiction|].
  cbn [loop_from].
  pose proof (loop_turn_cases big pj end_tv w st) as Hc.
  destruct (loop_turn big pj end_tv w st) as [st'|r st'] eqn:Et; [|eauto].
  destruct Hin as [->|Hin].
  - destruct Hc as (_ & _ & Hpos & _). lia.
  - apply IH. eauto.
Qed.

Example deadline_is_one_second :
  milli_diff (deadline {| tv_sec := 1000; tv_usec := 250000 |})
    {| tv_sec := 1000; tv_usec := 250000 |} = 1000
  /\ milli_diff (deadline {| tv_sec := 1000; tv_usec := 250000 |})
       {| tv_sec := 1001; tv_usec := 250000 |} = 0.
Proof. split; reflexivity. Qed.

(** Beyond 2147483 seconds the product of [milli_diff] wraps around:
    3000000 seconds give a negative number of milliseconds. *)
Example milli_diff_wraps_around :
  milli_diff {| tv_sec := 3000000; tv_usec := 0 |}
    {| tv_sec := 0; tv_usec := 0 |} = -1294967296.
Proof. reflexivity. Qed.

(** The first [for] loop of a turn in which the system refuses every
    connection: for every connection the descriptor [socket] returned,
    if any, and then the [close] of descriptor 0, which is what [memset]
    left in [io->asok]. *)
Lemma prepare_from_refused_log (req : Z) (w : world)
    (g_daemons : list ceph_daemon) :
  forallb (to_be_served req) g_daemons = true ->
  (forall k, refused (w_connect w k) = true) ->
  forall i,
    prepare_from w i (map (new_cconn req) g_daemons)
    = (map (fun daemon =>
              {| d := daemon; request_type := ASOK_REQ_NONE;
                 state_ := CSTATE_UNCONNECTED; asok := -1; amt := 0;
                 json_len := 0; json := None |}) g_daemons,
       [], [], negb (Nat.eqb (length g_daemons) 0),
       flat_map (fun k => opened_by (w_connect w k) ++ [FdClosed 0])
         (seq i (length g_daemons))).
Proof.
  intros Hs Hw. induction g_daemons as [|x l IH]; intros i.
  - reflexivity.
  - cbn [forallb] in Hs. apply andb_true_iff in Hs as [Hx Hl].
    cbn [map prepare_from length seq flat_map]. rewrite (IH Hl (S i)).
    unfold to_be_served in Hx. apply andb_true_iff in Hx as [H1 H2].
    apply negb_true_iff in H1, H2.
    unfold cconn_prepare. cbn [new_cconn request_type d state_].
    rewrite H1, H2. unfold cconn_connect. cbn [state_].
    specialize (Hw i).
    destruct (w_connect w i) as [e|fd e|fd e|fd]; [| | |discriminate];
      (destruct (Z.ltb_spec 0 (- Z.pos e)); [lia|]);
      (destruct (Z.ltb_spec (- Z.pos e) 0); [|lia]);
      reflexivity.
Qed.

(** C8.  The code departs from the claim in its last part: not every
    socket is closed when the loop returns.  In a cycle in which the
    system refuses every connection ([socket], [connect] or [fcntl]
    fails for every daemon), [cconn_main_loop] returns 0 at the first
    turn, because no connection is polled, and every connection has been
    through [cconn_close].  But [cconn_connect] returns from a failure of
    [connect] or [fcntl] without closing the descriptor [socket] gave it
    and without storing it in [io->asok], and [cconn_close] closes what
    [io->asok] holds, which is the 0 that [memset] left there.  So the
    calls of [socket] and [close] of the cycle are, for every daemon in
    order, the descriptor [socket] returned (if it returned one) and then
    the [close] of descriptor 0: a descriptor other than 0 that [socket]
    returned is open when the loop returns, and descriptor 0 is closed
    though the loop did not open it. *)
Theorem refused_connection_leaves_its_socket_open (host_big_endian : bool)
    (cconn_process_json : cconn -> Z * cconn) (req : Z)
    (daemon : ceph_daemon) (others : list ceph_daemon)
    (start : timeval) (w : world) (ws : list world) :
  forallb (to_be_served req) (daemon :: others) = true ->
  (forall k, refused (w_connect w k) = true) ->
  exists final,
    cconn_main_loop host_big_endian cconn_process_json req
      (daemon :: others) start (w :: ws) = Some (0, final)
    /\ Forall closed (io_array final)
    /\ fd_log final
       = flat_map (fun k => opened_by (w_connect w k) ++ [FdClosed 0])
           (seq 0 (length (daemon :: others)))
    /\ forall k fd,
         (k < length (daemon :: others))%nat ->
         opened_by (w_connect w k) = [FdOpened fd] -> fd <> 0 ->
         In (FdOpened fd) (fd_log final)
         /\ ~ In (FdClosed fd) (fd_log final).
Proof.
  intros Hs Hw. unfold cconn_main_loop. cbn [loop_from]. unfold loop_turn.
  cbn [io_array some_unreachable fd_log].
  rewrite (@prepare_from_refused_log req w (daemon :: others) Hs Hw 0).
  cbn [length Z.of_nat Z.eqb Nat.eqb negb orb].
  eexists. split; [reflexivity|].
  match goal with
  | |- context [close_all ?st] => set (st_exit := st)
  end.
  split; [apply close_all_closed|].
  assert (Elog : fd_log (close_all st_exit)
          = flat_map (fun k => opened_by (w_connect w k) ++ [FdClosed 0])
              (seq 0 (length (daemon :: others)))).
  { unfold close_all, st_exit. cbn [io_array fd_log].
    rewrite app_nil_l.
    assert (Enil : forall l0 : list ceph_daemon,
               flat_map (fun io => snd (cconn_close io))
                 (map (fun daemon0 =>
                         {| d := daemon0; request_type := ASOK_REQ_NONE;
                            state_ := CSTATE_UNCONNECTED; asok := -1;
                            amt := 0; json_len := 0; json := None |}) l0)
               = []).
    { induction l0 as [|x l0 IHl]; [reflexivity | exact IHl]. }
    rewrite Enil. apply app_nil_r. }
  split; [exact Elog|].
  intros k fd Hk Hopen Hfd. rewrite Elog. split.
  - apply in_flat_map. exists k.
    split; [apply in_seq; cbn [length] in *; lia|].
    rewrite Hopen. now left.
  - intros Hin. apply in_flat_map in Hin as (j & _ & Hin).
    apply in_app_or in Hin as [Hin|[Hin|[]]].
    + destruct (w_connect w j); cbn [opened_by] in Hin;
        [destruct Hin | | | ];
        destruct Hin as [Hin|[]]; discriminate.
    + inversion Hin. congruence.
Qed.

(** The cycle for the version at the start of the plugin, with one
    daemon, which is not running: [socket] returns the descriptor 8,
    [connect] fails with ECONNREFUSED, and the loop closes descriptor 0. *)
Lemma refused_connection_leaves_its_socket_open_witness :
  let osd := new_daemon (lit "osd.0") (lit "/var/run/ceph/ceph-osd.0.asok")
               (lit "ceph-") in
  let w := {| w_connect := fun _ => ConnectFailed 8 111;
              w_now := run_start;
              w_poll := PollReady (fun _ => 0);
              w_io := fun _ => IoMoved [];
              w_calloc := fun _ => true |} in
  exists final,
    cconn_main_loop false (fun io => (0, io)) ASOK_REQ_VERSION [osd]
      run_start [w] = Some (0, final)
    /\ Forall closed (io_array final)
    /\ fd_log final = [FdOpened 8; FdClosed 0]
    /\ In (FdOpened 8) (fd_log final)
    /\ ~ In (FdClosed 8) (fd_log final).
Proof.
  intros osd w.
  destruct (@refused_connection_leaves_its_socket_open false
              (fun io => (0, io)) ASOK_REQ_VERSION osd [] run_start w [])
    as (final & E & Hcl & Hlog & Hopen).
  - reflexivity.
  - reflexivity.
  - exists final. split; [exact E|]. split; [exact Hcl|].
    split; [exact Hlog|].
    apply (Hopen 0%nat 8); [cbn [length]; lia | reflexivity | discriminate].
Defined.

(** The descriptors of the cycle [run_worlds], and the connections at
    its end: the loop is left with -ETIMEDOUT at the third turn;
    descriptor 8, whose [connect] failed, is not closed. *)
Example event_loop_run :
  option_map
    (fun r => (fst r,
               map (fun io => (request_type io, state_ io, asok io))
                 (io_array (snd r)),
               some_unreachable (snd r), fd_log (snd r)))
    (cconn_main_loop false (fun io => (0, io)) ASOK_REQ_VERSION run_daemons
       run_start run_worlds)
  = Some (- ETIMEDOUT,
          [ (ASOK_REQ_FSID, CSTATE_UNCONNECTED, -1);
            (ASOK_REQ_NONE, CSTATE_UNCONNECTED, -1) ],
          true,
          [ FdOpened 7; FdOpened 8; FdClosed 0; FdClosed 7;
            FdOpened 9; FdClosed 9 ]).
Proof. vm_compute. reflexivity. Qed.

(** * Further properties of the reducer *)

(** ** The key stack is never left at its top *)

Lemma state_at_none (Y : nat) (H : Type) (y : yajl_struct H) (j : Z) :
  length (state y) = Y -> state_at Y y j = None ->
  j < 0 \/ Z.of_nat Y <= j.
Proof.
  intros Hl E.
  destruct (Z.ltb_spec j 0); [now left|].
  destruct (Z.leb_spec (Z.of_nat Y) j); [now right|].
  destruct (@state_at_some Y H y j Hl ltac:(lia)) as [s Es]. congruence.
Qed.

Lemma number_path_below (Y : nat) (conv : bool) (H : Type)
    (y : yajl_struct H) (fuel : nat) (i : Z) (k : cstring) :
  length (state y) = Y -> depth y < Z.of_nat Y -> 1 <= i ->
  match number_path Y conv fuel y i k with
  | PathUndefined (StackIndex j) => j < 0
  | PathUndefined StateKeyOverflow => False
  | _ => True
  end.
Proof.
  intros Hl Hd. revert i k.
  induction fuel as [|fuel IH]; intros i k Hi; cbn [number_path];
    [exact I|].
  destruct (Z.ltb_spec i (depth y)); [|exact I].
  destruct (@state_at_some Y H y i Hl ltac:(lia)) as [si ->].
  destruct ((i =? depth y - 1)
            && (streq (c_str (key si)) (lit "avgcount")
                || streq (c_str (key si)) (lit "sum"))).
  - destruct conv; [|exact I].
    destruct (@state_at_some Y H y (i - 1) Hl ltac:(lia)) as [sp ->].
    destruct (streq (c_str (key sp)) (lit "journal_wr_bytes")); [|exact I].
    destruct (state_at Y y (i - 2)) as [spp|] eqn:E.
    + destruct (streq (c_str (key spp)) (lit "filestore")
                && streq (c_str (key si)) (lit "avgcount")); exact I.
    + apply state_at_none in E; [lia | exact Hl].
  - destruct (key_append k (c_str (key si))); [apply IH; lia | exact I].
Qed.

Lemma callback_stack_bounded (D Y : nat) (conv : bool) (H : Type)
    (handler : H -> cstring -> cstring -> Z * H) (y : yajl_struct H)
    (ev : yajl_event) :
  (1 <= Y)%nat -> length (state y) = Y -> depth y < Z.of_nat Y ->
  key_fits_state D ev ->
  stack_bounded Y (callback D Y conv handler y ev).
Proof.
  intros HY Hl Hd Hk.
  destruct ev as [| b | v | v | | k | | | ]; cbn [callback stack_bounded];
    try (split; assumption).
  - (* a number *)
    unfold ceph_cb_number, first_key.
    destruct (@state_at_some Y H y 0 Hl ltac:(lia)) as [s0 ->].
    destruct (key_len s0 <=? 0); [exact I|].
    destruct (128 <=? _)%nat; [exact I|].
    pose proof (@number_path_below Y conv H y (Z.to_nat (depth y)) 1
                  (firstn (Z.to_nat (key_len s0 - 1)) (c_str (key s0)))
                  Hl Hd ltac:(lia)) as Hp.
    destruct (number_path Y conv (Z.to_nat (depth y)) y 1 _)
      as [|k lat|u].
    + cbn [stack_bounded with_depth depth state]. split; [lia | exact Hl].
    + destruct (handler (handler_arg y) (c_str v) k) as [r a1].
      destruct ((r =? RETRY_AVGCOUNT) && lat).
      * destruct (state_at Y y (depth y - 1)) as [sl|] eqn:E.
        -- destruct (key_append k (c_str (key sl))); [|exact I].
           destruct (handler a1 (c_str v) c) as [r2 a2].
           destruct (r2 =? - ENOMEM);
             cbn [stack_bounded with_depth depth state];
             (split; [lia | exact Hl]).
        -- apply state_at_none in E; [|exact Hl].
           cbn [stack_bounded]. lia.
      * destruct (r =? - ENOMEM);
          cbn [stack_bounded with_depth depth state];
          (split; [lia | exact Hl]).
    + destruct u; cbn [stack_bounded]; try exact I; exact Hp.
  - (* a string *)
    unfold ceph_cb_string, first_key.
    destruct (@state_at_some Y H y 0 Hl ltac:(lia)) as [s0 ->].
    destruct (depth y =? 1).
    + destruct (streq (c_str (key s0)) (lit "fsid")
                && (length v =? FSID_STRING_LEN - 1)%nat).
      * destruct (key_len s0 <=? 0); [exact I|].
        destruct (128 <=? _)%nat; [exact I|].
        destruct (handler (handler_arg y) (c_str v) _) as [r a1].
        cbn [stack_bounded depth state]. split; [lia | exact Hl].
      * destruct (0 <? depth y);
          cbn [stack_bounded with_depth depth state];
          (split; [lia | exact Hl]).
    + destruct (0 <? depth y);
        cbn [stack_bounded with_depth depth state];
        (split; [lia | exact Hl]).
  - (* a key *)
    unfold ceph_cb_map_key.
    destruct (Z.leb_spec (Z.of_nat Y) (depth y + 1)).
    + cbn [stack_bounded]. split; assumption.
    + destruct (Z.ltb_spec (depth y) 0); [cbn [stack_bounded]; lia|].
      cbn [key_fits_state] in Hk.
      destruct (Nat.ltb_spec D (length (c_str k) + 1)); [lia|].
      cbn [stack_bounded depth state]. split; [lia|].
      rewrite list_upd_length. exact Hl.
  - (* the end of a map *)
    unfold ceph_cb_end_map, with_depth. cbn [stack_bounded depth state].
    split; [lia | exact Hl].
Qed.

(** Whatever the handler answers, a traversal of events whose keys are
    all shorter than [DATA_MAX_NAME_LEN], started under the top of the
    key stack, never passes the end of [state]: as long as the callbacks
    return, the depth stays less than [YAJL_MAX_DEPTH]; and when the
    traversal stops at an undefined access, this is an element of
    [state] with a negative index or the local buffer [key] of
    [ceph_cb_number], never a write past an element of the stack.  (A
    key of [DATA_MAX_NAME_LEN] characters or more is written past the
    field [key] of its element: [ceph_cb_map_key] is undefined there.) *)
Theorem key_stack_never_overflows (DATA_MAX_NAME_LEN YAJL_MAX_DEPTH : nat)
    (convert_special_metrics : bool) (H : Type)
    (handler : H -> cstring -> cstring -> Z * H) (evs : list yajl_event)
    (y : yajl_struct H) :
  (1 <= YAJL_MAX_DEPTH)%nat ->
  length (state y) = YAJL_MAX_DEPTH ->
  depth y < Z.of_nat YAJL_MAX_DEPTH ->
  Forall (key_fits_state DATA_MAX_NAME_LEN) evs ->
  stack_bounded YAJL_MAX_DEPTH
    (traverse_events DATA_MAX_NAME_LEN YAJL_MAX_DEPTH convert_special_metrics
       handler y evs)
  /\ forall k,
       (DATA_MAX_NAME_LEN <= length (c_str k))%nat ->
       0 <= depth y -> depth y + 1 < Z.of_nat YAJL_MAX_DEPTH ->
       ceph_cb_map_key DATA_MAX_NAME_LEN YAJL_MAX_DEPTH y k
       = CbUndefined H StateKeyOverflow.
Proof.
  intros HY Hl0 Hd0 Hk0. split.
  2:{ intros k Hk H0 H1. unfold ceph_cb_map_key.
      destruct (Z.leb_spec (Z.of_nat YAJL_MAX_DEPTH) (depth y + 1)); [lia|].
      destruct (Z.ltb_spec (depth y) 0); [lia|].
      destruct (Nat.ltb_spec DATA_MAX_NAME_LEN (length (c_str k) + 1));
        [reflexivity | lia]. }
  revert y Hl0 Hd0.
  induction Hk0 as [|ev evs Hev Hevs IH]; intros y Hl Hd;
    cbn [traverse_events].
  - split; assumption.
  - pose proof (@callback_stack_bounded DATA_MAX_NAME_LEN YAJL_MAX_DEPTH
                  convert_special_metrics H handler y ev HY Hl Hd Hev) as Hc.
    destruct (callback DATA_MAX_NAME_LEN YAJL_MAX_DEPTH
                convert_special_metrics handler y ev) as [ret y'|u].
    + destruct Hc as [Hd' Hl'].
      destruct (ret =? CEPH_CB_CONTINUE); [now apply IH | now split].
    + exact Hc.
Qed.

(** A traversal of [cconn_process_json], with the stack of 128 elements:
    the text {"a":[1,2],"b":3} takes the depth under 0, and the key b is
    written before the array. *)
Lemma key_stack_never_overflows_witness :
  stack_bounded 128
    (traverse_events 64 128 true (fun (a : unit) (_ _ : cstring) => (0, a))
       (yajl_start 128 tt)
       [ ev_start_map; ev_map_key (lit "a"); ev_start_array;
         ev_number (lit "1"); ev_number (lit "2"); ev_end_array;
         ev_map_key (lit "b"); ev_number (lit "3"); ev_end_map ]).
Proof.
  apply (@key_stack_never_overflows 64 128 true unit
           (fun (a : unit) (_ _ : cstring) => (0, a))).
  - lia.
  - apply repeat_length.
  - reflexivity.
  - repeat constructor.
Defined.

(** ** The path a number is reported under *)

Lemma traverse_events_app (D Y : nat) (conv : bool) (H : Type)
    (handler : H -> cstring -> cstring -> Z * H) (a b : list yajl_event)
    (y y' : yajl_struct H) :
  traverse_events D Y conv handler y a = CbReturn CEPH_CB_CONTINUE y' ->
  traverse_events D Y conv handler y (a ++ b)
  = traverse_events D Y conv handler y' b.
Proof.
  revert y; induction a as [|ev a IH]; intros y; cbn [traverse_events app].
  - intros E; inversion E; reflexivity.
  - destruct (callback D Y conv handler y ev) as [ret y1|u]; [|discriminate].
    destruct (ret =? CEPH_CB_CONTINUE) eqn:Er; [apply IH|].
    intros E; inversion E; subst. discriminate.
Qed.

Lemma nth_error_list_upd_other {A : Type} (l : list A) (i j : nat) (x : A) :
  i <> j -> nth_error (list_upd l i x) j = nth_error l j.
Proof.
  revert i j; induction l as [|z l IH]; intros [|i] [|j] Hne; simpl;
    try reflexivity; try contradiction.
  apply IH. congruence.
Qed.

Lemma join_dots_snoc (segs : list cstring) (s : cstring) :
  segs <> [] -> join_dots (segs ++ [s]) = join_dots segs ++ dot :: s.
Proof.
  induction segs as [|x segs IH]; [contradiction|]. intros _.
  destruct segs as [|x' segs]; [reflexivity|].
  change (join_dots ((x :: x' :: segs) ++ [s]))
    with (x ++ dot :: join_dots ((x' :: segs) ++ [s])).
  rewrite IH by discriminate.
  change (join_dots (x :: x' :: segs))
    with (x ++ dot :: join_dots (x' :: segs)).
  now rewrite <- app_assoc.
Qed.

Lemma join_dots_prefix_length (a b : list cstring) :
  (length (join_dots a) <= length (join_dots (a ++ b)))%nat.
Proof.
  revert a; induction b as [|s b IH]; intros a.
  - now rewrite app_nil_r.
  - replace (a ++ s :: b) with ((a ++ [s]) ++ b)
      by (now rewrite <- app_assoc).
    etransitivity; [|apply IH].
    destruct a as [|x a]; [cbn; lia|].
    rewrite join_dots_snoc by discriminate. rewrite length_app. lia.
Qed.

(** The keys of a path, pushed on the stack one map after the other. *)
Lemma traverse_key_events (D Y : nat) (conv : bool) (H : Type)
    (handler : H -> cstring -> cstring -> Z * H) (ks : list cstring) :
  Forall (fits_key D) ks ->
  forall (y : yajl_struct H) (below : list cstring),
    depth y = Z.of_nat (length below) ->
    holds_keys y below ->
    length (state y) = Y ->
    (length below + length ks < Y)%nat ->
    exists y',
      traverse_events D Y conv handler y (key_events ks)
      = CbReturn CEPH_CB_CONTINUE y'
      /\ depth y' = Z.of_nat (length below + length ks)
      /\ holds_keys y' (below ++ ks)
      /\ length (state y') = Y
      /\ handler_arg y' = handler_arg y.
Proof.
  induction 1 as [|k ks [Hnul Hfit] _ IH]; intros y below Hd Hk Hl Hroom.
  - exists y. rewrite app_nil_r, Nat.add_0_r. repeat split; assumption.
  - cbn [key_events flat_map app traverse_events callback].
    rewrite continue_eqb.
    rewrite map_key_push;
      [ | lia | cbn [length] in Hroom; lia
        | rewrite c_str_id by assumption; assumption ].
    rewrite continue_eqb. rewrite c_str_id by assumption.
    set (y1 := {| handler_arg := handler_arg y;
                  state := list_upd (state y) (Z.to_nat (depth y))
                             {| key := k;
                                key_len := Z.of_nat (length k) + 1 |};
                  depth := depth y + 1 |}).
    destruct (IH y1 (below ++ [k])) as (y' & Et & Hd' & Hk' & Hl' & Ha').
    + cbn [y1 depth]. rewrite length_app. cbn [length]. lia.
    + intros j s Ej. cbn [y1 state]. rewrite Hd, Nat2Z.id.
      destruct (Nat.eq_dec (length below) j) as [<-|Hne].
      * rewrite nth_error_app2, Nat.sub_diag in Ej by lia.
        inversion Ej; subst s.
        destruct (nth_error (state y) (length below)) as [old|] eqn:Eo.
        -- now rewrite (nth_error_list_upd_same _ _ _ Eo).
        -- apply nth_error_None in Eo. cbn [length] in Hroom. lia.
      * rewrite nth_error_list_upd_other by assumption.
        apply Hk.
        assert (j < length (below ++ [k]))%nat
          by (apply nth_error_Some; congruence).
        rewrite length_app in *. cbn [length] in *.
        rewrite nth_error_app1 in Ej by lia. exact Ej.
    + cbn [y1 state]. now rewrite list_upd_length.
    + rewrite length_app. cbn [length] in *. lia.
    + exists y'. rewrite <- app_assoc in Hk'. cbn [app] in Hk'.
      rewrite length_app in Hd'. cbn [length] in *.
      repeat split; try assumption.
      rewrite Hd'. f_equal. lia.
Qed.

(** The loop of [ceph_cb_number] over keys of which the last is no member
    of a latency pair: every key is appended. *)
Lemma number_path_joined (Y : nat) (conv : bool) (H : Type)
    (y : yajl_struct H) (todo : list cstring) :
  forall (done : list cstring) (fuel : nat),
    done <> [] ->
    holds_keys y (done ++ todo) ->
    Forall (fun k => Forall (fun c => c <> NUL) k) todo ->
    depth y = Z.of_nat (length (done ++ todo)) ->
    (length (done ++ todo) <= Y)%nat ->
    (length todo <= fuel)%nat ->
    (length (join_dots (done ++ todo)) < 128)%nat ->
    latency_key (last (done ++ todo) []) = false ->
    number_path Y conv fuel y (Z.of_nat (length done)) (join_dots done)
    = PathBuilt (join_dots (done ++ todo)) false.
Proof.
  induction todo as [|t todo IH]; intros done fuel Hne Hk Hnul Hd HY Hf Hlen Hlat.
  - rewrite app_nil_r in *.
    destruct fuel; cbn [number_path]; [reflexivity|].
    destruct (Z.ltb_spec (Z.of_nat (length done)) (depth y)); [lia|].
    reflexivity.
  - destruct fuel as [|fuel]; [cbn [length] in Hf; lia|].
    cbn [number_path].
    rewrite length_app in Hd, HY. cbn [length] in Hd, HY, Hf.
    destruct (Z.ltb_spec (Z.of_nat (length done)) (depth y)); [|lia].
    rewrite state_at_inside by lia. rewrite Nat2Z.id.
    rewrite (Hk (length done) t)
      by (rewrite nth_error_app2, Nat.sub_diag by lia; reflexivity).
    cbn [key]. inversion Hnul as [|? ? Ht Hnul']; subst.
    rewrite (c_str_id Ht).
    fold (latency_key t).
    assert (Ec : (Z.of_nat (length done) =? depth y - 1) && latency_key t
                 = false).
    { destruct (Z.eqb_spec (Z.of_nat (length done)) (depth y - 1)) as [E|];
        [|reflexivity].
      assert (todo = []) by (destruct todo; [reflexivity|cbn [length] in *; lia]).
      subst todo. rewrite last_last in Hlat. exact Hlat. }
    rewrite Ec.
    replace (done ++ t :: todo) with ((done ++ [t]) ++ todo) in *
      by (now rewrite <- app_assoc).
    unfold key_append.
    change (join_dots done ++ lit "." ++ t) with (join_dots done ++ dot :: t).
    rewrite <- join_dots_snoc by assumption.
    pose proof (join_dots_prefix_length (done ++ [t]) todo) as Hp.
    destruct (Nat.leb_spec 128 (length (join_dots (done ++ [t])))); [lia|].
    replace (Z.of_nat (length done) + 1)
      with (Z.of_nat (length (done ++ [t])))
      by (rewrite length_app; cbn [length]; lia).
    apply IH; try assumption.
    + destruct done; discriminate.
    + rewrite !length_app. cbn [length]. lia.
    + rewrite !length_app. cbn [length]. lia.
    + lia.
Qed.

(** The same loop when the last key is a member of a latency pair that
    is not the special case: the loop is left before the last key. *)
Lemma number_path_latency (Y : nat) (conv : bool) (H : Type)
    (y : yajl_struct H) (leaf : cstring) (mid : list cstring) :
  forall (done : list cstring) (fuel : nat),
    done <> [] ->
    holds_keys y (done ++ mid ++ [leaf]) ->
    Forall (fun k => Forall (fun c => c <> NUL) k) (done ++ mid ++ [leaf]) ->
    depth y = Z.of_nat (length (done ++ mid ++ [leaf])) ->
    (length (done ++ mid ++ [leaf]) <= Y)%nat ->
    (length mid < fuel)%nat ->
    (length (join_dots (done ++ mid)) < 128)%nat ->
    latency_key leaf = true ->
    conv = false
    \/ streq (last (done ++ mid) []) (lit "journal_wr_bytes") = false ->
    number_path Y conv fuel y (Z.of_nat (length done)) (join_dots done)
    = PathBuilt (join_dots (done ++ mid)) true.
Proof.
  induction mid as [|t mid IH];
    intros done fuel Hne Hk Hnul Hd HY Hf Hlen Hlat Hsp;
    (destruct fuel as [|fuel]; [cbn [length] in Hf; lia|]);
    cbn [number_path];
    rewrite !length_app in Hd, HY; cbn [length] in Hd, HY, Hf;
    (destruct (Z.ltb_spec (Z.of_nat (length done)) (depth y)); [|lia]);
    rewrite state_at_inside by lia; rewrite Nat2Z.id.
  - cbn [app] in *. rewrite app_nil_r in *.
    rewrite (Hk (length done) leaf)
      by (rewrite nth_error_app2, Nat.sub_diag by lia; reflexivity).
    cbn [key].
    apply Forall_app in Hnul as [Hdone Hleaf].
    inversion Hleaf as [|? ? Hl _]; subst.
    rewrite (c_str_id Hl). fold (latency_key leaf). rewrite Hlat.
    replace (Z.of_nat (length done) =? depth y - 1) with true
      by (symmetry; apply Z.eqb_eq; lia).
    cbn [andb].
    destruct conv; [|reflexivity].
    destruct Hsp as [Hsp|Hsp]; [discriminate|].
    assert (Hlen0 : (0 < length done)%nat)
      by (destruct done; [contradiction | cbn [length]; lia]).
    rewrite state_at_inside by lia.
    replace (Z.to_nat (Z.of_nat (length done) - 1))
      with (length done - 1)%nat by lia.
    assert (Elast : nth_error (done ++ [leaf]) (length done - 1)
                    = Some (last done [])).
    { rewrite nth_error_app1 by lia.
      destruct (exists_last Hne) as (front & x & ->).
      rewrite last_last, length_app. cbn [length].
      replace (length front + 1 - 1)%nat with (length front) by lia.
      rewrite nth_error_app2, Nat.sub_diag by lia. reflexivity. }
    rewrite (Hk _ _ Elast). cbn [key].
    assert (Hln : Forall (fun c => c <> NUL) (last done [])).
    { destruct (exists_last Hne) as (front & x & ->).
      rewrite last_last. apply Forall_app in Hdone as [_ Hx].
      now inversion Hx. }
    rewrite (c_str_id Hln), Hsp. reflexivity.
  - rewrite (Hk (length done) t)
      by (rewrite nth_error_app2, Nat.sub_diag by lia; reflexivity).
    cbn [key].
    assert (Ht : Forall (fun c => c <> NUL) t).
    { apply Forall_app in Hnul as [_ Hr]. now inversion Hr. }
    rewrite (c_str_id Ht).
    replace (Z.of_nat (length done) =? depth y - 1) with false
      by (symmetry; apply Z.eqb_neq; lia).
    cbn [andb].
    replace (done ++ (t :: mid) ++ [leaf])
      with ((done ++ [t]) ++ mid ++ [leaf]) in *
      by (now rewrite <- app_assoc).
    replace (done ++ t :: mid) with ((done ++ [t]) ++ mid) in *
      by (now rewrite <- app_assoc).
    unfold key_append.
    change (join_dots done ++ lit "." ++ t) with (join_dots done ++ dot :: t).
    rewrite <- join_dots_snoc by assumption.
    pose proof (join_dots_prefix_length (done ++ [t]) mid) as Hp.
    destruct (Nat.leb_spec 128 (length (join_dots (done ++ [t])))); [lia|].
    replace (Z.of_nat (length done) + 1)
      with (Z.of_nat (length (done ++ [t])))
      by (rewrite length_app; cbn [length]; lia).
    apply IH; try assumption.
    + destruct done; discriminate.
    + rewrite !length_app. cbn [length]. lia.
    + rewrite !length_app. cbn [length]. lia.
    + lia.
Qed.

Lemma yajl_start_holds (Y : nat) (H : Type) (arg : H) :
  holds_keys (yajl_start Y arg) [].
Proof. intros [|j] s E; discriminate. Qed.

(** The call of [ceph_cb_number] that ends a traversal. *)
Lemma traverse_last_number (D Y : nat) (conv : bool) (H : Type)
    (handler : H -> cstring -> cstring -> Z * H) (y y' : yajl_struct H)
    (v : list ascii) (ret : Z) :
  ret = CEPH_CB_CONTINUE \/ ret = CEPH_CB_ABORT ->
  ceph_cb_number Y conv handler y v = CbReturn ret y' ->
  traverse_events D Y conv handler y [ev_number v] = CbReturn ret y'.
Proof.
  intros Hr E. cbn [traverse_events callback]. rewrite E.
  destruct Hr as [->| ->]; reflexivity.
Qed.

Lemma number_ret_cases (r : Z) :
  number_ret r = CEPH_CB_CONTINUE \/ number_ret r = CEPH_CB_ABORT.
Proof. unfold number_ret. destruct (r =? - ENOMEM); auto. Qed.

(** [ceph_cb_number] on a stack that holds the keys of a path of which
    the last is no member of a latency pair. *)
Lemma ceph_cb_number_joined (Y : nat) (conv : bool) (H : Type)
    (handler : H -> cstring -> cstring -> Z * H) (y : yajl_struct H)
    (k0 : cstring) (rest : list cstring) (v : list ascii) :
  holds_keys y (k0 :: rest) ->
  Forall (fun k => Forall (fun c => c <> NUL) k) (k0 :: rest) ->
  depth y = Z.of_nat (length (k0 :: rest)) ->
  (length (k0 :: rest) < Y)%nat ->
  (length (join_dots (k0 :: rest)) < 128)%nat ->
  latency_key (last (k0 :: rest) []) = false ->
  let call := handler (handler_arg y) (c_str v) (join_dots (k0 :: rest)) in
  ceph_cb_number Y conv handler y v
  = CbReturn (number_ret (fst call))
      {| handler_arg := snd call; state := state y;
         depth := number_depth (fst call) (depth y) |}.
Proof.
  intros Hk Hnul Hd HY Hlen Hlat. cbv zeta.
  unfold ceph_cb_number, first_key.
  cbn [length] in Hd, HY.
  rewrite state_at_inside by lia. change (Z.to_nat 0) with 0%nat.
  rewrite (Hk 0%nat k0 eq_refl). cbn [key key_len].
  destruct (Z.leb_spec (Z.of_nat (length k0) + 1) 0); [lia|].
  replace (Z.to_nat (Z.of_nat (length k0) + 1 - 1)) with (length k0) by lia.
  inversion Hnul as [|? ? Hk0 Hrest]; subst.
  rewrite (c_str_id Hk0), firstn_all.
  pose proof (join_dots_prefix_length [k0] rest) as Hp.
  change (join_dots [k0]) with k0 in Hp.
  change ([k0] ++ rest) with (k0 :: rest) in Hp.
  destruct (Nat.leb_spec 128 (length k0)); [lia|].
  pose proof (@number_path_joined Y conv H y rest [k0]
                (Z.to_nat (depth y)) ltac:(discriminate) Hk Hrest
                ltac:(cbn [app length]; lia) ltac:(cbn [app length]; lia)
                ltac:(lia) Hlen Hlat) as Ep.
  change (Z.of_nat (length [k0])) with 1 in Ep.
  change (join_dots [k0]) with k0 in Ep.
  rewrite Ep. cbn [app].
  destruct (handler (handler_arg y) (c_str v) (join_dots (k0 :: rest)))
    as [r a1].
  rewrite andb_false_r. cbn [fst snd]. unfold number_ret, number_depth.
  destruct (r =? - ENOMEM); reflexivity.
Qed.

(** A number under the keys k0, ..., kn of nested maps, the last of which
    is neither avgcount nor sum: the handler is called once, with the text
    of the number and the path k0.k1. ... .kn.  When it answers -ENOMEM
    the callback aborts the parse; otherwise the parse goes on one level
    up. *)
Theorem number_reports_joined_path (DATA_MAX_NAME_LEN YAJL_MAX_DEPTH : nat)
    (convert_special_metrics : bool) (H : Type)
    (handler : H -> cstring -> cstring -> Z * H) (arg : H)
    (k0 : cstring) (rest : list cstring) (v : list ascii) :
  Forall (fits_key DATA_MAX_NAME_LEN) (k0 :: rest) ->
  (length (k0 :: rest) < YAJL_MAX_DEPTH)%nat ->
  (length (join_dots (k0 :: rest)) < 128)%nat ->
  latency_key (last (k0 :: rest) []) = false ->
  let call := handler arg (c_str v) (join_dots (k0 :: rest)) in
  exists y',
    traverse_events DATA_MAX_NAME_LEN YAJL_MAX_DEPTH convert_special_metrics
      handler (yajl_start YAJL_MAX_DEPTH arg)
      (key_events (k0 :: rest) ++ [ev_number v])
    = CbReturn (number_ret (fst call)) y'
    /\ handler_arg y' = snd call
    /\ depth y' = number_depth (fst call) (Z.of_nat (length (k0 :: rest))).
Proof.
  intros Hfit HY Hlen Hlat. cbv zeta.
  destruct (@traverse_key_events DATA_MAX_NAME_LEN YAJL_MAX_DEPTH
              convert_special_metrics H handler (k0 :: rest) Hfit
              (yajl_start YAJL_MAX_DEPTH arg) [])
    as (y1 & Et & Hd & Hk & Hl & Ha);
    [ reflexivity | apply yajl_start_holds | apply repeat_length
    | cbn [length] in *; lia | ].
  cbn [app length Nat.add] in Hd, Hk. cbn [yajl_start handler_arg] in Ha.
  rewrite (@traverse_events_app DATA_MAX_NAME_LEN YAJL_MAX_DEPTH
             convert_special_metrics H handler _ [ev_number v] _ _ Et).
  assert (Hnul : Forall (fun k => Forall (fun c => c <> NUL) k) (k0 :: rest)).
  { eapply Forall_impl; [|exact Hfit]. intros k [Hn _]. exact Hn. }
  pose proof (@ceph_cb_number_joined YAJL_MAX_DEPTH convert_special_metrics
                H handler y1 k0 rest v Hk Hnul Hd HY Hlen Hlat) as En.
  cbv zeta in En. rewrite Ha in En.
  eexists. split; [|split].
  - apply traverse_last_number; [apply number_ret_cases | exact En].
  - reflexivity.
  - cbn [depth]. now rewrite Hd.
Qed.

(** The counter osd.op_w of a perf dump, with the handler that accepts
    every call and counts them. *)
Lemma number_reports_joined_path_witness :
  exists y',
    traverse_events 64 128 true (fun (n : nat) (_ _ : cstring) => (0, S n))
      (yajl_start 128 0%nat)
      (key_events [lit "osd"; lit "op_w"] ++ [ev_number (lit "17")])
    = CbReturn CEPH_CB_CONTINUE y'
    /\ handler_arg y' = 1%nat
    /\ depth y' = 1.
Proof.
  apply (@number_reports_joined_path 64 128 true nat
           (fun (n : nat) (_ _ : cstring) => (0, S n)) 0%nat
           (lit "osd") [lit "op_w"] (lit "17")).
  - repeat constructor; try discriminate; vm_compute; lia.
  - vm_compute; lia.
  - vm_compute; lia.
  - reflexivity.
Defined.

(** ** The members of a latency pair *)

(** [ceph_cb_number] on a stack whose last key is avgcount or sum, the
    special case of filestore.journal_wr_bytes apart. *)
Lemma ceph_cb_number_latency (Y : nat) (conv : bool) (H : Type)
    (handler : H -> cstring -> cstring -> Z * H) (y : yajl_struct H)
    (k0 : cstring) (mid : list cstring) (leaf : cstring) (v : list ascii) :
  holds_keys y (k0 :: mid ++ [leaf]) ->
  Forall (fun k => Forall (fun c => c <> NUL) k) (k0 :: mid ++ [leaf]) ->
  depth y = Z.of_nat (length (k0 :: mid ++ [leaf])) ->
  (length (k0 :: mid ++ [leaf]) < Y)%nat ->
  (length (join_dots (k0 :: mid ++ [leaf])) < 128)%nat ->
  latency_key leaf = true ->
  conv = false
  \/ streq (last (k0 :: mid) []) (lit "journal_wr_bytes") = false ->
  let first := handler (handler_arg y) (c_str v) (join_dots (k0 :: mid)) in
  let final :=
    if fst first =? RETRY_AVGCOUNT
    then handler (snd first) (c_str v) (join_dots (k0 :: mid ++ [leaf]))
    else first in
  ceph_cb_number Y conv handler y v
  = CbReturn (number_ret (fst final))
      {| handler_arg := snd final; state := state y;
         depth := number_depth (fst final) (depth y) |}.
Proof.
  intros Hk Hnul Hd HY Hlen Hlat Hsp. cbv zeta.
  unfold ceph_cb_number, first_key.
  cbn [length] in Hd, HY. rewrite length_app in Hd, HY.
  cbn [length] in Hd, HY.
  rewrite state_at_inside by lia. change (Z.to_nat 0) with 0%nat.
  rewrite (Hk 0%nat k0 eq_refl). cbn [key key_len].
  destruct (Z.leb_spec (Z.of_nat (length k0) + 1) 0); [lia|].
  replace (Z.to_nat (Z.of_nat (length k0) + 1 - 1)) with (length k0) by lia.
  pose proof Hnul as Hnul0.
  inversion Hnul0 as [|? ? Hk0 Hrest]; subst.
  rewrite (c_str_id Hk0), firstn_all.
  pose proof (join_dots_prefix_length (k0 :: mid) [leaf]) as Hp.
  pose proof (join_dots_prefix_length [k0] (mid ++ [leaf])) as Hp0.
  change (join_dots [k0]) with k0 in Hp0.
  change ([k0] ++ mid ++ [leaf]) with (k0 :: mid ++ [leaf]) in Hp0.
  change ((k0 :: mid) ++ [leaf]) with (k0 :: mid ++ [leaf]) in Hp.
  destruct (Nat.leb_spec 128 (length k0)); [lia|].
  pose proof (@number_path_latency Y conv H y leaf mid [k0]
                (Z.to_nat (depth y)) ltac:(discriminate) Hk Hnul
                ltac:(cbn [app length]; rewrite length_app; cbn [length]; lia)
                ltac:(cbn [app length]; rewrite length_app; cbn [length]; lia)
                ltac:(lia) ltac:(cbn [app]; lia) Hlat Hsp) as Ep.
  change (Z.of_nat (length [k0])) with 1 in Ep.
  change (join_dots [k0]) with k0 in Ep.
  rewrite Ep. cbn [app].
  destruct (handler (handler_arg y) (c_str v) (join_dots (k0 :: mid)))
    as [r a1].
  rewrite andb_true_r. cbn [fst snd].
  destruct (r =? RETRY_AVGCOUNT).
  - rewrite state_at_inside by lia.
    replace (Z.to_nat (depth y - 1)) with (S (length mid)) by lia.
    rewrite (Hk (S (length mid)) leaf)
      by (cbn [nth_error]; apply nth_error_app_last).
    cbn [key].
    assert (Hleaf : Forall (fun c => c <> NUL) leaf).
    { apply Forall_app in Hrest as [_ Hr]. now inversion Hr. }
    rewrite (c_str_id Hleaf). unfold key_append.
    change (join_dots (k0 :: mid) ++ lit "." ++ leaf)
      with (join_dots (k0 :: mid) ++ dot :: leaf).
    rewrite <- join_dots_snoc by discriminate.
    change ((k0 :: mid) ++ [leaf]) with (k0 :: mid ++ [leaf]).
    destruct (Nat.leb_spec 128 (length (join_dots (k0 :: mid ++ [leaf]))));
      [lia|].
    destruct (handler a1 (c_str v) (join_dots (k0 :: mid ++ [leaf])))
      as [r2 a2].
    cbn [fst snd]. unfold number_ret, number_depth.
    destruct (r2 =? - ENOMEM); reflexivity.
  - cbn [fst snd]. unfold number_ret, number_depth.
    destruct (r =? - ENOMEM); reflexivity.
Qed.



(** ** Values that leave their key on the stack *)

(** The callbacks of null, of booleans, of the start of a map and of the
    brackets of an array change nothing: a traversal is the traversal of
    the other events. *)
Lemma traverse_skip_silent (D Y : nat) (conv : bool) (H : Type)
    (handler : H -> cstring -> cstring -> Z * H) (evs : list yajl_event) :
  forall y : yajl_struct H,
    traverse_events D Y conv handler y
      (filter (fun ev => negb (silent ev)) evs)
    = traverse_events D Y conv handler y evs.
Proof.
  induction evs as [|ev evs IH]; intros y; [reflexivity|].
  destruct ev; cbn [filter silent negb traverse_events callback];
    rewrite ?continue_eqb; try apply IH;
    match goal with
    | |- context [match ?c with CbReturn _ _ => _ | CbUndefined _ _ => _ end] =>
        destruct c as [ret y'|u]; [|reflexivity];
        destruct (ret =? CEPH_CB_CONTINUE); [apply IH | reflexivity]
    end.
Qed.

(** A null or a boolean under the key a of the outermost map, then a
    number under the key c of the same map, where c is neither avgcount
    nor sum: [ceph_cb_null] and [ceph_cb_boolean] leave the depth as it
    is, the key a stays on the stack, and the number is reported under
    the path a.c.  (The keys have no NUL and fit [state[].key], the path
    fits [key[128]], and the stack has room for two keys.) *)
Theorem scalar_value_keeps_its_key (DATA_MAX_NAME_LEN YAJL_MAX_DEPTH : nat)
    (convert_special_metrics : bool) (H : Type)
    (handler : H -> cstring -> cstring -> Z * H) (arg : H)
    (a c : cstring) (scalar : yajl_event) (v : list ascii) :
  is_scalar scalar = true ->
  Forall (fits_key DATA_MAX_NAME_LEN) [a; c] ->
  (2 < YAJL_MAX_DEPTH)%nat ->
  (length (join_dots [a; c]) < 128)%nat ->
  latency_key c = false ->
  let call := handler arg (c_str v) (join_dots [a; c]) in
  exists y',
    traverse_events DATA_MAX_NAME_LEN YAJL_MAX_DEPTH convert_special_metrics
      handler (yajl_start YAJL_MAX_DEPTH arg)
      [ev_start_map; ev_map_key a; scalar; ev_map_key c; ev_number v]
    = CbReturn (number_ret (fst call)) y'
    /\ handler_arg y' = snd call
    /\ depth y' = number_depth (fst call) 2.
Proof.
  intros Hs Hfit HY Hlen Hlat.
  assert (E : filter (fun ev => negb (silent ev))
                [ev_start_map; ev_map_key a; scalar; ev_map_key c; ev_number v]
              = filter (fun ev => negb (silent ev))
                  (key_events [a; c] ++ [ev_number v])).
  { destruct scalar; try discriminate; reflexivity. }
  rewrite <- traverse_skip_silent, E, traverse_skip_silent. cbv zeta.
  destruct (@traverse_key_events DATA_MAX_NAME_LEN YAJL_MAX_DEPTH
              convert_special_metrics H handler [a; c] Hfit
              (yajl_start YAJL_MAX_DEPTH arg) [])
    as (y1 & Et & Hd & Hk & Hl & Ha);
    [ reflexivity | apply yajl_start_holds | apply repeat_length
    | cbn [length]; lia | ].
  cbn [app length Nat.add] in Hd, Hk. cbn [yajl_start handler_arg] in Ha.
  rewrite (@traverse_events_app DATA_MAX_NAME_LEN YAJL_MAX_DEPTH
             convert_special_metrics H handler _ [ev_number v] _ _ Et).
  assert (Hnul : Forall (fun k => Forall (fun x => x <> NUL) k) [a; c]).
  { eapply Forall_impl; [|exact Hfit]. intros k [Hn _]. exact Hn. }
  pose proof (@ceph_cb_number_joined YAJL_MAX_DEPTH convert_special_metrics
                H handler y1 a [c] v Hk Hnul Hd ltac:(cbn [length]; lia)
                Hlen Hlat) as En.
  cbv zeta in En. rewrite Ha in En.
  eexists. split; [|split].
  - apply traverse_last_number; [apply number_ret_cases | exact En].
  - reflexivity.
  - cbn [depth]. now rewrite Hd.
Qed.

(** The text {"up":true,"epoch":12}: the number is reported under
    up.epoch. *)
Lemma scalar_value_keeps_its_key_witness :
  exists y',
    traverse_events 64 128 true (fun (_ : cstring) (_ k : cstring) => (0, k))
      (yajl_start 128 [])
      [ ev_start_map; ev_map_key (lit "up"); ev_boolean true;
        ev_map_key (lit "epoch"); ev_number (lit "12") ]
    = CbReturn CEPH_CB_CONTINUE y'
    /\ handler_arg y' = lit "up.epoch"
    /\ depth y' = 1.
Proof.
  apply (@scalar_value_keeps_its_key 64 128 true cstring
           (fun (_ : cstring) (_ k : cstring) => (0, k)) []
           (lit "up") (lit "epoch") (ev_boolean true) (lit "12")).
  - reflexivity.
  - repeat constructor; try discriminate; vm_compute; lia.
  - lia.
  - vm_compute; lia.
  - reflexivity.
Defined.

(** [ceph_cb_number] at depth 1 or less: the loop over the keys does not
    run, and the path is the key at the bottom of the stack. *)
Lemma ceph_cb_number_bottom (Y : nat) (conv : bool) (H : Type)
    (handler : H -> cstring -> cstring -> Z * H) (y : yajl_struct H)
    (a : cstring) (v : list ascii) :
  holds_keys y [a] ->
  Forall (fun c => c <> NUL) a -> (length a < 128)%nat ->
  (1 <= Y)%nat -> depth y <= 1 ->
  let call := handler (handler_arg y) (c_str v) a in
  ceph_cb_number Y conv handler y v
  = CbReturn (number_ret (fst call))
      {| handler_arg := snd call; state := state y;
         depth := number_depth (fst call) (depth y) |}.
Proof.
  intros Hk Hnul Hlen HY Hd. cbv zeta.
  unfold ceph_cb_number, first_key.
  rewrite state_at_inside by lia. change (Z.to_nat 0) with 0%nat.
  rewrite (Hk 0%nat a eq_refl). cbn [key key_len].
  destruct (Z.leb_spec (Z.of_nat (length a) + 1) 0); [lia|].
  replace (Z.to_nat (Z.of_nat (length a) + 1 - 1)) with (length a) by lia.
  rewrite (c_str_id Hnul), firstn_all.
  destruct (Nat.leb_spec 128 (length a)); [lia|].
  assert (Ep : number_path Y conv (Z.to_nat (depth y)) y 1 a
               = PathBuilt a false).
  { destruct (Z.to_nat (depth y)); cbn [number_path]; [reflexivity|].
    destruct (Z.ltb_spec 1 (depth y)); [lia | reflexivity]. }
  rewrite Ep.
  destruct (handler (handler_arg y) (c_str v) a) as [r a1].
  rewrite andb_false_r. cbn [fst snd]. unfold number_ret, number_depth.
  destruct (r =? - ENOMEM); reflexivity.
Qed.

(** Numbers met one after the other at depth 1 or less, with a handler
    that does not answer -ENOMEM for the key at the bottom of the stack:
    every number is handed to the handler under that key, and each takes
    the depth down by one. *)
Lemma numbers_at_the_bottom (D Y : nat) (conv : bool) (H : Type)
    (handler : H -> cstring -> cstring -> Z * H) (a : cstring)
    (vs : list (list ascii)) (rest : list yajl_event) :
  Forall (fun c => c <> NUL) a -> (length a < 128)%nat -> (1 <= Y)%nat ->
  (forall h v, (fst (handler h v a) =? - ENOMEM) = false) ->
  forall y : yajl_struct H,
    holds_keys y [a] -> depth y <= 1 ->
    traverse_events D Y conv handler y (map ev_number vs ++ rest)
    = traverse_events D Y conv handler
        {| handler_arg :=
             fold_left (fun h v => snd (handler h (c_str v) a)) vs
               (handler_arg y);
           state := state y;
           depth := depth y - Z.of_nat (length vs) |} rest.
Proof.
  intros Hnul Hlen HY Hh.
  induction vs as [|v vs IH]; intros y Hk Hd.
  - cbn [map app fold_left length Z.of_nat]. rewrite Z.sub_0_r.
    destruct y; reflexivity.
  - cbn [map app traverse_events callback].
    rewrite (@ceph_cb_number_bottom Y conv H handler y a v Hk Hnul Hlen HY Hd).
    cbv zeta. unfold number_ret, number_depth. rewrite Hh, continue_eqb.
    rewrite IH; [|exact Hk|cbn [depth]; lia].
    cbn [handler_arg state depth fold_left length].
    replace (depth y - 1 - Z.of_nat (length vs))
      with (depth y - Z.of_nat (S (length vs))) by lia.
    reflexivity.
Qed.

(** An array of numbers that is the value of a key a of the outermost
    map, with a handler that does not answer -ENOMEM for the key a:
    every number of the array is handed to the handler under the path a,
    and each takes the depth down by one ([ceph_cb_start_array] and
    [ceph_cb_end_array] leave the depth as it is), so that the depth
    after an array of n numbers is 1 - n.  After two numbers or more it
    is negative, and the key that follows the array is written to
    [yajl->state[1 - n]], before the array [state]. *)
Theorem array_numbers_take_depth_below_zero
    (DATA_MAX_NAME_LEN YAJL_MAX_DEPTH : nat)
    (convert_special_metrics : bool) (H : Type)
    (handler : H -> cstring -> cstring -> Z * H) (arg : H)
    (a b : cstring) (vs : list (list ascii)) :
  fits_key DATA_MAX_NAME_LEN a -> (length a < 128)%nat ->
  (1 < YAJL_MAX_DEPTH)%nat ->
  (forall h v, (fst (handler h v a) =? - ENOMEM) = false) ->
  (exists y',
      traverse_events DATA_MAX_NAME_LEN YAJL_MAX_DEPTH
        convert_special_metrics handler (yajl_start YAJL_MAX_DEPTH arg)
        ([ev_start_map; ev_map_key a; ev_start_array]
         ++ map ev_number vs ++ [ev_end_array])
      = CbReturn CEPH_CB_CONTINUE y'
      /\ handler_arg y'
         = fold_left (fun h v => snd (handler h (c_str v) a)) vs arg
      /\ depth y' = 1 - Z.of_nat (length vs))
  /\ ((2 <= length vs)%nat ->
      traverse_events DATA_MAX_NAME_LEN YAJL_MAX_DEPTH
        convert_special_metrics handler (yajl_start YAJL_MAX_DEPTH arg)
        ([ev_start_map; ev_map_key a; ev_start_array]
         ++ map ev_number vs ++ [ev_end_array; ev_map_key b])
      = CbUndefined H (StackIndex (1 - Z.of_nat (length vs)))).
Proof.
  intros Hfit Hlen HY Hh.
  destruct (@traverse_key_events DATA_MAX_NAME_LEN YAJL_MAX_DEPTH
              convert_special_metrics H handler [a]
              ltac:(constructor; [exact Hfit | constructor])
              (yajl_start YAJL_MAX_DEPTH arg) [])
    as (y1 & Et & Hd & Hk & Hl & Ha);
    [ reflexivity | apply yajl_start_holds | apply repeat_length
    | cbn [length]; lia | ].
  cbn [app length Nat.add] in Hd, Hk. cbn [yajl_start handler_arg] in Ha.
  cbn [key_events flat_map app] in Et.
  destruct Hfit as [Hnul _].
  assert (Eall : forall rest,
             traverse_events DATA_MAX_NAME_LEN YAJL_MAX_DEPTH
               convert_special_metrics handler (yajl_start YAJL_MAX_DEPTH arg)
               ([ev_start_map; ev_map_key a; ev_start_array]
                ++ map ev_number vs ++ rest)
             = traverse_events DATA_MAX_NAME_LEN YAJL_MAX_DEPTH
                 convert_special_metrics handler
                 {| handler_arg :=
                      fold_left (fun h v => snd (handler h (c_str v) a)) vs
                        arg;
                    state := state y1;
                    depth := 1 - Z.of_nat (length vs) |} rest).
  { intros rest.
    change ([ev_start_map; ev_map_key a; ev_start_array]
            ++ map ev_number vs ++ rest)
      with ([ev_start_map; ev_map_key a]
            ++ ev_start_array :: map ev_number vs ++ rest).
    rewrite (@traverse_events_app DATA_MAX_NAME_LEN YAJL_MAX_DEPTH
               convert_special_metrics H handler _ _ _ _ Et).
    cbn [traverse_events callback]. rewrite continue_eqb.
    rewrite (@numbers_at_the_bottom DATA_MAX_NAME_LEN YAJL_MAX_DEPTH
               convert_special_metrics H handler a vs rest Hnul Hlen
               ltac:(lia) Hh y1 Hk ltac:(lia)).
    rewrite Ha, Hd. reflexivity. }
  split.
  - eexists. split; [|split].
    + rewrite Eall. cbn [traverse_events callback]. rewrite continue_eqb.
      reflexivity.
    + reflexivity.
    + reflexivity.
  - intros Hn. rewrite Eall. cbn [traverse_events callback].
    rewrite continue_eqb.
    unfold ceph_cb_map_key. cbn [depth].
    destruct (Z.leb_spec (Z.of_nat YAJL_MAX_DEPTH)
                (1 - Z.of_nat (length vs) + 1)); [lia|].
    destruct (Z.ltb_spec (1 - Z.of_nat (length vs)) 0); [reflexivity | lia].
Qed.

(** The text {"pools":[3,4,5],"osds":...}, with the handler that accepts
    every call and counts them. *)
Lemma array_numbers_take_depth_below_zero_witness :
  (exists y',
      traverse_events 64 128 true (fun (n : nat) (_ _ : cstring) => (0, S n))
        (yajl_start 128 0%nat)
        [ ev_start_map; ev_map_key (lit "pools"); ev_start_array;
          ev_number (lit "3"); ev_number (lit "4"); ev_number (lit "5");
          ev_end_array ]
      = CbReturn CEPH_CB_CONTINUE y'
      /\ handler_arg y' = 3%nat /\ depth y' = -2)
  /\ traverse_events 64 128 true (fun (n : nat) (_ _ : cstring) => (0, S n))
       (yajl_start 128 0%nat)
       [ ev_start_map; ev_map_key (lit "pools"); ev_start_array;
         ev_number (lit "3"); ev_number (lit "4"); ev_number (lit "5");
         ev_end_array; ev_map_key (lit "osds") ]
     = CbUndefined nat (StackIndex (-2)).
Proof.
  destruct (@array_numbers_take_depth_below_zero 64 128 true nat
              (fun (n : nat) (_ _ : cstring) => (0, S n)) 0%nat
              (lit "pools") (lit "osds") [lit "3"; lit "4"; lit "5"])
    as [Hrun Hkey].
  - split; [repeat constructor; discriminate | vm_compute; lia].
  - vm_compute; lia.
  - lia.
  - reflexivity.
  - split; [exact Hrun | apply Hkey; cbn [length]; lia].
Defined.

(** ** The reply to the request for the cluster id *)

(** The text {k: s} with a string s, handled by
    [node_handler_parse_fsid]: the daemon's fsid becomes s exactly when k
    is fsid and s has [FSID_STRING_LEN - 1] characters; any other string
    leaves the daemon as it is.  Either way the parse goes on. *)
Theorem fsid_reply_is_stored (DATA_MAX_NAME_LEN YAJL_MAX_DEPTH : nat)
    (convert_special_metrics : bool) (d : ceph_daemon)
    (k : cstring) (s : list ascii) :
  fits_key DATA_MAX_NAME_LEN k -> (1 < YAJL_MAX_DEPTH)%nat ->
  exists y',
    traverse_events DATA_MAX_NAME_LEN YAJL_MAX_DEPTH convert_special_metrics
      node_handler_parse_fsid (yajl_start YAJL_MAX_DEPTH d)
      [ev_start_map; ev_map_key k; ev_string s; ev_end_map]
    = CbReturn CEPH_CB_CONTINUE y'
    /\ handler_arg y'
       = (if streq k (lit "fsid") && (length s =? FSID_STRING_LEN - 1)%nat
          then set_fsid d (c_str s) else d)
    /\ depth y' = -1.
Proof.
  intros Hfit HY.
  destruct (@traverse_key_events DATA_MAX_NAME_LEN YAJL_MAX_DEPTH
              convert_special_metrics ceph_daemon node_handler_parse_fsid [k]
              ltac:(constructor; [exact Hfit | constructor])
              (yajl_start YAJL_MAX_DEPTH d) [])
    as (y1 & Et & Hd & Hk & Hl & Ha);
    [ reflexivity | apply yajl_start_holds | apply repeat_length
    | cbn [length]; lia | ].
  cbn [app length Nat.add] in Hd, Hk. cbn [yajl_start handler_arg] in Ha.
  cbn [key_events flat_map app] in Et.
  change [ev_start_map; ev_map_key k; ev_string s; ev_end_map]
    with ([ev_start_map; ev_map_key k] ++ [ev_string s; ev_end_map]).
  rewrite (@traverse_events_app DATA_MAX_NAME_LEN YAJL_MAX_DEPTH
             convert_special_metrics ceph_daemon node_handler_parse_fsid
             _ _ _ _ Et).
  cbn [traverse_events callback].
  unfold ceph_cb_string, first_key. rewrite Hd. change (Z.of_nat 1 =? 1) with true.
  cbv iota. rewrite state_at_inside by lia. change (Z.to_nat 0) with 0%nat.
  rewrite (Hk 0%nat k eq_refl). cbn [key key_len].
  destruct Hfit as [Hnul _]. rewrite (c_str_id Hnul).
  destruct (streq k (lit "fsid") && (length s =? FSID_STRING_LEN - 1)%nat)
    eqn:Ef.
  - apply andb_true_iff in Ef as [Ek Es].
    apply streq_eq in Ek. apply Nat.eqb_eq in Es.
    destruct (Z.leb_spec (Z.of_nat (length k) + 1) 0); [lia|].
    replace (Z.to_nat (Z.of_nat (length k) + 1 - 1)) with (length k) by lia.
    rewrite firstn_all.
    destruct (Nat.leb_spec 128 (length k)) as [Hbig|_];
      [subst k; vm_compute in Hbig; lia|].
    unfold node_handler_parse_fsid at 1.
    rewrite continue_eqb. unfold ceph_cb_end_map, with_depth.
    cbn [depth handler_arg state]. rewrite continue_eqb, Ha.
    eexists. split; [reflexivity|]. cbn [handler_arg depth].
    split; [|reflexivity].
    rewrite firstn_all2; [reflexivity|].
    pose proof (c_str_length s) as Hc. unfold strlen in Hc. lia.
  - change (0 <? Z.of_nat 1) with true. cbv iota.
    rewrite continue_eqb. unfold ceph_cb_end_map, with_depth.
    cbn [depth handler_arg state]. rewrite continue_eqb.
    eexists. split; [reflexivity|]. cbn [handler_arg depth].
    split; [exact Ha | reflexivity].
Qed.

(** The reply of a daemon to the request for its cluster id. *)
Lemma fsid_reply_is_stored_witness :
  exists y',
    traverse_events 64 128 true node_handler_parse_fsid
      (yajl_start 128
         (new_daemon (lit "osd.0") (lit "/var/run/ceph/ceph-osd.0.asok")
            (lit "ceph")))
      [ ev_start_map; ev_map_key (lit "fsid");
        ev_string (lit "a7f64266-0894-4f1e-a635-d0aeaca0e993"); ev_end_map ]
    = CbReturn CEPH_CB_CONTINUE y'
    /\ handler_arg y'
       = set_fsid
           (new_daemon (lit "osd.0") (lit "/var/run/ceph/ceph-osd.0.asok")
              (lit "ceph"))
           (lit "a7f64266-0894-4f1e-a635-d0aeaca0e993")
    /\ depth y' = -1.
Proof.
  apply (@fsid_reply_is_stored 64 128 true
           (new_daemon (lit "osd.0") (lit "/var/run/ceph/ceph-osd.0.asok")
              (lit "ceph"))
           (lit "fsid") (lit "a7f64266-0894-4f1e-a635-d0aeaca0e993")).
  - split; [repeat constructor; discriminate | vm_compute; lia].
  - lia.
Defined.

(** * Further properties of the names *)

(** ** [parse_keys] on the arrays of its callers *)

(** The arrays [parse_keys] leaves when it was given cleared ones. *)
Lemma parse_keys_zeroed_form (D : nat) (key_str : cstring) :
  c_str key_str <> [] ->
  let a := fst (split_key D (c_str key_str)) in
  let b := snd (split_key D (c_str key_str)) in
  exists ds_buf,
    parse_keys D key_str (zeroed D) (zeroed MAX_RRD_DS_NAME_LEN)
    = Some (0, a ++ zeroed (D - length a), ds_buf)
    /\ compact_ds_name D b (zeroed MAX_RRD_DS_NAME_LEN) = Some ds_buf
    /\ length ds_buf = MAX_RRD_DS_NAME_LEN
    /\ (strlen ds_buf <= MAX_RRD_DS_NAME_LEN - 1)%nat
    /\ Forall (fun c => c <> NUL) a
    /\ (length a <= D - 1)%nat.
Proof.
  intros Hne. cbv zeta. unfold parse_keys.
  destruct (c_str key_str) as [|c r] eqn:Ek; [contradiction|].
  rewrite !hd_zeroed.
  change (negb (Ascii.eqb NUL NUL) || negb (Ascii.eqb NUL NUL)) with false.
  cbv iota.
  assert (Hk : Forall (fun x => x <> NUL) (c :: r))
    by (rewrite <- Ek; apply c_str_no_nul).
  destruct (split_key_parts D Hk) as (Ha & Hb & La & Lb).
  assert (Hfst : strchr (c :: r) "." = None ->
                 fst (split_key D (c :: r)) = firstn (D - 1) (c :: r)).
  { unfold split_key, strncpy. intros ->. reflexivity. }
  destruct (split_key D (c :: r)) as [a b]. cbn [fst snd] in *.
  assert (Hw : match strchr (c :: r) "." with
               | Some _ => buf_write (zeroed D) 0 a
               | None => strncpy_into (zeroed D) (c :: r) (D - 1)
               end = Some (a ++ zeroed (D - length a))).
  { destruct (strchr (c :: r) ".").
    - apply buf_write_zeroed. lia.
    - rewrite (Hfst eq_refl). apply strncpy_into_zeroed. }
  rewrite Hw. rewrite buf_write_zeroed by lia.
  rewrite compact_ds_name_c_str, c_str_app_zeroed by assumption.
  assert (Hcompact : exists ds_buf,
             compact_ds_name D b (zeroed MAX_RRD_DS_NAME_LEN) = Some ds_buf
             /\ length ds_buf = MAX_RRD_DS_NAME_LEN
             /\ (strlen ds_buf <= MAX_RRD_DS_NAME_LEN - 1)%nat).
  { destruct b as [|x b].
    - exists (zeroed MAX_RRD_DS_NAME_LEN). repeat split. vm_compute; lia.
    - apply compact_ds_name_bound. unfold strlen.
      rewrite c_str_id by assumption. simpl length in *. lia. }
  destruct Hcompact as (ds_buf & E & L & B). rewrite E.
  exists ds_buf. repeat split; assumption.
Qed.

(** Whatever key [parse_keys] is given, of any length, with cleared
    arrays of [DATA_MAX_NAME_LEN] and [MAX_RRD_DS_NAME_LEN] bytes as its
    callers pass them: no write leaves an array, the value returned is -1
    for an empty key and 0 otherwise, and both arrays hold a string that
    ends inside them. *)
Theorem parse_keys_stays_in_its_arrays (DATA_MAX_NAME_LEN : nat)
    (key_str : cstring) :
  exists dset_buf ds_buf,
    parse_keys DATA_MAX_NAME_LEN key_str (zeroed DATA_MAX_NAME_LEN)
      (zeroed MAX_RRD_DS_NAME_LEN)
    = Some (if (strlen key_str =? 0)%nat then -1 else 0, dset_buf, ds_buf)
    /\ length dset_buf = DATA_MAX_NAME_LEN
    /\ length ds_buf = MAX_RRD_DS_NAME_LEN
    /\ (strlen dset_buf <= DATA_MAX_NAME_LEN - 1)%nat
    /\ (strlen ds_buf <= MAX_RRD_DS_NAME_LEN - 1)%nat.
Proof.
  destruct (c_str key_str) as [|c r] eqn:Ek.
  - exists (zeroed DATA_MAX_NAME_LEN), (zeroed MAX_RRD_DS_NAME_LEN).
    unfold parse_keys, strlen. rewrite Ek. cbn [length Nat.eqb].
    rewrite !zeroed_length, !c_str_zeroed. cbn [length].
    repeat split; lia.
  - destruct (@parse_keys_zeroed_form DATA_MAX_NAME_LEN key_str)
      as (ds_buf & E & _ & L & B & Ha & La); [congruence|].
    cbv zeta in *. eexists; exists ds_buf. unfold strlen at 1. rewrite Ek.
    cbn [length Nat.eqb]. split; [exact E|].
    rewrite length_app, zeroed_length.
    unfold strlen at 1. rewrite (c_str_app_zeroed _ Ha).
    repeat split; try assumption; lia.
Qed.

(** ** The short name is chosen by four characters of the last segment *)

Lemma strneq_length (l p : cstring) (n : nat) :
  strneq l p n = true -> (length p = n)%nat -> (n <= length l)%nat.
Proof.
  unfold strneq. intros E Hp. apply streq_eq in E.
  apply (f_equal (@length ascii)) in E. rewrite !length_firstn in E. lia.
Qed.

(** [split_key] on a path of two or more segments. *)
Lemma split_key_by_prefix (D : nat) (first : cstring) (front : list cstring)
    (l : cstring) :
  forallb is_segment (first :: front ++ [l]) = true ->
  (length (join_dots (first :: front ++ [l])) < D)%nat ->
  split_key D (join_dots (first :: front ++ [l]))
  = (first, short_name_by_prefix first front l).
Proof.
  intros Hseg Hlen.
  cbn [forallb] in Hseg.
  apply andb_true_iff in Hseg as [Hfirst Hrest].
  rewrite forallb_app in Hrest. apply andb_true_iff in Hrest as [Hfront Hl].
  cbn [forallb] in Hl. rewrite andb_true_r in Hl.
  assert (Epath : join_dots (first :: front ++ [l])
                  = first ++ dot :: join_dots (front ++ [l])).
  { destruct front; reflexivity. }
  rewrite Epath in *. unfold split_key, short_name_by_prefix.
  rewrite (strchr_app _ (is_segment_no_dot _ Hfirst)).
  rewrite length_app in Hlen. cbn [length] in Hlen.
  destruct (Nat.ltb_spec (D - 1) (length first)); [lia|].
  rewrite firstn_app_exact, skipn_app_cons.
  destruct front as [|f front].
  - (* two segments *)
    cbn [app join_dots] in *.
    rewrite (strrchr_app _ (is_segment_no_dot _ Hl)).
    rewrite Nat.sub_diag.
    destruct (Nat.ltb_spec D 0); [lia|].
    rewrite skipn_app_cons. cbn [Nat.eqb]. unfold strncpy.
    destruct (strneq l (lit "type") 4); rewrite firstn_all2 by lia;
      reflexivity.
  - (* more than two segments *)
    rewrite (@join_dots_snoc (f :: front) l) in * by discriminate.
    set (M := join_dots (f :: front)) in *.
    rewrite length_app in Hlen. cbn [length] in Hlen.
    replace (first ++ dot :: M ++ dot :: l)
      with ((first ++ dot :: M) ++ dot :: l)
      by (now rewrite <- app_assoc).
    rewrite (strrchr_app _ (is_segment_no_dot _ Hl)).
    rewrite skipn_app_cons.
    rewrite length_app. cbn [length].
    replace (length first + S (length M) - length first)%nat
      with (S (length M)) by lia.
    destruct (Nat.ltb_spec D (S (length M))); [lia|].
    cbn [Nat.eqb].
    destruct (strneq l (lit "type") 4).
    + replace (S (length M) - 1)%nat with (length M) by lia.
      now rewrite firstn_app_exact.
    + unfold strncpy.
      rewrite firstn_all2; [reflexivity|].
      rewrite length_app. cbn [length]. lia.
Qed.

(** The first segment of such a path is not empty as a key. *)
Lemma join_dots_two_nonempty (first : cstring) (front : list cstring)
    (l : cstring) :
  join_dots (first :: front ++ [l]) <> [].
Proof.
  replace (join_dots (first :: front ++ [l]))
    with (first ++ dot :: join_dots (front ++ [l]))
    by (destruct front; reflexivity).
  destruct first; discriminate.
Qed.

Lemma join_dots_segments_no_nul (first : cstring) (rest : list cstring) :
  forallb is_segment (first :: rest) = true ->
  c_str (join_dots (first :: rest)) = join_dots (first :: rest).
Proof. intros Hseg. apply c_str_id. now apply join_dots_no_nul. Qed.

(** Two paths that [split_key] splits alike give the same arrays. *)
Lemma parse_keys_by_split (D : nat) (k1 k2 : cstring) :
  c_str k1 <> [] -> c_str k2 <> [] ->
  split_key D (c_str k1) = split_key D (c_str k2) ->
  parse_keys D k1 (zeroed D) (zeroed MAX_RRD_DS_NAME_LEN)
  = parse_keys D k2 (zeroed D) (zeroed MAX_RRD_DS_NAME_LEN).
Proof.
  intros H1 H2 Es.
  destruct (@parse_keys_zeroed_form D k1 H1) as (b1 & E1 & C1 & _).
  destruct (@parse_keys_zeroed_form D k2 H2) as (b2 & E2 & C2 & _).
  cbv zeta in *. rewrite E1, E2. rewrite Es in *.
  rewrite C1 in C2. now inversion C2.
Qed.

(** A last segment that begins with the four letters of "type" (types,
    type_x, ...) is taken for the segment "type": for a path of two or
    more segments that fits the long-name budget, [parse_keys] leaves
    the arrays it leaves for the path that ends with "type" instead; the
    short name is the first segment for a path of two segments, and
    what lies between the first and the last dot otherwise. *)
Theorem type_prefix_is_taken_for_type (DATA_MAX_NAME_LEN : nat)
    (first : cstring) (front : list cstring) (l : cstring) :
  forallb is_segment (first :: front ++ [l]) = true ->
  (length (join_dots (first :: front ++ [l])) < DATA_MAX_NAME_LEN)%nat ->
  strneq l (lit "type") 4 = true ->
  split_key DATA_MAX_NAME_LEN (join_dots (first :: front ++ [l]))
  = (first, match front with [] => first | _ => join_dots front end)
  /\ parse_keys DATA_MAX_NAME_LEN (join_dots (first :: front ++ [l]))
       (zeroed DATA_MAX_NAME_LEN) (zeroed MAX_RRD_DS_NAME_LEN)
     = parse_keys DATA_MAX_NAME_LEN
         (join_dots (first :: front ++ [lit "type"]))
         (zeroed DATA_MAX_NAME_LEN) (zeroed MAX_RRD_DS_NAME_LEN).
Proof.
  intros Hseg Hlen Ht.
  pose proof (@split_key_by_prefix DATA_MAX_NAME_LEN first front l Hseg Hlen)
    as E1.
  unfold short_name_by_prefix in E1. rewrite Ht in E1.
  split; [exact E1|].
  assert (Hseg' : forallb is_segment (first :: front ++ [lit "type"]) = true).
  { cbn [forallb] in *. apply andb_true_iff in Hseg as [Hf Hr].
    rewrite forallb_app in *. apply andb_true_iff in Hr as [Hr _].
    rewrite Hf, Hr. reflexivity. }
  assert (Hlen' : (length (join_dots (first :: front ++ [lit "type"]))
                   <= length (join_dots (first :: front ++ [l])))%nat).
  { pose proof (strneq_length _ _ Ht eq_refl) as H4.
    change (first :: front ++ [lit "type"])
      with ((first :: front) ++ [lit "type"]).
    change (first :: front ++ [l]) with ((first :: front) ++ [l]).
    rewrite !join_dots_snoc by discriminate.
    rewrite !length_app. cbn [length]. change (length (lit "type")) with 4%nat.
    lia. }
  pose proof (@split_key_by_prefix DATA_MAX_NAME_LEN first front (lit "type")
                Hseg' ltac:(lia)) as E2.
  unfold short_name_by_prefix in E2.
  change (strneq (lit "type") (lit "type") 4) with true in E2. cbv iota in E2.
  apply parse_keys_by_split.
  - rewrite join_dots_segments_no_nul by assumption.
    apply join_dots_two_nonempty.
  - rewrite join_dots_segments_no_nul by assumption.
    apply join_dots_two_nonempty.
  - rewrite !join_dots_segments_no_nul by assumption. now rewrite E1, E2.
Qed.

(** The path osd.op.types, with [DATA_MAX_NAME_LEN] 64. *)
Lemma type_prefix_is_taken_for_type_witness :
  split_key 64 (lit "osd.op.types") = (lit "osd", lit "op")
  /\ parse_keys 64 (lit "osd.op.types") (zeroed 64)
       (zeroed MAX_RRD_DS_NAME_LEN)
     = parse_keys 64 (lit "osd.op.type") (zeroed 64)
         (zeroed MAX_RRD_DS_NAME_LEN).
Proof.
  apply (@type_prefix_is_taken_for_type 64 (lit "osd") [lit "op"]
           (lit "types")).
  - reflexivity.
  - vm_compute; lia.
  - reflexivity.
Defined.

(** ** The schema and the data name a counter alike *)

(** The schema reports a counter under the path of its keys followed by
    "type", the data under the path itself.  For a path of two or more
    segments of which the last does not begin with "type", and a schema
    path that fits the long-name budget, [parse_keys] leaves the same
    data set name and the same mangled name for both, so that
    [node_handler_fetch_data] looks a value up under the names
    [ceph_daemon_add_ds_entry] registered. *)
Theorem schema_and_data_name_alike (DATA_MAX_NAME_LEN : nat)
    (first : cstring) (front : list cstring) (l : cstring) :
  forallb is_segment (first :: front ++ [l]) = true ->
  (length (join_dots (first :: (front ++ [l]) ++ [lit "type"]))
   < DATA_MAX_NAME_LEN)%nat ->
  strneq l (lit "type") 4 = false ->
  exists dset_buf ds_buf,
    parse_keys DATA_MAX_NAME_LEN
      (join_dots (first :: (front ++ [l]) ++ [lit "type"]))
      (zeroed DATA_MAX_NAME_LEN) (zeroed MAX_RRD_DS_NAME_LEN)
    = Some (0, dset_buf, ds_buf)
    /\ parse_keys DATA_MAX_NAME_LEN (join_dots (first :: front ++ [l]))
         (zeroed DATA_MAX_NAME_LEN) (zeroed MAX_RRD_DS_NAME_LEN)
       = Some (0, dset_buf, ds_buf)
    /\ c_str dset_buf = first
    /\ compact_ds_name DATA_MAX_NAME_LEN (join_dots (front ++ [l]))
         (zeroed MAX_RRD_DS_NAME_LEN) = Some ds_buf.
Proof.
  intros Hseg Hlen Ht.
  assert (Hseg' : forallb is_segment
                    (first :: (front ++ [l]) ++ [lit "type"]) = true).
  { cbn [forallb] in *. apply andb_true_iff in Hseg as [Hf Hr].
    rewrite forallb_app, Hf, Hr. reflexivity. }
  assert (Hlen' : (length (join_dots (first :: front ++ [l]))
                   <= length (join_dots
                                (first :: (front ++ [l]) ++ [lit "type"])))%nat).
  { change (first :: (front ++ [l]) ++ [lit "type"])
      with ((first :: front ++ [l]) ++ [lit "type"]).
    apply join_dots_prefix_length. }
  pose proof (@split_key_by_prefix DATA_MAX_NAME_LEN first (front ++ [l])
                (lit "type") Hseg' Hlen) as Es.
  unfold short_name_by_prefix in Es.
  change (strneq (lit "type") (lit "type") 4) with true in Es. cbv iota in Es.
  assert (Es' : split_key DATA_MAX_NAME_LEN
                  (join_dots (first :: (front ++ [l]) ++ [lit "type"]))
                = (first, join_dots (front ++ [l]))).
  { rewrite Es. destruct front; reflexivity. }
  pose proof (@split_key_by_prefix DATA_MAX_NAME_LEN first front l Hseg
                ltac:(lia)) as Ed.
  unfold short_name_by_prefix in Ed. rewrite Ht in Ed.
  assert (Ed' : split_key DATA_MAX_NAME_LEN (join_dots (first :: front ++ [l]))
                = (first, join_dots (front ++ [l]))).
  { rewrite Ed. destruct front; reflexivity. }
  destruct (@parse_keys_zeroed_form DATA_MAX_NAME_LEN
              (join_dots (first :: (front ++ [l]) ++ [lit "type"])))
    as (ds_buf & E & C & _ & _ & Ha & _).
  { rewrite join_dots_segments_no_nul by assumption.
    apply (@join_dots_two_nonempty first (front ++ [l]) (lit "type")). }
  cbv zeta in *.
  rewrite join_dots_segments_no_nul in * by assumption.
  rewrite Es' in *. cbn [fst snd] in *.
  eexists; exists ds_buf. split; [exact E|]. split.
  - rewrite <- E. apply parse_keys_by_split.
    + rewrite join_dots_segments_no_nul by assumption.
      apply join_dots_two_nonempty.
    + rewrite join_dots_segments_no_nul by assumption.
      apply (@join_dots_two_nonempty first (front ++ [l]) (lit "type")).
    + rewrite !join_dots_segments_no_nul by assumption. now rewrite Es', Ed'.
  - split; [now apply c_str_app_zeroed | exact C].
Qed.

(** The counter osd.op_w_latency, with [DATA_MAX_NAME_LEN] 64. *)
Lemma schema_and_data_name_alike_witness :
  exists dset_buf ds_buf,
    parse_keys 64 (lit "osd.op_w_latency.type") (zeroed 64)
      (zeroed MAX_RRD_DS_NAME_LEN) = Some (0, dset_buf, ds_buf)
    /\ parse_keys 64 (lit "osd.op_w_latency") (zeroed 64)
         (zeroed MAX_RRD_DS_NAME_LEN) = Some (0, dset_buf, ds_buf)
    /\ c_str dset_buf = lit "osd"
    /\ compact_ds_name 64 (lit "op_w_latency") (zeroed MAX_RRD_DS_NAME_LEN)
       = Some ds_buf.
Proof.
  apply (@schema_and_data_name_alike 64 (lit "osd") [] (lit "op_w_latency")).
  - reflexivity.
  - vm_compute; lia.
  - reflexivity.
Defined.

(** ** A key without a dot *)

(** A key that has no dot names both the data set and its one source:
    [parse_keys] returns 0, the data set name is the key cut to
    [DATA_MAX_NAME_LEN - 1] characters, and the short name is mangled
    from the same text. *)
Theorem key_without_dot_names_both (DATA_MAX_NAME_LEN : nat)
    (c : ascii) (r : cstring) :
  is_segment (c :: r) = true ->
  exists dset_buf ds_buf,
    parse_keys DATA_MAX_NAME_LEN (c :: r) (zeroed DATA_MAX_NAME_LEN)
      (zeroed MAX_RRD_DS_NAME_LEN) = Some (0, dset_buf, ds_buf)
    /\ c_str dset_buf = firstn (DATA_MAX_NAME_LEN - 1) (c :: r)
    /\ compact_ds_name DATA_MAX_NAME_LEN
         (firstn (DATA_MAX_NAME_LEN - 1) (c :: r))
         (zeroed MAX_RRD_DS_NAME_LEN) = Some ds_buf.
Proof.
  intros Hseg.
  pose proof (c_str_id (is_segment_no_nul _ Hseg)) as Ek.
  assert (Es : split_key DATA_MAX_NAME_LEN (c :: r)
               = (firstn (DATA_MAX_NAME_LEN - 1) (c :: r),
                  firstn (DATA_MAX_NAME_LEN - 1) (c :: r))).
  { unfold split_key, strncpy.
    assert (En : strchr (c :: r) "." = None).
    { pose proof (is_segment_no_dot _ Hseg) as Hd. clear - Hd.
      induction Hd as [|x s Hx _ IH]; [reflexivity|].
      cbn [strchr]. destruct (Ascii.eqb_spec x "."); [contradiction|].
      now rewrite IH. }
    now rewrite En. }
  destruct (@parse_keys_zeroed_form DATA_MAX_NAME_LEN (c :: r))
    as (ds_buf & E & C & _ & _ & Ha & _); [rewrite Ek; discriminate|].
  cbv zeta in *. rewrite Ek, Es in *. cbn [fst snd] in *.
  eexists; exists ds_buf. split; [exact E|].
  split; [now apply c_str_app_zeroed | exact C].
Qed.

(** The key of a counter at the top of a perf dump. *)
Lemma key_without_dot_names_both_witness :
  exists dset_buf ds_buf,
    parse_keys 64 (lit "uptime") (zeroed 64) (zeroed MAX_RRD_DS_NAME_LEN)
    = Some (0, dset_buf, ds_buf)
    /\ c_str dset_buf = lit "uptime"
    /\ compact_ds_name 64 (lit "uptime") (zeroed MAX_RRD_DS_NAME_LEN)
       = Some ds_buf.
Proof.
  apply (@key_without_dot_names_both 64 "u"%char (lit "ptime")).
  reflexivity.
Defined.

(** ** The name [compact_ds_name] leaves *)









Lemma skipn_app_exact {A : Type} (a b : list A) (k : nat) :
  skipn (length a + k) (a ++ b) = skipn k b.
Proof. induction a as [|x a IH]; [reflexivity | exact IH]. Qed.

(** A write right after the text of an array that is zero behind it. *)
Lemma buf_write_after (P x : list ascii) (m j : nat) :
  (length x + j <= m)%nat ->
  buf_write (P ++ zeroed m) (length P) (x ++ zeroed j)
  = Some ((P ++ x) ++ zeroed (m - length x)).
Proof.
  intros Hm.
  rewrite buf_write_some
    by (rewrite !length_app, !zeroed_length; lia).
  rewrite firstn_app_exact, skipn_app_exact, skipn_zeroed.
  rewrite length_app, zeroed_length.
  rewrite <- !app_assoc. do 3 f_equal. rewrite zeroed_app.
  f_equal. lia.
Qed.

Lemma buf_write_after0 (P x : list ascii) (m : nat) :
  (length x <= m)%nat ->
  buf_write (P ++ zeroed m) (length P) x
  = Some ((P ++ x) ++ zeroed (m - length x)).
Proof.
  intros Hm. rewrite <- (app_nil_r x) at 1.
  change (@nil ascii) with (zeroed 0). apply buf_write_after. lia.
Qed.

Lemma strlen_app_zeroed (P : list ascii) (m : nat) :
  Forall (fun c => c <> NUL) P -> strlen (P ++ zeroed m) = length P.
Proof. intros HP. unfold strlen. now rewrite c_str_app_zeroed. Qed.



(** * Further properties of the rate engine *)

(** ** One entry for a key *)

Lemma get_last_avg_table (D : nat) (alloc_ok : bool) (tbl : last_poll_data_t)
    (dset_n ds_n : cstring) (cur_sum : float) (cur_count : Z) :
  snd (get_last_avg D alloc_ok tbl dset_n ds_n cur_sum cur_count)
  = snd (update_last D alloc_ok tbl dset_n ds_n cur_sum cur_count).
Proof.
  unfold get_last_avg.
  destruct (update_last D alloc_ok tbl dset_n ds_n cur_sum cur_count)
    as [ret tbl'].
  destruct (ret =? - ENOMEM); reflexivity.
Qed.

Lemma update_first_keys (tbl tbl' : last_poll_data_t) (dset_n ds_n : cstring)
    (cur_sum : float) (cur_count : Z) :
  update_first tbl dset_n ds_n cur_sum cur_count = Some tbl' ->
  keys_of tbl' = keys_of tbl.
Proof.
  revert tbl'; induction tbl as [|x tbl IH]; intros tbl'; cbn [update_first];
    [discriminate|].
  destruct (same_key x dset_n ds_n).
  - intros E; inversion E; reflexivity.
  - destruct (update_first tbl dset_n ds_n cur_sum cur_count) as [rest|];
      [|discriminate].
    intros E; inversion E; subst. cbn [keys_of map]. f_equal. now apply IH.
Qed.

Lemma find_last_none_keys (tbl : last_poll_data_t) (dset_n ds_n : cstring) :
  find_last tbl dset_n ds_n = None -> ~ In (dset_n, ds_n) (keys_of tbl).
Proof.
  induction tbl as [|x tbl IH]; cbn [find_last keys_of map In]; [tauto|].
  destruct (same_key x dset_n ds_n) eqn:Ex; [discriminate|].
  intros Hf [E|Hin]; [|exact (IH Hf Hin)].
  inversion E; subst. unfold same_key in Ex.
  now rewrite !streq_refl in Ex.
Qed.

Lemma keys_of_app (a b : last_poll_data_t) :
  keys_of (a ++ b) = keys_of a ++ keys_of b.
Proof. apply map_app. Qed.

Lemma NoDup_snoc {A : Type} (l : list A) (x : A) :
  NoDup l -> ~ In x l -> NoDup (l ++ [x]).
Proof.
  intros Hl Hx. induction Hl as [|y l Hy Hl IH]; cbn [app].
  - constructor; [intros []|constructor].
  - constructor.
    + intros Hin. apply in_app_or in Hin as [Hin|[->|[]]];
        [contradiction | apply Hx; now left].
    + apply IH. intros Hin. apply Hx. now right.
Qed.

(** The rate engine keeps one entry for a key.  For a key that fits the
    arrays of its names and a table whose entries have distinct keys,
    the table [get_last_avg] leaves has distinct keys again; it has the
    entries of the old table, and one more exactly when the key had no
    entry and the allocator served the call. *)
Theorem rate_table_has_one_entry_per_key (DATA_MAX_NAME_LEN : nat)
    (alloc_ok : bool) (tbl : last_poll_data_t) (dset_n ds_n : cstring)
    (cur_sum : float) (cur_count : Z) :
  (length dset_n < DATA_MAX_NAME_LEN)%nat ->
  (length ds_n < MAX_RRD_DS_NAME_LEN)%nat ->
  NoDup (keys_of tbl) ->
  let tbl' :=
    snd (get_last_avg DATA_MAX_NAME_LEN alloc_ok tbl dset_n ds_n
           cur_sum cur_count) in
  NoDup (keys_of tbl')
  /\ keys_of tbl'
     = keys_of tbl
       ++ (match find_last tbl dset_n ds_n with
           | Some _ => []
           | None => if alloc_ok then [(dset_n, ds_n)] else []
           end).
Proof.
  intros Hd Hs Hnd. cbv zeta. rewrite get_last_avg_table.
  unfold update_last.
  destruct (find_last tbl dset_n ds_n) as [e|] eqn:Hf.
  - destruct (@update_first_found tbl dset_n ds_n cur_sum cur_count e Hf)
      as (tbl' & Eu & _).
    rewrite Eu. cbn [snd]. rewrite (@update_first_keys _ _ _ _ _ _ Eu), app_nil_r.
    split; [assumption | reflexivity].
  - rewrite (@update_first_missing tbl dset_n ds_n cur_sum cur_count Hf).
    destruct alloc_ok; cbn [snd add_last].
    + rewrite keys_of_app. cbn [keys_of map dset_name ds_name].
      rewrite !sstrncpy_fits by assumption.
      split; [|reflexivity].
      apply NoDup_snoc; [assumption | now apply find_last_none_keys].
    + rewrite app_nil_r. split; [assumption | reflexivity].
Qed.

(** The second poll of a counter beside one other counter. *)
Lemma rate_table_has_one_entry_per_key_witness :
  let tbl :=
    [ {| dset_name := lit "osd"; ds_name := lit "OpLatency";
         last_sum := 10; last_count := 5 |};
      {| dset_name := lit "osd"; ds_name := lit "OpRLatency";
         last_sum := 2; last_count := 1 |} ] in
  let tbl' :=
    snd (get_last_avg 64 true tbl (lit "osd") (lit "OpLatency") 30 15) in
  NoDup (keys_of tbl')
  /\ keys_of tbl' = keys_of tbl ++ [].
Proof.
  apply (@rate_table_has_one_entry_per_key 64 true
           [ {| dset_name := lit "osd"; ds_name := lit "OpLatency";
                last_sum := 10; last_count := 5 |};
             {| dset_name := lit "osd"; ds_name := lit "OpRLatency";
                last_sum := 2; last_count := 1 |} ]
           (lit "osd") (lit "OpLatency") 30%float 15).
  - vm_compute; lia.
  - vm_compute; lia.
  - repeat constructor; cbn [keys_of map In dset_name ds_name];
      intros Hin; repeat destruct Hin as [Hin|Hin]; try discriminate Hin;
      exact Hin.
Defined.

(** ** The baselines of the other counters *)

Lemma update_first_other (tbl tbl' : last_poll_data_t)
    (dset_n ds_n dset_o ds_o : cstring) (cur_sum : float) (cur_count : Z) :
  streq dset_n dset_o && streq ds_n ds_o = false ->
  update_first tbl dset_n ds_n cur_sum cur_count = Some tbl' ->
  find_last tbl' dset_o ds_o = find_last tbl dset_o ds_o.
Proof.
  intros Hne. revert tbl'; induction tbl as [|x tbl IH]; intros tbl';
    cbn [update_first]; [discriminate|].
  destruct (same_key x dset_n ds_n) eqn:Ex.
  - intros E; inversion E; subst. cbn [find_last].
    unfold same_key in *. cbn [dset_name ds_name].
    destruct (streq (dset_name x) dset_o && streq (ds_name x) ds_o) eqn:Eo;
      [|reflexivity].
    apply andb_true_iff in Ex as [E1 E2]. apply andb_true_iff in Eo as [E3 E4].
    apply streq_eq in E1, E2, E3, E4. subst.
    now rewrite !streq_refl in Hne.
  - destruct (update_first tbl dset_n ds_n cur_sum cur_count) as [rest|];
      [|discriminate].
    intros E; inversion E; subst. cbn [find_last].
    destruct (same_key x dset_o ds_o); [reflexivity | now apply IH].
Qed.

Lemma find_last_app_other (tbl : last_poll_data_t) (e : last_data)
    (dset_o ds_o : cstring) :
  same_key e dset_o ds_o = false ->
  find_last (tbl ++ [e]) dset_o ds_o = find_last tbl dset_o ds_o.
Proof.
  intros He. induction tbl as [|x tbl IH]; cbn [app find_last].
  - now rewrite He.
  - destruct (same_key x dset_o ds_o); [reflexivity | exact IH].
Qed.

(** A poll of one counter leaves the baselines of the others alone: for
    a key that fits the arrays of its names, the entry [get_last_avg]
    would find for any other key is the same before and after the call,
    whether the allocator serves it or not. *)
Theorem other_baselines_are_kept (DATA_MAX_NAME_LEN : nat)
    (alloc_ok : bool) (tbl : last_poll_data_t)
    (dset_n ds_n dset_o ds_o : cstring) (cur_sum : float) (cur_count : Z) :
  (length dset_n < DATA_MAX_NAME_LEN)%nat ->
  (length ds_n < MAX_RRD_DS_NAME_LEN)%nat ->
  streq dset_n dset_o && streq ds_n ds_o = false ->
  find_last
    (snd (get_last_avg DATA_MAX_NAME_LEN alloc_ok tbl dset_n ds_n
            cur_sum cur_count)) dset_o ds_o
  = find_last tbl dset_o ds_o.
Proof.
  intros Hd Hs Hne. rewrite get_last_avg_table. unfold update_last.
  destruct (update_first tbl dset_n ds_n cur_sum cur_count) as [tbl'|] eqn:Eu.
  - cbn [snd]. exact (@update_first_other _ _ _ _ _ _ _ _ Hne Eu).
  - destruct alloc_ok; cbn [snd add_last]; [|reflexivity].
    apply find_last_app_other. unfold same_key. cbn [dset_name ds_name].
    now rewrite !sstrncpy_fits by assumption.
Qed.

(** The first poll of osd.OpLatency beside the entry of osd.OpRLatency. *)
Lemma other_baselines_are_kept_witness :
  let kept := {| dset_name := lit "osd"; ds_name := lit "OpRLatency";
                 last_sum := 2; last_count := 1 |} in
  find_last
    (snd (get_last_avg 64 true [kept] (lit "osd") (lit "OpLatency") 30 15))
    (lit "osd") (lit "OpRLatency")
  = find_last [kept] (lit "osd") (lit "OpRLatency").
Proof.
  apply (@other_baselines_are_kept 64 true
           [ {| dset_name := lit "osd"; ds_name := lit "OpRLatency";
                last_sum := 2; last_count := 1 |} ]
           (lit "osd") (lit "OpLatency") (lit "osd") (lit "OpRLatency")
           30%float 15).
  - vm_compute; lia.
  - vm_compute; lia.
  - reflexivity.
Defined.

(** * Further properties of the schema *)

(** ** The two lookups *)

Lemma matching_dset_from_first (sets : list data_set_s) (name : cstring)
    (idx : Z) :
  (matching_dset_from sets name idx = -1
   /\ Forall (fun s => dset_type s <> name) sets)
  \/ (exists k set,
         matching_dset_from sets name idx = idx + Z.of_nat k
         /\ nth_error sets k = Some set
         /\ dset_type set = name
         /\ Forall (fun s => dset_type s <> name) (firstn k sets)).
Proof.
  revert idx; induction sets as [|s sets IH]; intros idx;
    cbn [matching_dset_from].
  - left. split; [reflexivity | constructor].
  - destruct (streq (dset_type s) name) eqn:Es.
    + right. exists 0%nat, s. apply streq_eq in Es.
      repeat split; [cbn; lia | assumption | constructor].
    + apply streq_neq in Es.
      destruct (IH (idx + 1)) as [[E Hall]|(k & set & E & Hn & Ht & Hall)].
      * left. split; [assumption | now constructor].
      * right. exists (S k), set. rewrite E.
        repeat split; [lia | assumption | assumption | now constructor].
Qed.

Lemma matching_value_from_first (ds : list data_source_s) (name : cstring)
    (num_values : nat) (idx : Z) :
  (matching_value_from ds name num_values idx = -1
   /\ Forall (fun s => dsrc_name s <> name) (firstn num_values ds))
  \/ (exists k src,
         matching_value_from ds name num_values idx = idx + Z.of_nat k
         /\ (k < num_values)%nat
         /\ nth_error ds k = Some src
         /\ dsrc_name src = name
         /\ Forall (fun s => dsrc_name s <> name) (firstn k ds)).
Proof.
  revert ds idx; induction num_values as [|n IH]; intros ds idx.
  - left. split; [destruct ds; reflexivity | constructor].
  - destruct ds as [|s ds]; cbn [matching_value_from].
    + left. split; [reflexivity | constructor].
    + destruct (streq (dsrc_name s) name) eqn:Es.
      * right. exists 0%nat, s. apply streq_eq in Es.
        repeat split; [cbn; lia | lia | assumption | constructor].
      * apply streq_neq in Es.
        destruct (IH ds (idx + 1))
          as [[E Hall]|(k & src & E & Hk & Hn & Ht & Hall)].
        -- left. split; [assumption | now constructor].
        -- right. exists (S k), src. rewrite E.
           repeat split;
             [lia | lia | assumption | assumption | now constructor].
Qed.

(** [get_matching_dset] returns the index of the first data set of the
    daemon that has the name, and -1 when no data set has it;
    [get_matching_value] returns the index of the first of the
    [num_values] first sources of the data set that has the name, and -1
    when none of them has it. *)
Theorem lookups_return_the_first_match (d : ceph_daemon) (dset : data_set_s)
    (name : cstring) (num_values : nat) :
  ((get_matching_dset d name = -1
    /\ Forall (fun s => dset_type s <> name) (d_dset d))
   \/ (exists i set,
          get_matching_dset d name = Z.of_nat i
          /\ nth_error (d_dset d) i = Some set
          /\ dset_type set = name
          /\ Forall (fun s => dset_type s <> name) (firstn i (d_dset d))))
  /\ ((get_matching_value dset name num_values = -1
       /\ Forall (fun s => dsrc_name s <> name)
            (firstn num_values (dset_ds dset)))
      \/ (exists j src,
             get_matching_value dset name num_values = Z.of_nat j
             /\ (j < num_values)%nat
             /\ nth_error (dset_ds dset) j = Some src
             /\ dsrc_name src = name
             /\ Forall (fun s => dsrc_name s <> name)
                  (firstn j (dset_ds dset)))).
Proof.
  split.
  - unfold get_matching_dset.
    destruct (matching_dset_from_first (d_dset d) name 0)
      as [H|(k & set & E & H)]; [now left|].
    right. exists k, set. rewrite E. split; [lia | exact H].
  - unfold get_matching_value.
    destruct (matching_value_from_first (dset_ds dset) name num_values 0)
      as [H|(k & src & E & H)]; [now left|].
    right. exists k, src. rewrite E. split; [lia | exact H].
Qed.

(** ** What a registration keeps *)

Lemma list_sum_upd (l : list data_set_s) (i : nat) (old new : data_set_s) :
  nth_error l i = Some old ->
  (list_sum (map (fun s => length (dset_ds s)) (list_upd l i new))
   + length (dset_ds old)
   = list_sum (map (fun s => length (dset_ds s)) l)
     + length (dset_ds new))%nat.
Proof.
  revert i; induction l as [|x l IH]; intros [|i]; cbn [nth_error];
    try discriminate.
  - intros E; inversion E; subst. unfold list_sum.
    cbn [list_upd map fold_right]. lia.
  - intros E. specialize (IH i E). unfold list_sum in *.
    cbn [list_upd map fold_right] in *. lia.
Qed.

(** A call of [ceph_daemon_add_ds_entry] that leaves no freed block in
    the daemon keeps what was registered: every data source and every
    type entry of the daemon is found at its indices after the call, and
    every data set keeps its place and its name.  A call that returns 0
    adds exactly one data source, also for a counter registered before; a
    call that returns another value leaves the sets and sources of the
    daemon as they were.  (A call in which a [realloc] fails after an
    earlier one has moved a block is not among these: the new address of
    the block is not stored, see [add_ds_entry_loses_a_moved_block].) *)
Theorem registration_keeps_the_registered (DATA_MAX_NAME_LEN : nat)
    (convert_special_metrics : bool) (realloc : nat -> realloc_answer)
    (d : ceph_daemon)
    (name : cstring) (pc_type ret : Z) (d' : ceph_daemon) :
  ceph_daemon_add_ds_entry DATA_MAX_NAME_LEN convert_special_metrics realloc
    d name pc_type = Some (ret, d') ->
  (forall i j src, ds_at d i j = Some src -> ds_at d' i j = Some src)
  /\ (forall i j t, pc_type_at d i j = Some t -> pc_type_at d' i j = Some t)
  /\ (forall i set, nth_error (d_dset d) i = Some set ->
        exists set', nth_error (d_dset d') i = Some set'
                     /\ dset_type set' = dset_type set)
  /\ ds_count d' = (if ret =? 0 then S (ds_count d) else ds_count d)
  /\ ((ret =? 0) = false -> d' = d).
Proof.
  intros Hadd.
  destruct (ret =? 0) eqn:Hret.
  2:{ rewrite (add_ds_entry_failed _ _ _ _ _ _ Hadd Hret).
      repeat split; eauto. }
  apply Z.eqb_eq in Hret. subst ret.
  apply add_ds_entry_served in Hadd. revert Hadd.
  unfold ceph_daemon_add_ds_entry.
  destruct (DATA_MAX_NAME_LEN <? strlen name + 1)%nat; [discriminate|].
  destruct (parse_keys DATA_MAX_NAME_LEN name (zeroed DATA_MAX_NAME_LEN)
              (zeroed MAX_RRD_DS_NAME_LEN))
    as [[[r dset_buf] ds_buf]|]; [|discriminate].
  destruct (negb (r =? 0)); [discriminate|].
  cbn [realloc_failed realloc_moved orb].
  set (eff := effective_pc_type convert_special_metrics (c_str dset_buf)
                (c_str ds_buf) pc_type).
  set (src := new_data_source (c_str ds_buf) eff).
  destruct (get_matching_dset d (c_str dset_buf) =? -1).
  - (* a new data set *)
    intros E; inversion E; subst d'; clear E.
    unfold ds_at, pc_type_at, ds_count. cbn [d_dset d_pc_types set_dset].
    repeat split.
    + intros i j s0 Hs.
      destruct (nth_error (d_dset d) i) as [set|] eqn:Ei; [|discriminate].
      rewrite nth_error_app1 by (apply nth_error_Some; congruence).
      now rewrite Ei.
    + intros i j t Ht.
      destruct (nth_error (d_pc_types d) i) as [row|] eqn:Ei; [|discriminate].
      rewrite nth_error_app1 by (apply nth_error_Some; congruence).
      now rewrite Ei.
    + intros i set Hs. exists set. split; [|reflexivity].
      rewrite nth_error_app1 by (apply nth_error_Some; congruence).
      exact Hs.
    + rewrite map_app, list_sum_app. cbn. lia.
    + discriminate.
  - (* one more source in a data set *)
    set (n := Z.to_nat (get_matching_dset d (c_str dset_buf))).
    destruct (nth_error (d_dset d) n) as [set|] eqn:Eset; [|discriminate].
    destruct (nth_error (d_pc_types d) n) as [row|] eqn:Erow; [|discriminate].
    intros E; inversion E; subst d'; clear E.
    unfold ds_at, pc_type_at, ds_count. cbn [d_dset d_pc_types set_dset].
    repeat split.
    + intros i j s0 Hs. destruct (Nat.eq_dec n i) as [<-|Hne].
      * rewrite (nth_error_list_upd_same _ _ _ Eset). rewrite Eset in Hs.
        cbn [dset_ds].
        rewrite nth_error_app1 by (apply nth_error_Some; congruence).
        exact Hs.
      * now rewrite nth_error_list_upd_other by assumption.
    + intros i j t Ht. destruct (Nat.eq_dec n i) as [<-|Hne].
      * rewrite (nth_error_list_upd_same _ _ _ Erow). rewrite Erow in Ht.
        rewrite nth_error_app1 by (apply nth_error_Some; congruence).
        exact Ht.
      * now rewrite nth_error_list_upd_other by assumption.
    + intros i s0 Hs. destruct (Nat.eq_dec n i) as [<-|Hne].
      * rewrite (nth_error_list_upd_same _ _ _ Eset). eexists.
        split; [reflexivity|]. cbn [dset_type]. congruence.
      * exists s0. rewrite nth_error_list_upd_other by assumption.
        split; [exact Hs | reflexivity].
    + pose proof (@list_sum_upd (d_dset d) n set
                    {| dset_type := dset_type set;
                       dset_ds := dset_ds set ++ [src] |} Eset)
        as Hsum.
      cbn [dset_ds] in Hsum. rewrite length_app in Hsum.
      cbn [length] in Hsum. change (0 =? 0) with true. cbv iota. lia.
    + discriminate.
Qed.

(** The counter osd.op_w registered a second time. *)
Lemma registration_keeps_the_registered_witness :
  let d := set_dset
             (new_daemon (lit "osd.0") (lit "/var/run/ceph/ceph-osd.0.asok")
                (lit "ceph"))
             [ {| dset_type := lit "osd";
                  dset_ds := [new_data_source (lit "OpW") 10] |} ]
             [[10]] in
  exists d',
    ceph_daemon_add_ds_entry 64 true (fun _ => ReallocKept) d (lit "osd.op_w.type") 10
    = Some (0, d')
    /\ ds_at d' 0 0 = Some (new_data_source (lit "OpW") 10)
    /\ ds_count d' = 2%nat.
Proof.
  cbv zeta.
  destruct (ceph_daemon_add_ds_entry 64 true (fun _ => ReallocKept)
              (set_dset
                 (new_daemon (lit "osd.0")
                    (lit "/var/run/ceph/ceph-osd.0.asok") (lit "ceph"))
                 [ {| dset_type := lit "osd";
                      dset_ds := [new_data_source (lit "OpW") 10] |} ]
                 [[10]])
              (lit "osd.op_w.type") 10) as [[ret d']|] eqn:E;
    [|vm_compute in E; discriminate].
  assert (Hret : ret = 0).
  { apply (f_equal (option_map fst)) in E. vm_compute in E. congruence. }
  subst ret. exists d'. split; [reflexivity|].
  destruct (@registration_keeps_the_registered 64 true (fun _ => ReallocKept) _ _ _ _ _ E)
    as (Hds & _ & _ & Hc & _).
  split; [apply Hds; reflexivity | exact Hc].
Defined.

(** ** A registered counter is found again *)

Lemma matching_dset_from_snoc (l : list data_set_s) (s : data_set_s)
    (name : cstring) (idx : Z) :
  Forall (fun x => dset_type x <> name) l -> dset_type s = name ->
  matching_dset_from (l ++ [s]) name idx = idx + Z.of_nat (length l).
Proof.
  intros Hall Hs. revert idx; induction Hall as [|x l Hx _ IH]; intros idx;
    cbn [app matching_dset_from].
  - rewrite Hs, streq_refl. cbn [length]. lia.
  - apply streq_neq in Hx. rewrite Hx, IH. cbn [length]. lia.
Qed.

Lemma matching_dset_from_names (l l' : list data_set_s) (name : cstring)
    (idx : Z) :
  map dset_type l = map dset_type l' ->
  matching_dset_from l name idx = matching_dset_from l' name idx.
Proof.
  revert l' idx; induction l as [|x l IH]; intros [|x' l'] idx E;
    try discriminate; [reflexivity|].
  cbn [map] in E. inversion E as [[Ex El]].
  cbn [matching_dset_from]. rewrite Ex.
  destruct (streq (dset_type x') name); [reflexivity | now apply IH].
Qed.

Lemma map_list_upd_same {A B : Type} (f : A -> B) (l : list A) (i : nat)
    (old new : A) :
  nth_error l i = Some old -> f new = f old ->
  map f (list_upd l i new) = map f l.
Proof.
  revert i; induction l as [|x l IH]; intros [|i]; cbn [nth_error];
    try discriminate.
  - intros E Hf; inversion E; subst. cbn [list_upd map]. now rewrite Hf.
  - intros E Hf. cbn [list_upd map]. now rewrite (IH i E Hf).
Qed.

(** The names [parse_keys] leaves are not cut when they are stored. *)
Lemma parse_keys_names_fit (D : nat) (name : cstring)
    (dset_buf ds_buf : list ascii) :
  parse_keys D name (zeroed D) (zeroed MAX_RRD_DS_NAME_LEN)
  = Some (0, dset_buf, ds_buf) ->
  firstn (D - 1) (c_str dset_buf) = c_str dset_buf
  /\ firstn (MAX_RRD_DS_NAME_LEN - 1) (c_str ds_buf) = c_str ds_buf.
Proof.
  intros E.
  destruct (c_str name) as [|c r] eqn:Ek.
  { unfold parse_keys in E. rewrite Ek in E. discriminate. }
  destruct (@parse_keys_zeroed_form D name)
    as (ds & E' & _ & _ & B & Ha & La); [congruence|].
  cbv zeta in *. rewrite E in E'. inversion E'; subst.
  rewrite (c_str_app_zeroed _ Ha).
  split; apply firstn_all2; [lia | exact B].
Qed.

(** After a call of [ceph_daemon_add_ds_entry] that returned 0, the two
    lookups find a data set and a source under the names of the key. *)
Lemma registered_counter_is_found (D : nat) (conv : bool)
    (alloc_ok : nat -> realloc_answer)
    (d : ceph_daemon) (name : cstring) (pc_type : Z) (d' : ceph_daemon) :
  ceph_daemon_add_ds_entry D conv alloc_ok d name pc_type = Some (0, d') ->
  exists dset_buf ds_buf i set j,
    parse_keys D name (zeroed D) (zeroed MAX_RRD_DS_NAME_LEN)
    = Some (0, dset_buf, ds_buf)
    /\ get_matching_dset d' (c_str dset_buf) = Z.of_nat i
    /\ nth_error (d_dset d') i = Some set
    /\ get_matching_value set (c_str ds_buf) (length (dset_ds set))
       = Z.of_nat j
    /\ (j < length (dset_ds set))%nat.
Proof.
  intros Hadd. apply add_ds_entry_served in Hadd. revert Hadd.
  unfold ceph_daemon_add_ds_entry.
  destruct (D <? strlen name + 1)%nat; [discriminate|].
  destruct (parse_keys D name (zeroed D) (zeroed MAX_RRD_DS_NAME_LEN))
    as [[[r dset_buf] ds_buf]|] eqn:Ep; [|discriminate].
  destruct (Z.eqb_spec r 0) as [->|]; cbn [negb]; [|discriminate].
  cbn [realloc_failed realloc_moved orb].
  destruct (@parse_keys_names_fit D name dset_buf ds_buf Ep) as [Fd Fs].
  set (eff := effective_pc_type conv (c_str dset_buf) (c_str ds_buf) pc_type).
  destruct (get_matching_dset d (c_str dset_buf) =? -1) eqn:Em.
  - (* a new data set *)
    intros E; inversion E; subst d'; clear E.
    apply Z.eqb_eq in Em. unfold get_matching_dset in *.
    destruct (matching_dset_from_first (d_dset d) (c_str dset_buf) 0)
      as [[_ Hall]|(k & set & Ek & _)]; [|lia].
    exists dset_buf, ds_buf, (length (d_dset d)).
    eexists; exists 0%nat. cbn [d_dset set_dset].
    split; [reflexivity|]. split.
    { rewrite matching_dset_from_snoc; [lia | exact Hall | exact Fd]. }
    split; [apply nth_error_app_last|].
    unfold get_matching_value, new_data_source.
    cbn [dset_ds length matching_value_from dsrc_name].
    rewrite Fs, streq_refl. split; [reflexivity | lia].
  - (* one more source in a data set *)
    apply Z.eqb_neq in Em. unfold get_matching_dset in *.
    destruct (matching_dset_from_first (d_dset d) (c_str dset_buf) 0)
      as [[Ek _]|(k & set & Ek & Hn & Ht & _)]; [contradiction|].
    rewrite Ek. replace (Z.to_nat (0 + Z.of_nat k)) with k by lia.
    rewrite Hn.
    destruct (nth_error (d_pc_types d) k) as [row|]; [|discriminate].
    intros E; inversion E; subst d'; clear E.
    set (set' := {| dset_type := dset_type set;
                    dset_ds := dset_ds set
                               ++ [new_data_source (c_str ds_buf) eff] |}).
    exists dset_buf, ds_buf, k, set'. cbn [d_dset set_dset].
    assert (Ej : exists j,
               get_matching_value set' (c_str ds_buf) (length (dset_ds set'))
               = Z.of_nat j /\ (j < length (dset_ds set'))%nat).
    { unfold get_matching_value.
      destruct (matching_value_from_first (dset_ds set') (c_str ds_buf)
                  (length (dset_ds set')) 0)
        as [[_ Hall]|(j & src & Ej & Hj & _)].
      - exfalso. rewrite firstn_all in Hall.
        cbn [set' dset_ds] in Hall. apply Forall_app in Hall as [_ Hall].
        inversion Hall as [|? ? Hne _]; subst. apply Hne.
        unfold new_data_source. cbn [dsrc_name]. exact Fs.
      - exists j. split; [lia | exact Hj]. }
    destruct Ej as (j & Ej & Hj). exists j.
    split; [reflexivity|]. split.
    { rewrite (@matching_dset_from_names _ (d_dset d)); [lia|].
      apply (@map_list_upd_same _ _ dset_type (d_dset d) k set set' Hn).
      reflexivity. }
    split; [exact (nth_error_list_upd_same _ _ _ Hn)|].
    split; assumption.
Qed.

(** * Properties of the data fetch *)

(** ** What a call of the handler may change *)

Lemma set_value_frame (values values' : list (list value_t)) (i j : nat)
    (v : value_t) :
  set_value values i j v = Some values' ->
  map (@length value_t) values' = map (@length value_t) values
  /\ forall i' j', i' <> i \/ j' <> j ->
                   value_at values' i' j' = value_at values i' j'.
Proof.
  unfold set_value.
  destruct (nth_error values i) as [row|] eqn:Er; [|discriminate].
  destruct (j <? length row)%nat; [|discriminate].
  intros E; inversion E; subst values'; clear E. split.
  - apply (@map_list_upd_same _ _ (@length value_t) values i row
             (list_upd row j v) Er).
    apply list_upd_length.
  - intros i' j' Hne. unfold value_at.
    destruct (Nat.eq_dec i i') as [<-|Hi].
    + rewrite (nth_error_list_upd_same _ _ _ Er), Er.
      destruct Hne as [Hne|Hne]; [contradiction|].
      apply nth_error_list_upd_other. congruence.
    + now rewrite nth_error_list_upd_other by assumption.
Qed.

Lemma fetch_latency_codes (D : nat) (long alloc_ok : bool)
    (tbl : last_poll_data_t) (dset_n ds_n : cstring) (avgcount : Z)
    (val : scanned) :
  match fetch_latency D long alloc_ok tbl dset_n ds_n avgcount val with
  | (ret, _, Some _, _) => ret = 0
  | (ret, _, None, _) => ret = 0 \/ ret = - ENOMEM
  end.
Proof.
  unfold fetch_latency.
  destruct (avgcount =? avgcount_unset); [now left|].
  destruct long; [reflexivity|].
  destruct (get_last_avg D alloc_ok tbl dset_n ds_n (scan_double val)
              (guarded_avgcount avgcount)) as [result tbl'].
  destruct (PrimFloat.eqb result (double_of_int (- ENOMEM)));
    [now right | reflexivity].
Qed.

(** Whatever key and value [node_handler_fetch_data] is called with: the
    value it returns is 0, 1, [RETRY_AVGCOUNT] or -ENOMEM; the daemon and
    the shape of the value arrays stay as they were; at most one value
    is written; and a call that returns 1 or [RETRY_AVGCOUNT] (no such
    data set, no such source) changes neither the values nor the table
    of the rate engine. *)
Theorem fetch_writes_one_value_at_most (DATA_MAX_NAME_LEN : nat)
    (long_run_latency_avg : bool) (sscanf : cstring -> scanned)
    (alloc_ok : bool) (tbl : last_poll_data_t) (vtmp : values_tmp)
    (val key : cstring) (ret : Z) (vtmp' : values_tmp)
    (tbl' : last_poll_data_t) :
  node_handler_fetch_data DATA_MAX_NAME_LEN long_run_latency_avg sscanf
    alloc_ok tbl vtmp val key = Some (ret, vtmp', tbl') ->
  (ret = 0 \/ ret = 1 \/ ret = RETRY_AVGCOUNT \/ ret = - ENOMEM)
  /\ vt_d vtmp' = vt_d vtmp
  /\ map (@length value_t) (vt_values vtmp')
     = map (@length value_t) (vt_values vtmp)
  /\ (exists i j, forall i' j', i' <> i \/ j' <> j ->
         value_at (vt_values vtmp') i' j' = value_at (vt_values vtmp) i' j')
  /\ (ret = 1 \/ ret = RETRY_AVGCOUNT -> vtmp' = vtmp /\ tbl' = tbl).
Proof.
  unfold node_handler_fetch_data.
  assert (Hsame : forall r : Z,
             r = 0 \/ r = 1 \/ r = RETRY_AVGCOUNT \/ r = - ENOMEM ->
             forall a : Z,
             (r = 0 \/ r = 1 \/ r = RETRY_AVGCOUNT \/ r = - ENOMEM)
             /\ vt_d vtmp = vt_d vtmp
             /\ map (@length value_t) (vt_values vtmp)
                = map (@length value_t) (vt_values vtmp)
             /\ (exists i j : nat, forall i' j', i' <> i \/ j' <> j ->
                    value_at (vt_values vtmp) i' j'
                    = value_at (vt_values vtmp) i' j')).
  { intros r Hr a. split; [exact Hr|]. split; [reflexivity|].
    split; [reflexivity|]. exists 0%nat, 0%nat. auto. }
  destruct (parse_keys DATA_MAX_NAME_LEN key (zeroed DATA_MAX_NAME_LEN)
              (zeroed MAX_RRD_DS_NAME_LEN))
    as [[[r dset_buf] ds_buf]|]; [|discriminate].
  destruct (negb (r =? 0)).
  { intros E; inversion E; subst.
    destruct (Hsame 1 ltac:(auto) 0) as (H1 & H2 & H3 & H4).
    split; [exact H1|]. split; [exact H2|]. split; [exact H3|].
    split; [exact H4 | auto]. }
  destruct (get_matching_dset (vt_d vtmp) (c_str dset_buf) =? -1).
  { intros E; inversion E; subst.
    destruct (Hsame 1 ltac:(auto) 0) as (H1 & H2 & H3 & H4).
    split; [exact H1|]. split; [exact H2|]. split; [exact H3|].
    split; [exact H4 | auto]. }
  destruct (nth_error (d_dset (vt_d vtmp))
              (Z.to_nat (get_matching_dset (vt_d vtmp) (c_str dset_buf))))
    as [dset|]; [|discriminate].
  destruct (get_matching_value dset (c_str ds_buf) (length (dset_ds dset))
            =? -1).
  { intros E; inversion E; subst.
    destruct (Hsame RETRY_AVGCOUNT ltac:(auto) 0) as (H1 & H2 & H3 & H4).
    split; [exact H1|]. split; [exact H2|]. split; [exact H3|].
    split; [exact H4 | auto]. }
  set (i := Z.to_nat (get_matching_dset (vt_d vtmp) (c_str dset_buf))).
  set (j := Z.to_nat (get_matching_value dset (c_str ds_buf)
                        (length (dset_ds dset)))).
  destruct (pc_type_at (vt_d vtmp) i j) as [pc_type|]; [|discriminate].
  assert (Hstore : forall v a t,
             match set_value (vt_values vtmp) i j v with
             | Some values =>
                 Some (0, {| vt_d := vt_d vtmp; vt_values := values;
                             vt_avgcount := a |}, t)
             | None => None
             end = Some (ret, vtmp', tbl') ->
             (ret = 0 \/ ret = 1 \/ ret = RETRY_AVGCOUNT \/ ret = - ENOMEM)
             /\ vt_d vtmp' = vt_d vtmp
             /\ map (@length value_t) (vt_values vtmp')
                = map (@length value_t) (vt_values vtmp)
             /\ (exists i j, forall i' j', i' <> i \/ j' <> j ->
                    value_at (vt_values vtmp') i' j'
                    = value_at (vt_values vtmp) i' j')
             /\ (ret = 1 \/ ret = RETRY_AVGCOUNT ->
                 vtmp' = vtmp /\ tbl' = tbl)).
  { intros v a t.
    destruct (set_value (vt_values vtmp) i j v) as [values|] eqn:Es;
      [|discriminate].
    intros E; inversion E; subst ret vtmp' tbl'; clear E.
    destruct (set_value_frame _ _ _ _ Es) as [Hl Hf].
    cbn [vt_d vt_values].
    split; [now left|]. split; [reflexivity|]. split; [exact Hl|].
    split; [exists i, j; exact Hf|].
    intros [H|H]; discriminate H. }
  destruct (classify pc_type).
  - pose proof (fetch_latency_codes DATA_MAX_NAME_LEN long_run_latency_avg
                  alloc_ok tbl (c_str dset_buf) (c_str ds_buf)
                  (vt_avgcount vtmp) (sscanf val)) as Hc.
    destruct (fetch_latency DATA_MAX_NAME_LEN long_run_latency_avg alloc_ok
                tbl (c_str dset_buf) (c_str ds_buf) (vt_avgcount vtmp)
                (sscanf val)) as [[[r2 a2] [g|]] t2].
    + apply Hstore.
    + intros E; inversion E; subst ret vtmp' tbl'; clear E.
      cbn [vt_d vt_values].
      split; [destruct Hc as [->| ->]; auto|]. split; [reflexivity|].
      split; [reflexivity|]. split; [exists 0%nat, 0%nat; auto|].
      intros [H|H]; destruct Hc as [Hc|Hc]; rewrite Hc in H;
        discriminate H.
  - apply Hstore.
  - apply Hstore.
Qed.

(** A derive counter written to its element. *)
Lemma fetch_writes_one_value_at_most_witness :
  let d := set_dset
             (new_daemon (lit "osd.0") (lit "/var/run/ceph/ceph-osd.0.asok")
                (lit "ceph"))
             [ {| dset_type := lit "osd";
                  dset_ds := [ new_data_source (lit "Op") 10;
                               new_data_source (lit "OpW") 10 ] |} ]
             [[10; 10]] in
  let vtmp := {| vt_d := d; vt_values := [[V_derive 3; V_cleared]];
                 vt_avgcount := avgcount_unset |} in
  let vtmp' := {| vt_d := d; vt_values := [[V_derive 3; V_derive 17]];
                  vt_avgcount := avgcount_unset |} in
  vt_d vtmp' = vt_d vtmp
  /\ map (@length value_t) (vt_values vtmp')
     = map (@length value_t) (vt_values vtmp)
  /\ exists i j, forall i' j', i' <> i \/ j' <> j ->
       value_at (vt_values vtmp') i' j' = value_at (vt_values vtmp) i' j'.
Proof.
  cbv zeta.
  destruct (@fetch_writes_one_value_at_most 64 true
              (fun _ => {| scan_u64 := 17; scan_double := 17 |}) true []
              {| vt_d :=
                   set_dset
                     (new_daemon (lit "osd.0")
                        (lit "/var/run/ceph/ceph-osd.0.asok") (lit "ceph"))
                     [ {| dset_type := lit "osd";
                          dset_ds := [ new_data_source (lit "Op") 10;
                                       new_data_source (lit "OpW") 10 ] |} ]
                     [[10; 10]];
                 vt_values := [[V_derive 3; V_cleared]];
                 vt_avgcount := avgcount_unset |}
              (lit "17") (lit "osd.op_w") 0
              {| vt_d :=
                   set_dset
                     (new_daemon (lit "osd.0")
                        (lit "/var/run/ceph/ceph-osd.0.asok") (lit "ceph"))
                     [ {| dset_type := lit "osd";
                          dset_ds := [ new_data_source (lit "Op") 10;
                                       new_data_source (lit "OpW") 10 ] |} ]
                     [[10; 10]];
                 vt_values := [[V_derive 3; V_derive 17]];
                 vt_avgcount := avgcount_unset |}
              []) as (_ & Hd & Hl & Hv & _).
  - vm_compute. reflexivity.
  - split; [exact Hd|]. split; [exact Hl | exact Hv].
Defined.

(** ** The fetch finds what the schema registered *)

Lemma Forall2_nth_error_left {A B : Type} (R : A -> B -> Prop) (l : list A)
    (l' : list B) (i : nat) (a : A) :
  Forall2 R l l' -> nth_error l i = Some a ->
  exists b, nth_error l' i = Some b /\ R a b.
Proof.
  intros HF; revert i; induction HF as [|x y l l' Hxy _ IH]; intros [|i];
    cbn [nth_error]; try discriminate.
  - intros E; inversion E; subst. eauto.
  - apply IH.
Qed.

(** The key of the data and the key of the schema, for one counter. *)
Lemma parse_keys_schema_data (D : nat) (first : cstring)
    (front : list cstring) (l : cstring) :
  forallb is_segment (first :: front ++ [l]) = true ->
  (length (join_dots (first :: (front ++ [l]) ++ [lit "type"])) < D)%nat ->
  strneq l (lit "type") 4 = false ->
  parse_keys D (join_dots (first :: front ++ [l]))
    (zeroed D) (zeroed MAX_RRD_DS_NAME_LEN)
  = parse_keys D (join_dots (first :: (front ++ [l]) ++ [lit "type"]))
      (zeroed D) (zeroed MAX_RRD_DS_NAME_LEN).
Proof.
  intros Hseg Hlen Ht.
  assert (Hseg' : forallb is_segment
                    (first :: (front ++ [l]) ++ [lit "type"]) = true).
  { cbn [forallb] in *. apply andb_true_iff in Hseg as [Hf Hr].
    rewrite forallb_app, Hf, Hr. reflexivity. }
  assert (Hlen' : (length (join_dots (first :: front ++ [l]))
                   <= length (join_dots
                                (first :: (front ++ [l]) ++ [lit "type"])))%nat).
  { change (first :: (front ++ [l]) ++ [lit "type"])
      with ((first :: front ++ [l]) ++ [lit "type"]).
    apply join_dots_prefix_length. }
  pose proof (@split_key_by_prefix D first (front ++ [l]) (lit "type")
                Hseg' Hlen) as Es.
  unfold short_name_by_prefix in Es.
  change (strneq (lit "type") (lit "type") 4) with true in Es. cbv iota in Es.
  pose proof (@split_key_by_prefix D first front l Hseg ltac:(lia)) as Ed.
  unfold short_name_by_prefix in Ed. rewrite Ht in Ed.
  apply parse_keys_by_split.
  - rewrite join_dots_segments_no_nul by assumption.
    apply join_dots_two_nonempty.
  - rewrite join_dots_segments_no_nul by assumption.
    apply (@join_dots_two_nonempty first (front ++ [l]) (lit "type")).
  - rewrite !join_dots_segments_no_nul by assumption. rewrite Es, Ed.
    destruct front; reflexivity.
Qed.

(** A counter whose last key does not begin with type, registered by
    [ceph_daemon_add_ds_entry] under the path of the schema (the keys of
    the counter, then "type"), is found by [node_handler_fetch_data]
    under the path of the data (the keys alone): with value arrays that
    have the shape of the schema, the call stays inside the arrays and
    returns neither 1 nor [RETRY_AVGCOUNT], but 0, or -ENOMEM from the
    rate engine.  (The keys have no dot and no NUL, the path of the
    schema is shorter than [DATA_MAX_NAME_LEN], and the two arrays of the
    daemon run parallel before the registration.) *)
Theorem fetch_finds_registered_counter (DATA_MAX_NAME_LEN : nat)
    (convert_special_metrics long_run_latency_avg : bool)
    (sscanf : cstring -> scanned) (alloc_ok : nat -> realloc_answer)
    (alloc_ok' : bool)
    (d d' : ceph_daemon) (first : cstring) (front : list cstring)
    (l : cstring) (pc_type : Z) (tbl : last_poll_data_t)
    (vtmp : values_tmp) (val : cstring) :
  forallb is_segment (first :: front ++ [l]) = true ->
  (length (join_dots (first :: (front ++ [l]) ++ [lit "type"]))
   < DATA_MAX_NAME_LEN)%nat ->
  strneq l (lit "type") 4 = false ->
  parallel d ->
  ceph_daemon_add_ds_entry DATA_MAX_NAME_LEN convert_special_metrics alloc_ok
    d (join_dots (first :: (front ++ [l]) ++ [lit "type"])) pc_type
  = Some (0, d') ->
  vt_d vtmp = d' -> shaped vtmp ->
  exists ret vtmp' tbl',
    node_handler_fetch_data DATA_MAX_NAME_LEN long_run_latency_avg sscanf
      alloc_ok' tbl vtmp val (join_dots (first :: front ++ [l]))
    = Some (ret, vtmp', tbl')
    /\ (ret = 0 \/ ret = - ENOMEM).
Proof.
  intros Hseg Hlen Ht Hpar Hadd Hd Hshape.
  destruct (@registered_counter_is_found DATA_MAX_NAME_LEN
              convert_special_metrics alloc_ok d _ pc_type d' Hadd)
    as (dset_buf & ds_buf & i & set & j & Ep & Ei & Eset & Ej & Hj).
  destruct (@add_ds_entry_registered DATA_MAX_NAME_LEN
              convert_special_metrics alloc_ok d _ pc_type d' Hpar Hadd)
    as (_ & _ & _ & _ & _ & _ & _ & Hpar').
  unfold node_handler_fetch_data.
  rewrite (@parse_keys_schema_data DATA_MAX_NAME_LEN first front l
             Hseg Hlen Ht), Ep.
  change (negb (0 =? 0)) with false. cbv iota zeta.
  rewrite Hd, Ei.
  replace (Z.of_nat i =? -1) with false by (symmetry; apply Z.eqb_neq; lia).
  rewrite Nat2Z.id, Eset, Ej.
  replace (Z.of_nat j =? -1) with false by (symmetry; apply Z.eqb_neq; lia).
  rewrite Nat2Z.id.
  destruct (@Forall2_nth_error_left _ _ _ _ _ i set Hpar' Eset)
    as (row & Erow & Hrow).
  unfold pc_type_at. rewrite Erow.
  destruct (nth_error row j) as [t|] eqn:Et;
    [|apply nth_error_None in Et; lia].
  unfold shaped in Hshape. rewrite Hd in Hshape.
  destruct (@Forall2_nth_error_left _ _ _ _ _ i set Hshape Eset)
    as (vrow & Evrow & Hvrow).
  assert (Hstore : forall v a (t' : last_poll_data_t),
             exists vtmp',
               match set_value (vt_values vtmp) i j v with
               | Some values =>
                   Some (0, {| vt_d := d'; vt_values := values;
                               vt_avgcount := a |}, t')
               | None => None
               end = Some (0, vtmp', t')).
  { intros v a t'. unfold set_value. rewrite Evrow.
    destruct (Nat.ltb_spec j (length vrow)); [|lia]. eauto. }
  destruct (classify t).
  - pose proof (fetch_latency_codes DATA_MAX_NAME_LEN long_run_latency_avg
                  alloc_ok' tbl (c_str dset_buf) (c_str ds_buf)
                  (vt_avgcount vtmp) (sscanf val)) as Hc.
    destruct (fetch_latency DATA_MAX_NAME_LEN long_run_latency_avg alloc_ok'
                tbl (c_str dset_buf) (c_str ds_buf) (vt_avgcount vtmp)
                (sscanf val)) as [[[r2 a2] [g|]] t2].
    + destruct (Hstore (V_gauge g) a2 t2) as (vtmp' & ->).
      exists 0, vtmp', t2. auto.
    + eexists; eexists; eexists. split; [reflexivity | exact Hc].
  - destruct (Hstore (V_derive (to_int64 (scan_u64 (sscanf val))))
                (vt_avgcount vtmp) tbl) as (vtmp' & ->).
    exists 0, vtmp', tbl. auto.
  - destruct (Hstore (V_gauge (scan_double (sscanf val)))
                (vt_avgcount vtmp) tbl) as (vtmp' & ->).
    exists 0, vtmp', tbl. auto.
Qed.

(** The counter osd.op_w of a daemon with no other counter. *)
Lemma fetch_finds_registered_counter_witness :
  let d := new_daemon (lit "osd.0") (lit "/var/run/ceph/ceph-osd.0.asok")
             (lit "ceph") in
  let d' := set_dset d
              [ {| dset_type := lit "osd";
                   dset_ds := [new_data_source (lit "OpW") 10] |} ]
              [[10]] in
  exists ret vtmp' tbl',
    node_handler_fetch_data 64 false
      (fun _ => {| scan_u64 := 17; scan_double := 17 |}) true []
      {| vt_d := d'; vt_values := [[V_cleared]];
         vt_avgcount := avgcount_unset |}
      (lit "17") (lit "osd.op_w")
    = Some (ret, vtmp', tbl')
    /\ (ret = 0 \/ ret = - ENOMEM).
Proof.
  apply (@fetch_finds_registered_counter 64 true false
           (fun _ => {| scan_u64 := 17; scan_double := 17 |})
           (fun _ => ReallocKept) true
           (new_daemon (lit "osd.0") (lit "/var/run/ceph/ceph-osd.0.asok")
              (lit "ceph"))
           (set_dset
              (new_daemon (lit "osd.0") (lit "/var/run/ceph/ceph-osd.0.asok")
                 (lit "ceph"))
              [ {| dset_type := lit "osd";
                   dset_ds := [new_data_source (lit "OpW") 10] |} ]
              [[10]])
           (lit "osd") [] (lit "op_w") 10).
  - reflexivity.
  - vm_compute; lia.
  - reflexivity.
  - constructor.
  - vm_compute. reflexivity.
  - reflexivity.
  - repeat constructor.
Defined.

(** * Further properties of the connections and of the loop *)

(** ** What [cconn_prepare] asks [poll] for *)

(** When [cconn_prepare] returns 1, the entry it wrote for [poll] has the
    descriptor of the connection, the connection is not unconnected, and
    the events asked for are events [cconn_validate_revents] accepts in
    the state of the connection: POLLOUT while the request is written,
    POLLIN while an answer is read. *)
Theorem prepare_asks_for_valid_events (io : cconn) (a : connect_answer)
    (io' : cconn) (fd events : Z) (opened : list fd_event) :
  cconn_prepare io a = (1, io', (fd, events), opened) ->
  fd = asok io'
  /\ cconn_validate_revents io' events = 0
  /\ events = (match state_ io' with
               | CSTATE_WRITE_REQUEST => POLLOUT
               | _ => POLLIN
               end)
  /\ (opened = [] \/ opened = [FdOpened fd]).
Proof.
  unfold cconn_prepare.
  destruct (request_type io =? ASOK_REQ_NONE); [discriminate|].
  destruct ((request_type io =? ASOK_REQ_DATA)
            && (Z.of_nat (length (d_dset (d io))) =? 0)); [discriminate|].
  destruct (state_ io) eqn:Est.
  - unfold cconn_connect. rewrite Est.
    destruct a as [e|fd0 e|fd0 e|fd0].
    + destruct (Z.ltb_spec 0 (- Z.pos e)); [lia|].
      destruct (Z.ltb_spec (- Z.pos e) 0); [intros E; inversion E; lia | lia].
    + destruct (Z.ltb_spec 0 (- Z.pos e)); [lia|].
      destruct (Z.ltb_spec (- Z.pos e) 0); [intros E; inversion E; lia | lia].
    + destruct (Z.ltb_spec 0 (- Z.pos e)); [lia|].
      destruct (Z.ltb_spec (- Z.pos e) 0); [intros E; inversion E; lia | lia].
    + change (0 <? 0) with false. cbv iota.
      intros E; inversion E; subst. cbn [asok state_].
      repeat split. now right.
  - intros E; inversion E; subst. rewrite Est.
    unfold cconn_validate_revents. rewrite Est.
    repeat split. now left.
  - intros E; inversion E; subst. rewrite Est.
    unfold cconn_validate_revents. rewrite Est.
    repeat split. now left.
  - intros E; inversion E; subst. rewrite Est.
    unfold cconn_validate_revents. rewrite Est.
    repeat split. now left.
  - intros E; inversion E; subst. rewrite Est.
    unfold cconn_validate_revents. rewrite Est.
    repeat split. now left.
Qed.

(** The first [cconn_prepare] of a connection for the version. *)
Lemma prepare_asks_for_valid_events_witness :
  let io' := {| d := new_daemon (lit "osd.0")
                       (lit "/var/run/ceph/ceph-osd.0.asok") (lit "ceph");
                request_type := ASOK_REQ_VERSION;
                state_ := CSTATE_WRITE_REQUEST; asok := 7; amt := 0;
                json_len := 0; json := None |} in
  7 = asok io'
  /\ cconn_validate_revents io' POLLOUT = 0
  /\ POLLOUT = (match state_ io' with
                | CSTATE_WRITE_REQUEST => POLLOUT
                | _ => POLLIN
                end)
  /\ ([FdOpened 7] = [] \/ [FdOpened 7] = [FdOpened 7]).
Proof.
  apply (@prepare_asks_for_valid_events
           (new_cconn ASOK_REQ_VERSION
              (new_daemon (lit "osd.0") (lit "/var/run/ceph/ceph-osd.0.asok")
                 (lit "ceph")))
           (Connected 7)).
  reflexivity.
Defined.

(** ** A cycle in which nothing is polled *)

Lemma prepare_from_idle (w : world) (ios : list cconn) :
  Forall (fun io => request_type io = ASOK_REQ_DATA /\ d_dset (d io) = [])
    ios ->
  forall i, prepare_from w i ios = (ios, [], [], false, []).
Proof.
  induction 1 as [|io ios [Hr Hd] _ IH]; intros i; cbn [prepare_from];
    [reflexivity|].
  unfold cconn_prepare. rewrite Hr, Hd, IH. reflexivity.
Qed.

(** A read cycle over daemons that have no data set yet: no connection
    is made and no descriptor is opened, [cconn_main_loop] returns 0 at
    its first turn with no daemon marked unreachable; the code at [done]
    then gives the descriptor 0, which [memset] left in every connection,
    to [close], once for every daemon. *)
Theorem idle_read_cycle_closes_descriptor_0 (host_big_endian : bool)
    (cconn_process_json : cconn -> Z * cconn) (g_daemons : list ceph_daemon)
    (start : timeval) (w : world) (ws : list world) :
  Forall (fun daemon => d_dset daemon = []) g_daemons ->
  exists final,
    cconn_main_loop host_big_endian cconn_process_json ASOK_REQ_DATA
      g_daemons start (w :: ws) = Some (0, final)
    /\ some_unreachable final = false
    /\ fd_log final = map (fun _ => FdClosed 0) g_daemons
    /\ Forall closed (io_array final).
Proof.
  intros Hd. unfold cconn_main_loop. cbn [loop_from]. unfold loop_turn.
  cbn [io_array some_unreachable fd_log].
  rewrite prepare_from_idle.
  2:{ apply Forall_forall. intros io Hin.
      apply in_map_iff in Hin as (x & <- & Hx).
      split; [reflexivity|]. cbn [new_cconn d].
      exact (proj1 (Forall_forall _ _) Hd x Hx). }
  cbn [length Z.of_nat Z.eqb orb app].
  eexists. split; [reflexivity|].
  split; [reflexivity|]. split.
  - unfold close_all. cbn [fd_log io_array app].
    clear Hd. induction g_daemons as [|x l IH]; [reflexivity|].
    cbn [map flat_map app]. now rewrite IH.
  - apply close_all_closed.
Qed.

(** Two daemons before their schema is known. *)
Lemma idle_read_cycle_closes_descriptor_0_witness :
  exists final,
    cconn_main_loop false (fun io => (0, io)) ASOK_REQ_DATA run_daemons
      run_start run_worlds = Some (0, final)
    /\ some_unreachable final = false
    /\ fd_log final = [FdClosed 0; FdClosed 0]
    /\ Forall closed (io_array final).
Proof.
  apply (@idle_read_cycle_closes_descriptor_0 false (fun io => (0, io))
           run_daemons run_start).
  repeat constructor.
Defined.

(** ** A cycle in which every daemon refuses the connection *)

Lemma prepare_from_refused (req : Z) (w : world)
    (g_daemons : list ceph_daemon) :
  forallb (to_be_served req) g_daemons = true ->
  (forall k, refused (w_connect w k) = true) ->
  forall i,
  exists log,
    prepare_from w i (map (new_cconn req) g_daemons)
    = (map (fun daemon =>
              {| d := daemon; request_type := ASOK_REQ_NONE;
                 state_ := CSTATE_UNCONNECTED; asok := -1; amt := 0;
                 json_len := 0; json := None |}) g_daemons,
       [], [], negb (Nat.eqb (length g_daemons) 0), log).
Proof.
  intros Hs Hw. induction g_daemons as [|x l IH]; intros i.
  - exists []. reflexivity.
  - cbn [forallb] in Hs. apply andb_true_iff in Hs as [Hx Hl].
    destruct (IH Hl (S i)) as (log & E).
    cbn [map prepare_from]. rewrite E.
    unfold to_be_served in Hx. apply andb_true_iff in Hx as [H1 H2].
    apply negb_true_iff in H1, H2.
    unfold cconn_prepare. cbn [new_cconn request_type d state_].
    rewrite H1, H2. unfold cconn_connect. cbn [state_].
    specialize (Hw i).
    destruct (w_connect w i) as [e|fd e|fd e|fd]; [| | |discriminate];
      (destruct (Z.ltb_spec 0 (- Z.pos e)); [lia|]);
      (destruct (Z.ltb_spec (- Z.pos e) 0); [|lia]);
      eexists; reflexivity.
Qed.

(** When the system refuses every connection of the first turn (the
    call of [socket], [connect] or [fcntl] fails for every daemon), no
    connection is polled and [cconn_main_loop] returns 0 all the same:
    every connection is closed with the request ASOK_REQ_NONE, and the
    failure shows only in [some_unreachable]. *)
Theorem refused_daemons_end_the_cycle_with_0 (host_big_endian : bool)
    (cconn_process_json : cconn -> Z * cconn) (req : Z)
    (daemon : ceph_daemon) (others : list ceph_daemon)
    (start : timeval) (w : world) (ws : list world) :
  forallb (to_be_served req) (daemon :: others) = true ->
  (forall k, refused (w_connect w k) = true) ->
  exists final,
    cconn_main_loop host_big_endian cconn_process_json req
      (daemon :: others) start (w :: ws) = Some (0, final)
    /\ some_unreachable final = true
    /\ Forall (fun io => request_type io = ASOK_REQ_NONE)
         (io_array final)
    /\ Forall closed (io_array final).
Proof.
  intros Hs Hw. unfold cconn_main_loop. cbn [loop_from]. unfold loop_turn.
  cbn [io_array some_unreachable fd_log].
  destruct (@prepare_from_refused req w (daemon :: others) Hs Hw 0)
    as (log & E).
  rewrite E. cbn [length Z.of_nat Z.eqb Nat.eqb negb orb].
  eexists. split; [reflexivity|].
  split; [reflexivity|]. split; [|apply close_all_closed].
  unfold close_all. cbn [io_array].
  apply Forall_forall. intros io Hin.
  apply in_map_iff in Hin as (io0 & <- & Hin).
  apply in_map_iff in Hin as (x & <- & _). reflexivity.
Qed.

(** The cycle for the version at the start of the plugin, with two
    daemons that are not running. *)
Lemma refused_daemons_end_the_cycle_with_0_witness :
  let w := {| w_connect := fun _ => ConnectFailed 7 111;
              w_now := run_start;
              w_poll := PollReady (fun _ => 0);
              w_io := fun _ => IoMoved [];
              w_calloc := fun _ => true |} in
  exists final,
    cconn_main_loop false (fun io => (0, io)) ASOK_REQ_VERSION run_daemons
      run_start [w] = Some (0, final)
    /\ some_unreachable final = true
    /\ Forall (fun io => request_type io = ASOK_REQ_NONE) (io_array final)
    /\ Forall closed (io_array final).
Proof.
  apply (@refused_daemons_end_the_cycle_with_0 false (fun io => (0, io))
           ASOK_REQ_VERSION).
  - reflexivity.
  - reflexivity.
Defined.

(** ** The length of the reply *)

(** An object read in two pieces holds the bytes of both. *)
Lemma read_into_uint32_pieces (big : bool) (v : Z) (b1 b2 : list ascii) :
  (length b1 + length b2 = 4)%nat ->
  firstn (length b1) (host_encode big (read_into_uint32 big v 0 b1)) ++ b2
  = b1 ++ b2.
Proof.
  intros Hl. unfold read_into_uint32.
  pose proof (host_encode_length big v) as Hm.
  rewrite buf_write_some by (cbn [Nat.add]; lia).
  cbn [firstn app Nat.add].
  rewrite host_encode_decode
    by (rewrite length_app, length_skipn; lia).
  now rewrite firstn_app_exact.
Qed.

(** The event that completes the four bytes of the length, in the state
    CSTATE_READ_AMT. *)
Lemma read_amt_event (big : bool) (process_json : cconn -> Z * cconn)
    (io : cconn) (a : io_answer) (calloc_ok : bool) :
  state_ io = CSTATE_READ_AMT ->
  0 <= amt io < 4 ->
  amt io + Z.of_nat (length (io_moved a (4 - amt io))) = 4 ->
  cconn_handle_event big process_json io a calloc_ok
  = let len :=
      be_decode (firstn (Z.to_nat (amt io)) (host_encode big (json_len io))
                 ++ io_moved a (4 - amt io)) in
    (if calloc_ok then 0 else - ENOMEM,
     {| d := d io; request_type := request_type io;
        state_ := CSTATE_READ_JSON; asok := asok io; amt := 0;
        json_len := len;
        json := if calloc_ok
                then Some (zeroed (Z.to_nat (wrap32 (len + 1)))) else None |},
     []).
Proof.
  intros Hst Hamt Hdone. unfold cconn_handle_event. rewrite Hst.
  rewrite (wrap64_small (z := 4 - amt io)) by lia.
  assert (Hret : io_ret a (4 - amt io)
                 = Z.of_nat (length (io_moved a (4 - amt io)))).
  { destruct a as [e|bytes]; [|reflexivity].
    cbn [io_moved length] in Hdone. lia. }
  rewrite Hret.
  destruct (Z.ltb_spec (Z.of_nat (length (io_moved a (4 - amt io)))) 0); [lia|].
  rewrite wrap32_small by lia. rewrite Hdone.
  change (4 <=? 4) with true. cbv iota.
  rewrite read_into_uint32_complete by lia.
  cbv zeta. destruct calloc_ok; reflexivity.
Qed.

(** The four bytes of the length of the reply may come in two reads: in
    the state CSTATE_READ_AMT with nothing read yet, a read of fewer
    than four bytes returns 0 and keeps the state, and the read of the
    other bytes after it leaves the connection one read of the four
    bytes would leave.  The length is the number the four bytes denote in
    network order, on a host of either byte order; the buffer allocated
    for the reply is cleared and has one byte more than the length, and
    the event returns -ENOMEM when it cannot be allocated. *)
Theorem reply_length_read_in_pieces (host_big_endian : bool)
    (cconn_process_json : cconn -> Z * cconn) (io : cconn)
    (b1 b2 : list ascii) (c1 calloc_ok : bool) :
  state_ io = CSTATE_READ_AMT -> amt io = 0 ->
  (length b1 < 4)%nat -> (length b1 + length b2 = 4)%nat ->
  let first := cconn_handle_event host_big_endian cconn_process_json io
                 (IoMoved b1) c1 in
  let len := be_decode (b1 ++ b2) in
  fst (fst first) = 0
  /\ state_ (snd (fst first)) = CSTATE_READ_AMT
  /\ cconn_handle_event host_big_endian cconn_process_json
       (snd (fst first)) (IoMoved b2) calloc_ok
     = cconn_handle_event host_big_endian cconn_process_json io
         (IoMoved (b1 ++ b2)) calloc_ok
  /\ cconn_handle_event host_big_endian cconn_process_json io
       (IoMoved (b1 ++ b2)) calloc_ok
     = (if calloc_ok then 0 else - ENOMEM,
        {| d := d io; request_type := request_type io;
           state_ := CSTATE_READ_JSON; asok := asok io; amt := 0;
           json_len := len;
           json := if calloc_ok
                   then Some (zeroed (Z.to_nat (wrap32 (len + 1))))
                   else None |},
        []).
Proof.
  intros Hst Hamt H1 Hl. cbv zeta.
  assert (Eall : cconn_handle_event host_big_endian cconn_process_json io
                   (IoMoved (b1 ++ b2)) calloc_ok
                 = (if calloc_ok then 0 else - ENOMEM,
                    {| d := d io; request_type := request_type io;
                       state_ := CSTATE_READ_JSON; asok := asok io; amt := 0;
                       json_len := be_decode (b1 ++ b2);
                       json := if calloc_ok
                               then Some (zeroed (Z.to_nat
                                            (wrap32 (be_decode (b1 ++ b2) + 1))))
                               else None |},
                    [])).
  { rewrite read_amt_event; rewrite ?Hamt; try assumption; try lia.
    - cbn [Z.to_nat firstn app Z.sub io_moved].
      rewrite firstn_all2 by (rewrite length_app; lia). reflexivity.
    - cbn [io_moved]. rewrite firstn_all2 by (rewrite length_app; lia).
      rewrite length_app. lia. }
  assert (Efirst : cconn_handle_event host_big_endian cconn_process_json io
                     (IoMoved b1) c1
                   = (0,
                      {| d := d io; request_type := request_type io;
                         state_ := CSTATE_READ_AMT; asok := asok io;
                         amt := Z.of_nat (length b1);
                         json_len := read_into_uint32 host_big_endian
                                       (json_len io) 0 b1;
                         json := json io |},
                      [])).
  { unfold cconn_handle_event. rewrite Hst, Hamt.
    change (wrap64 (4 - 0)) with 4.
    cbn [io_ret io_moved]. change (Z.to_nat 4) with 4%nat.
    rewrite (firstn_all2 (n := 4)) by lia.
    destruct (Z.ltb_spec (Z.of_nat (length b1)) 0); [lia|].
    rewrite Z.add_0_l, wrap32_small by lia.
    destruct (Z.leb_spec 4 (Z.of_nat (length b1))); [lia|].
    reflexivity. }
  rewrite Efirst. cbn [fst snd state_].
  split; [reflexivity|]. split; [reflexivity|]. split; [|exact Eall].
  rewrite Eall. rewrite read_amt_event.
  - cbn [amt json_len d request_type asok io_moved].
    rewrite Nat2Z.id.
    replace (Z.to_nat (4 - Z.of_nat (length b1))) with (length b2) by lia.
    rewrite firstn_all.
    now rewrite read_into_uint32_pieces by assumption.
  - reflexivity.
  - cbn [amt]. lia.
  - cbn [amt io_moved].
    replace (Z.to_nat (4 - Z.of_nat (length b1))) with (length b2) by lia.
    rewrite firstn_all. lia.
Qed.

(** A reply of 258 bytes announced in a read of one byte and a read of
    three, on a host with the least significant byte first. *)
Lemma reply_length_read_in_pieces_witness :
  let io := {| d := new_daemon (lit "osd.0")
                      (lit "/var/run/ceph/ceph-osd.0.asok") (lit "ceph");
               request_type := ASOK_REQ_SCHEMA; state_ := CSTATE_READ_AMT;
               asok := 7; amt := 0; json_len := 0; json := None |} in
  let b1 := [ascii_of_nat 0] in
  let b2 := [ascii_of_nat 0; ascii_of_nat 1; ascii_of_nat 2] in
  let first := cconn_handle_event false (fun io => (0, io)) io
                 (IoMoved b1) true in
  fst (fst first) = 0
  /\ state_ (snd (fst first)) = CSTATE_READ_AMT
  /\ cconn_handle_event false (fun io => (0, io)) (snd (fst first))
       (IoMoved b2) true
     = cconn_handle_event false (fun io => (0, io)) io
         (IoMoved (b1 ++ b2)) true
  /\ cconn_handle_event false (fun io => (0, io)) io
       (IoMoved (b1 ++ b2)) true
     = (0,
        {| d := d io; request_type := request_type io;
           state_ := CSTATE_READ_JSON; asok := asok io; amt := 0;
           json_len := be_decode (b1 ++ b2);
           json := Some (zeroed (Z.to_nat
                                   (wrap32 (be_decode (b1 ++ b2) + 1)))) |},
        []).
Proof.
  apply (@reply_length_read_in_pieces false (fun io => (0, io))
           {| d := new_daemon (lit "osd.0")
                     (lit "/var/run/ceph/ceph-osd.0.asok") (lit "ceph");
              request_type := ASOK_REQ_SCHEMA; state_ := CSTATE_READ_AMT;
              asok := 7; amt := 0; json_len := 0; json := None |}
           [ascii_of_nat 0]
           [ascii_of_nat 0; ascii_of_nat 1; ascii_of_nat 2] true true).
  - reflexivity.
  - reflexivity.
  - cbn [length]; lia.
  - reflexivity.
Defined.

(** ** The time left *)

(** [milli_diff] for two times whose seconds differ by less than
    2147483 and whose microseconds are those of a [struct timeval]: the
    result is the difference in milliseconds, each part cut towards
    zero, and it is within one millisecond of the difference of the
    times.  So when the result is positive, the first time is after the
    second: [cconn_main_loop], which polls only then, never polls once
    the deadline is reached. *)
Theorem milli_diff_within_a_millisecond (t1 t2 : timeval) :
  - 2147482 <= tv_sec t1 - tv_sec t2 <= 2147482 ->
  0 <= tv_usec t1 < 1000000 -> 0 <= tv_usec t2 < 1000000 ->
  milli_diff t1 t2
  = Z.quot (tv_usec t1 - tv_usec t2) 1000 + 1000 * (tv_sec t1 - tv_sec t2)
  /\ - 1000 < 1000 * milli_diff t1 t2 - micro_diff t1 t2 < 1000
  /\ (0 < milli_diff t1 t2 -> 0 < micro_diff t1 t2)
  /\ (milli_diff t1 t2 <= 0 -> micro_diff t1 t2 < 1000).
Proof.
  intros Hs H1 H2.
  assert (Es : to_int (tv_sec t1 - tv_sec t2) = tv_sec t1 - tv_sec t2).
  { unfold to_int. rewrite Z.mod_small; lia. }
  assert (Eu : to_int (tv_usec t1 - tv_usec t2) = tv_usec t1 - tv_usec t2).
  { unfold to_int. rewrite Z.mod_small; lia. }
  set (du := tv_usec t1 - tv_usec t2) in *.
  set (ds := tv_sec t1 - tv_sec t2) in *.
  assert (Hdu : - 1000000 < du < 1000000) by (unfold du; lia).
  assert (Hq : - 1000 < 1000 * Z.quot du 1000 - du < 1000
               /\ - 1000 < Z.quot du 1000 < 1000).
  { clearbody du ds. pose proof (Z.quot_rem' du 1000) as E.
    destruct (Z_le_gt_dec 0 du) as [Hp|Hn].
    - pose proof (Z.rem_bound_pos du 1000 Hp ltac:(lia)). lia.
    - pose proof (Z.rem_bound_pos (- du) 1000 ltac:(lia) ltac:(lia)) as Hr.
      rewrite Z.rem_opp_l' in Hr. lia. }
  assert (Ep : to_int (ds * 1000) = ds * 1000).
  { unfold to_int. rewrite Z.mod_small; lia. }
  assert (E : milli_diff t1 t2 = Z.quot du 1000 + 1000 * ds).
  { unfold milli_diff. fold ds du. rewrite Es, Eu, Ep.
    unfold INT_MAX, INT_MIN.
    destruct (Z.ltb_spec 2147483647 (Z.quot du 1000 + ds * 1000)); [lia|].
    destruct (Z.ltb_spec (Z.quot du 1000 + ds * 1000) (-2147483648)); lia. }
  unfold micro_diff. fold ds du. rewrite E. clearbody du ds.
  repeat split; lia.
Qed.

(** The deadline of a cycle, a quarter of a second after its start. *)
Lemma milli_diff_within_a_millisecond_witness :
  let t1 := deadline run_start in
  let t2 := {| tv_sec := 1000; tv_usec := 500000 |} in
  milli_diff t1 t2 = 750
  /\ - 1000 < 1000 * milli_diff t1 t2 - micro_diff t1 t2 < 1000.
Proof.
  cbv zeta.
  destruct (@milli_diff_within_a_millisecond (deadline run_start)
              {| tv_sec := 1000; tv_usec := 500000 |})
    as (E & B & _);
    [ cbn [deadline run_start tv_sec tv_usec];
      unfold CEPH_TIMEOUT_INTERVAL; lia .. |].
  split; [rewrite E; reflexivity | exact B].
Defined.

(** ** The configuration *)

Lemma c_str_app_nul_any (s rest : list ascii) :
  c_str (s ++ NUL :: rest) = c_str s.
Proof.
  induction s as [|c s IH]; [reflexivity|].
  cbn [app c_str]. destruct (Ascii.eqb c NUL); [reflexivity|].
  now rewrite IH.
Qed.

Lemma starts_with_length (s needle : cstring) :
  starts_with s needle = true -> (length needle <= length s)%nat.
Proof.
  revert s; induction needle as [|x needle IH]; intros [|y s];
    cbn [starts_with length]; try lia; try discriminate.
  intros H; apply andb_prop in H as [_ H]. apply IH in H. lia.
Qed.

(** What [strstr] finds lies inside the string. *)
Lemma strstr_bound (hay needle : cstring) (i : nat) :
  strstr hay needle = Some i -> (i + length needle <= length hay)%nat.
Proof.
  revert i; induction hay as [|c hay IH]; intros i; cbn [strstr].
  - destruct (starts_with [] needle) eqn:E; [|discriminate].
    intros H; inversion H; subst. apply starts_with_length in E. lia.
  - destruct (starts_with (c :: hay) needle) eqn:E.
    + intros H; inversion H; subst. apply starts_with_length in E. lia.
    + destruct (strstr hay needle) as [j|]; [|discriminate].
      intros H; inversion H; subst. specialize (IH _ eq_refl).
      cbn [length]. lia.
Qed.

Lemma last_slash_from_no_slash (s : cstring) (off : nat) (l : Z) :
  no_slash s -> last_slash_from s off l = l.
Proof.
  intros H; revert off; induction H as [|c s Hc _ IH]; intros off;
    cbn [last_slash_from]; [reflexivity|].
  destruct (Ascii.eqb_spec c "/"); [contradiction|]. apply IH.
Qed.

Lemma last_slash_from_app (a b : cstring) (off : nat) (l : Z) :
  last_slash_from (a ++ b) off l
  = last_slash_from b (off + length a) (last_slash_from a off l).
Proof.
  revert off l; induction a as [|c a IH]; intros;
    cbn [app last_slash_from length].
  - now rewrite Nat.add_0_r.
  - rewrite IH. f_equal. lia.
Qed.

(** The loop leaves the offset of the last slash, less 1. *)
Lemma last_slash_inner (dir name : cstring) :
  no_slash name ->
  last_slash_from (dir ++ "/"%char :: name) 0 (-1)
  = Z.of_nat (length dir) - 1.
Proof.
  intros Hn. rewrite last_slash_from_app. cbn [last_slash_from Nat.add].
  now rewrite Ascii.eqb_refl, last_slash_from_no_slash by assumption.
Qed.

(** A slash at the start of the path leaves -1, as no slash does. *)
Lemma last_slash_outer (path : cstring) :
  no_slash (tl path) -> last_slash_from path 0 (-1) = -1.
Proof.
  destruct path as [|c s]; [reflexivity|]. cbn [tl last_slash_from].
  intros Hs. rewrite last_slash_from_no_slash by assumption.
  destruct (Ascii.eqb c "/"); reflexivity.
Qed.

Lemma slash_split (s : cstring) :
  no_slash s \/ exists a b, s = a ++ "/"%char :: b /\ no_slash b.
Proof.
  induction s as [|c s [IH|(a & b & -> & Hb)]].
  - left; constructor.
  - destruct (Ascii.eqb_spec c "/") as [->|Hc].
    + right. exists [], s. split; [reflexivity|assumption].
    + left. constructor; assumption.
  - right. exists (c :: a), b. split; [reflexivity|assumption].
Qed.

Lemma path_split (path : cstring) :
  no_slash (tl path)
  \/ exists dir name,
       path = dir ++ "/"%char :: name /\ dir <> [] /\ no_slash name.
Proof.
  destruct path as [|c s]; [left; constructor|].
  destruct (slash_split s) as [Hs|(a & b & -> & Hb)]; [left; exact Hs|].
  right. exists (c :: a), b. repeat split; [discriminate|assumption].
Qed.

Lemma daemon_type_index_found (types : list cstring) (name : cstring)
    (i : nat) :
  occurs_first types name i ->
  daemon_type_index_from types name = Z.of_nat i - 1.
Proof.
  intros (before & t & after & -> & Hb & Ht).
  induction Hb as [|u before Hu _ IH]; cbn [app daemon_type_index_from].
  - now rewrite Ht.
  - now rewrite Hu.
Qed.

Lemma daemon_type_index_cases (types : list cstring) (name : cstring) :
  daemon_type_index_from types name = -1
  \/ exists i, occurs_first types name (S i)
               /\ daemon_type_index_from types name = Z.of_nat i.
Proof.
  induction types as [|t types IH]; cbn [daemon_type_index_from];
    [left; reflexivity|].
  destruct (strstr name t) as [[|i]|] eqn:E.
  - left; reflexivity.
  - right. exists i. split; [|lia].
    exists [], t, types. repeat split; [constructor|assumption].
  - destruct IH as [IH|(i & (before & u & after & -> & Hb & Hu) & Ei)];
      [left; assumption|].
    right. exists i. split; [|assumption].
    exists (t :: before), u, after.
    repeat split; [constructor; assumption|assumption].
Qed.

Lemma occurs_first_bound (name : cstring) (i : nat) :
  occurs_first ceph_daemon_types name i -> (i + 3 <= length name)%nat.
Proof.
  intros (before & t & after & E & _ & Ht). apply strstr_bound in Ht.
  assert (Hin : In t ceph_daemon_types) by (rewrite E; apply in_elt).
  assert (Hlen : length t = 3%nat)
    by (cbv in Hin; destruct Hin as [<-|[<-|[<-|[]]]]; reflexivity).
  lia.
Qed.

(** [cc_parse_cluster_name] on a path with a slash after its start. *)
Lemma parse_cluster_name_inner (U : nat) (cd : daemon_arrays)
    (dir name : cstring) :
  c_str (cd_asok_path cd) = dir ++ "/"%char :: name ->
  dir <> [] -> no_slash name ->
  cc_parse_cluster_name U cd
  = if (U <=? length name)%nat then None
    else
      let daemon_type_index :=
        daemon_type_index_from ceph_daemon_types name in
      if (daemon_type_index =? -1)
         || match strstr name (lit ".asok") with
            | Some _ => false
            | None => true
            end
      then Some (-1, cd)
      else
        match buf_write (cd_cluster cd) 0
                (firstn (Z.to_nat daemon_type_index) name) with
        | Some cluster =>
            Some (0, {| cd_name := cd_name cd; cd_cluster := cluster;
                        cd_asok_path := cd_asok_path cd |})
        | None => None
        end.
Proof.
  intros E Hd Hn. unfold cc_parse_cluster_name.
  rewrite E, (last_slash_inner dir Hn).
  assert (Hlen : (1 <= length dir)%nat)
    by (destruct dir; [contradiction|cbn [length]; lia]).
  destruct (Z.eqb_spec (Z.of_nat (length dir) - 1) (-1)); [lia|].
  replace (Z.to_nat (Z.of_nat (length dir) - 1 + 2))
    with (length dir + 1)%nat by lia.
  now rewrite skipn_app_cons.
Qed.

Lemma parse_cluster_name_outer (U : nat) (cd : daemon_arrays) :
  no_slash (tl (c_str (cd_asok_path cd))) ->
  cc_parse_cluster_name U cd = Some (-1, cd).
Proof.
  intros Hs. unfold cc_parse_cluster_name.
  now rewrite (last_slash_outer _ Hs).
Qed.

(** [cc_handle_str] into an array of at least [n] bytes: 0 and the value,
    terminated, when the value is shorter than [n]; an error otherwise. *)
Lemma cc_handle_str_cases (item : oconfig_item_t) (dest : list ascii)
    (n : nat) :
  (n <= length dest)%nat ->
  (exists val,
      item_values item = [OCONFIG_TYPE_STRING val]
      /\ (length val < n)%nat
      /\ cc_handle_str item dest n
         = Some (0, val ++ NUL :: skipn (S (length val)) dest))
  \/ (exists ret dest',
         cc_handle_str item dest n = Some (ret, dest')
         /\ ret <> 0 /\ length dest' = length dest).
Proof.
  intros Hn. unfold cc_handle_str.
  destruct (item_values item) as [|[val| |] [|]] eqn:Ev;
    try (right; eexists _, _; split;
         [reflexivity|split; [unfold Errno.ENOTSUP; lia|reflexivity]]).
  destruct n as [|n].
  - right. cbn [snprintf_s]. eexists _, _. split; [reflexivity|].
    split; [|reflexivity].
    destruct (Z.gtb_spec (Z.of_nat (length val)) (Z.of_nat 0 - 1));
      unfold Errno.ENAMETOOLONG; lia.
  - cbn [snprintf_s]. destruct (Nat.ltb_spec (length val) (S n)).
    + left. exists val. repeat split; [assumption|].
      rewrite firstn_all2 by lia.
      rewrite buf_write_some by (rewrite length_app; cbn [length]; lia).
      cbn [firstn app Nat.add]. rewrite <- app_assoc. cbn [app].
      rewrite length_app. cbn [length].
      replace (length val + 1)%nat with (S (length val)) by lia.
      destruct (Z.gtb_spec (Z.of_nat (length val)) (Z.of_nat (S n) - 1));
        [lia|reflexivity].
    + right.
      assert (Hf : length (firstn n val) = n)
        by (rewrite length_firstn; lia).
      destruct (buf_write dest 0 (firstn n val ++ [NUL])) as [out|] eqn:Ew.
      2:{ rewrite buf_write_some in Ew
            by (rewrite length_app, Hf; cbn [length]; lia).
          discriminate. }
      eexists _, _. split; [reflexivity|].
      split; [|exact (buf_write_length _ _ _ Ew)].
      destruct (Z.gtb_spec (Z.of_nat (length val)) (Z.of_nat (S n) - 1));
        unfold Errno.ENAMETOOLONG; lia.
Qed.

Lemma cc_handle_str_fits (item : oconfig_item_t) (dest : list ascii)
    (n : nat) (val : cstring) :
  item_values item = [OCONFIG_TYPE_STRING val] ->
  (length val < n <= length dest)%nat ->
  cc_handle_str item dest n
  = Some (0, val ++ NUL :: skipn (S (length val)) dest).
Proof.
  intros Ev Hn. unfold cc_handle_str. rewrite Ev.
  destruct n as [|n]; [lia|]. cbn [snprintf_s].
  rewrite firstn_all2 by lia.
  rewrite buf_write_some by (rewrite length_app; cbn [length]; lia).
  cbn [firstn app Nat.add]. rewrite <- app_assoc. cbn [app].
  rewrite length_app. cbn [length].
  replace (length val + 1)%nat with (S (length val)) by lia.
  destruct (Z.gtb_spec (Z.of_nat (length val)) (Z.of_nat (S n) - 1));
    [lia|reflexivity].
Qed.

(** The options of a [Daemon] block other than [SocketPath] leave [cd] as
    it is. *)
Lemma daemon_options_skip (U : nat) (pre rest : list oconfig_item_t)
    (cd : daemon_arrays) :
  Forall (fun child => is_socket_path child = false) pre ->
  daemon_options_from U (pre ++ rest) cd = daemon_options_from U rest cd.
Proof.
  induction 1 as [|child pre Hc _ IH]; [reflexivity|].
  cbn [app daemon_options_from]. unfold is_socket_path in Hc.
  now rewrite Hc.
Qed.

(** [cc_parse_cluster_name]: in a socket path [dir/name] with a directory
    part, the cluster name is what the file name holds before the character
    that precedes the daemon type, the type being the first of osd, mon and
    mds that occurs in the name, wherever the others occur.  [memcpy] puts
    these [i] characters at the start of [cd->cluster] and no NUL after
    them, so the array keeps what it held from index [i] on; when [i] is
    more than the size of the array the copy runs past its end. *)
Theorem cluster_is_cut_before_the_type (U : nat) (cd : daemon_arrays)
    (dir name : cstring) (i : nat) :
  c_str (cd_asok_path cd) = dir ++ "/"%char :: name ->
  dir <> [] -> no_slash name -> (length name < U)%nat ->
  occurs_first ceph_daemon_types name (S i) ->
  strstr name (lit ".asok") <> None ->
  cc_parse_cluster_name U cd
  = if (i <=? length (cd_cluster cd))%nat
    then Some (0, {| cd_name := cd_name cd;
                     cd_cluster := firstn i name ++ skipn i (cd_cluster cd);
                     cd_asok_path := cd_asok_path cd |})
    else None.
Proof.
  intros E Hd Hn HU Ht Hasok.
  rewrite (parse_cluster_name_inner U cd E Hd Hn).
  destruct (Nat.leb_spec U (length name)) as [|_]; [lia|].
  cbv zeta. rewrite (daemon_type_index_found Ht).
  replace (Z.of_nat (S i) - 1) with (Z.of_nat i) by lia.
  destruct (Z.eqb_spec (Z.of_nat i) (-1)) as [|_]; [lia|].
  destruct (strstr name (lit ".asok")); [|contradiction].
  cbn [orb]. rewrite Nat2Z.id.
  pose proof (occurs_first_bound Ht) as Hb.
  assert (Hf : length (firstn i name) = i) by (rewrite length_firstn; lia).
  unfold buf_write. rewrite Hf. cbn [Nat.add firstn app].
  destruct (i <=? length (cd_cluster cd))%nat; reflexivity.
Qed.

Lemma cluster_is_cut_before_the_type_witness :
  cc_parse_cluster_name 108
    {| cd_name := lit "osd0" ++ zeroed 60;
       cd_cluster := lit "production" ++ zeroed 54;
       cd_asok_path := lit "/var/run/ceph/ceph-mon.osd1.asok" ++ zeroed 76 |}
  = Some (0, {| cd_name := lit "osd0" ++ zeroed 60;
                cd_cluster := lit "ceph-monon" ++ zeroed 54;
                cd_asok_path :=
                  lit "/var/run/ceph/ceph-mon.osd1.asok" ++ zeroed 76 |}).
Proof.
  exact (@cluster_is_cut_before_the_type 108
           {| cd_name := lit "osd0" ++ zeroed 60;
              cd_cluster := lit "production" ++ zeroed 54;
              cd_asok_path :=
                lit "/var/run/ceph/ceph-mon.osd1.asok" ++ zeroed 76 |}
           (lit "/var/run/ceph") (lit "ceph-mon.osd1.asok") 8
           eq_refl
           ltac:(discriminate)
           ltac:(repeat constructor; discriminate)
           ltac:(vm_compute; lia)
           (ex_intro _ [] (ex_intro _ (lit "osd") (ex_intro _ [lit "mon"; lit "mds"]
              (conj eq_refl (conj (Forall_nil _) eq_refl)))))
           ltac:(discriminate)).
Defined.

Lemma cc_handle_str_ok_inv (item : oconfig_item_t) (dest dest' : list ascii)
    (n : nat) :
  cc_handle_str item dest n = Some (0, dest') ->
  exists val,
    item_values item = [OCONFIG_TYPE_STRING val]
    /\ (length val < n)%nat
    /\ (length val < length dest)%nat
    /\ dest' = val ++ NUL :: skipn (S (length val)) dest.
Proof.
  unfold cc_handle_str.
  destruct (item_values item) as [|[val| |] [|]]; try discriminate.
  destruct n as [|n]; cbn [snprintf_s].
  - destruct (Z.gtb_spec (Z.of_nat (length val)) (Z.of_nat 0 - 1));
      [discriminate|lia].
  - destruct (buf_write dest 0 (firstn n val ++ [NUL])) as [out|] eqn:Ew;
      [|discriminate].
    destruct (Z.gtb_spec (Z.of_nat (length val)) (Z.of_nat (S n) - 1));
      [discriminate|].
    intros E; inversion E; subst dest'. exists val.
    rewrite firstn_all2 in Ew by lia.
    apply buf_write_inv in Ew as [Hle ->].
    rewrite length_app in Hle. cbn [length] in Hle.
    repeat split; try lia.
    cbn [firstn app Nat.add]. rewrite <- app_assoc. cbn [app].
    rewrite length_app. cbn [length].
    now replace (length val + 1)%nat with (S (length val)) by lia.
Qed.

Lemma parse_cluster_name_frame (U : nat) (cd cd' : daemon_arrays) (ret : Z) :
  cc_parse_cluster_name U cd = Some (ret, cd') ->
  cd_name cd' = cd_name cd /\ cd_asok_path cd' = cd_asok_path cd.
Proof.
  unfold cc_parse_cluster_name. cbv zeta.
  destruct (_ =? -1); [intros H; inversion H; auto|].
  destruct (_ <=? _)%nat; [discriminate|].
  destruct (_ || _); [intros H; inversion H; auto|].
  destruct (buf_write _ _ _); [|discriminate].
  intros H; inversion H; auto.
Qed.

Lemma last_cons_default {A : Type} (a : A) (l : list A) (d : A) :
  last (a :: l) d = last l a.
Proof.
  revert a d; induction l as [|b l IH]; intros a d; [reflexivity|].
  change (last (a :: b :: l) d) with (last (b :: l) d).
  change (last (b :: l) a) with (last (b :: l) a).
  now rewrite (IH b d), (IH b a).
Qed.

Lemma last_c_str (l : list cstring) (d1 d2 : list ascii) :
  c_str d1 = c_str d2 -> c_str (last l d1) = c_str (last l d2).
Proof.
  intros E. destruct l as [|a l]; [exact E|].
  now rewrite !last_cons_default.
Qed.

(** A [Daemon] block that is read to its end leaves in [cd] the name it
    had and the value of its last [SocketPath] option. *)
Lemma daemon_options_path (U : nat) (children : list oconfig_item_t)
    (cd cd' : daemon_arrays) :
  daemon_options_from U children cd = Some (0, cd') ->
  cd_name cd' = cd_name cd
  /\ c_str (cd_asok_path cd')
     = c_str (last (socket_paths children) (cd_asok_path cd)).
Proof.
  revert cd; induction children as [|child rest IH]; intros cd;
    cbn [daemon_options_from].
  - intros H; inversion H; subst; auto.
  - unfold socket_paths; cbn [flat_map]; fold (socket_paths rest).
    unfold is_socket_path at 1.
    destruct (strcaseeq (lit "SocketPath") (item_key child)) eqn:Ek;
      [|cbn [app]; apply IH].
    destruct (cc_handle_str child (cd_asok_path cd) U) as [[ret path]|]
      eqn:Eh; [|discriminate].
    destruct (Z.eqb_spec ret 0) as [->|Hr]; cbn [negb];
      [|intros H; inversion H; subst; contradiction].
    apply cc_handle_str_ok_inv in Eh as (val & Ev & _ & _ & ->).
    rewrite Ev.
    destruct (cc_parse_cluster_name U _) as [[ret2 cd2]|] eqn:Ep;
      [|discriminate].
    destruct (Z.eqb_spec ret2 0) as [->|Hr]; cbn [negb];
      [|intros H; inversion H; subst; contradiction].
    apply parse_cluster_name_frame in Ep as [En Epath].
    cbn [cd_name cd_asok_path] in En, Epath.
    intros H. apply IH in H as [Hn Hp]. split; [congruence|].
    rewrite Hp. cbn [app]. rewrite last_cons_default.
    apply last_c_str. rewrite Epath. apply c_str_app_nul_any.
Qed.

(** [cc_add_daemon_config]: a block whose first [SocketPath] option has a
    value without a slash after its first character is refused with -1 and
    registers nothing.  Such a value is a bare file name, or a socket in the
    root directory, as [/ceph-osd.0.asok]: the loop over the slashes stores
    the offset of the last slash less 1, and -1 is its value for [no slash]. *)
Theorem path_without_inner_slash_is_refused (D U : nat)
    (realloc_ok malloc_ok : bool) (daemons : list daemon_arrays)
    (key name opt path : cstring) (pre post : list oconfig_item_t) :
  (length name < D)%nat -> (length path < U)%nat ->
  Forall (fun c => c <> NUL) path ->
  no_slash (tl path) ->
  Forall (fun child => is_socket_path child = false) pre ->
  strcaseeq (lit "SocketPath") opt = true ->
  cc_add_daemon_config D U realloc_ok malloc_ok daemons
    (mk_oconfig_item key [OCONFIG_TYPE_STRING name]
       (pre ++ mk_oconfig_item opt [OCONFIG_TYPE_STRING path] [] :: post))
  = Some (-1, daemons).
Proof.
  intros Hname Hpath Hnul Hslash Hpre Hopt. unfold cc_add_daemon_config.
  cbn [item_values item_children].
  erewrite cc_handle_str_fits;
    [|reflexivity|rewrite zeroed_length; lia].
  cbn [Z.eqb negb]. rewrite daemon_options_skip by assumption.
  cbn [daemon_options_from item_key cd_asok_path cd_name cd_cluster].
  rewrite Hopt.
  erewrite cc_handle_str_fits;
    [|reflexivity|rewrite zeroed_length; lia].
  cbn [Z.eqb negb]. rewrite parse_cluster_name_outer; [reflexivity|].
  cbn [cd_asok_path]. now rewrite c_str_app_nul.
Qed.

Lemma path_without_inner_slash_is_refused_witness :
  cc_add_daemon_config 64 108 true true []
    (mk_oconfig_item (lit "Daemon") [OCONFIG_TYPE_STRING (lit "osd0")]
       [mk_oconfig_item (lit "Interval") [OCONFIG_TYPE_BOOLEAN 1] [];
        mk_oconfig_item (lit "socketpath")
          [OCONFIG_TYPE_STRING (lit "/ceph-osd.0.asok")] []])
  = Some (-1, []).
Proof.
  apply (@path_without_inner_slash_is_refused 64 108 true true []
           (lit "Daemon") (lit "osd0") (lit "socketpath")
           (lit "/ceph-osd.0.asok")
           [mk_oconfig_item (lit "Interval") [OCONFIG_TYPE_BOOLEAN 1] []]
           []).
  - vm_compute; lia.
  - vm_compute; lia.
  - repeat constructor; discriminate.
  - repeat constructor; discriminate.
  - repeat constructor.
  - reflexivity.
Defined.

Lemma c_str_head (buf : list ascii) (c : ascii) :
  nth_error buf 0 = Some c -> c <> NUL ->
  exists rest, c_str buf = c :: rest.
Proof.
  destruct buf as [|x buf]; [discriminate|]. cbn [nth_error].
  intros H Hc; inversion H; subst x. cbn [c_str].
  destruct (Ascii.eqb_spec c NUL); [contradiction|]. now eexists.
Qed.

(** [cc_add_daemon_config]: a block that is accepted appends one daemon to
    [g_daemons]; its name is the value of the block and its socket path is
    the value of the last [SocketPath] option of the block (the values being
    C strings). *)
Theorem accepted_block_registers_name_and_path (D U : nat)
    (realloc_ok malloc_ok : bool) (daemons daemons' : list daemon_arrays)
    (ci : oconfig_item_t) :
  cc_add_daemon_config D U realloc_ok malloc_ok daemons ci
  = Some (0, daemons') ->
  exists name cd,
    item_values ci = [OCONFIG_TYPE_STRING name]
    /\ daemons' = daemons ++ [cd]
    /\ c_str (cd_name cd) = c_str name
    /\ socket_paths (item_children ci) <> []
    /\ c_str (cd_asok_path cd)
       = c_str (last (socket_paths (item_children ci)) []).
Proof.
  unfold cc_add_daemon_config.
  destruct (item_values ci) as [|[name| |] [|]] eqn:Ev; try discriminate.
  destruct (cc_handle_str ci (zeroed D) D) as [[ret nm]|] eqn:Eh;
    [|discriminate].
  destruct (Z.eqb_spec ret 0) as [->|Hr]; cbn [negb];
    [|intros H; inversion H; subst; contradiction].
  apply cc_handle_str_ok_inv in Eh as (val & Ev' & _ & _ & ->).
  rewrite Ev in Ev'. inversion Ev'; subst val.
  destruct (daemon_options_from U (item_children ci) _) as [[ret cd]|]
    eqn:Eo; [|discriminate].
  destruct (Z.eqb_spec ret 0) as [->|Hr]; cbn [negb];
    [|intros H; inversion H; subst; contradiction].
  apply daemon_options_path in Eo as [En Ep].
  cbn [cd_name cd_asok_path] in En, Ep.
  unfold Errno.EINVAL, Errno.ENOMEM.
  destruct (nth_error (cd_name cd) 0) as [name0|]; [|discriminate].
  destruct (Ascii.eqb_spec name0 NUL); [discriminate|].
  destruct (nth_error (cd_asok_path cd) 0) as [path0|] eqn:E0;
    [|discriminate].
  destruct (Ascii.eqb_spec path0 NUL) as [|Hp0]; [discriminate|].
  assert (Hgoal :
    Some (0, daemons ++ [cd]) = Some (0, daemons') ->
    exists name0 cd0,
      [OCONFIG_TYPE_STRING name] = [OCONFIG_TYPE_STRING name0]
      /\ daemons' = daemons ++ [cd0]
      /\ c_str (cd_name cd0) = c_str name0
      /\ socket_paths (item_children ci) <> []
      /\ c_str (cd_asok_path cd0)
         = c_str (last (socket_paths (item_children ci)) [])).
  { intros H; inversion H; subst daemons'. exists name, cd.
    destruct (c_str_head _ E0 Hp0) as (rest & Ec).
    assert (Hsp : socket_paths (item_children ci) <> []).
    { intros Hnil. rewrite Hnil in Ep. cbn [last] in Ep.
      rewrite c_str_zeroed in Ep. congruence. }
    repeat split; try assumption.
    - rewrite En. apply c_str_app_nul_any.
    - rewrite Ep. destruct (socket_paths (item_children ci)) as [|a l];
        [contradiction|]. now rewrite !last_cons_default. }
  destruct (Ascii.eqb path0 "/").
  - destruct realloc_ok, malloc_ok; cbn [negb]; try discriminate.
    exact Hgoal.
  - destruct (Ascii.eqb path0 "."); [|discriminate].
    destruct (nth_error (cd_asok_path cd) 1) as [path1|]; [|discriminate].
    destruct (Ascii.eqb path1 "/"); [|discriminate].
    destruct realloc_ok, malloc_ok; cbn [negb]; try discriminate.
    exact Hgoal.
Qed.

Lemma accepted_block_registers_name_and_path_witness :
  exists name cd,
    [OCONFIG_TYPE_STRING (lit "osd0")] = [OCONFIG_TYPE_STRING name]
    /\ [{| cd_name := lit "osd0" ++ zeroed 60;
           cd_cluster := lit "ceph" ++ zeroed 60;
           cd_asok_path :=
             lit "/var/run/ceph/ceph-osd.1.asok" ++ zeroed 79 |}]
       = [] ++ [cd]
    /\ c_str (cd_name cd) = c_str name
    /\ socket_paths
         [mk_oconfig_item (lit "SocketPath")
            [OCONFIG_TYPE_STRING (lit "/a/x-osd.0.asok")] [];
          mk_oconfig_item (lit "SocketPath")
            [OCONFIG_TYPE_STRING (lit "/var/run/ceph/ceph-osd.1.asok")] []]
       <> []
    /\ c_str (cd_asok_path cd)
       = c_str (last (socket_paths
                  [mk_oconfig_item (lit "SocketPath")
                     [OCONFIG_TYPE_STRING (lit "/a/x-osd.0.asok")] [];
                   mk_oconfig_item (lit "SocketPath")
                     [OCONFIG_TYPE_STRING
                        (lit "/var/run/ceph/ceph-osd.1.asok")] []]) []).
Proof.
  exact (@accepted_block_registers_name_and_path 64 108 true true []
           [{| cd_name := lit "osd0" ++ zeroed 60;
               cd_cluster := lit "ceph" ++ zeroed 60;
               cd_asok_path :=
                 lit "/var/run/ceph/ceph-osd.1.asok" ++ zeroed 79 |}]
           (mk_oconfig_item (lit "Daemon") [OCONFIG_TYPE_STRING (lit "osd0")]
              [mk_oconfig_item (lit "SocketPath")
                 [OCONFIG_TYPE_STRING (lit "/a/x-osd.0.asok")] [];
               mk_oconfig_item (lit "SocketPath")
                 [OCONFIG_TYPE_STRING (lit "/var/run/ceph/ceph-osd.1.asok")]
                 []])
           eq_refl).
Defined.

Lemma daemon_options_filter (U : nat) (children : list oconfig_item_t)
    (cd : daemon_arrays) :
  daemon_options_from U (filter is_socket_path children) cd
  = daemon_options_from U children cd.
Proof.
  revert cd; induction children as [|child rest IH]; intros cd;
    [reflexivity|].
  cbn [filter]. unfold is_socket_path at 1.
  destruct (strcaseeq (lit "SocketPath") (item_key child)) eqn:E;
    cbn [daemon_options_from]; rewrite E; [|apply IH].
  destruct (cc_handle_str child (cd_asok_path cd) U) as [[ret p]|];
    [|reflexivity].
  destruct (negb (ret =? 0)); [reflexivity|].
  destruct (cc_parse_cluster_name U _) as [[ret2 cd2]|]; [|reflexivity].
  destruct (negb (ret2 =? 0)); [reflexivity|apply IH].
Qed.

Lemma cc_add_daemon_config_filter (D U : nat) (realloc_ok malloc_ok : bool)
    (daemons : list daemon_arrays) (child : oconfig_item_t) :
  cc_add_daemon_config D U realloc_ok malloc_ok daemons
    (mk_oconfig_item (item_key child) (item_values child)
       (filter is_socket_path (item_children child)))
  = cc_add_daemon_config D U realloc_ok malloc_ok daemons child.
Proof.
  unfold cc_add_daemon_config, cc_handle_str.
  cbn [item_values item_children].
  destruct (item_values child) as [|[val| |] [|]]; try reflexivity.
  destruct (snprintf_s (zeroed D) D val) as [name|]; [|reflexivity].
  destruct (negb (_ =? 0)); [reflexivity|].
  now rewrite daemon_options_filter.
Qed.

(** [ceph_config] and [cc_add_daemon_config]: the options the plugin does
    not know change nothing.  A configuration and the same configuration
    without the options of the plugin block other than [Daemon],
    [LongRunAvgLatency] and [ConvertSpecialMetricTypes], and without the
    options of the [Daemon] blocks other than [SocketPath], give the same
    return value and the same globals. *)
Theorem unknown_options_change_nothing (D U : nat)
    (allocs : nat -> bool * bool) (ci : oconfig_item_t)
    (g : plugin_globals) :
  ceph_config D U allocs (without_unknown ci) g = ceph_config D U allocs ci g.
Proof.
  unfold ceph_config, without_unknown. cbn [item_children].
  revert g; induction (item_children ci) as [|child rest IH]; intros g;
    [reflexivity|].
  cbn [filter ceph_config_from].
  destruct (strcaseeq (lit "Daemon") (item_key child)) eqn:Ed.
  - assert (Hd : is_daemon child = true) by exact Ed.
    assert (Hk : known_option child = true)
      by (unfold known_option; now rewrite Hd).
    rewrite Hk. cbn [map]. rewrite Hd. cbn [ceph_config_from item_key].
    rewrite Ed, cc_add_daemon_config_filter.
    destruct (cc_add_daemon_config D U _ _ _ child) as [[ret daemons]|];
      [|reflexivity].
    destruct (negb (ret =? 0)); [reflexivity|apply IH].
  - assert (Hd : is_daemon child = false) by exact Ed.
    destruct (strcaseeq (lit "LongRunAvgLatency") (item_key child)) eqn:El.
    + assert (Hk : known_option child = true)
        by (unfold known_option; rewrite Hd, El; reflexivity).
      rewrite Hk. cbn [map]. rewrite Hd. cbn [ceph_config_from].
      rewrite Ed, El.
      destruct (cc_handle_bool child _) as [ret v].
      destruct (negb (ret =? 0)); [reflexivity|apply IH].
    + destruct (strcaseeq (lit "ConvertSpecialMetricTypes") (item_key child))
        eqn:Ec.
      * assert (Hk : known_option child = true)
          by (unfold known_option; rewrite Hd, El, Ec; reflexivity).
        rewrite Hk. cbn [map]. rewrite Hd. cbn [ceph_config_from].
        rewrite Ed, El, Ec.
        destruct (cc_handle_bool child _) as [ret v].
        destruct (negb (ret =? 0)); [reflexivity|apply IH].
      * assert (Hk : known_option child = false)
          by (unfold known_option; rewrite Hd, El, Ec; reflexivity).
        rewrite Hk. apply IH.
Qed.

Lemma strlen_terminated (val rest : list ascii) :
  (strlen (val ++ NUL :: rest) <= length val)%nat.
Proof.
  apply strlen_nul_at. rewrite nth_error_app2 by lia.
  now rewrite Nat.sub_diag.
Qed.

(** [cc_parse_cluster_name] stays inside the arrays when a socket path is
    at most six bytes longer than a name, and keeps the last byte of
    [cd->cluster]. *)
Lemma parse_cluster_name_total (D U : nat) (cd : daemon_arrays) :
  (U <= D + 6)%nat ->
  length (cd_cluster cd) = D ->
  (strlen (cd_asok_path cd) < U)%nat ->
  nth_error (cd_cluster cd) (D - 1) = Some NUL ->
  exists ret cd',
    cc_parse_cluster_name U cd = Some (ret, cd')
    /\ (ret = 0 ->
        length (cd_cluster cd') = D
        /\ nth_error (cd_cluster cd') (D - 1) = Some NUL
        /\ socket_path_ok (c_str (cd_asok_path cd))).
Proof.
  intros HU Hc Hs Hz.
  destruct (path_split (c_str (cd_asok_path cd)))
    as [Ho|(dir & name & E & Hd & Hn)].
  - exists (-1), cd. split; [now apply parse_cluster_name_outer|lia].
  - rewrite (parse_cluster_name_inner U cd E Hd Hn).
    assert (Hdir : (1 <= length dir)%nat)
      by (destruct dir; [contradiction|cbn [length]; lia]).
    unfold strlen in Hs. rewrite E, length_app in Hs. cbn [length] in Hs.
    destruct (Nat.leb_spec U (length name)) as [|_]; [lia|]. cbv zeta.
    destruct (daemon_type_index_cases ceph_daemon_types name)
      as [Ei|(i & Hocc & Ei)]; rewrite Ei.
    + exists (-1), cd. split; [reflexivity|lia].
    + destruct (Z.eqb_spec (Z.of_nat i) (-1)) as [|_]; [lia|].
      destruct (strstr name (lit ".asok")) eqn:Ea; cbn [orb].
      2:{ exists (-1), cd. split; [reflexivity|lia]. }
      rewrite Nat2Z.id. pose proof (occurs_first_bound Hocc) as Hb.
      assert (Hf : length (firstn i name) = i)
        by (rewrite length_firstn; lia).
      rewrite buf_write_some by lia.
      eexists 0, _. split; [reflexivity|]. intros _.
      cbn [cd_cluster firstn app Nat.add]. rewrite Hf.
      split; [|split].
      * rewrite length_app, length_skipn. lia.
      * rewrite nth_error_app2 by lia. rewrite nth_error_skipn, Hf.
        now replace (i + (D - 1 - i))%nat with (D - 1)%nat by lia.
      * exists dir, name, i. repeat split; try assumption.
        rewrite Ea; discriminate.
Qed.

(** The loop over the options of a [Daemon] block stays inside the arrays;
    when it runs to its end the path it leaves is empty or a socket
    path. *)
Lemma daemon_options_total (D U : nat) (children : list oconfig_item_t) :
  (U <= D + 6)%nat ->
  forall cd,
    length (cd_cluster cd) = D ->
    length (cd_asok_path cd) = U ->
    (strlen (cd_asok_path cd) < U)%nat ->
    nth_error (cd_cluster cd) (D - 1) = Some NUL ->
    c_str (cd_asok_path cd) = [] \/ socket_path_ok (c_str (cd_asok_path cd)) ->
    exists ret cd',
      daemon_options_from U children cd = Some (ret, cd')
      /\ (ret = 0 ->
          cd_name cd' = cd_name cd
          /\ length (cd_cluster cd') = D
          /\ length (cd_asok_path cd') = U
          /\ (strlen (cd_asok_path cd') < U)%nat
          /\ nth_error (cd_cluster cd') (D - 1) = Some NUL
          /\ (c_str (cd_asok_path cd') = []
              \/ socket_path_ok (c_str (cd_asok_path cd')))).
Proof.
  intros HU. induction children as [|child rest IH];
    intros cd Hc Hp Hs Hz Hok; cbn [daemon_options_from].
  - exists 0, cd. split; [reflexivity|]. intros _. repeat split; assumption.
  - destruct (strcaseeq (lit "SocketPath") (item_key child));
      [|now apply IH].
    destruct (@cc_handle_str_cases child (cd_asok_path cd) U ltac:(lia))
      as [(val & Ev & Hlen & ->)|(ret & dest' & -> & Hr & _)].
    2:{ destruct (Z.eqb_spec ret 0); [contradiction|]. cbn [negb].
        eexists _, _. split; [reflexivity|]. intros; contradiction. }
    cbn [Z.eqb negb].
    set (path1 := val ++ NUL :: skipn (S (length val)) (cd_asok_path cd)).
    assert (Hlen1 : length path1 = U).
    { unfold path1. rewrite length_app. cbn [length].
      rewrite length_skipn. lia. }
    assert (Hs1 : (strlen path1 < U)%nat).
    { pose proof (strlen_terminated val
                    (skipn (S (length val)) (cd_asok_path cd))).
      fold path1 in H. lia. }
    set (cd1 := {| cd_name := cd_name cd; cd_cluster := cd_cluster cd;
                   cd_asok_path := path1 |}).
    destruct (@parse_cluster_name_total D U cd1 HU Hc Hs1 Hz)
      as (ret & cd2 & Ep & Hok2).
    rewrite Ep. destruct (Z.eqb_spec ret 0) as [->|Hr]; cbn [negb].
    2:{ eexists _, _. split; [reflexivity|]. intros; contradiction. }
    destruct (Hok2 eq_refl) as (Hc2 & Hz2 & Hpath2).
    apply parse_cluster_name_frame in Ep as [En2 Ep2].
    cbn [cd1 cd_name cd_asok_path] in En2, Ep2, Hpath2.
    destruct (IH cd2) as (ret & cd' & E & Hcd'); try assumption;
      try (rewrite Ep2; assumption).
    { right. rewrite Ep2. assumption. }
    exists ret, cd'. split; [exact E|]. intros Hret.
    destruct (Hcd' Hret) as (Hn' & Hrest). split; [congruence|exact Hrest].
Qed.

Lemma c_str_head2 (buf : list ascii) (a b : ascii) :
  nth_error buf 0 = Some a -> nth_error buf 1 = Some b ->
  a <> NUL -> b <> NUL ->
  exists rest, c_str buf = a :: b :: rest.
Proof.
  destruct buf as [|x [|y buf]]; try discriminate. cbn [nth_error].
  intros Ha Hb Hna Hnb; inversion Ha; inversion Hb; subst x y.
  cbn [c_str].
  destruct (Ascii.eqb_spec a NUL); [contradiction|].
  destruct (Ascii.eqb_spec b NUL); [contradiction|]. now eexists.
Qed.

(** [cc_add_daemon_config] stays inside the arrays, and registers nothing
    or one daemon whose arrays are as [configured] says. *)
Lemma add_daemon_total (D U : nat) (realloc_ok malloc_ok : bool)
    (daemons : list daemon_arrays) (ci : oconfig_item_t) :
  (1 <= U <= D + 6)%nat ->
  exists ret daemons',
    cc_add_daemon_config D U realloc_ok malloc_ok daemons ci
    = Some (ret, daemons')
    /\ (daemons' = daemons
        \/ exists cd, daemons' = daemons ++ [cd] /\ configured D U cd).
Proof.
  intros HU. unfold cc_add_daemon_config.
  destruct (item_values ci) as [|[name| |] [|]] eqn:Ev;
    try (eexists _, _; split; [reflexivity|left; reflexivity]).
  destruct (@cc_handle_str_cases ci (zeroed D) D
              ltac:(rewrite zeroed_length; lia))
    as [(val & Ev' & Hlen & ->)|(ret & dest' & -> & Hr & _)].
  2:{ destruct (Z.eqb_spec ret 0); [contradiction|]. cbn [negb].
      eexists _, _. split; [reflexivity|left; reflexivity]. }
  cbn [Z.eqb negb].
  set (name1 := val ++ NUL :: skipn (S (length val)) (zeroed D)).
  assert (Hn1 : length name1 = D).
  { unfold name1. rewrite length_app. cbn [length].
    rewrite length_skipn, zeroed_length. lia. }
  assert (Hs1 : (strlen name1 < D)%nat).
  { pose proof (strlen_terminated val (skipn (S (length val)) (zeroed D))).
    fold name1 in H. lia. }
  destruct (@daemon_options_total D U (item_children ci) ltac:(lia)
              {| cd_name := name1; cd_cluster := zeroed D;
                 cd_asok_path := zeroed U |})
    as (ret & cd & Eo & Hok); cbn [cd_cluster cd_asok_path].
  { apply zeroed_length. }
  { apply zeroed_length. }
  { unfold strlen. rewrite c_str_zeroed. cbn [length]. lia. }
  { apply nth_error_zeroed. lia. }
  { left. apply c_str_zeroed. }
  rewrite Eo. destruct (Z.eqb_spec ret 0) as [->|Hr]; cbn [negb].
  2:{ eexists _, _. split; [reflexivity|left; reflexivity]. }
  destruct (Hok eq_refl) as (En & Hc & Hp & Hs & Hz & Hpath).
  cbn [cd_name] in En.
  assert (Hreg :
    exists ret daemons',
      (if negb realloc_ok then Some (Errno.ENOMEM, daemons)
       else if negb malloc_ok then Some (Errno.ENOMEM, daemons)
       else Some (0, daemons ++ [cd])) = Some (ret, daemons')
      /\ (daemons' = daemons
          \/ exists cd0, daemons' = daemons ++ [cd0]
                         /\ (configured D U cd -> configured D U cd0))).
  { destruct realloc_ok, malloc_ok; cbn [negb];
      eexists _, _; (split; [reflexivity|]); try (left; reflexivity).
    right. exists cd. split; [reflexivity|auto]. }
  destruct (nth_error (cd_name cd) 0) as [name0|] eqn:E0.
  2:{ apply nth_error_None in E0. rewrite En in E0. lia. }
  destruct (Ascii.eqb_spec name0 NUL) as [|Hn0];
    [eexists _, _; split; [reflexivity|left; reflexivity]|].
  destruct (c_str_head _ E0 Hn0) as (nrest & Ename).
  destruct (nth_error (cd_asok_path cd) 0) as [path0|] eqn:P0.
  2:{ apply nth_error_None in P0. lia. }
  destruct (Ascii.eqb_spec path0 NUL) as [|Hp0];
    [eexists _, _; split; [reflexivity|left; reflexivity]|].
  destruct (c_str_head _ P0 Hp0) as (prest & Epath).
  destruct Hpath as [Hpath|Hpath]; [congruence|].
  assert (Hconf :
    starts_with (c_str (cd_asok_path cd)) (lit "/") = true
    \/ starts_with (c_str (cd_asok_path cd)) (lit "./") = true ->
    configured D U cd).
  { intros Hstart. unfold configured.
    repeat split; try assumption.
    - now rewrite En.
    - unfold strlen. rewrite Ename. cbn [length]. lia.
    - now rewrite En.
    - pose proof (strlen_nul_at _ _ Hz). lia. }
  destruct (Ascii.eqb_spec path0 "/") as [->|Hslash].
  - destruct Hreg as (ret & daemons' & -> & Hd). exists ret, daemons'.
    split; [reflexivity|]. destruct Hd as [->|(cd0 & -> & Hcd0)];
      [left; reflexivity|right].
    exists cd0. split; [reflexivity|]. apply Hcd0, Hconf. left.
    rewrite Epath. reflexivity.
  - destruct (Ascii.eqb_spec path0 ".") as [->|Hdot];
      [|eexists _, _; split; [reflexivity|left; reflexivity]].
    destruct (nth_error (cd_asok_path cd) 1) as [path1|] eqn:P1.
    2:{ apply nth_error_None in P1. unfold strlen in Hs.
        rewrite Epath in Hs. cbn [length] in Hs. lia. }
    destruct (Ascii.eqb_spec path1 "/") as [->|Hns];
      [|eexists _, _; split; [reflexivity|left; reflexivity]].
    destruct Hreg as (ret & daemons' & -> & Hd). exists ret, daemons'.
    split; [reflexivity|]. destruct Hd as [->|(cd0 & -> & Hcd0)];
      [left; reflexivity|right].
    exists cd0. split; [reflexivity|]. apply Hcd0, Hconf. right.
    destruct (c_str_head2 _ P0 P1) as (r2 & ->); try discriminate.
    reflexivity.
Qed.

(** [ceph_config]: when a socket path is at most six bytes longer than a
    name ([UNIX_DOMAIN_SOCK_PATH_MAX <= DATA_MAX_NAME_LEN + 6]), the
    configuration reads and writes inside its arrays whatever the options
    are, and [g_daemons] only grows: the daemons it held stay, and every
    daemon added, also by a call that returns an error for a later option,
    has a name that is not empty, a socket path that begins with [/] or [./]
    and has a directory part and a file name in which a daemon type and
    [.asok] occur, and arrays that hold terminated strings. *)
Theorem config_registers_sound_daemons (D U : nat)
    (allocs : nat -> bool * bool) (ci : oconfig_item_t)
    (g : plugin_globals) :
  (1 <= U <= D + 6)%nat ->
  exists ret g',
    ceph_config D U allocs ci g = Some (ret, g')
    /\ exists more,
         g_daemons g' = g_daemons g ++ more
         /\ Forall (configured D U) more.
Proof.
  intros HU. unfold ceph_config.
  revert g; induction (item_children ci) as [|child rest IH]; intros g;
    cbn [ceph_config_from].
  - exists 0, g. split; [reflexivity|]. exists [].
    split; [now rewrite app_nil_r|constructor].
  - destruct (strcaseeq (lit "Daemon") (item_key child)).
    + destruct (@add_daemon_total D U
                  (fst (allocs (length (g_daemons g))))
                  (snd (allocs (length (g_daemons g))))
                  (g_daemons g) child HU)
        as (ret & daemons' & -> & Hd).
      assert (Hmore : exists more,
                 daemons' = g_daemons g ++ more
                 /\ Forall (configured D U) more).
      { destruct Hd as [->|(cd & -> & Hcd)].
        - exists []. split; [now rewrite app_nil_r|constructor].
        - exists [cd]. split; [reflexivity|].
          constructor; [exact Hcd|constructor]. }
      destruct Hmore as (more & -> & Hmore).
      destruct (negb (ret =? 0)).
      * eexists _, _. split; [reflexivity|]. exists more. now split.
      * match goal with
        | |- context [ceph_config_from D U allocs rest ?g1] =>
            destruct (IH g1) as (ret' & g' & -> & more' & Em & Hmore')
        end.
        cbn [g_daemons] in Em.
        exists ret', g'. split; [reflexivity|]. exists (more ++ more').
        split; [now rewrite Em, app_assoc|now apply Forall_app].
    + destruct (strcaseeq (lit "LongRunAvgLatency") (item_key child)).
      * destruct (cc_handle_bool child _) as [ret v].
        destruct (negb (ret =? 0)).
        -- eexists _, _. split; [reflexivity|]. exists [].
           split; [now rewrite app_nil_r|constructor].
        -- match goal with
           | |- context [ceph_config_from D U allocs rest ?g1] =>
               destruct (IH g1) as (ret' & g' & -> & more' & Em & Hmore')
           end.
           exists ret', g'. split; [reflexivity|]. now exists more'.
      * destruct (strcaseeq (lit "ConvertSpecialMetricTypes")
                    (item_key child)); [|apply IH].
        destruct (cc_handle_bool child _) as [ret v].
        destruct (negb (ret =? 0)).
        -- eexists _, _. split; [reflexivity|]. exists [].
           split; [now rewrite app_nil_r|constructor].
        -- match goal with
           | |- context [ceph_config_from D U allocs rest ?g1] =>
               destruct (IH g1) as (ret' & g' & -> & more' & Em & Hmore')
           end.
           exists ret', g'. split; [reflexivity|]. now exists more'.
Qed.

(** * Properties of the processing of the data *)

(** ** The plugin instance *)

Lemma strncat_after (P src : list ascii) (m n : nat) :
  Forall (fun c => c <> NUL) P ->
  (length (firstn n src) < m)%nat ->
  strncat (P ++ zeroed m) src n
  = Some ((P ++ firstn n src) ++ zeroed (m - length (firstn n src))).
Proof.
  intros HP Hm. unfold strncat. rewrite strlen_app_zeroed by assumption.
  change [NUL] with (zeroed 1). apply buf_write_after. lia.
Qed.

Lemma strncat_full (P src : list ascii) (m n : nat) :
  Forall (fun c => c <> NUL) P ->
  (m <= length (firstn n src))%nat ->
  strncat (P ++ zeroed m) src n = None.
Proof.
  intros HP Hm. unfold strncat, buf_write.
  rewrite strlen_app_zeroed by assumption.
  rewrite !length_app, zeroed_length. cbn [length].
  destruct (Nat.leb_spec (length P + (length (firstn n src) + 1))
              (length P + m)); [lia|reflexivity].
Qed.

(** [sstrncpy] of a name that fits into the array. *)
Lemma sstrncpy_into_fresh (D : nat) (name : cstring) :
  (length name < D)%nat ->
  match strncpy_into (zeroed D) name D with
  | Some copied => buf_write copied (D - 1) [NUL]
  | None => None
  end = Some (name ++ zeroed (D - length name)).
Proof.
  intros Hn. unfold strncpy_into. rewrite firstn_all2 by lia.
  rewrite buf_write_some
    by (rewrite length_app, !zeroed_length; lia).
  rewrite length_app, zeroed_length. cbn [firstn app Nat.add].
  replace (length name + (D - length name))%nat with D by lia.
  rewrite <- (zeroed_length D) at 2. rewrite skipn_all, app_nil_r.
  replace (D - length name)%nat with ((D - 1 - length name) + 1)%nat by lia.
  rewrite <- zeroed_app, app_assoc.
  set (P := name ++ zeroed (D - 1 - length name)).
  assert (HP : length P = (D - 1)%nat)
    by (unfold P; rewrite length_app, zeroed_length; lia).
  rewrite <- HP. rewrite buf_write_after0 by (cbn [length]; lia).
  cbn [length Nat.sub]. now rewrite app_nil_r.
Qed.

(** [cconn_process_data]: the plugin instance of a daemon is its name when
    name, hyphen and cluster do not fit into [DATA_MAX_NAME_LEN] bytes with
    their NUL; else it is name-cluster, and name-cluster.fsid when 38 bytes
    or more are left after the cluster.  But the test [chars_remaining >=
    strlen(cluster) + 1] counts no byte for the hyphen: when name, hyphen
    and cluster have exactly [DATA_MAX_NAME_LEN] characters, [strncat]
    writes its NUL one byte past the end of [tmp_plugin_instance]. *)
Theorem plugin_instance_overruns_when_full (D : nat) (d : ceph_daemon) :
  Forall (fun c => c <> NUL) (d_name d) ->
  Forall (fun c => c <> NUL) (d_cluster d) ->
  Forall (fun c => c <> NUL) (d_fsid d) ->
  (length (d_name d) < D)%nat ->
  (length (d_cluster d) < D)%nat ->
  (length (d_fsid d) < FSID_STRING_LEN)%nat ->
  Z.of_nat D < 2 ^ 64 ->
  let used := (length (d_name d) + 1 + length (d_cluster d))%nat in
  match tmp_plugin_instance D d with
  | Some tmp =>
      used <> D
      /\ length tmp = D
      /\ c_str tmp
         = if (used <? D)%nat then
             if (used + 38 <=? D)%nat
             then d_name d ++ lit "-" ++ d_cluster d ++ lit "." ++ d_fsid d
             else d_name d ++ lit "-" ++ d_cluster d
           else d_name d
  | None => used = D
  end.
Proof.
  intros Hn Hc Hf Ln Lc Lf HD used. unfold tmp_plugin_instance.
  unfold FSID_STRING_LEN in *.
  set (n := length (d_name d)) in *. set (c := length (d_cluster d)) in *.
  pose proof (@sstrncpy_into_fresh D (d_name d) Ln) as E0. fold n in E0.
  destruct (strncpy_into (zeroed D) (d_name d) D) as [copied|];
    [|discriminate].
  rewrite E0. unfold wrap64.
  rewrite (Z.mod_small (Z.of_nat D - Z.of_nat n)) by lia.
  rewrite (Z.mod_small (Z.of_nat c + 1)) by lia.
  destruct (Z.geb_spec (Z.of_nat D - Z.of_nat n) (Z.of_nat c + 1))
    as [Hfit|Hnofit].
  2:{ split; [unfold used; lia|]. split.
      - rewrite length_app, zeroed_length. lia.
      - rewrite c_str_app_zeroed by assumption.
        destruct (Nat.ltb_spec used D); [unfold used in *; lia|reflexivity]. }
  assert (Hdash : firstn (Z.to_nat (Z.of_nat D - Z.of_nat n)) (lit "-")
                  = lit "-").
  { apply firstn_all2. cbn [lit list_ascii_of_string length]. lia. }
  destruct (Nat.eq_dec (D - n) 1) as [One|More].
  { rewrite strncat_full by (try assumption; rewrite Hdash; cbn; lia).
    unfold used. lia. }
  rewrite strncat_after by (try assumption; rewrite Hdash; cbn; lia).
  rewrite Hdash. change (length (lit "-")) with 1%nat.
  rewrite (Z.mod_small (Z.of_nat D - Z.of_nat n - 1)) by lia.
  assert (Hnd : Forall (fun x => x <> NUL) (d_name d ++ lit "-")).
  { apply Forall_app. split; [assumption|]. repeat constructor.
    discriminate. }
  assert (Hcl : firstn (Z.to_nat (Z.of_nat D - Z.of_nat n - 1)) (d_cluster d)
                = d_cluster d) by (apply firstn_all2; fold c; lia).
  destruct (Nat.eq_dec used D) as [Full|NotFull].
  { rewrite strncat_full by (try assumption; rewrite Hcl; fold c;
                             unfold used in Full; lia).
    exact Full. }
  rewrite strncat_after by (try assumption; rewrite Hcl; fold c;
                            unfold used in NotFull; lia).
  rewrite Hcl. fold c.
  rewrite (Z.mod_small (Z.of_nat D - Z.of_nat n - 1 - Z.of_nat c)) by lia.
  assert (Hndc : Forall (fun x => x <> NUL)
                   ((d_name d ++ lit "-") ++ d_cluster d))
    by (apply Forall_app; split; assumption).
  destruct (Nat.ltb_spec used D) as [_|]; [|unfold used in *; lia].
  destruct (Z.geb_spec (Z.of_nat D - Z.of_nat n - 1 - Z.of_nat c)
              (Z.of_nat 37 + 1)) as [Hfs|Hnofs].
  - assert (Hdot : firstn (Z.to_nat (Z.of_nat D - Z.of_nat n - 1
                                     - Z.of_nat c)) (lit ".")
                   = lit ".").
    { apply firstn_all2. cbn [lit list_ascii_of_string length]. lia. }
    rewrite strncat_after by (try assumption; rewrite Hdot; cbn; lia).
    rewrite Hdot. change (length (lit ".")) with 1%nat.
    rewrite (Z.mod_small (Z.of_nat D - Z.of_nat n - 1 - Z.of_nat c - 1))
      by lia.
    assert (Hall : Forall (fun x => x <> NUL)
                     (((d_name d ++ lit "-") ++ d_cluster d)
                      ++ lit ".")).
    { apply Forall_app. split; [assumption|]. repeat constructor.
      discriminate. }
    assert (Hfsid : firstn (Z.to_nat (Z.of_nat D - Z.of_nat n - 1
                                      - Z.of_nat c - 1)) (d_fsid d)
                    = d_fsid d) by (apply firstn_all2; lia).
    rewrite strncat_after by (try assumption; rewrite Hfsid; lia).
    rewrite Hfsid. split; [exact NotFull|]. split.
    + rewrite !length_app, zeroed_length. fold n c.
      change (length (lit "-")) with 1%nat.
      change (length (lit ".")) with 1%nat. lia.
    + rewrite c_str_app_zeroed
        by (apply Forall_app; split; assumption).
      destruct (Nat.leb_spec (used + 38) D); [|unfold used in *; lia].
      rewrite <- !app_assoc. reflexivity.
  - split; [exact NotFull|]. split.
    + rewrite !length_app, zeroed_length. fold n c.
      change (length (lit "-")) with 1%nat.
      change (length (lit ".")) with 1%nat. lia.
    + rewrite c_str_app_zeroed by assumption.
      destruct (Nat.leb_spec (used + 38) D); [unfold used in *; lia|].
      rewrite <- !app_assoc. reflexivity.
Qed.

(** ** A latency pair, from the text to the dispatch *)

Lemma segment_length_le_join (ks : list cstring) (k : cstring) :
  In k ks -> (length k <= length (join_dots ks))%nat.
Proof.
  induction ks as [|s ks IH]; [contradiction|].
  destruct ks as [|s' ks].
  - intros [<-|[]]. cbn [join_dots]. lia.
  - change (join_dots (s :: s' :: ks))
      with (s ++ dot :: join_dots (s' :: ks)).
    rewrite length_app. cbn [length].
    intros [<-|Hin]; [lia|]. specialize (IH Hin). lia.
Qed.

Lemma holds_keys_prefix (H : Type) (y y' : yajl_struct H)
    (a b : list cstring) :
  holds_keys y (a ++ b) -> state y' = state y -> holds_keys y' a.
Proof.
  intros Hk Es j s E. rewrite Es. apply Hk.
  rewrite nth_error_app1; [exact E|].
  apply nth_error_Some. rewrite E. discriminate.
Qed.

(** The ends of the maps only lower the depth. *)
Lemma traverse_end_maps (D Y : nat) (conv : bool) (H : Type)
    (handler : H -> cstring -> cstring -> Z * H) (k : nat) :
  forall y : yajl_struct H,
  exists y',
    traverse_events D Y conv handler y (repeat ev_end_map k)
    = CbReturn CEPH_CB_CONTINUE y'
    /\ handler_arg y' = handler_arg y.
Proof.
  induction k as [|k IH]; intros y.
  - exists y. split; reflexivity.
  - destruct (IH (with_depth y (depth y - 1))) as (y' & E & Ha).
    exists y'. split; [exact E|exact Ha].
Qed.

(** The daemon a first registration leaves. *)
Lemma fresh_registration (D : nat) (conv : bool)
    (alloc_ok : nat -> realloc_answer)
    (d0 d : ceph_daemon) (name : cstring) (pc_type : Z) :
  d_dset d0 = [] ->
  ceph_daemon_add_ds_entry D conv alloc_ok d0 name pc_type = Some (0, d) ->
  exists dset_buf ds_buf src,
    parse_keys D name (zeroed D) (zeroed MAX_RRD_DS_NAME_LEN)
    = Some (0, dset_buf, ds_buf)
    /\ dsrc_name src = c_str ds_buf
    /\ d = set_dset d0
             [{| dset_type := c_str dset_buf; dset_ds := [src] |}]
             (d_pc_types d0
              ++ [[effective_pc_type conv (c_str dset_buf) (c_str ds_buf)
                     pc_type]]).
Proof.
  intros Hfresh Hadd. apply add_ds_entry_served in Hadd. revert Hadd.
  unfold ceph_daemon_add_ds_entry.
  destruct (D <? strlen name + 1)%nat; [discriminate|].
  destruct (parse_keys D name (zeroed D) (zeroed MAX_RRD_DS_NAME_LEN))
    as [[[ret dset_buf] ds_buf]|] eqn:Ep; [|discriminate].
  destruct (Z.eqb_spec ret 0) as [->|]; cbn [negb]; [|discriminate].
  cbv zeta. cbn [realloc_failed realloc_moved orb].
  unfold get_matching_dset. rewrite Hfresh. cbn [matching_dset_from app].
  change (-1 =? -1) with true. cbv iota.
  destruct (parse_keys_names_fit D name Ep) as [Fd Fs].
  intros E; inversion E; subst d. rewrite Fd.
  eexists dset_buf, ds_buf, _. split; [reflexivity|]. split; [|reflexivity].
  unfold new_data_source. cbn [dsrc_name]. exact Fs.
Qed.

(** [node_handler_fetch_data] on the only counter of a daemon, a latency
    counter. *)
Lemma fetch_single_latency (D : nat) (long : bool)
    (sscanf : cstring -> scanned) (alloc_ok : bool) (tbl : last_poll_data_t)
    (d0 : ceph_daemon) (dset_buf ds_buf : list ascii) (src : data_source_s)
    (t : Z) (v : value_t) (a : Z) (val key : cstring) :
  parse_keys D key (zeroed D) (zeroed MAX_RRD_DS_NAME_LEN)
  = Some (0, dset_buf, ds_buf) ->
  classify t = KindLatency ->
  dsrc_name src = c_str ds_buf ->
  let d := set_dset d0
             [{| dset_type := c_str dset_buf; dset_ds := [src] |}] [[t]] in
  node_handler_fetch_data D long sscanf alloc_ok tbl
    {| vt_d := d; vt_values := [[v]]; vt_avgcount := a |} val key
  = let '(ret, a', gauge, tbl') :=
      fetch_latency D long alloc_ok tbl (c_str dset_buf) (c_str ds_buf) a
        (sscanf val) in
    Some (match gauge with Some _ => 0 | None => ret end,
          {| vt_d := d;
             vt_values :=
               [[match gauge with Some g => V_gauge g | None => v end]];
             vt_avgcount := a' |},
          tbl').
Proof.
  intros Ep Hc Hs d. unfold node_handler_fetch_data. rewrite Ep.
  change (negb (0 =? 0)) with false. cbv iota zeta.
  cbn [vt_d vt_values vt_avgcount].
  unfold get_matching_dset, d.
  cbn [set_dset d_dset matching_dset_from dset_type].
  rewrite streq_refl. change (0 =? -1) with false. cbv iota.
  change (Z.to_nat 0) with 0%nat. cbn [nth_error].
  unfold get_matching_value.
  cbn [dset_ds length matching_value_from]. rewrite Hs, streq_refl.
  change (0 =? -1) with false. cbv iota.
  unfold pc_type_at, set_value. change (Z.to_nat 0) with 0%nat.
  cbn [set_dset d_pc_types nth_error length list_upd].
  change (0 <? 1)%nat with true. cbv iota. rewrite Hc.
  destruct (fetch_latency D long alloc_ok tbl (c_str dset_buf)
              (c_str ds_buf) a (sscanf val)) as [[[ret a'] [g|]] tbl'];
    reflexivity.
Qed.

Lemma traverse_events_cons (D Y : nat) (conv : bool) (H : Type)
    (handler : H -> cstring -> cstring -> Z * H) (y : yajl_struct H)
    (ev : yajl_event) (rest : list yajl_event) :
  traverse_events D Y conv handler y (ev :: rest)
  = match callback D Y conv handler y ev with
    | CbUndefined _ u => CbUndefined _ u
    | CbReturn ret y' =>
        if ret =? CEPH_CB_CONTINUE
        then traverse_events D Y conv handler y' rest
        else CbReturn ret y'
    end.
Proof. reflexivity. Qed.

(** [cconn_process_data] with [ceph_cb_number] and
    [node_handler_fetch_data], for a daemon whose schema holds one
    counter, registered under the path [first. ... .l.type] and stored as
    a latency counter (bit 0x4 of the stored type bits), where [l] does
    not begin with type and, when special metrics are converted, is not
    journal_wr_bytes.  The text of the data that holds [avgcount] and
    [sum] under the path [first. ... .l], with an [avgcount] that is not
    read as 2^64 - 1, makes one value list, of the type [first], with one
    gauge.  The gauge is [sum / avgcount] when [long_run_latency_avg] is
    set, and what [get_last_avg] returns for the counter otherwise; when
    that is the value -ENOMEM stands for, the traversal is cancelled,
    nothing is dispatched and 1 is returned.  Otherwise the value
    returned is the answer of [plugin_dispatch_values].  (The keys have
    no dot and no NUL; the path of the schema is shorter than
    [DATA_MAX_NAME_LEN], which is more than 8; the path of the data with
    a leaf fits [key[128]] and the key stack; the [calloc] calls are
    served, and the plugin instance fits its array.) *)
Theorem latency_pair_is_dispatched_as_one_gauge
    (D Y : nat) (conv long : bool) (hostname_g : cstring)
    (sscanf : cstring -> scanned) (values_ok allocs : nat -> bool)
    (dispatch : nat -> value_list_t -> Z) (realloc : nat -> realloc_answer)
    (d0 d : ceph_daemon) (first : cstring) (front : list cstring)
    (l : cstring) (pc_type : Z) (st : list key_state)
    (tbl : last_poll_data_t) (n s : list ascii) (k : nat)
    (tmp : list ascii) :
  forallb is_segment (first :: front ++ [l]) = true ->
  (length (join_dots (first :: (front ++ [l]) ++ [lit "type"])) < D)%nat ->
  strneq l (lit "type") 4 = false ->
  (8 < D)%nat ->
  (length (first :: front ++ [l]) + 1 < Y)%nat ->
  (length (join_dots (first :: front ++ [l])) + 9 < 128)%nat ->
  conv = false \/ streq l (lit "journal_wr_bytes") = false ->
  d_dset d0 = [] -> d_pc_types d0 = [] ->
  ceph_daemon_add_ds_entry D conv realloc d0
    (join_dots (first :: (front ++ [l]) ++ [lit "type"])) pc_type
  = Some (0, d) ->
  counter_kind d 0 0 = Some KindLatency ->
  length st = Y ->
  values_ok 0%nat = true ->
  wrap64 (scan_u64 (sscanf (c_str n))) <> avgcount_unset ->
  tmp_plugin_instance D d = Some tmp ->
  exists src,
    d_dset d = [{| dset_type := first; dset_ds := [src] |}]
    /\ let avgcount :=
         guarded_avgcount (wrap64 (scan_u64 (sscanf (c_str n)))) in
       let sum := scan_double (sscanf (c_str s)) in
       let avg :=
         if long then ((sum / double_of_uint64 avgcount)%float, tbl)
         else get_last_avg D (allocs (length tbl)) tbl first (dsrc_name src)
                sum avgcount in
       let vl :=
         {| vl_values := [V_gauge (fst avg)];
            vl_host := sstrncpy hostname_g D;
            vl_plugin := sstrncpy (lit "ceph") D;
            vl_plugin_instance := sstrncpy (c_str tmp) D;
            vl_type := sstrncpy first D |} in
       cconn_process_data D Y conv long hostname_g sscanf true values_ok
         allocs dispatch d st 0 tbl
         (key_events (first :: front ++ [l])
          ++ [ev_start_map; ev_map_key (lit "avgcount"); ev_number n;
              ev_map_key (lit "sum"); ev_number s]
          ++ repeat ev_end_map k)
         false
       = if negb long
            && PrimFloat.eqb (fst avg) (double_of_int (- ENOMEM))
         then Some (1, [], snd avg)
         else Some (dispatch 0%nat vl, [vl], snd avg).
Proof.
  intros Hseg Hlen Ht HD HY H128 Hconv Hfresh Hfresh' Hadd Hlat Hst Hval
    Hcount Htmp.
  set (ks := first :: front ++ [l]) in *.
  destruct (@fresh_registration D conv realloc d0 d _ pc_type Hfresh Hadd)
    as (dset_buf & ds_buf & src & Ep & Hsrc & Ed).
  rewrite Hfresh' in Ed. cbn [app] in Ed.
  set (eff := effective_pc_type conv (c_str dset_buf) (c_str ds_buf) pc_type)
    in *.
  clearbody eff.
  assert (Hseg' : forallb is_segment (first :: (front ++ [l]) ++ [lit "type"])
                  = true).
  { change (first :: (front ++ [l]) ++ [lit "type"])
      with (ks ++ [lit "type"]).
    rewrite forallb_app, Hseg. reflexivity. }
  assert (Edset : c_str dset_buf = first).
  { pose proof (@join_dots_segments_no_nul _ _ Hseg') as Ec.
    destruct (@parse_keys_zeroed_form D
                (join_dots (first :: (front ++ [l]) ++ [lit "type"])))
      as (ds_buf' & Ep' & _ & _ & _ & Hnul & _).
    { rewrite Ec. apply join_dots_two_nonempty. }
    cbv zeta in Ep', Hnul.
    rewrite Ec, (@split_key_by_prefix D first (front ++ [l]) (lit "type")
                   Hseg' Hlen) in Ep', Hnul.
    cbn [fst] in Ep', Hnul. rewrite Ep in Ep'.
    inversion Ep' as [[Ea Eb]]. now apply c_str_app_zeroed. }
  assert (Hclass : classify eff = KindLatency).
  { rewrite Ed in Hlat. unfold counter_kind, pc_type_at in Hlat.
    cbn [set_dset d_pc_types nth_error option_map] in Hlat.
    now inversion Hlat. }
  pose proof (@parse_keys_schema_data D first front l Hseg Hlen Ht) as Ekey.
  rewrite Ep in Ekey. fold ks in Ekey.
  exists src. split; [rewrite Ed; cbn [set_dset d_dset]; now rewrite Edset|].
  cbv zeta. subst d. rewrite <- Edset, Hsrc.
  set (d := set_dset d0 [{| dset_type := c_str dset_buf; dset_ds := [src] |}]
              [[eff]]) in *.
  unfold cconn_process_data. cbn [negb].
  replace (calloc_values values_ok 0 (d_dset d)) with [[V_cleared]]
    by (unfold d; cbn [set_dset d_dset calloc_values]; now rewrite Hval).
  unfold traverse_json.
  set (handler := fetch_handler D long sscanf allocs).
  set (a0 := wrap64 (scan_u64 (sscanf (c_str n)))) in *.
  assert (Hnuls : Forall (fun x => Forall (fun c => c <> NUL) x) ks).
  { apply Forall_forall. intros x Hx. apply is_segment_no_nul.
    exact (proj1 (forallb_forall _ _) Hseg x Hx). }
  assert (Hfits : Forall (fits_key D) ks).
  { apply Forall_forall. intros x Hx. split.
    - exact (proj1 (Forall_forall _ _) Hnuls x Hx).
    - pose proof (segment_length_le_join ks x Hx).
      pose proof (join_dots_prefix_length ks [lit "type"]).
      change (ks ++ [lit "type"])
        with (first :: (front ++ [l]) ++ [lit "type"]) in *.
      lia. }
  assert (Hleaf : forall leaf,
             leaf = lit "avgcount" \/ leaf = lit "sum" ->
             Forall (fits_key D) [leaf]
             /\ Forall (fun x => Forall (fun c => c <> NUL) x) (ks ++ [leaf])
             /\ (length (join_dots (ks ++ [leaf])) < 128)%nat
             /\ latency_key leaf = true).
  { intros leaf Hl.
    assert (Hn : Forall (fun c => c <> NUL) leaf)
      by (destruct Hl as [->| ->]; repeat constructor; discriminate).
    assert (Hlen' : (length leaf <= 8)%nat)
      by (destruct Hl as [->| ->]; cbn; lia).
    repeat split.
    - constructor; [split; [exact Hn|lia]|constructor].
    - apply Forall_app. split; [exact Hnuls|]. now constructor.
    - rewrite join_dots_snoc by discriminate. rewrite length_app.
      cbn [length]. lia.
    - destruct Hl as [->| ->]; reflexivity. }
  assert (Hjournal :
    conv = false \/ streq (last (first :: front ++ [l]) []) (lit "journal_wr_bytes")
                    = false).
  { destruct Hconv as [->|Hj]; [now left|right].
    change (first :: front ++ [l]) with ((first :: front) ++ [l]).
    now rewrite last_last. }
  (* the keys of the path *)
  set (vtmp0 := {| vt_d := d; vt_values := [[V_cleared]];
                   vt_avgcount := avgcount_unset |}).
  set (y0 := {| handler_arg := Some (vtmp0, tbl); state := st; depth := 0 |}).
  destruct (@traverse_key_events D Y conv _ handler ks Hfits y0 []
              eq_refl ltac:(intros [|j] x E; discriminate) Hst
              ltac:(cbn [length Nat.add]; lia))
    as (y1 & E1 & Hd1 & Hk1 & Hs1 & Ha1).
  cbn [length Nat.add app] in Hd1, Hk1.
  rewrite (@traverse_events_app D Y conv _ handler _ _ y0 y1 E1).
  (* the key avgcount and its number *)
  destruct (Hleaf (lit "avgcount") ltac:(now left)) as (Fa & Na & La & Ka).
  destruct (@traverse_key_events D Y conv _ handler [lit "avgcount"] Fa y1 ks
              Hd1 Hk1 Hs1 ltac:(cbn [length]; lia))
    as (y2 & E2 & Hd2 & Hk2 & Hs2 & Ha2).
  change ([ev_start_map; ev_map_key (lit "avgcount"); ev_number n;
           ev_map_key (lit "sum"); ev_number s] ++ repeat ev_end_map k)
    with (key_events [lit "avgcount"]
          ++ ev_number n :: ev_map_key (lit "sum") :: ev_number s
             :: repeat ev_end_map k).
  rewrite (@traverse_events_app D Y conv _ handler _ _ y1 y2 E2).
  rewrite traverse_events_cons. cbn [callback].
  assert (Hd2' : depth y2 = Z.of_nat (length (first :: (front ++ [l])
                                           ++ [lit "avgcount"]))).
  { rewrite Hd2. change (first :: (front ++ [l]) ++ [lit "avgcount"])
      with (ks ++ [lit "avgcount"]). now rewrite length_app. }
  pose proof (@ceph_cb_number_latency Y conv _ handler y2 first (front ++ [l])
                (lit "avgcount") n Hk2 Na Hd2'
                ltac:(change (first :: (front ++ [l]) ++ [lit "avgcount"])
                        with (ks ++ [lit "avgcount"]);
                      rewrite length_app; cbn [length]; lia)
                La Ka Hjournal) as N1.
  cbv zeta in N1. fold ks in N1.
  set (vtmp1 := {| vt_d := d; vt_values := [[V_cleared]];
                   vt_avgcount := a0 |}).
  assert (Call1 : handler (handler_arg y2) (c_str n) (join_dots ks)
                  = (0, Some (vtmp1, tbl))).
  { rewrite Ha2, Ha1. cbn [handler_arg y0]. unfold handler, fetch_handler.
    unfold vtmp0, d.
    rewrite (@fetch_single_latency D long sscanf (allocs (length tbl)) tbl
               d0 _ _ src eff V_cleared avgcount_unset (c_str n) _
               Ekey Hclass Hsrc).
    unfold fetch_latency. rewrite Z.eqb_refl. reflexivity. }
  rewrite Call1 in N1. cbn [fst snd] in N1.
  change (0 =? RETRY_AVGCOUNT) with false in N1. cbv iota in N1.
  cbn [fst snd] in N1. rewrite N1.
  change (number_ret 0 =? CEPH_CB_CONTINUE) with true. cbv iota.
  change (number_depth 0 (depth y2)) with (depth y2 - 1).
  match goal with
  | |- context [traverse_events D Y conv handler ?y (ev_map_key _ :: _)] =>
      set (y3 := y)
  end.
  (* the key sum and its number *)
  destruct (Hleaf (lit "sum") ltac:(now right)) as (Fs & Ns & Ls & Ks).
  destruct (@traverse_key_events D Y conv _ handler [lit "sum"] Fs y3 ks
              ltac:(cbn [y3 depth]; rewrite Hd2; cbn [length]; lia)
              (@holds_keys_prefix _ y2 y3 ks [lit "avgcount"] Hk2 eq_refl)
              Hs2 ltac:(cbn [length]; lia))
    as (y4 & E4 & Hd4 & Hk4 & Hs4 & Ha4).
  change (traverse_events D Y conv handler y3
            (ev_map_key (lit "sum") :: ev_number s :: repeat ev_end_map k))
    with (traverse_events D Y conv handler y3
            (key_events [lit "sum"]
             ++ ev_number s :: repeat ev_end_map k)).
  rewrite (@traverse_events_app D Y conv _ handler _ _ y3 y4 E4).
  rewrite traverse_events_cons. cbn [callback].
  assert (Hd4' : depth y4 = Z.of_nat (length (first :: (front ++ [l])
                                           ++ [lit "sum"]))).
  { rewrite Hd4. change (first :: (front ++ [l]) ++ [lit "sum"])
      with (ks ++ [lit "sum"]). now rewrite length_app. }
  pose proof (@ceph_cb_number_latency Y conv _ handler y4 first (front ++ [l])
                (lit "sum") s Hk4 Ns Hd4'
                ltac:(change (first :: (front ++ [l]) ++ [lit "sum"])
                        with (ks ++ [lit "sum"]);
                      rewrite length_app; cbn [length]; lia)
                Ls Ks Hjournal) as N2.
  cbv zeta in N2. fold ks in N2.
  assert (Call2 : handler (handler_arg y4) (c_str s) (join_dots ks)
                  = let '(ret, a', gauge, tbl') :=
                      fetch_latency D long (allocs (length tbl)) tbl
                        (c_str dset_buf) (c_str ds_buf) a0
                        (sscanf (c_str s)) in
                    (match gauge with Some _ => 0 | None => ret end,
                     Some ({| vt_d := d;
                              vt_values :=
                                [[match gauge with
                                  | Some g => V_gauge g
                                  | None => V_cleared
                                  end]];
                              vt_avgcount := a' |}, tbl'))).
  { rewrite Ha4. cbn [handler_arg y3]. unfold handler, fetch_handler.
    unfold vtmp1, d.
    rewrite (@fetch_single_latency D long sscanf (allocs (length tbl)) tbl
               d0 _ _ src eff V_cleared a0 (c_str s) _
               Ekey Hclass Hsrc).
    destruct (fetch_latency D long (allocs (length tbl)) tbl
                (c_str dset_buf) (c_str ds_buf) a0 (sscanf (c_str s)))
      as [[[ret a'] gauge] tbl']. reflexivity. }
  pose proof (traverse_end_maps D Y conv handler k) as Hend.
  match goal with
  | |- ?lhs = _ =>
      assert (Finish0 : forall g tbl2,
                 handler (handler_arg y4) (c_str s) (join_dots ks)
                 = (0, Some ({| vt_d := d; vt_values := [[V_gauge g]];
                                vt_avgcount := avgcount_unset |}, tbl2)) ->
                 let vl :=
                   {| vl_values := [V_gauge g];
                      vl_host := sstrncpy hostname_g D;
                      vl_plugin := sstrncpy (lit "ceph") D;
                      vl_plugin_instance := sstrncpy (c_str tmp) D;
                      vl_type := sstrncpy (c_str dset_buf) D |} in
                 lhs = Some (dispatch 0%nat vl, [vl], tbl2));
      [|assert (FinishE : forall vtmp2 tbl2,
                   handler (handler_arg y4) (c_str s) (join_dots ks)
                   = (- ENOMEM, Some (vtmp2, tbl2)) ->
                   lhs = Some (1, [], tbl2))]
  end.
  { intros g tbl2 Call vl. rewrite Call in N2. cbn [fst snd] in N2.
    change (0 =? RETRY_AVGCOUNT) with false in N2. cbv iota in N2.
    cbn [fst snd] in N2. rewrite N2.
    change (number_ret 0 =? CEPH_CB_CONTINUE) with true. cbv iota.
    match goal with
    | |- context [traverse_events D Y conv handler ?y (repeat _ _)] =>
        destruct (Hend y) as (y6 & -> & Ha6)
    end.
    change (CEPH_CB_CONTINUE =? CEPH_CB_CONTINUE) with true. cbv iota.
    rewrite Ha6. cbn [handler_arg vt_values].
    change (negb (0 =? 0)) with false. cbv iota.
    unfold d at 2. cbn [set_dset d_dset dispatch_from].
    rewrite Htmp. cbn [nth_error dset_ds length dset_type].
    change (1 =? 1)%nat with true. cbv iota zeta. fold vl.
    destruct (Z.eqb_spec (dispatch 0%nat vl) 0) as [->|_]; reflexivity. }
  { intros vtmp2 tbl2 Call. rewrite Call in N2. cbn [fst snd] in N2.
    change (- ENOMEM =? RETRY_AVGCOUNT) with false in N2. cbv iota in N2.
    cbn [fst snd] in N2. rewrite N2.
    change (number_ret (- ENOMEM) =? CEPH_CB_CONTINUE) with false.
    cbv iota.
    change (number_ret (- ENOMEM) =? CEPH_CB_CONTINUE) with false.
    cbv iota. cbn [handler_arg]. reflexivity. }
  unfold fetch_latency in Call2.
  destruct (Z.eqb_spec a0 avgcount_unset) as [|_]; [contradiction|].
  cbv zeta in Call2. destruct long; cbn [negb andb fst snd].
  - exact (Finish0 _ _ Call2).
  - destruct (get_last_avg D (allocs (length tbl)) tbl (c_str dset_buf)
                (c_str ds_buf) (scan_double (sscanf (c_str s)))
                (guarded_avgcount a0)) as [result tbl2].
    cbn [fst snd].
    destruct (PrimFloat.eqb result (double_of_int (- ENOMEM))).
    + exact (FinishE _ _ Call2).
    + exact (Finish0 _ _ Call2).
Qed.

Lemma latency_pair_is_dispatched_as_one_gauge_witness :
  let sscanf := fun _ : cstring => {| scan_u64 := 7; scan_double := 42 |} in
  let d0 := new_daemon (lit "osd.0") (lit "/var/run/ceph/ceph-osd.0.asok")
              (lit "ceph") in
  let d := set_dset d0
             [{| dset_type := lit "filestore";
                 dset_ds := [new_data_source (lit "JournalLatency") 5] |}]
             [[5]] in
  exists src,
    d_dset d = [{| dset_type := lit "filestore"; dset_ds := [src] |}]
    /\ let avg :=
         get_last_avg 64 true [] (lit "filestore") (dsrc_name src) 42
           (guarded_avgcount (wrap64 7)) in
       let vl :=
         {| vl_values := [V_gauge (fst avg)];
            vl_host := sstrncpy (lit "node1") 64;
            vl_plugin := sstrncpy (lit "ceph") 64;
            vl_plugin_instance :=
              sstrncpy (c_str (lit "osd.0-ceph." ++ zeroed 53)) 64;
            vl_type := sstrncpy (lit "filestore") 64 |} in
       cconn_process_data 64 16 true false (lit "node1") sscanf true
         (fun _ => true) (fun _ => true) (fun _ _ => 0) d
         (repeat {| key := []; key_len := 0 |} 16) 0 []
         (key_events [lit "filestore"; lit "journal_latency"]
          ++ [ev_start_map; ev_map_key (lit "avgcount");
              ev_number (lit "7"); ev_map_key (lit "sum");
              ev_number (lit "42.0")]
          ++ repeat ev_end_map 3)
         false
       = if negb false
            && PrimFloat.eqb (fst avg) (double_of_int (- ENOMEM))
         then Some (1, [], snd avg)
         else Some (0, [vl], snd avg).
Proof.
  intros sscanf d0 d.
  apply (@latency_pair_is_dispatched_as_one_gauge 64 16 true false
           (lit "node1") sscanf (fun _ => true) (fun _ => true)
           (fun _ _ => 0) (fun _ => ReallocKept) d0 d (lit "filestore") []
           (lit "journal_latency") 5
           (repeat {| key := []; key_len := 0 |} 16) []
           (lit "7") (lit "42.0") 3 (lit "osd.0-ceph." ++ zeroed 53)).
  - reflexivity.
  - vm_compute; lia.
  - reflexivity.
  - lia.
  - vm_compute; lia.
  - vm_compute; lia.
  - right. reflexivity.
  - reflexivity.
  - reflexivity.
  - reflexivity.
  - reflexivity.
  - reflexivity.
  - reflexivity.
  - vm_compute; discriminate.
  - reflexivity.
Defined.

(** The daemon osd.0 of a cluster whose name has 58 characters: with the
    hyphen the 64 bytes of the array are full. *)
Lemma plugin_instance_overruns_when_full_witness :
  let d := new_daemon (lit "osd.0") (lit "/var/run/ceph/c-osd.0.asok")
             (repeat "c"%char 58) in
  match tmp_plugin_instance 64 d with
  | Some tmp =>
      (5 + 1 + 58)%nat <> 64%nat
      /\ length tmp = 64%nat
      /\ c_str tmp
         = if (5 + 1 + 58 <? 64)%nat then
             if (5 + 1 + 58 + 38 <=? 64)%nat
             then d_name d ++ lit "-" ++ d_cluster d ++ lit "." ++ d_fsid d
             else d_name d ++ lit "-" ++ d_cluster d
           else d_name d
  | None => (5 + 1 + 58)%nat = 64%nat
  end.
Proof.
  intros d.
  apply (@plugin_instance_overruns_when_full 64 d).
  - repeat constructor; discriminate.
  - apply Forall_forall. intros x Hx. apply repeat_spec in Hx. subst x.
    discriminate.
  - constructor.
  - vm_compute; lia.
  - vm_compute; lia.
  - vm_compute; lia.
  - vm_compute; reflexivity.
Defined.

(** A plugin block with two daemons, of which the second has a socket in
    the root directory, and an option the plugin does not know. *)
Lemma config_registers_sound_daemons_witness :
  let ci :=
    mk_oconfig_item (lit "Plugin") [OCONFIG_TYPE_STRING (lit "ceph")]
      [mk_oconfig_item (lit "LongRunAvgLatency") [OCONFIG_TYPE_BOOLEAN 1] [];
       mk_oconfig_item (lit "Daemon") [OCONFIG_TYPE_STRING (lit "osd.0")]
         [mk_oconfig_item (lit "SocketPath")
            [OCONFIG_TYPE_STRING (lit "/var/run/ceph/ceph-osd.0.asok")] []];
       mk_oconfig_item (lit "Interval") [OCONFIG_TYPE_NUMBER 10] [];
       mk_oconfig_item (lit "Daemon") [OCONFIG_TYPE_STRING (lit "mon.a")]
         [mk_oconfig_item (lit "SocketPath")
            [OCONFIG_TYPE_STRING (lit "/ceph-mon.a.asok")] []]] in
  exists ret g',
    ceph_config 128 108 (fun _ => (true, true)) ci globals_at_load
    = Some (ret, g')
    /\ exists more,
         g_daemons g' = g_daemons globals_at_load ++ more
         /\ Forall (configured 128 108) more.
Proof.
  intros ci.
  apply (@config_registers_sound_daemons 128 108 (fun _ => (true, true)) ci
           globals_at_load).
  lia.
Defined.

(** [cc_parse_cluster_name]: a socket path is refused with -1, and [cd] left
    as it was, when the first of osd, mon and mds that occurs in the file
    name stands at its very start, as in [/var/run/ceph/osd.0.asok]: the
    offset of the type less 1 is then the -1 that stands for [no type].  It
    is refused as well when none of the three occurs in the file name, or
    when [.asok] does not. *)
Theorem file_name_that_begins_with_its_type_is_refused (U : nat)
    (cd : daemon_arrays) (dir name : cstring) :
  c_str (cd_asok_path cd) = dir ++ "/"%char :: name ->
  dir <> [] -> no_slash name -> (length name < U)%nat ->
  occurs_first ceph_daemon_types name 0
  \/ Forall (fun t => strstr name t = None) ceph_daemon_types
  \/ strstr name (lit ".asok") = None ->
  cc_parse_cluster_name U cd = Some (-1, cd).
Proof.
  intros E Hd Hn HU Hcase.
  rewrite (parse_cluster_name_inner U cd E Hd Hn).
  destruct (Nat.leb_spec U (length name)) as [|_]; [lia|]. cbv zeta.
  destruct Hcase as [Hzero|[Hnone| ->]].
  - now rewrite (daemon_type_index_found Hzero).
  - assert (Ei : daemon_type_index_from ceph_daemon_types name = -1).
    { induction Hnone as [|t types Ht _ IH]; [reflexivity|].
      cbn [daemon_type_index_from]. now rewrite Ht. }
    now rewrite Ei.
  - now rewrite orb_true_r.
Qed.

Lemma file_name_that_begins_with_its_type_is_refused_witness :
  let cd := {| cd_name := lit "osd.0" ++ zeroed 59;
               cd_cluster := zeroed 64;
               cd_asok_path :=
                 lit "/var/run/ceph/osd.0.asok" ++ zeroed 84 |} in
  cc_parse_cluster_name 108 cd = Some (-1, cd).
Proof.
  intros cd.
  apply (@file_name_that_begins_with_its_type_is_refused 108 cd
           (lit "/var/run/ceph") (lit "osd.0.asok")).
  - reflexivity.
  - discriminate.
  - repeat constructor; discriminate.
  - vm_compute; lia.
  - left. exists [], (lit "osd"), [lit "mon"; lit "mds"].
    repeat split. constructor.
Defined.
